(** * Priority-inheritance holder bookkeeping: sched/semaphore/sem_holder.c

    A shallow embedding of the semaphore-holder core of the kernel and a
    verification of its specification.  The C code is translated function
    by function into a small state-and-failure monad over an explicit
    kernel state:

    - the preallocated holder pool [g_holderalloc] is a list indexed by
      node address, [flink] fields and [g_freeholders] are optional
      indices ([None] is the NULL pointer);
    - the two built-in holders of a semaphore are the fields [holder0]
      and [holder1] of [sem_t];
    - thread control blocks live in the scheduler's table [tcbs]; a handle
      that is not in the table is stale;
    - calls to the scheduler and to the logging macros are recorded in a
      trace, together with entry markers of [nxsem_restoreholderprio] and
      [nxsem_freeholder], which are used to state ordering properties. *)

From Stdlib Require Import ZArith NArith Lia.
From stdpp Require Import base option list gmap.

Local Open Scope Z_scope.

(** ** Build-time configuration *)

Record config := Config {
  CONFIG_SEM_PREALLOCHOLDERS : nat;
  CONFIG_SEM_NNESTPRIO : nat;
  CONFIG_DEBUG_ASSERTIONS : bool
}.

(** ** Data model *)

(** [FAR struct tcb_s *]: [None] is NULL, [Some t] the handle of thread [t]. *)
Definition tcb_ptr := option nat.

(** [FAR struct semholder_s *] (non-NULL): either a built-in holder
    [&sem->holder[i]] or a pool node [&g_holderalloc[i]]. *)
Inductive holder_ptr :=
  | Builtin (sem : nat) (i : nat)
  | Prealloc (i : nat).

Global Instance holder_ptr_eq_dec : EqDecision holder_ptr.
Proof. solve_decision. Defined.

(** [struct semholder_s].  [counts] is an [int16_t]; [flink] exists in the
    pooled configuration only and is ignored in the other one. *)
Record semholder_s := SemHolder {
  flink : option nat;
  htcb : tcb_ptr;
  counts : Z
}.

(** The holder part of [sem_t]: [hhead] in the pooled configuration,
    [holder[2]] in the built-in one. *)
Record sem_t := Sem {
  semcount : Z;
  flags : Z;
  hhead : option nat;
  holder0 : semholder_s;
  holder1 : semholder_s
}.

(** [struct semboost_s]: one active boost of a thread. *)
Record semboost_s := SemBoost {
  boost_sem : nat;
  boost_priority : N
}.

Global Instance semboost_eq_dec : EqDecision semboost_s.
Proof. solve_decision. Defined.

(** The fields of [struct tcb_s] the core uses.  [sem_boosts] holds the
    first [nsem_boosts] elements of the C array, so [nsem_boosts] is its
    length. *)
Record tcb_s := Tcb {
  sched_priority : N;
  base_priority : N;
  sem_boosts : list semboost_s
}.

Definition nsem_boosts (t : tcb_s) : nat := length (sem_boosts t).

Inductive log_msg :=
  | ErrInsufficientHolders
  | WarnStaleHandle (h : tcb_ptr)
  | ErrOutOfBoostSlots (h : tcb_ptr).

Inductive event :=
  | EvSetPriority (t : tcb_ptr) (prio : N)
  | EvReprioritize (t : tcb_ptr) (prio : N)
  | EvLog (m : log_msg)
  | EvRestore (t : tcb_ptr) (sem : nat)
  | EvFree (sem : nat) (p : holder_ptr).

Global Instance log_msg_eq_dec : EqDecision log_msg.
Proof. solve_decision. Defined.
Global Instance event_eq_dec : EqDecision event.
Proof. solve_decision. Defined.

Record kstate := KState {
  g_holderalloc : list semholder_s;
  g_freeholders : option nat;
  sems : list sem_t;
  tcbs : gmap nat tcb_s;
  g_running : tcb_ptr;
  g_irq : bool;
  trace : list event
}.

Definition PRIOINHERIT_FLAGS_DISABLE : Z := 1.

Definition INT16_MAX : Z := 32767.

(** Conversion of an [int] to [int16_t]. *)
Definition wrap16 (z : Z) : Z := (z + 32768) mod 65536 - 32768.

(** ** The monad: state passing with failure *)

Inductive failure :=
  | AssertionFailed
  | BadPointer
  | OutOfFuel.

Inductive outcome (A : Type) :=
  | Ret (a : A) (s : kstate)
  | Abort (f : failure).
Arguments Ret {A} a s.
Arguments Abort {A} f.

Definition M (A : Type) : Type := kstate → outcome A.

Definition ret {A} (a : A) : M A := λ s, Ret a s.
Definition abort {A} (f : failure) : M A := λ _, Abort f.
Definition bind {A B} (m : M A) (k : A → M B) : M B :=
  λ s, match m s with
       | Ret a s' => k a s'
       | Abort f => Abort f
       end.

Notation "'let*' x := m 'in' k" := (bind m (λ x, k))
  (at level 10, x name, m at level 100, k at level 200, only parsing).
Notation "'let*' ' x := m 'in' k" := (bind m (λ x, k))
  (at level 10, x pattern, m at level 100, k at level 200, only parsing).
Notation "'do*' m 'in' k" := (bind m (λ _, k))
  (at level 10, m at level 100, k at level 200, only parsing).

Definition gets {A} (f : kstate → A) : M A := λ s, Ret (f s) s.
Definition modify (f : kstate → kstate) : M unit := λ s, Ret tt (f s).
Definition lift_opt {A} (o : option A) : M A :=
  match o with Some a => ret a | None => abort BadPointer end.

(** *** State update helpers *)

Definition set_holderalloc (l : list semholder_s) (s : kstate) : kstate :=
  KState l (g_freeholders s) (sems s) (tcbs s) (g_running s) (g_irq s) (trace s).
Definition set_freeholders (p : option nat) (s : kstate) : kstate :=
  KState (g_holderalloc s) p (sems s) (tcbs s) (g_running s) (g_irq s) (trace s).
Definition set_sems (l : list sem_t) (s : kstate) : kstate :=
  KState (g_holderalloc s) (g_freeholders s) l (tcbs s) (g_running s) (g_irq s) (trace s).
Definition set_tcbs (m : gmap nat tcb_s) (s : kstate) : kstate :=
  KState (g_holderalloc s) (g_freeholders s) (sems s) m (g_running s) (g_irq s) (trace s).
Definition set_trace (t : list event) (s : kstate) : kstate :=
  KState (g_holderalloc s) (g_freeholders s) (sems s) (tcbs s) (g_running s) (g_irq s) t.

Definition with_flink (v : option nat) (h : semholder_s) : semholder_s :=
  SemHolder v (htcb h) (counts h).
Definition with_htcb (v : tcb_ptr) (h : semholder_s) : semholder_s :=
  SemHolder (flink h) v (counts h).
Definition with_counts (v : Z) (h : semholder_s) : semholder_s :=
  SemHolder (flink h) (htcb h) v.

Definition with_hhead (v : option nat) (sm : sem_t) : sem_t :=
  Sem (semcount sm) (flags sm) v (holder0 sm) (holder1 sm).
Definition holder_at (sm : sem_t) (i : nat) : option semholder_s :=
  match i with
  | O => Some (holder0 sm)
  | S O => Some (holder1 sm)
  | _ => None
  end.
Definition with_holder_at (i : nat) (h : semholder_s) (sm : sem_t) : sem_t :=
  match i with
  | O => Sem (semcount sm) (flags sm) (hhead sm) h (holder1 sm)
  | S O => Sem (semcount sm) (flags sm) (hhead sm) (holder0 sm) h
  | _ => sm
  end.

Definition with_sched_priority (p : N) (t : tcb_s) : tcb_s :=
  Tcb p (base_priority t) (sem_boosts t).
Definition with_base_priority (p : N) (t : tcb_s) : tcb_s :=
  Tcb (sched_priority t) p (sem_boosts t).
Definition with_sem_boosts (l : list semboost_s) (t : tcb_s) : tcb_s :=
  Tcb (sched_priority t) (base_priority t) l.

(** *** Memory access *)

Definition lookup_holder (p : holder_ptr) (s : kstate) : option semholder_s :=
  match p with
  | Prealloc i => g_holderalloc s !! i
  | Builtin sem i => sm ← sems s !! sem; holder_at sm i
  end.

Definition store_holder (p : holder_ptr) (h : semholder_s) (s : kstate) : kstate :=
  match p with
  | Prealloc i => set_holderalloc (<[i := h]> (g_holderalloc s)) s
  | Builtin sem i =>
      match sems s !! sem with
      | Some sm => set_sems (<[sem := with_holder_at i h sm]> (sems s)) s
      | None => s
      end
  end.

Definition get_holder (p : holder_ptr) : M semholder_s :=
  λ s, lift_opt (lookup_holder p s) s.
Definition put_holder (p : holder_ptr) (h : semholder_s) : M unit :=
  do* get_holder p in modify (store_holder p h).

Definition get_sem (sem : nat) : M sem_t :=
  λ s, lift_opt (sems s !! sem) s.
Definition put_sem (sem : nat) (sm : sem_t) : M unit :=
  do* get_sem sem in modify (λ s, set_sems (<[sem := sm]> (sems s)) s).

Definition lookup_tcb (t : tcb_ptr) (s : kstate) : option tcb_s :=
  i ← t; tcbs s !! i.
Definition get_tcb (t : tcb_ptr) : M tcb_s :=
  λ s, lift_opt (lookup_tcb t s) s.
Definition put_tcb (t : tcb_ptr) (v : tcb_s) : M unit :=
  do* get_tcb t in
  match t with
  | Some i => modify (λ s, set_tcbs (<[i := v]> (tcbs s)) s)
  | None => abort BadPointer
  end.

(** Field reads and writes, [p->f] and [p->f = v]. *)
Definition read_flink (p : holder_ptr) : M (option nat) :=
  let* h := get_holder p in ret (flink h).
Definition read_htcb (p : holder_ptr) : M tcb_ptr :=
  let* h := get_holder p in ret (htcb h).
Definition read_counts (p : holder_ptr) : M Z :=
  let* h := get_holder p in ret (counts h).
Definition write_flink (p : holder_ptr) (v : option nat) : M unit :=
  let* h := get_holder p in put_holder p (with_flink v h).
Definition write_htcb (p : holder_ptr) (v : tcb_ptr) : M unit :=
  let* h := get_holder p in put_holder p (with_htcb v h).
Definition write_counts (p : holder_ptr) (v : Z) : M unit :=
  let* h := get_holder p in put_holder p (with_counts v h).

Definition read_hhead (sem : nat) : M (option nat) :=
  let* sm := get_sem sem in ret (hhead sm).
Definition write_hhead (sem : nat) (v : option nat) : M unit :=
  let* sm := get_sem sem in put_sem sem (with_hhead v sm).

Definition read_sched_priority (t : tcb_ptr) : M N :=
  let* v := get_tcb t in ret (sched_priority v).
Definition read_base_priority (t : tcb_ptr) : M N :=
  let* v := get_tcb t in ret (base_priority v).
Definition read_sem_boosts (t : tcb_ptr) : M (list semboost_s) :=
  let* v := get_tcb t in ret (sem_boosts v).
Definition write_sem_boosts (t : tcb_ptr) (l : list semboost_s) : M unit :=
  let* v := get_tcb t in put_tcb t (with_sem_boosts l v).

(** *** Collaborators *)

Definition mark (e : event) : M unit :=
  modify (λ s, set_trace (trace s ++ [e]) s).

Definition serr (m : log_msg) : M unit := mark (EvLog m).
Definition swarn (m : log_msg) : M unit := mark (EvLog m).

Definition this_task : M tcb_ptr := gets g_running.
Definition up_interrupt_context : M bool := gets g_irq.

(** Modelled from the spec: [verify_tcb(htcb)] of the scheduler, which is
    not part of this file: true iff the handle still refers to a live
    thread, that is, iff it is in the scheduler's table. *)
Definition nxsched_verify_tcb (t : tcb_ptr) : M bool :=
  gets (λ s, bool_decide (is_Some (lookup_tcb t s))).

(** Modelled from the spec: [set_priority(htcb, p)] of the scheduler, which
    is not part of this file: raise-or-lower, never preempts
    synchronously.  The call is recorded in the trace. *)
Definition nxsched_set_priority (t : tcb_ptr) (prio : N) : M unit :=
  let* v := get_tcb t in
  do* put_tcb t (with_sched_priority prio v) in
  mark (EvSetPriority t prio).

(** Modelled from the spec: [reprioritize(htcb, p)] of the scheduler, which
    is not part of this file: drop to the explicit value, which becomes
    the thread's priority.  The call is recorded in the trace. *)
Definition nxsched_reprioritize (t : tcb_ptr) (prio : N) : M unit :=
  let* v := get_tcb t in
  do* put_tcb t (with_base_priority prio (with_sched_priority prio v)) in
  mark (EvReprioritize t prio).

(** ** The code of sem_holder.c *)

Section Code.

Variable cfg : config.

Definition pooled : bool := bool_decide (0 < CONFIG_SEM_PREALLOCHOLDERS cfg)%nat.
Definition nested : bool := bool_decide (0 < CONFIG_SEM_NNESTPRIO cfg)%nat.

(** Bound on the number of iterations of a walk along a holder list. *)
Definition list_fuel : nat := S (CONFIG_SEM_PREALLOCHOLDERS cfg).

Definition DEBUGASSERT (b : bool) : M unit :=
  if CONFIG_DEBUG_ASSERTIONS cfg
  then (if b then ret tt else abort AssertionFailed)
  else ret tt.

Definition holderhandler_t : Type := holder_ptr → nat → tcb_ptr → M Z.

(** *** nxsem_allocholder *)

Definition nxsem_allocholder (sem : nat) : M (option holder_ptr) :=
  let* pholder :=
    (if pooled then
       let* pholder := gets g_freeholders in
       match pholder with
       | Some p =>
           let* next := read_flink (Prealloc p) in
           do* modify (set_freeholders next) in
           let* head := read_hhead sem in
           do* write_flink (Prealloc p) head in
           do* write_hhead sem (Some p) in
           do* write_counts (Prealloc p) 0 in
           ret (Some (Prealloc p))
       | None =>
           do* serr ErrInsufficientHolders in
           ret None
       end
     else
       let* h0 := read_htcb (Builtin sem 0) in
       if bool_decide (h0 = None) then
         do* write_counts (Builtin sem 0) 0 in
         ret (Some (Builtin sem 0))
       else
         let* h1 := read_htcb (Builtin sem 1) in
         if bool_decide (h1 = None) then
           do* write_counts (Builtin sem 1) 0 in
           ret (Some (Builtin sem 1))
         else
           do* serr ErrInsufficientHolders in
           ret None) in
  do* DEBUGASSERT (bool_decide (pholder ≠ None)) in
  ret pholder.

(** *** nxsem_findholder *)

Fixpoint findholder_list (fuel : nat) (tcb : tcb_ptr) (pholder : option nat)
    : M (option holder_ptr) :=
  match pholder with
  | None => ret None
  | Some p =>
      match fuel with
      | O => abort OutOfFuel
      | S fuel' =>
          let* h := read_htcb (Prealloc p) in
          if bool_decide (h = tcb) then ret (Some (Prealloc p))
          else
            let* next := read_flink (Prealloc p) in
            findholder_list fuel' tcb next
      end
  end.

Fixpoint findholder_builtin (n : nat) (sem : nat) (tcb : tcb_ptr) (i : nat)
    : M (option holder_ptr) :=
  match n with
  | O => ret None
  | S n' =>
      let* h := read_htcb (Builtin sem i) in
      if bool_decide (h = tcb) then ret (Some (Builtin sem i))
      else findholder_builtin n' sem tcb (S i)
  end.

Definition nxsem_findholder (sem : nat) (tcb : tcb_ptr) : M (option holder_ptr) :=
  if pooled then
    let* head := read_hhead sem in
    findholder_list list_fuel tcb head
  else
    findholder_builtin 2 sem tcb 0.

(** *** nxsem_findorallocateholder *)

Definition nxsem_findorallocateholder (sem : nat) (tcb : tcb_ptr)
    : M (option holder_ptr) :=
  let* pholder := nxsem_findholder sem tcb in
  match pholder with
  | None => nxsem_allocholder sem
  | Some _ => ret pholder
  end.

(** *** nxsem_freeholder *)

(** The search loop [for (prev = NULL, curr = sem->hhead;
    curr && curr != pholder; prev = curr, curr = curr->flink);]. *)
Fixpoint freeholder_search (fuel : nat) (pholder : holder_ptr)
    (prev curr : option nat) : M (option nat * option nat) :=
  match curr with
  | None => ret (prev, curr)
  | Some c =>
      if bool_decide (Prealloc c = pholder) then ret (prev, curr)
      else
        match fuel with
        | O => abort OutOfFuel
        | S fuel' =>
            let* next := read_flink (Prealloc c) in
            freeholder_search fuel' pholder curr next
        end
  end.

Definition nxsem_freeholder (sem : nat) (pholder : holder_ptr) : M unit :=
  do* mark (EvFree sem pholder) in
  do* write_htcb pholder None in
  do* write_counts pholder 0 in
  if pooled then
    let* head := read_hhead sem in
    let* '(prev, curr) := freeholder_search list_fuel pholder None head in
    match curr with
    | Some _ =>
        let* next := read_flink pholder in
        do* match prev with
            | Some pv => write_flink (Prealloc pv) next
            | None => write_hhead sem next
            end in
        let* free := gets g_freeholders in
        do* write_flink pholder free in
        match pholder with
        | Prealloc p => modify (set_freeholders (Some p))
        | Builtin _ _ => abort BadPointer
        end
    | None => ret tt
    end
  else ret tt.

(** *** nxsem_findandfreeholder *)

Definition nxsem_findandfreeholder (sem : nat) (tcb : tcb_ptr) : M unit :=
  let* pholder := nxsem_findholder sem tcb in
  match pholder with
  | Some p =>
      let* c := read_counts p in
      if c <=? 0 then nxsem_freeholder sem p else ret tt
  | None => ret tt
  end.

(** *** nxsem_foreachholder *)

Fixpoint foreachholder_list (fuel : nat) (handler : holderhandler_t)
    (sem : nat) (arg : tcb_ptr) (pholder : option nat) (r : Z) : M Z :=
  match pholder with
  | None => ret r
  | Some p =>
      if r =? 0 then
        match fuel with
        | O => abort OutOfFuel
        | S fuel' =>
            let* next := read_flink (Prealloc p) in
            let* h := read_htcb (Prealloc p) in
            let* r' := (if bool_decide (h ≠ None)
                        then handler (Prealloc p) sem arg
                        else ret r) in
            foreachholder_list fuel' handler sem arg next r'
        end
      else ret r
  end.

Fixpoint foreachholder_builtin (n : nat) (handler : holderhandler_t)
    (sem : nat) (arg : tcb_ptr) (i : nat) (r : Z) : M Z :=
  match n with
  | O => ret r
  | S n' =>
      let* h := read_htcb (Builtin sem i) in
      let* r' := (if bool_decide (h ≠ None)
                  then handler (Builtin sem i) sem arg
                  else ret r) in
      foreachholder_builtin n' handler sem arg (S i) r'
  end.

Definition nxsem_foreachholder (sem : nat) (handler : holderhandler_t)
    (arg : tcb_ptr) : M Z :=
  if pooled then
    let* head := read_hhead sem in
    foreachholder_list list_fuel handler sem arg head 0
  else
    foreachholder_builtin 2 handler sem arg 0 0.

(** *** nxsem_recoverholders *)

Definition nxsem_recoverholders : holderhandler_t :=
  λ pholder sem arg,
    do* nxsem_freeholder sem pholder in
    ret 0.

(** *** Scheduler accessors guarded by the caller *)

(** [htcb->sem_boosts[i] = htcb->sem_boosts[htcb->nsem_boosts-1];
    htcb->nsem_boosts--;] *)
Definition boost_remove (i : nat) (l : list semboost_s) : list semboost_s :=
  match l !! (length l - 1)%nat with
  | Some b => take (length l - 1) (<[i := b]> l)
  | None => l
  end.

(** The loop that discards every boost of [sem]: the index stays where it
    is after a removal ([i--] followed by the loop's [i++]).  [None] when
    the fuel runs out. *)
Fixpoint discard_boosts (fuel : nat) (sem : nat) (i : nat)
    (l : list semboost_s) : option (list semboost_s) :=
  match l !! i with
  | None => Some l
  | Some b =>
      match fuel with
      | O => None
      | S fuel' =>
          if bool_decide (boost_sem b = sem)
          then discard_boosts fuel' sem i (boost_remove i l)
          else discard_boosts fuel' sem (S i) l
      end
  end.

(** The loop that looks for the highest boost of [sem]; it returns
    [max_boost_index], which starts at -1. *)
Fixpoint max_boost_search (sem : nat) (l : list semboost_s) (i : Z)
    (max_boost_index : Z) (max_boost_priority : N) : Z :=
  match l with
  | [] => max_boost_index
  | b :: l' =>
      if bool_decide (boost_sem b = sem) then
        if (max_boost_priority <? boost_priority b)%N
        then max_boost_search sem l' (i + 1) i (boost_priority b)
        else max_boost_search sem l' (i + 1) max_boost_index max_boost_priority
      else max_boost_search sem l' (i + 1) max_boost_index max_boost_priority
  end.

(** The loop that computes [new_priority]. *)
Definition max_priority (base : N) (l : list semboost_s) : N :=
  foldl (λ new_priority b,
           if (new_priority <? boost_priority b)%N
           then boost_priority b else new_priority) base l.

(** *** nxsem_boostholderprio *)

Definition nxsem_boostholderprio : holderhandler_t :=
  λ pholder sem arg,
    let* htcb := read_htcb pholder in
    let rtcb := arg in
    let* live := nxsched_verify_tcb htcb in
    do* (if negb live then
           do* swarn (WarnStaleHandle htcb) in
           nxsem_freeholder sem pholder
         else if nested then
           let* rprio := read_sched_priority rtcb in
           let* hbase := read_base_priority htcb in
           if (hbase <? rprio)%N then
             let* boosts := read_sem_boosts htcb in
             if bool_decide (length boosts < CONFIG_SEM_NNESTPRIO cfg)%nat then
               let* rprio' := read_sched_priority rtcb in
               do* write_sem_boosts htcb (boosts ++ [SemBoost sem rprio']) in
               let* hprio := read_sched_priority htcb in
               if (hprio <? rprio')%N
               then nxsched_set_priority htcb rprio'
               else ret tt
             else serr (ErrOutOfBoostSlots htcb)
           else ret tt
         else
           let* rprio := read_sched_priority rtcb in
           let* hprio := read_sched_priority htcb in
           if (hprio <? rprio)%N then
             let* rprio' := read_sched_priority rtcb in
             nxsched_set_priority htcb rprio'
           else ret tt) in
    ret 0.

(** *** nxsem_verifyholder (its body is disabled by [#if 0]) *)

Definition nxsem_verifyholder : holderhandler_t :=
  λ pholder sem arg, ret 0.

(** *** nxsem_restoreholderprio *)

Definition nxsem_restoreholderprio (htcb : tcb_ptr) (sem : nat)
    (arg : tcb_ptr) : M Z :=
  do* mark (EvRestore htcb sem) in
  let* pholder := nxsem_findholder sem htcb in
  let* live := nxsched_verify_tcb htcb in
  do* (if negb live then
         do* swarn (WarnStaleHandle htcb) in
         match pholder with
         | Some p => nxsem_freeholder sem p
         | None => ret tt
         end
       else
         let* sprio := read_sched_priority htcb in
         let* bprio := read_base_priority htcb in
         if bool_decide (sprio ≠ bprio) then
           if nested then
             let* released :=
               match pholder with
               | None => ret true
               | Some p => let* c := read_counts p in ret (c =? 0)
               end in
             let* boosts := read_sem_boosts htcb in
             do* (if released : bool then
                    match discard_boosts (length boosts) sem 0 boosts with
                    | Some boosts' => write_sem_boosts htcb boosts'
                    | None => abort OutOfFuel
                    end
                  else
                    let max_boost_index := max_boost_search sem boosts 0 (-1) 0 in
                    if 0 <=? max_boost_index
                    then write_sem_boosts htcb
                           (boost_remove (Z.to_nat max_boost_index) boosts)
                    else ret tt) in
             let* base := read_base_priority htcb in
             let* remaining := read_sem_boosts htcb in
             let new_priority := max_priority base remaining in
             let* sprio' := read_sched_priority htcb in
             if bool_decide (new_priority ≠ sprio')
             then nxsched_set_priority htcb new_priority
             else ret tt
           else
             let* base := read_base_priority htcb in
             nxsched_reprioritize htcb base
         else ret tt) in
  ret 0.

(** *** The three restore handlers *)

Definition nxsem_restoreholderprioall : holderhandler_t :=
  λ pholder sem arg,
    let* htcb := read_htcb pholder in
    nxsem_restoreholderprio htcb sem arg.

Definition nxsem_restoreholderprio_others : holderhandler_t :=
  λ pholder sem arg,
    let* rtcb := this_task in
    let* htcb := read_htcb pholder in
    if bool_decide (htcb ≠ rtcb)
    then nxsem_restoreholderprio htcb sem arg
    else ret 0.

Definition nxsem_restoreholderprio_self : holderhandler_t :=
  λ pholder sem arg,
    let* rtcb := this_task in
    let* htcb := read_htcb pholder in
    if bool_decide (htcb = rtcb) then
      do* (if pooled then ret tt else nxsem_findandfreeholder sem rtcb) in
      do* nxsem_restoreholderprio rtcb sem arg in
      ret 1
    else ret 0.

(** *** nxsem_restore_baseprio_irq and nxsem_restore_baseprio_task *)

Definition nxsem_restore_baseprio_irq (stcb : tcb_ptr) (sem : nat) : M unit :=
  if bool_decide (stcb ≠ None) then
    do* nxsem_foreachholder sem nxsem_restoreholderprioall stcb in
    ret tt
  else if CONFIG_DEBUG_ASSERTIONS cfg then
    do* nxsem_foreachholder sem nxsem_verifyholder None in
    ret tt
  else ret tt.

Definition nxsem_restore_baseprio_task (stcb : tcb_ptr) (sem : nat) : M unit :=
  let* rtcb := this_task in
  do* (if bool_decide (stcb ≠ None) then
         do* nxsem_foreachholder sem nxsem_restoreholderprio_others stcb in
         do* nxsem_foreachholder sem nxsem_restoreholderprio_self stcb in
         ret tt
       else if CONFIG_DEBUG_ASSERTIONS cfg then
         do* nxsem_foreachholder sem nxsem_verifyholder None in
         ret tt
       else ret tt) in
  nxsem_findandfreeholder sem rtcb.

(** *** Public functions *)

(** The loop [for (i = 0; i < (CONFIG_SEM_PREALLOCHOLDERS - 1); i++)]. *)
Fixpoint initialize_links (n : nat) (i : nat) : M unit :=
  match n with
  | O => ret tt
  | S n' =>
      do* write_flink (Prealloc i) (Some (S i)) in
      initialize_links n' (S i)
  end.

Definition nxsem_initialize_holders : M unit :=
  if pooled then
    do* modify (set_freeholders (Some 0%nat)) in
    do* initialize_links (CONFIG_SEM_PREALLOCHOLDERS cfg - 1) 0 in
    write_flink (Prealloc (CONFIG_SEM_PREALLOCHOLDERS cfg - 1)) None
  else ret tt.

Definition nxsem_destroyholder (sem : nat) : M unit :=
  if pooled then
    let* head := read_hhead sem in
    match head with
    | Some h =>
        do* (if CONFIG_DEBUG_ASSERTIONS cfg then
               let* next := read_flink (Prealloc h) in
               DEBUGASSERT (bool_decide (next = None))
             else ret tt) in
        do* nxsem_foreachholder sem nxsem_recoverholders None in
        ret tt
    | None => ret tt
    end
  else
    do* (if CONFIG_DEBUG_ASSERTIONS cfg then
           let* h0 := read_htcb (Builtin sem 0) in
           let* h1 := read_htcb (Builtin sem 1) in
           DEBUGASSERT (bool_decide (h0 = None) || bool_decide (h1 = None))
         else ret tt) in
    do* write_htcb (Builtin sem 0) None in
    write_htcb (Builtin sem 1) None.

Definition nxsem_add_holder_tcb (htcb : tcb_ptr) (sem : nat) : M unit :=
  let* sm := get_sem sem in
  if Z.land (flags sm) PRIOINHERIT_FLAGS_DISABLE =? 0 then
    let* pholder := nxsem_findorallocateholder sem htcb in
    match pholder with
    | Some p =>
        do* write_htcb p htcb in
        let* c := read_counts p in
        write_counts p (wrap16 (c + 1))
    | None => ret tt
    end
  else ret tt.

Definition nxsem_add_holder (sem : nat) : M unit :=
  let* rtcb := this_task in
  nxsem_add_holder_tcb rtcb sem.

Definition nxsem_boost_priority (sem : nat) : M unit :=
  let* rtcb := this_task in
  do* nxsem_foreachholder sem nxsem_boostholderprio rtcb in
  ret tt.

Definition nxsem_release_holder (sem : nat) : M unit :=
  let* rtcb := this_task in
  let* pholder := nxsem_findholder sem rtcb in
  match pholder with
  | Some p =>
      let* c := read_counts p in
      if 0 <? c then write_counts p (wrap16 (c - 1)) else ret tt
  | None => ret tt
  end.

Definition nxsem_restore_baseprio (stcb : tcb_ptr) (sem : nat) : M unit :=
  let* irq := up_interrupt_context in
  if irq : bool
  then nxsem_restore_baseprio_irq stcb sem
  else nxsem_restore_baseprio_task stcb sem.

Definition nxsem_canceled (stcb : tcb_ptr) (sem : nat) : M unit :=
  do* (if CONFIG_DEBUG_ASSERTIONS cfg then
         let* sm := get_sem sem in
         DEBUGASSERT (semcount sm <=? 0)
       else ret tt) in
  do* nxsem_foreachholder sem nxsem_restoreholderprioall stcb in
  ret tt.

(** [nxsem_nfreeholders]: the length of the free list. *)
Fixpoint nfreeholders_loop (fuel : nat) (pholder : option nat) (n : Z) : M Z :=
  match pholder with
  | None => ret n
  | Some p =>
      match fuel with
      | O => abort OutOfFuel
      | S fuel' =>
          let* next := read_flink (Prealloc p) in
          nfreeholders_loop fuel' next (n + 1)
      end
  end.

Definition nxsem_nfreeholders : M Z :=
  if pooled then
    let* free := gets g_freeholders in
    nfreeholders_loop list_fuel free 0
  else ret 0.

End Code.

(** ** Reasoning about monadic code *)

Lemma bind_Ret {A B} (m : M A) (k : A → M B) s a s1 :
  m s = Ret a s1 → bind m k s = k a s1.
Proof. unfold bind. by intros ->. Qed.

Lemma bind_Abort {A B} (m : M A) (k : A → M B) s f :
  m s = Abort f → bind m k s = Abort f.
Proof. unfold bind. by intros ->. Qed.

Lemma bind_assoc {A B C} (m : M A) (f : A → M B) (g : B → M C) s :
  bind (bind m f) g s = bind m (λ a, bind (f a) g) s.
Proof. unfold bind. by destruct (m s). Qed.

Lemma bind_Ret_inv {A B} (m : M A) (k : A → M B) s b s' :
  bind m k s = Ret b s' → ∃ a s1, m s = Ret a s1 ∧ k a s1 = Ret b s'.
Proof. unfold bind. destruct (m s) as [a s1|f]; [eauto|done]. Qed.

Lemma ret_Ret_inv {A} (a b : A) s s' : ret a s = Ret b s' → a = b ∧ s = s'.
Proof. unfold ret. by intros [= -> ->]. Qed.

(** Decompose a hypothesis [bind m k s = Ret b s'] into its two runs. *)
Ltac inv_bind H :=
  let a := fresh "a" in
  let s1 := fresh "s" in
  let H1 := fresh "Hrun" in
  apply bind_Ret_inv in H as (a & s1 & H1 & H).

(** One step of symbolic execution with the run [H] of the first action. *)
Tactic Notation "mstep" open_constr(H) :=
  rewrite ?bind_assoc; rewrite (bind_Ret _ _ _ _ _ H).

Ltac inv_ret H :=
  apply ret_Ret_inv in H; destruct H as [? ?]; subst.

Definition log_event (e : event) (s : kstate) : kstate :=
  set_trace (trace s ++ [e]) s.

Lemma mark_Ret e s : mark e s = Ret tt (log_event e s).
Proof. reflexivity. Qed.

(** ** C1: the walk over the built-in holders does not stop *)

(** In the pooled configuration the loop condition [pholder && ret == 0]
    stops the walk at the first nonzero result. *)
Lemma foreachholder_list_stops fuel handler sem arg p r s :
  r ≠ 0 → foreachholder_list fuel handler sem arg p r s = Ret r s.
Proof.
  intros Hr. destruct p as [p|]; destruct fuel; simpl; try done;
    by rewrite (proj2 (Z.eqb_neq r 0) Hr).
Qed.

Definition cfg_builtin : config := Config 0 0 false.

(** A handler that raises the holder's priority to [99] and returns [1] on
    the first built-in holder and [0] on the second. *)
Definition probe_handler : holderhandler_t :=
  λ pholder sem arg,
    let* h := read_htcb pholder in
    do* nxsched_set_priority h 99 in
    ret (if bool_decide (pholder = Builtin sem 0) then 1 else 0).

Definition two_holders_state : kstate :=
  KState [] None
    [Sem 0 0 None (SemHolder None (Some 1%nat) 1) (SemHolder None (Some 2%nat) 1)]
    (<[1%nat := Tcb 10 10 []]> (<[2%nat := Tcb 20 20 []]> ∅))
    (Some 1%nat) false [].

(** C1 (evaluation at the failing input): with both built-in holders live
    and a handler that returns 1 on the first one, [nxsem_foreachholder]
    still calls the handler on the second holder and returns that call's
    result, 0, not the first nonzero result. *)
Theorem C1_foreachholder_builtin_does_not_stop :
  ∃ s',
    nxsem_foreachholder cfg_builtin 0 probe_handler None two_holders_state
      = Ret 0 s' ∧
    trace s' = [EvSetPriority (Some 1%nat) 99; EvSetPriority (Some 2%nat) 99].
Proof. eexists. split; vm_compute; reflexivity. Qed.

(** The same with the handler of the second restore pass: the running
    thread is the first holder, the handler returns 1 on it, and the walk
    returns 0. *)
Example C1_restoreholderprio_self_result :
  ∃ s',
    nxsem_foreachholder cfg_builtin 0 (nxsem_restoreholderprio_self cfg_builtin)
      (Some 2%nat) two_holders_state = Ret 0 s'.
Proof. eexists. vm_compute. reflexivity. Qed.

(** ** C6: a full holder store *)

Definition store_full (cfg : config) (s : kstate) (sem : nat) : Prop :=
  if pooled cfg
  then g_freeholders s = None ∧ is_Some (sems s !! sem)
  else ∃ sm, sems s !! sem = Some sm ∧
             htcb (holder0 sm) ≠ None ∧ htcb (holder1 sm) ≠ None.

Definition pi_enabled (s : kstate) (sem : nat) : Prop :=
  ∃ sm, sems s !! sem = Some sm ∧
        Z.land (flags sm) PRIOINHERIT_FLAGS_DISABLE = 0.

Lemma allocholder_full cfg s sem :
  store_full cfg s sem →
  nxsem_allocholder cfg sem s =
    if CONFIG_DEBUG_ASSERTIONS cfg then Abort AssertionFailed
    else Ret None (log_event (EvLog ErrInsufficientHolders) s).
Proof.
  unfold store_full, nxsem_allocholder. intros Hfull.
  destruct (pooled cfg).
  - destruct Hfull as [Hfree _].
    unfold bind at 1. unfold bind at 1. unfold gets. rewrite Hfree.
    unfold bind at 1. unfold serr. rewrite mark_Ret. unfold ret at 1.
    unfold bind, DEBUGASSERT. destruct (CONFIG_DEBUG_ASSERTIONS cfg); done.
  - destruct Hfull as (sm & Hsm & H0 & H1).
    unfold bind at 1. unfold bind at 1.
    unfold read_htcb at 1, bind at 1, get_holder, lookup_holder.
    rewrite Hsm. simpl. rewrite bool_decide_eq_false_2 by done.
    unfold bind at 1.
    unfold read_htcb at 1, bind at 1, get_holder, lookup_holder.
    rewrite Hsm. simpl. rewrite bool_decide_eq_false_2 by done.
    unfold bind at 1. unfold serr. rewrite mark_Ret. unfold ret at 1.
    unfold bind, DEBUGASSERT. destruct (CONFIG_DEBUG_ASSERTIONS cfg); done.
Qed.

Definition cfg_builtin_debug : config := Config 0 0 true.

(** C6 (counterexample): with debug assertions enabled, adding a third
    holder to a semaphore whose two built-in holders are taken fails the
    assertion of [nxsem_allocholder]. *)
Lemma C6_counterexample :
  store_full cfg_builtin_debug two_holders_state 0 ∧
  nxsem_add_holder_tcb cfg_builtin_debug (Some 3%nat) 0 two_holders_state
    = Abort AssertionFailed.
Proof.
  split.
  - exists (Sem 0 0 None (SemHolder None (Some 1%nat) 1) (SemHolder None (Some 2%nat) 1)).
    done.
  - vm_compute. reflexivity.
Qed.

(** C6 (amended): when the holder store of a semaphore is full,
    [nxsem_allocholder] logs the error and, with debug assertions disabled,
    returns NULL and changes nothing but the log; [nxsem_add_holder_tcb]
    for a thread that is not yet a holder then changes nothing but the log
    either.  With debug assertions enabled both fail the assertion
    [DEBUGASSERT(pholder != NULL)]. *)
Theorem C6_full_store_degrades cfg s sem tcb :
  store_full cfg s sem →
  nxsem_allocholder cfg sem s =
    (if CONFIG_DEBUG_ASSERTIONS cfg then Abort AssertionFailed
     else Ret None (log_event (EvLog ErrInsufficientHolders) s)) ∧
  (pi_enabled s sem →
   nxsem_findholder cfg sem tcb s = Ret None s →
   nxsem_add_holder_tcb cfg tcb sem s =
     (if CONFIG_DEBUG_ASSERTIONS cfg then Abort AssertionFailed
      else Ret tt (log_event (EvLog ErrInsufficientHolders) s))).
Proof.
  intros Hfull. split; [by apply allocholder_full|].
  intros (sm & Hsm & Hflags) Hfind.
  unfold nxsem_add_holder_tcb.
  unfold bind at 1, get_sem. rewrite Hsm. simpl.
  rewrite Hflags. simpl.
  unfold nxsem_findorallocateholder.
  unfold bind at 1. unfold bind at 1. rewrite Hfind.
  rewrite (allocholder_full _ _ _ Hfull).
  by destruct (CONFIG_DEBUG_ASSERTIONS cfg).
Qed.

Lemma C6_full_store_degrades_witness :
  nxsem_allocholder cfg_builtin 0 two_holders_state =
    Ret None (log_event (EvLog ErrInsufficientHolders) two_holders_state) ∧
  nxsem_add_holder_tcb cfg_builtin (Some 3%nat) 0 two_holders_state =
    Ret tt (log_event (EvLog ErrInsufficientHolders) two_holders_state).
Proof.
  assert (Hfull : store_full cfg_builtin two_holders_state 0).
  { exists (Sem 0 0 None (SemHolder None (Some 1%nat) 1)
              (SemHolder None (Some 2%nat) 1)). done. }
  destruct (C6_full_store_degrades cfg_builtin two_holders_state 0
              (Some 3%nat) Hfull) as [Ha Hb].
  split; [exact Ha|]. apply Hb.
  - eexists. split; [reflexivity|]. reflexivity.
  - vm_compute. reflexivity.
Defined.

(** ** Holder lists in the pool *)

(** [lseg heap p l q]: following [flink] from [p] visits the nodes [l] and
    arrives at [q]. *)
Inductive lseg (heap : list semholder_s)
    : option nat → list nat → option nat → Prop :=
  | lseg_nil p : lseg heap p [] p
  | lseg_cons i h l q :
      heap !! i = Some h →
      lseg heap (flink h) l q →
      lseg heap (Some i) (i :: l) q.

(** A NULL-terminated list. *)
Definition chain (heap : list semholder_s) (p : option nat) (l : list nat) : Prop :=
  lseg heap p l None.

(** The pointer to the first node of a list. *)
Definition head_ptr (l : list nat) (q : option nat) : option nat :=
  match l with
  | [] => q
  | i :: _ => Some i
  end.

Lemma lseg_head heap p l q : lseg heap p l q → p = head_ptr l q.
Proof. by destruct 1. Qed.

Lemma lseg_cons_inv heap p i l q :
  lseg heap p (i :: l) q →
  p = Some i ∧ ∃ h, heap !! i = Some h ∧ lseg heap (flink h) l q.
Proof. inversion 1; subst. eauto. Qed.

Lemma lseg_app heap p l1 m l2 q :
  lseg heap p l1 m → lseg heap m l2 q → lseg heap p (l1 ++ l2) q.
Proof. induction 1; simpl; [done|]. intros. econstructor; eauto. Qed.

Lemma lseg_app_inv heap p l1 l2 q :
  lseg heap p (l1 ++ l2) q →
  lseg heap p l1 (head_ptr l2 q) ∧ lseg heap (head_ptr l2 q) l2 q.
Proof.
  revert p. induction l1 as [|i l1 IH]; simpl; intros p H.
  - rewrite <- (lseg_head _ _ _ _ H). split; [constructor|done].
  - inversion H; subst. destruct (IH _ H5) as [H1 H2].
    split; [econstructor; eauto|done].
Qed.

Lemma lseg_lookup heap p l q i :
  lseg heap p l q → i ∈ l → is_Some (heap !! i).
Proof.
  induction 1 as [|j h l q Hj Hseg IH]; intros Hi.
  - by apply elem_of_nil in Hi.
  - apply elem_of_cons in Hi as [->|Hi]; eauto.
Qed.

Lemma lseg_lt heap p l q i :
  lseg heap p l q → i ∈ l → (i < length heap)%nat.
Proof.
  intros H Hi. destruct (lseg_lookup _ _ _ _ _ H Hi) as [h Hh].
  by apply lookup_lt_Some in Hh.
Qed.

(** A list only depends on the [flink] fields of its own nodes. *)
Lemma lseg_ext heap heap' p l q :
  lseg heap p l q →
  (∀ i h, i ∈ l → heap !! i = Some h →
          ∃ h', heap' !! i = Some h' ∧ flink h' = flink h) →
  lseg heap' p l q.
Proof.
  induction 1 as [|i h l q Hi Hseg IH]; intros Hext; [constructor|].
  destruct (Hext i h) as (h' & Hi' & Hfl); [apply elem_of_cons; auto|done|].
  econstructor; [done|]. rewrite Hfl. apply IH.
  intros j hj Hj. apply Hext. apply elem_of_cons; auto.
Qed.

Lemma lseg_insert_notin heap p l q j x :
  lseg heap p l q → j ∉ l → lseg (<[j := x]> heap) p l q.
Proof.
  intros H Hj. eapply lseg_ext; [done|].
  intros i h Hi Hh. exists h. split; [|done].
  rewrite list_lookup_insert_ne; [done|]. intros ->. done.
Qed.

Lemma lseg_insert_same_flink heap p l q j x hj :
  lseg heap p l q → heap !! j = Some hj → flink x = flink hj →
  lseg (<[j := x]> heap) p l q.
Proof.
  intros H Hj Hfl. eapply lseg_ext; [done|].
  intros i h Hi Hh. destruct (decide (i = j)) as [->|Hne].
  - exists x. rewrite list_lookup_insert_eq by (by eapply lookup_lt_Some).
    split; [done|]. congruence.
  - exists h. by rewrite list_lookup_insert_ne.
Qed.

Lemma chain_det heap p l1 l2 : chain heap p l1 → chain heap p l2 → l1 = l2.
Proof.
  unfold chain. intros H. revert l2.
  remember None as q eqn:Hq.
  induction H as [p|i h l q Hi Hseg IH]; intros l2 H2.
  - subst. by inversion H2.
  - inversion H2; subst; [done|]. f_equal. apply IH; [done|]. congruence.
Qed.

Lemma chain_NoDup heap p l : chain heap p l → NoDup l.
Proof.
  unfold chain. remember None as q eqn:Hq.
  induction 1 as [p|i h l q Hi Hseg IH]; [constructor|].
  constructor; [|by apply IH].
  intros Hin. apply list_elem_of_split in Hin as (l1 & l2 & ->).
  subst q. destruct (lseg_app_inv _ _ _ _ _ Hseg) as [_ H2]. simpl in H2.
  assert (Hc : chain heap (Some i) (i :: l1 ++ i :: l2)) by (econstructor; eauto).
  pose proof (chain_det _ _ _ _ H2 Hc) as Heq.
  apply (f_equal length) in Heq. simpl in Heq. rewrite length_app in Heq.
  simpl in Heq. lia.
Qed.

(** The nodes of a list, computed by a bounded walk. *)
Fixpoint walk (fuel : nat) (heap : list semholder_s) (p : option nat) : list nat :=
  match p, fuel with
  | Some i, S fuel' =>
      match heap !! i with
      | Some h => i :: walk fuel' heap (flink h)
      | None => []
      end
  | _, _ => []
  end.

Lemma walk_chain fuel heap p l :
  chain heap p l → (length l ≤ fuel)%nat → walk fuel heap p = l.
Proof.
  unfold chain. remember None as q eqn:Hq. intros H. revert fuel.
  induction H as [p|i h l q Hi Hseg IH]; intros fuel Hfuel.
  - subst. by destruct fuel.
  - destruct fuel as [|fuel]; simpl in *; [lia|].
    rewrite Hi. f_equal. apply IH; [done|lia].
Qed.

Lemma NoDup_bounded_length (l : list nat) n :
  NoDup l → (∀ i, i ∈ l → (i < n)%nat) → (length l ≤ n)%nat.
Proof.
  intros Hnd Hlt.
  assert (Hsub : l ⊆+ seq 0 n).
  { apply NoDup_submseteq; [done|]. intros i Hi. apply elem_of_seq.
    specialize (Hlt i Hi). lia. }
  apply submseteq_length in Hsub. by rewrite length_seq in Hsub.
Qed.

(** ** Primitive accesses *)

Lemma get_holder_Ret p s h :
  lookup_holder p s = Some h → get_holder p s = Ret h s.
Proof. unfold get_holder. by intros ->. Qed.

Lemma read_flink_Ret p s h :
  lookup_holder p s = Some h → read_flink p s = Ret (flink h) s.
Proof. intros H. unfold read_flink. by rewrite (bind_Ret _ _ _ _ _ (get_holder_Ret _ _ _ H)). Qed.

Lemma read_htcb_Ret p s h :
  lookup_holder p s = Some h → read_htcb p s = Ret (htcb h) s.
Proof. intros H. unfold read_htcb. by rewrite (bind_Ret _ _ _ _ _ (get_holder_Ret _ _ _ H)). Qed.

Lemma read_counts_Ret p s h :
  lookup_holder p s = Some h → read_counts p s = Ret (counts h) s.
Proof. intros H. unfold read_counts. by rewrite (bind_Ret _ _ _ _ _ (get_holder_Ret _ _ _ H)). Qed.

Lemma put_holder_Ret p s h x :
  lookup_holder p s = Some h → put_holder p x s = Ret tt (store_holder p x s).
Proof. intros H. unfold put_holder. by rewrite (bind_Ret _ _ _ _ _ (get_holder_Ret _ _ _ H)). Qed.

Lemma write_flink_Ret p s h v :
  lookup_holder p s = Some h →
  write_flink p v s = Ret tt (store_holder p (with_flink v h) s).
Proof.
  intros H. unfold write_flink.
  rewrite (bind_Ret _ _ _ _ _ (get_holder_Ret _ _ _ H)). by eapply put_holder_Ret.
Qed.

Lemma write_htcb_Ret p s h v :
  lookup_holder p s = Some h →
  write_htcb p v s = Ret tt (store_holder p (with_htcb v h) s).
Proof.
  intros H. unfold write_htcb.
  rewrite (bind_Ret _ _ _ _ _ (get_holder_Ret _ _ _ H)). by eapply put_holder_Ret.
Qed.

Lemma write_counts_Ret p s h v :
  lookup_holder p s = Some h →
  write_counts p v s = Ret tt (store_holder p (with_counts v h) s).
Proof.
  intros H. unfold write_counts.
  rewrite (bind_Ret _ _ _ _ _ (get_holder_Ret _ _ _ H)). by eapply put_holder_Ret.
Qed.

Lemma get_sem_Ret k s sm : sems s !! k = Some sm → get_sem k s = Ret sm s.
Proof. unfold get_sem. by intros ->. Qed.

Lemma read_hhead_Ret k s sm :
  sems s !! k = Some sm → read_hhead k s = Ret (hhead sm) s.
Proof. intros H. unfold read_hhead. by rewrite (bind_Ret _ _ _ _ _ (get_sem_Ret _ _ _ H)). Qed.

Definition store_sem (k : nat) (sm : sem_t) (s : kstate) : kstate :=
  set_sems (<[k := sm]> (sems s)) s.

Lemma write_hhead_Ret k s sm v :
  sems s !! k = Some sm →
  write_hhead k v s = Ret tt (store_sem k (with_hhead v sm) s).
Proof.
  intros H. unfold write_hhead, put_sem.
  rewrite (bind_Ret _ _ _ _ _ (get_sem_Ret _ _ _ H)).
  by rewrite (bind_Ret _ _ _ _ _ (get_sem_Ret _ _ _ H)).
Qed.

Lemma get_tcb_Ret t s v : lookup_tcb t s = Some v → get_tcb t s = Ret v s.
Proof. unfold get_tcb. by intros ->. Qed.

Definition store_tcb (t : nat) (v : tcb_s) (s : kstate) : kstate :=
  set_tcbs (<[t := v]> (tcbs s)) s.

Lemma put_tcb_Ret t s v x :
  tcbs s !! t = Some v → put_tcb (Some t) x s = Ret tt (store_tcb t x s).
Proof.
  intros H. unfold put_tcb.
  by rewrite (bind_Ret _ _ _ _ _ (get_tcb_Ret (Some t) _ _ H)).
Qed.

(** Inversion of the reads. *)
Lemma get_holder_inv p s h s' :
  get_holder p s = Ret h s' → s' = s ∧ lookup_holder p s = Some h.
Proof.
  unfold get_holder. destruct (lookup_holder p s); simpl; [|done].
  by intros [= -> ->].
Qed.

Lemma read_flink_inv p s v s' :
  read_flink p s = Ret v s' →
  s' = s ∧ ∃ h, lookup_holder p s = Some h ∧ v = flink h.
Proof.
  unfold read_flink. intros H. apply bind_Ret_inv in H as (h & s1 & H1 & H2).
  apply get_holder_inv in H1 as [-> Hl]. apply ret_Ret_inv in H2 as [<- <-]. eauto.
Qed.

Lemma read_htcb_inv p s v s' :
  read_htcb p s = Ret v s' →
  s' = s ∧ ∃ h, lookup_holder p s = Some h ∧ v = htcb h.
Proof.
  unfold read_htcb. intros H. apply bind_Ret_inv in H as (h & s1 & H1 & H2).
  apply get_holder_inv in H1 as [-> Hl]. apply ret_Ret_inv in H2 as [<- <-]. eauto.
Qed.

Lemma read_counts_inv p s v s' :
  read_counts p s = Ret v s' →
  s' = s ∧ ∃ h, lookup_holder p s = Some h ∧ v = counts h.
Proof.
  unfold read_counts. intros H. apply bind_Ret_inv in H as (h & s1 & H1 & H2).
  apply get_holder_inv in H1 as [-> Hl]. apply ret_Ret_inv in H2 as [<- <-]. eauto.
Qed.

Lemma get_sem_inv k s sm s' :
  get_sem k s = Ret sm s' → s' = s ∧ sems s !! k = Some sm.
Proof.
  unfold get_sem. destruct (sems s !! k); simpl; [|done].
  by intros [= -> ->].
Qed.

Lemma read_hhead_inv k s v s' :
  read_hhead k s = Ret v s' →
  s' = s ∧ ∃ sm, sems s !! k = Some sm ∧ v = hhead sm.
Proof.
  unfold read_hhead. intros H. apply bind_Ret_inv in H as (h & s1 & H1 & H2).
  apply get_sem_inv in H1 as [-> Hl]. apply ret_Ret_inv in H2 as [<- <-]. eauto.
Qed.

Lemma get_tcb_inv t s v s' :
  get_tcb t s = Ret v s' → s' = s ∧ lookup_tcb t s = Some v.
Proof.
  unfold get_tcb. destruct (lookup_tcb t s); simpl; [|done].
  by intros [= -> ->].
Qed.

Lemma holder_at_with_eq sm i h x :
  holder_at sm i = Some h → holder_at (with_holder_at i x sm) i = Some x.
Proof. destruct i as [|[|i]]; simpl; by intros. Qed.

Lemma holder_at_with_ne sm i j x :
  i ≠ j → holder_at (with_holder_at i x sm) j = holder_at sm j.
Proof. destruct i as [|[|i]], j as [|[|j]]; simpl; by intros. Qed.

Lemma lookup_holder_store_eq p s h x :
  lookup_holder p s = Some h → lookup_holder p (store_holder p x s) = Some x.
Proof.
  destruct p as [k i|i]; simpl.
  - destruct (sems s !! k) as [sm|] eqn:Hk; simpl; [|done]. intros Hi.
    rewrite list_lookup_insert_eq by (by eapply lookup_lt_Some). simpl.
    by eapply holder_at_with_eq.
  - intros Hi. by rewrite list_lookup_insert_eq by (by eapply lookup_lt_Some).
Qed.

Lemma lookup_holder_store_ne p q s x :
  p ≠ q → lookup_holder q (store_holder p x s) = lookup_holder q s.
Proof.
  intros Hne. destruct p as [k i|i], q as [k' j|j]; simpl; try done.
  - destruct (sems s !! k) as [sm|] eqn:Hk; simpl; [|done].
    destruct (decide (k = k')) as [<-|Hkk].
    + rewrite list_lookup_insert_eq by (by eapply lookup_lt_Some).
      rewrite Hk. simpl. apply holder_at_with_ne. congruence.
    + by rewrite list_lookup_insert_ne.
  - by destruct (sems s !! k).
  - rewrite list_lookup_insert_ne; [done|congruence].
Qed.

Lemma lookup_holder_store p q s h x :
  lookup_holder p s = Some h →
  lookup_holder q (store_holder p x s) =
    if decide (p = q) then Some x else lookup_holder q s.
Proof.
  intros H. destruct (decide (p = q)) as [<-|Hne].
  - by eapply lookup_holder_store_eq.
  - by apply lookup_holder_store_ne.
Qed.

Lemma tcbs_store_holder p x s : tcbs (store_holder p x s) = tcbs s.
Proof. destruct p as [k i|i]; simpl; [by destruct (sems s !! k)|done]. Qed.

Lemma trace_store_holder p x s : trace (store_holder p x s) = trace s.
Proof. destruct p as [k i|i]; simpl; [by destruct (sems s !! k)|done]. Qed.

Lemma g_running_store_holder p x s : g_running (store_holder p x s) = g_running s.
Proof. destruct p as [k i|i]; simpl; [by destruct (sems s !! k)|done]. Qed.

Lemma g_irq_store_holder p x s : g_irq (store_holder p x s) = g_irq s.
Proof. destruct p as [k i|i]; simpl; [by destruct (sems s !! k)|done]. Qed.

Lemma g_freeholders_store_holder p x s :
  g_freeholders (store_holder p x s) = g_freeholders s.
Proof. destruct p as [k i|i]; simpl; [by destruct (sems s !! k)|done]. Qed.

Lemma lookup_tcb_store_holder t p x s :
  lookup_tcb t (store_holder p x s) = lookup_tcb t s.
Proof. unfold lookup_tcb. by rewrite tcbs_store_holder. Qed.

Lemma sems_store_prealloc i x s : sems (store_holder (Prealloc i) x s) = sems s.
Proof. done. Qed.

Lemma holderalloc_store_builtin k i x s :
  g_holderalloc (store_holder (Builtin k i) x s) = g_holderalloc s.
Proof. simpl. by destruct (sems s !! k). Qed.

(** ** The holder store seen as lists of entries *)

Section Store.

Variable cfg : config.

Local Abbreviation NPOOL := (CONFIG_SEM_PREALLOCHOLDERS cfg).

Definition free_nodes (s : kstate) : list nat :=
  walk (list_fuel cfg) (g_holderalloc s) (g_freeholders s).

Definition sem_nodes (s : kstate) (k : nat) : list nat :=
  match sems s !! k with
  | Some sm => walk (list_fuel cfg) (g_holderalloc s) (hhead sm)
  | None => []
  end.

(** The entries of semaphore [k] in the order in which the code walks
    them: the nodes of its list, or its two built-in holders. *)
Definition entries (s : kstate) (k : nat) : list holder_ptr :=
  if pooled cfg then Prealloc <$> sem_nodes s k
  else match sems s !! k with
       | Some _ => [Builtin k 0; Builtin k 1]
       | None => []
       end.

Definition entry_htcb (s : kstate) (p : holder_ptr) : tcb_ptr :=
  default None (htcb <$> lookup_holder p s).

Definition entry_counts (s : kstate) (p : holder_ptr) : Z :=
  default 0 (counts <$> lookup_holder p s).

(** An entry is live when its [htcb] is set. *)
Definition live (s : kstate) (p : holder_ptr) : Prop := entry_htcb s p ≠ None.

Global Instance live_dec s p : Decision (live s p).
Proof. unfold live. apply _. Defined.

(** The holders of semaphore [k]: its live entries. *)
Definition holders (s : kstate) (k : nat) : list holder_ptr :=
  filter (live s) (entries s k).

(** What [nxsem_findholder] returns: the first entry whose [htcb] is the
    key. *)
Definition find_entry (s : kstate) (k : nat) (t : tcb_ptr) : option holder_ptr :=
  head (filter (λ p, entry_htcb s p = t) (entries s k)).

(** *** Well-formed pools *)

Record pool_shape (s : kstate) (fl : list nat) (ls : list (list nat)) : Prop := {
  ps_length : length (g_holderalloc s) = NPOOL;
  ps_free : chain (g_holderalloc s) (g_freeholders s) fl;
  ps_sems : Forall2 (λ sm l, chain (g_holderalloc s) (hhead sm) l) (sems s) ls;
  ps_perm : fl ++ concat ls ≡ₚ seq 0 NPOOL
}.

(** Free nodes are cleared. *)
Definition pool_zero (s : kstate) (fl : list nat) : Prop :=
  ∀ p, p ∈ fl → entry_htcb s (Prealloc p) = None ∧ entry_counts s (Prealloc p) = 0.

(** The nodes of the semaphores' lists are live. *)
Definition pool_live (s : kstate) (ls : list (list nat)) : Prop :=
  ∀ p, p ∈ concat ls → entry_htcb s (Prealloc p) ≠ None.

Definition pool_ok (s : kstate) : Prop :=
  ∃ fl ls, pool_shape s fl ls ∧ pool_zero s fl ∧ pool_live s ls.

Lemma pool_shape_sem s fl ls k lk :
  pool_shape s fl ls → ls !! k = Some lk →
  ∃ sm, sems s !! k = Some sm ∧ chain (g_holderalloc s) (hhead sm) lk.
Proof.
  intros [_ _ Hs _] Hk.
  destruct (Forall2_lookup_r _ _ _ _ _ Hs Hk) as (sm & Hsm & Hc). eauto.
Qed.

Lemma pool_shape_sem_l s fl ls k sm :
  pool_shape s fl ls → sems s !! k = Some sm →
  ∃ lk, ls !! k = Some lk ∧ chain (g_holderalloc s) (hhead sm) lk.
Proof.
  intros [_ _ Hs _] Hk.
  destruct (Forall2_lookup_l _ _ _ _ _ Hs Hk) as (lk & Hlk & Hc). eauto.
Qed.

Lemma elem_of_concat_lookup {A} (ls : list (list A)) k lk x :
  ls !! k = Some lk → x ∈ lk → x ∈ concat ls.
Proof.
  intros Hk Hx. apply list_elem_of_In, in_concat. exists lk.
  split; apply list_elem_of_In; [by eapply list_elem_of_lookup_2|done].
Qed.

Lemma pool_shape_length_free s fl ls :
  pool_shape s fl ls → (length fl ≤ NPOOL)%nat.
Proof.
  intros [_ _ _ Hp]. apply Permutation_length in Hp.
  rewrite length_app, length_seq in Hp. lia.
Qed.

Lemma length_concat_lookup {A} (ls : list (list A)) k lk :
  ls !! k = Some lk → (length lk ≤ length (concat ls))%nat.
Proof.
  intros Hk. rewrite <- (take_drop_middle _ _ _ Hk).
  rewrite concat_app, concat_cons, !length_app. lia.
Qed.

Lemma pool_shape_length_sem s fl ls k lk :
  pool_shape s fl ls → ls !! k = Some lk → (length lk ≤ NPOOL)%nat.
Proof.
  intros [_ _ _ Hp] Hk. apply Permutation_length in Hp.
  rewrite length_app, length_seq in Hp.
  pose proof (length_concat_lookup _ _ _ Hk). lia.
Qed.

Lemma free_nodes_shape s fl ls : pool_shape s fl ls → free_nodes s = fl.
Proof.
  intros Hsh. unfold free_nodes. apply walk_chain; [by destruct Hsh|].
  pose proof (pool_shape_length_free _ _ _ Hsh). unfold list_fuel. lia.
Qed.

Lemma sem_nodes_shape s fl ls k lk :
  pool_shape s fl ls → ls !! k = Some lk → sem_nodes s k = lk.
Proof.
  intros Hsh Hk. unfold sem_nodes.
  destruct (pool_shape_sem _ _ _ _ _ Hsh Hk) as (sm & -> & Hc).
  apply walk_chain; [done|].
  pose proof (pool_shape_length_sem _ _ _ _ _ Hsh Hk). unfold list_fuel. lia.
Qed.

Lemma sem_nodes_invalid s k : sems s !! k = None → sem_nodes s k = [].
Proof. unfold sem_nodes. by intros ->. Qed.

Lemma pool_shape_NoDup s fl ls : pool_shape s fl ls → NoDup (fl ++ concat ls).
Proof. intros [_ _ _ Hp]. rewrite Hp. apply NoDup_seq. Qed.

(** *** The invariant of the holder store *)

Record store_wf (s : kstate) : Prop := {
  sw_pool : pooled cfg = true → pool_ok s;
  sw_uniq : ∀ k, NoDup (entry_htcb s <$> holders s k)
}.

End Store.

(** ** Finding, freeing and allocating entries *)

Section StoreOps.

Variable cfg : config.

Local Abbreviation NPOOL := (CONFIG_SEM_PREALLOCHOLDERS cfg).

Definition shape_ok (s : kstate) : Prop :=
  pooled cfg = true → ∃ fl ls, pool_shape cfg s fl ls.

Lemma entry_htcb_lookup s p h :
  lookup_holder p s = Some h → entry_htcb s p = htcb h.
Proof. unfold entry_htcb. by intros ->. Qed.

Lemma entry_counts_lookup s p h :
  lookup_holder p s = Some h → entry_counts s p = counts h.
Proof. unfold entry_counts. by intros ->. Qed.

Lemma findholder_list_spec s t l : ∀ cur fuel,
  chain (g_holderalloc s) cur l → (length l < fuel)%nat →
  findholder_list fuel t cur s =
    Ret (head (filter (λ p, entry_htcb s p = t) (Prealloc <$> l))) s.
Proof.
  induction l as [|i l IH]; intros cur fuel Hc Hfuel; inversion Hc; subst.
  - by destruct fuel.
  - destruct fuel as [|fuel]; simpl in Hfuel; [lia|]. simpl.
    assert (Hl : lookup_holder (Prealloc i) s = Some h) by done.
    rewrite (bind_Ret _ _ _ _ _ (read_htcb_Ret _ _ _ Hl)).
    rewrite filter_cons, (entry_htcb_lookup _ _ _ Hl).
    destruct (decide (htcb h = t)) as [Heq|Hne].
    + by rewrite bool_decide_eq_true_2.
    + rewrite bool_decide_eq_false_2 by done.
      rewrite (bind_Ret _ _ _ _ _ (read_flink_Ret _ _ _ Hl)).
      apply IH; [done|lia].
Qed.

Lemma entries_pooled s fl ls k lk :
  pooled cfg = true → pool_shape cfg s fl ls → ls !! k = Some lk →
  entries cfg s k = Prealloc <$> lk.
Proof.
  intros Hp Hsh Hk. unfold entries. rewrite Hp.
  by rewrite (sem_nodes_shape _ _ _ _ _ _ Hsh Hk).
Qed.

Lemma entries_builtin s k sm :
  pooled cfg = false → sems s !! k = Some sm →
  entries cfg s k = [Builtin k 0; Builtin k 1].
Proof. intros Hp Hk. unfold entries. by rewrite Hp, Hk. Qed.

Lemma entries_invalid s k : sems s !! k = None → entries cfg s k = [].
Proof.
  intros Hk. unfold entries. rewrite (sem_nodes_invalid _ _ _ Hk), Hk.
  by destruct (pooled cfg).
Qed.

Lemma lookup_builtin s k i sm :
  sems s !! k = Some sm → lookup_holder (Builtin k i) s = holder_at sm i.
Proof. simpl. by intros ->. Qed.

Lemma lookup_builtin0 s k sm :
  sems s !! k = Some sm → lookup_holder (Builtin k 0) s = Some (holder0 sm).
Proof. simpl. by intros ->. Qed.

Lemma lookup_builtin1 s k sm :
  sems s !! k = Some sm → lookup_holder (Builtin k 1) s = Some (holder1 sm).
Proof. simpl. by intros ->. Qed.

(** [nxsem_findholder] returns the first entry with the key and leaves
    the state alone. *)
Lemma findholder_spec s k t :
  shape_ok s → is_Some (sems s !! k) →
  nxsem_findholder cfg k t s = Ret (find_entry cfg s k t) s.
Proof.
  intros Hshape [sm Hsm]. unfold nxsem_findholder, find_entry.
  destruct (pooled cfg) eqn:Hp.
  - destruct (Hshape Hp) as (fl & ls & Hsh).
    destruct (pool_shape_sem_l _ _ _ _ _ _ Hsh Hsm) as (lk & Hlk & Hc).
    rewrite (bind_Ret _ _ _ _ _ (read_hhead_Ret _ _ _ Hsm)).
    rewrite (entries_pooled _ _ _ _ _ Hp Hsh Hlk).
    apply findholder_list_spec; [done|].
    pose proof (pool_shape_length_sem _ _ _ _ _ _ Hsh Hlk).
    unfold list_fuel. lia.
  - rewrite (entries_builtin _ _ _ Hp Hsm). simpl.
    pose proof (lookup_builtin0 s k sm Hsm) as H0.
    pose proof (lookup_builtin1 s k sm Hsm) as H1.
    rewrite (bind_Ret _ _ _ _ _ (read_htcb_Ret _ _ _ H0)).
    rewrite !filter_cons, filter_nil.
    rewrite (entry_htcb_lookup _ _ _ H0), (entry_htcb_lookup _ _ _ H1).
    destruct (decide (htcb (holder0 sm) = t)) as [Heq|Hne].
    + by rewrite bool_decide_eq_true_2.
    + rewrite bool_decide_eq_false_2 by done.
      rewrite (bind_Ret _ _ _ _ _ (read_htcb_Ret _ _ _ H1)).
      destruct (decide (htcb (holder1 sm) = t)) as [Heq1|Hne1].
      * by rewrite bool_decide_eq_true_2.
      * by rewrite bool_decide_eq_false_2.
Qed.

Lemma find_entry_Some s k t p :
  find_entry cfg s k t = Some p → p ∈ entries cfg s k ∧ entry_htcb s p = t.
Proof.
  unfold find_entry. intros H. apply head_Some_elem_of in H.
  by apply list_elem_of_filter in H as [? ?].
Qed.

Lemma find_entry_None s k t p :
  find_entry cfg s k t = None → p ∈ entries cfg s k → entry_htcb s p ≠ t.
Proof.
  unfold find_entry. intros H Hp Heq. apply head_None in H.
  assert (Hin : p ∈ filter (λ p, entry_htcb s p = t) (entries cfg s k))
    by (by apply list_elem_of_filter).
  rewrite H in Hin. by apply elem_of_nil in Hin.
Qed.

(** *** Updates that keep the links *)

Lemma pool_shape_store_content s fl ls i h x :
  pool_shape cfg s fl ls →
  g_holderalloc s !! i = Some h → flink x = flink h →
  pool_shape cfg (store_holder (Prealloc i) x s) fl ls.
Proof.
  intros [Hlen Hfree Hsems Hperm] Hi Hfl. split; simpl.
  - by rewrite length_insert.
  - by eapply lseg_insert_same_flink.
  - eapply Forall2_impl; [done|]. intros sm l Hc.
    by eapply lseg_insert_same_flink.
  - done.
Qed.

Lemma pool_shape_set_trace s fl ls t :
  pool_shape cfg s fl ls → pool_shape cfg (set_trace t s) fl ls.
Proof. by intros [? ? ? ?]. Qed.

Lemma pool_shape_set_tcbs s fl ls m :
  pool_shape cfg s fl ls → pool_shape cfg (set_tcbs m s) fl ls.
Proof. by intros [? ? ? ?]. Qed.

(** *** The search loop of [nxsem_freeholder] *)

Definition last_ptr (prev : option nat) (l : list nat) : option nat :=
  match last l with
  | Some i => Some i
  | None => prev
  end.

Lemma freeholder_search_found s p l1 l2 : ∀ cur prev fuel,
  chain (g_holderalloc s) cur (l1 ++ p :: l2) → p ∉ l1 →
  (length l1 ≤ fuel)%nat →
  freeholder_search fuel (Prealloc p) prev cur s
    = Ret (last_ptr prev l1, Some p) s.
Proof.
  induction l1 as [|i l1 IH]; intros cur prev fuel Hc Hnotin Hfuel;
    inversion Hc; subst.
  - destruct fuel; cbn [freeholder_search app]; by rewrite bool_decide_eq_true_2.
  - apply not_elem_of_cons in Hnotin as [Hne Hnotin].
    destruct fuel as [|fuel]; simpl in Hfuel; [lia|]. cbn [freeholder_search].
    rewrite bool_decide_eq_false_2 by congruence.
    assert (Hl : lookup_holder (Prealloc i) s = Some h) by done.
    rewrite (bind_Ret _ _ _ _ _ (read_flink_Ret _ _ _ Hl)).
    rewrite (IH _ (Some i) fuel); [|done|done|lia].
    f_equal. f_equal. unfold last_ptr. rewrite last_cons.
    by destruct (last l1).
Qed.

(** *** Lists of lists of nodes *)

Lemma concat_lookup_perm {A} (ls : list (list A)) k lk :
  ls !! k = Some lk → concat ls ≡ₚ lk ++ concat (delete k ls).
Proof.
  intros Hk. rewrite <- (take_drop_middle _ _ _ Hk) at 1.
  rewrite delete_take_drop, !concat_app, concat_cons.
  by rewrite !(assoc (++)), (comm (++) lk).
Qed.

Lemma concat_insert_perm {A} (ls : list (list A)) k lk lk' :
  ls !! k = Some lk → concat (<[k := lk']> ls) ≡ₚ lk' ++ concat (delete k ls).
Proof.
  intros Hk. rewrite insert_take_drop by (by eapply lookup_lt_Some).
  rewrite delete_take_drop, !concat_app, concat_cons.
  by rewrite !(assoc (++)), (comm (++) lk').
Qed.

Lemma elem_of_concat_delete {A} (ls : list (list A)) k k' lk' x :
  ls !! k' = Some lk' → k ≠ k' → x ∈ lk' → x ∈ concat (delete k ls).
Proof.
  intros Hk' Hne Hx.
  destruct (decide (k' < k)%nat) as [Hlt|Hge].
  - eapply (elem_of_concat_lookup _ k'); [|done].
    by rewrite list_lookup_delete_lt.
  - eapply (elem_of_concat_lookup _ (pred k')); [|done].
    rewrite list_lookup_delete_ge by lia.
    replace (S (pred k')) with k' by lia. done.
Qed.

Lemma pool_nodes_split s fl ls k lk :
  pool_shape cfg s fl ls → ls !! k = Some lk →
  NoDup (fl ++ lk ++ concat (delete k ls)).
Proof.
  intros Hsh Hk. pose proof (pool_shape_NoDup _ _ _ _ Hsh) as Hnd.
  by rewrite (concat_lookup_perm _ _ _ Hk) in Hnd.
Qed.

Lemma pool_free_not_sem s fl ls k lk i :
  pool_shape cfg s fl ls → ls !! k = Some lk → i ∈ fl → i ∉ lk.
Proof.
  intros Hsh Hk Hi Hi'. pose proof (pool_nodes_split _ _ _ _ _ Hsh Hk) as Hnd.
  apply NoDup_app in Hnd as (_ & Hdis & _). apply (Hdis i Hi).
  apply elem_of_app. by left.
Qed.

Lemma pool_sem_NoDup s fl ls k lk :
  pool_shape cfg s fl ls → ls !! k = Some lk → NoDup lk.
Proof.
  intros Hsh Hk. pose proof (pool_nodes_split _ _ _ _ _ Hsh Hk) as Hnd.
  apply NoDup_app in Hnd as (_ & _ & Hnd).
  by apply NoDup_app in Hnd as (? & _ & _).
Qed.

Lemma pool_sem_disjoint s fl ls k k' lk lk' i :
  pool_shape cfg s fl ls → ls !! k = Some lk → ls !! k' = Some lk' →
  k ≠ k' → i ∈ lk → i ∉ lk'.
Proof.
  intros Hsh Hk Hk' Hne Hi Hi'.
  pose proof (pool_nodes_split _ _ _ _ _ Hsh Hk) as Hnd.
  apply NoDup_app in Hnd as (_ & _ & Hnd).
  apply NoDup_app in Hnd as (_ & Hdis & _). apply (Hdis i Hi).
  by eapply elem_of_concat_delete.
Qed.

Lemma pool_shape_lookup s fl ls k lk i :
  pool_shape cfg s fl ls → ls !! k = Some lk → i ∈ lk →
  is_Some (g_holderalloc s !! i).
Proof.
  intros Hsh Hk Hi.
  destruct (pool_shape_sem _ _ _ _ _ _ Hsh Hk) as (sm & _ & Hc).
  by eapply lseg_lookup.
Qed.

(** Heaps that agree outside a set of nodes. *)
Lemma lseg_agree heap heap' p l q :
  lseg heap p l q → (∀ i, i ∈ l → heap' !! i = heap !! i) →
  lseg heap' p l q.
Proof.
  intros H Hag. eapply lseg_ext; [done|].
  intros i h Hi Hh. exists h. by rewrite Hag.
Qed.

(** What an operation on the holder store leaves alone. *)
Record store_frame (s s' : kstate) : Prop := {
  sf_tcbs : tcbs s' = tcbs s;
  sf_running : g_running s' = g_running s;
  sf_irq : g_irq s' = g_irq s;
  sf_sems : length (sems s') = length (sems s)
}.

Lemma store_frame_refl s : store_frame s s.
Proof. by split. Qed.

Lemma store_frame_trans s1 s2 s3 :
  store_frame s1 s2 → store_frame s2 s3 → store_frame s1 s3.
Proof. intros [? ? ? ?] [? ? ? ?]. split; congruence. Qed.

Lemma store_frame_store_holder p x s : store_frame s (store_holder p x s).
Proof.
  split.
  - apply tcbs_store_holder.
  - apply g_running_store_holder.
  - apply g_irq_store_holder.
  - destruct p as [k i|i]; simpl; [|done].
    destruct (sems s !! k); [|done]. simpl. by rewrite length_insert.
Qed.

Lemma store_frame_log e s : store_frame s (log_event e s).
Proof. by split. Qed.

Lemma store_frame_valid s s' k :
  store_frame s s' → is_Some (sems s !! k) → is_Some (sems s' !! k).
Proof.
  intros [_ _ _ Hlen] Hk. apply lookup_lt_is_Some. rewrite Hlen.
  by apply lookup_lt_is_Some.
Qed.

(** The contents of the entries other than [p] are the same. *)
Definition same_entries_except (p : holder_ptr) (s s' : kstate) : Prop :=
  ∀ q, q ≠ p →
    entry_htcb s' q = entry_htcb s q ∧ entry_counts s' q = entry_counts s q.

(** Unlinking the node [p] from the list of semaphore [k] and pushing it
    on the free list. *)
Lemma freeholder_pool s fl ls k l1 p l2 :
  pooled cfg = true →
  pool_shape cfg s fl ls →
  ls !! k = Some (l1 ++ p :: l2) →
  ∃ s', nxsem_freeholder cfg k (Prealloc p) s = Ret tt s' ∧
        pool_shape cfg s' (p :: fl) (<[k := l1 ++ l2]> ls) ∧
        same_entries_except (Prealloc p) s s' ∧
        entry_htcb s' (Prealloc p) = None ∧
        entry_counts s' (Prealloc p) = 0 ∧
        store_frame s s' ∧
        trace s' = trace s ++ [EvFree k (Prealloc p)].
Proof.
  intros Hpool Hsh Hk.
  destruct (pool_shape_sem _ _ _ _ _ _ Hsh Hk) as (sm & Hsm & Hc).
  pose proof (pool_sem_NoDup _ _ _ _ _ Hsh Hk) as Hnd.
  apply NoDup_app in Hnd as (Hnd1 & Hdis & Hnd2).
  apply NoDup_cons in Hnd2 as [Hp2 Hnd2].
  assert (Hp1 : p ∉ l1).
  { intros Hin. apply (Hdis p Hin). apply elem_of_cons. by left. }
  destruct (lseg_app_inv _ _ _ _ _ Hc) as [Hc1 Hc2]. simpl in Hc1, Hc2.
  inversion Hc2 as [|? h ? ? Hh Hc3]; subst.
  unfold nxsem_freeholder.
  rewrite (bind_Ret _ _ _ _ _ (mark_Ret _ _)).
  set (s1 := log_event (EvFree k (Prealloc p)) s).
  assert (Hl1 : lookup_holder (Prealloc p) s1 = Some h) by done.
  rewrite (bind_Ret _ _ _ _ _ (write_htcb_Ret _ _ _ None Hl1)).
  set (s2 := store_holder (Prealloc p) (with_htcb None h) s1).
  assert (Hl2 : lookup_holder (Prealloc p) s2 = Some (with_htcb None h))
    by (by eapply lookup_holder_store_eq).
  rewrite (bind_Ret _ _ _ _ _ (write_counts_Ret _ _ _ 0 Hl2)).
  set (h3 := with_counts 0 (with_htcb None h)).
  set (s3 := store_holder (Prealloc p) h3 s2).
  assert (Hl3 : lookup_holder (Prealloc p) s3 = Some h3)
    by (by eapply lookup_holder_store_eq).
  assert (Hsh3 : pool_shape cfg s3 fl ls).
  { eapply pool_shape_store_content; [|exact Hl2|done].
    eapply pool_shape_store_content; [|exact Hl1|done].
    by apply pool_shape_set_trace. }
  destruct (pool_shape_sem _ _ _ _ _ _ Hsh3 Hk) as (sm3 & Hsm3 & Hc').
  assert (sm3 = sm) as -> by (simpl in Hsm3; congruence).
  rewrite Hpool.
  rewrite (bind_Ret _ _ _ _ _ (read_hhead_Ret _ _ _ Hsm3)).
  assert (Hfuel : (length l1 ≤ list_fuel cfg)%nat).
  { pose proof (pool_shape_length_sem _ _ _ _ _ _ Hsh Hk) as Hlen.
    rewrite length_app in Hlen. unfold list_fuel. lia. }
  rewrite (bind_Ret _ _ _ _ _
             (freeholder_search_found s3 p l1 l2 (hhead sm) None
                (list_fuel cfg) Hc' Hp1 Hfuel)).
  rewrite (bind_Ret _ _ _ _ _ (read_flink_Ret _ _ _ Hl3)).
  change (flink h3) with (flink h).
  assert (Hfree : ∀ i, i ∈ fl → i ≠ p ∧ i ∉ l1 ∧ i ∉ l2).
  { intros i Hi. pose proof (pool_free_not_sem _ _ _ _ _ i Hsh Hk Hi) as Hn.
    rewrite elem_of_app, elem_of_cons in Hn. naive_solver. }
  assert (Hother : ∀ k' lk' i, ls !! k' = Some lk' → k ≠ k' → i ∈ lk' →
            i ≠ p ∧ i ∉ l1).
  { intros k' lk' i Hk' Hne Hi.
    assert (Hn : i ∉ l1 ++ p :: l2).
    { intros Hin. by eapply (pool_sem_disjoint _ _ _ k k' _ _ i Hsh Hk Hk'). }
    rewrite elem_of_app, elem_of_cons in Hn. naive_solver. }
  destruct (last l1) as [pv|] eqn:Hlast.
  - (* the node has a predecessor *)
    assert (Hl1eq : ∃ l1', l1 = l1' ++ [pv]).
    { apply last_Some in Hlast as [l1' ->]. eauto. }
    destruct Hl1eq as [l1' ->].
    assert (Hpv : pv ≠ p).
    { intros ->. apply Hp1. apply elem_of_app. right. by apply elem_of_cons; left. }
    destruct (lseg_app_inv _ _ _ _ _ Hc1) as [Hc1a Hc1b]. simpl in Hc1a, Hc1b.
    inversion Hc1b as [|? hpv ? ? Hhpv Hc1c]; subst.
    apply lseg_head in Hc1c. simpl in Hc1c.
    assert (Hlpv : lookup_holder (Prealloc pv) s3 = Some hpv).
    { unfold s3, s2. rewrite !lookup_holder_store_ne by congruence. done. }
    unfold last_ptr. rewrite Hlast.
    rewrite (bind_Ret _ _ _ _ _ (write_flink_Ret _ _ _ (flink h) Hlpv)).
    set (s4 := store_holder (Prealloc pv) (with_flink (flink h) hpv) s3).
    assert (Hl4 : lookup_holder (Prealloc p) s4 = Some h3).
    { unfold s4. rewrite lookup_holder_store_ne by congruence. done. }
    unfold gets at 1. unfold bind at 1.
    rewrite (bind_Ret _ _ _ _ _ (write_flink_Ret _ _ _ (g_freeholders s4) Hl4)).
    eexists. split; [reflexivity|].
    set (s5 := store_holder (Prealloc p) (with_flink (g_freeholders s4) h3) s4).
    assert (Hheap : ∀ i, i ≠ p → i ≠ pv →
              g_holderalloc s5 !! i = g_holderalloc s !! i).
    { intros i Hip Hipv. simpl. by rewrite !list_lookup_insert_ne by done. }
    assert (Hnd1' : NoDup (l1' ++ [pv])) by done.
    apply NoDup_app in Hnd1' as (_ & Hdis1 & _).
    split; [split|].
    + simpl. rewrite !length_insert. by destruct Hsh.
    + simpl. econstructor.
      * rewrite list_lookup_insert_eq; [done|].
        rewrite !length_insert. by eapply lookup_lt_Some.
      * simpl. destruct Hsh as [_ Hfl _ _].
        eapply lseg_agree; [exact Hfl|]. intros i Hi.
        destruct (Hfree i Hi) as (? & Hn1 & ?).
        apply Hheap; [done|]. intros ->. apply Hn1.
        apply elem_of_app. right. by apply elem_of_cons; left.
    + apply Forall2_same_length_lookup. split.
      { rewrite length_insert. destruct Hsh as [_ _ Hs _].
        by apply Forall2_length in Hs. }
      intros k' sm' lk' Hsm' Hlk'.
      change (sems (set_freeholders (Some p) s5)) with (sems s) in Hsm'.
      change (g_holderalloc (set_freeholders (Some p) s5))
        with (g_holderalloc s5).
      destruct (decide (k = k')) as [<-|Hne].
      * rewrite list_lookup_insert_eq in Hlk' by (by eapply lookup_lt_Some).
        injection Hlk' as <-. assert (sm' = sm) as -> by congruence.
        rewrite <- (assoc (++)). simpl.
        eapply lseg_app.
        { eapply lseg_agree; [exact Hc1a|]. intros i Hi.
          apply Hheap.
          - intros ->. apply Hp1. apply elem_of_app. by left.
          - intros ->. apply (Hdis1 pv Hi). by apply elem_of_cons; left. }
        econstructor.
        { simpl. rewrite list_lookup_insert_ne by done.
          rewrite list_lookup_insert_eq; [done|].
          rewrite !length_insert. by eapply lookup_lt_Some. }
        simpl. eapply lseg_agree; [exact Hc3|]. intros i Hi.
        apply Hheap.
        { intros ->. done. }
        { intros ->. apply (Hdis pv).
          - apply elem_of_app. right. by apply elem_of_cons; left.
          - apply elem_of_cons. by right. }
      * rewrite list_lookup_insert_ne in Hlk' by done.
        destruct (pool_shape_sem _ _ _ _ _ _ Hsh Hlk') as (sm'' & Hsm'' & Hc'').
        assert (sm'' = sm') as -> by congruence.
        eapply lseg_agree; [exact Hc''|]. intros i Hi.
        destruct (Hother _ _ i Hlk' Hne Hi) as [Hip Hi1].
        apply Hheap; [done|]. intros ->. apply Hi1.
        apply elem_of_app. right. by apply elem_of_cons; left.
    + destruct Hsh as [_ _ _ Hperm]. rewrite <- Hperm.
      rewrite (concat_insert_perm _ _ _ _ Hk), (concat_lookup_perm _ _ _ Hk).
      simpl. rewrite <- !(assoc (++)). simpl.
      transitivity (p :: (fl ++ l1' ++ [pv]) ++ l2 ++ concat (delete k ls)).
      { by rewrite <- !(assoc (++)). }
      rewrite Permutation_middle. by rewrite <- !(assoc (++)).
    + split; [|split; [|split; [|split]]].
      * intros q Hq. unfold entry_htcb, entry_counts.
        destruct q as [kq iq|iq]; [done|].
        assert (iq ≠ p) by congruence.
        destruct (decide (iq = pv)) as [->|Hqpv].
        { simpl. rewrite list_lookup_insert_ne by done.
          rewrite list_lookup_insert_eq
            by (rewrite !length_insert; by eapply lookup_lt_Some).
          simpl in Hhpv. by rewrite Hhpv. }
        { simpl. by rewrite !list_lookup_insert_ne by done. }
      * unfold entry_htcb. simpl.
        rewrite list_lookup_insert_eq; [done|].
        rewrite !length_insert. by eapply lookup_lt_Some.
      * unfold entry_counts. simpl.
        rewrite list_lookup_insert_eq; [done|].
        rewrite !length_insert. by eapply lookup_lt_Some.
      * by split.
      * done.
  - (* the node is the head of the list *)
    assert (l1 = []) as -> by (by apply last_None).
    apply lseg_head in Hc1. simpl in Hc1.
    unfold last_ptr. rewrite Hlast.
    rewrite (bind_Ret _ _ _ _ _ (write_hhead_Ret _ _ _ (flink h) Hsm3)).
    set (s4 := store_sem k (with_hhead (flink h) sm) s3).
    assert (Hl4 : lookup_holder (Prealloc p) s4 = Some h3) by done.
    unfold gets at 1. unfold bind at 1.
    rewrite (bind_Ret _ _ _ _ _ (write_flink_Ret _ _ _ (g_freeholders s4) Hl4)).
    eexists. split; [reflexivity|].
    set (s5 := store_holder (Prealloc p) (with_flink (g_freeholders s4) h3) s4).
    assert (Hheap : ∀ i, i ≠ p →
              g_holderalloc s5 !! i = g_holderalloc s !! i).
    { intros i Hip. simpl. by rewrite !list_lookup_insert_ne by done. }
    split; [split|].
    + simpl. rewrite !length_insert. by destruct Hsh.
    + simpl. econstructor.
      * rewrite list_lookup_insert_eq; [done|].
        rewrite !length_insert. by eapply lookup_lt_Some.
      * simpl. destruct Hsh as [_ Hfl _ _].
        eapply lseg_agree; [exact Hfl|]. intros i Hi.
        destruct (Hfree i Hi) as (? & Hn1 & ?). by apply Hheap.
    + apply Forall2_same_length_lookup. split.
      { simpl. rewrite !length_insert. destruct Hsh as [_ _ Hs _].
        by apply Forall2_length in Hs. }
      intros k' sm' lk' Hsm' Hlk'.
      change (sems (set_freeholders (Some p) s5))
        with (<[k := with_hhead (flink h) sm]> (sems s)) in Hsm'.
      change (g_holderalloc (set_freeholders (Some p) s5))
        with (g_holderalloc s5).
      destruct (decide (k = k')) as [<-|Hne].
      * rewrite list_lookup_insert_eq in Hlk' by (by eapply lookup_lt_Some).
        rewrite list_lookup_insert_eq in Hsm' by (by eapply lookup_lt_Some).
        injection Hlk' as <-. injection Hsm' as <-. simpl.
        eapply lseg_agree; [exact Hc3|]. intros i Hi.
        apply Hheap. intros ->. done.
      * rewrite list_lookup_insert_ne in Hlk' by done.
        rewrite list_lookup_insert_ne in Hsm' by done.
        destruct (pool_shape_sem _ _ _ _ _ _ Hsh Hlk') as (sm'' & Hsm'' & Hc'').
        assert (sm'' = sm') as -> by congruence.
        eapply lseg_agree; [exact Hc''|]. intros i Hi.
        destruct (Hother _ _ i Hlk' Hne Hi) as [Hip Hi1].
        by apply Hheap.
    + destruct Hsh as [_ _ _ Hperm]. rewrite <- Hperm.
      rewrite (concat_insert_perm _ _ _ _ Hk), (concat_lookup_perm _ _ _ Hk).
      simpl. by rewrite <- Permutation_middle.
    + split; [|split; [|split; [|split]]].
      * intros q Hq. unfold entry_htcb, entry_counts.
        destruct q as [kq iq|iq].
        { simpl. destruct (decide (kq = k)) as [->|Hkq].
          - rewrite list_lookup_insert_eq by (by eapply lookup_lt_Some).
            rewrite Hsm. simpl. by destruct iq as [|[|iq]].
          - by rewrite list_lookup_insert_ne. }
        assert (iq ≠ p) by congruence.
        simpl. by rewrite !list_lookup_insert_ne by done.
      * unfold entry_htcb. simpl.
        rewrite list_lookup_insert_eq; [done|].
        rewrite !length_insert. by eapply lookup_lt_Some.
      * unfold entry_counts. simpl.
        rewrite list_lookup_insert_eq; [done|].
        rewrite !length_insert. by eapply lookup_lt_Some.
      * split; try done. simpl. by rewrite length_insert.
      * done.
Qed.

(** *** Facts about entries *)

Lemma filter_ext_elem {A} (P Q : A → Prop)
    `{!∀ x, Decision (P x), !∀ x, Decision (Q x)} (l : list A) :
  (∀ x, x ∈ l → (P x ↔ Q x)) → filter P l = filter Q l.
Proof.
  induction l as [|a l IH]; intros Hext; [done|].
  rewrite !filter_cons.
  rewrite IH by (intros x Hx; apply Hext; apply elem_of_cons; auto).
  assert (Ha : P a ↔ Q a) by (apply Hext; apply elem_of_cons; auto).
  destruct (decide (P a)), (decide (Q a)); tauto.
Qed.

Lemma fmap_ext_elem {A B} (f g : A → B) (l : list A) :
  (∀ x, x ∈ l → f x = g x) → f <$> l = g <$> l.
Proof.
  induction l as [|a l IH]; intros Hext; [done|]. rewrite !fmap_cons.
  f_equal.
  - apply Hext. apply elem_of_cons; auto.
  - apply IH. intros x Hx. apply Hext. apply elem_of_cons; auto.
Qed.

Global Instance Prealloc_inj : Inj (=) (=) Prealloc.
Proof. by intros ? ? [= ->]. Qed.

Lemma entries_NoDup s k : shape_ok s → NoDup (entries cfg s k).
Proof.
  intros Hshape. destruct (sems s !! k) as [sm|] eqn:Hsm.
  - destruct (pooled cfg) eqn:Hp.
    + destruct (Hshape Hp) as (fl & ls & Hsh).
      destruct (pool_shape_sem_l _ _ _ _ _ _ Hsh Hsm) as (lk & Hlk & _).
      rewrite (entries_pooled _ _ _ _ _ Hp Hsh Hlk).
      apply NoDup_fmap_2; [apply _|]. by eapply pool_sem_NoDup.
    + rewrite (entries_builtin _ _ _ Hp Hsm).
      apply NoDup_cons. split; [|apply NoDup_singleton].
      intros Hin. apply list_elem_of_singleton in Hin. done.
  - rewrite entries_invalid by done. constructor.
Qed.

Lemma entries_valid_sem s k q :
  q ∈ entries cfg s k → is_Some (sems s !! k).
Proof.
  intros Hq. destruct (sems s !! k) eqn:Hk; [eauto|].
  rewrite entries_invalid in Hq by done. by apply elem_of_nil in Hq.
Qed.

Lemma entries_lookup s k q :
  shape_ok s → q ∈ entries cfg s k → is_Some (lookup_holder q s).
Proof.
  intros Hshape Hq. destruct (entries_valid_sem _ _ _ Hq) as [sm Hsm].
  destruct (pooled cfg) eqn:Hp.
  - destruct (Hshape Hp) as (fl & ls & Hsh).
    destruct (pool_shape_sem_l _ _ _ _ _ _ Hsh Hsm) as (lk & Hlk & _).
    rewrite (entries_pooled _ _ _ _ _ Hp Hsh Hlk) in Hq.
    apply list_elem_of_fmap in Hq as (i & -> & Hi).
    by eapply pool_shape_lookup.
  - rewrite (entries_builtin _ _ _ Hp Hsm) in Hq.
    apply elem_of_cons in Hq as [->|Hq].
    { rewrite (lookup_builtin0 _ _ _ Hsm). eauto. }
    apply list_elem_of_singleton in Hq as ->.
    rewrite (lookup_builtin1 _ _ _ Hsm). eauto.
Qed.

Lemma entries_disjoint s k k' q :
  shape_ok s → k ≠ k' → q ∈ entries cfg s k → q ∉ entries cfg s k'.
Proof.
  intros Hshape Hne Hq Hq'.
  destruct (entries_valid_sem _ _ _ Hq) as [sm Hsm].
  destruct (entries_valid_sem _ _ _ Hq') as [sm' Hsm'].
  destruct (pooled cfg) eqn:Hp.
  - destruct (Hshape Hp) as (fl & ls & Hsh).
    destruct (pool_shape_sem_l _ _ _ _ _ _ Hsh Hsm) as (lk & Hlk & _).
    destruct (pool_shape_sem_l _ _ _ _ _ _ Hsh Hsm') as (lk' & Hlk' & _).
    rewrite (entries_pooled _ _ _ _ _ Hp Hsh Hlk) in Hq.
    rewrite (entries_pooled _ _ _ _ _ Hp Hsh Hlk') in Hq'.
    apply list_elem_of_fmap in Hq as (i & -> & Hi).
    apply list_elem_of_fmap in Hq' as (i' & [= <-] & Hi').
    by eapply (pool_sem_disjoint s fl ls k k').
  - rewrite (entries_builtin _ _ _ Hp Hsm) in Hq.
    rewrite (entries_builtin _ _ _ Hp Hsm') in Hq'.
    rewrite !elem_of_cons, elem_of_nil in Hq, Hq'. naive_solver.
Qed.

Lemma holders_subset s k q : q ∈ holders cfg s k → q ∈ entries cfg s k ∧ live s q.
Proof. unfold holders. intros H. by apply list_elem_of_filter in H as [? ?]. Qed.

Lemma holders_unchanged s s' k :
  entries cfg s' k = entries cfg s k →
  (∀ q, q ∈ entries cfg s k → entry_htcb s' q = entry_htcb s q) →
  holders cfg s' k = holders cfg s k ∧
  entry_htcb s' <$> holders cfg s' k = entry_htcb s <$> holders cfg s k.
Proof.
  intros He Hh.
  assert (Heq : holders cfg s' k = holders cfg s k).
  { unfold holders. rewrite He. apply filter_ext_elem.
    intros q Hq. unfold live. by rewrite Hh. }
  split; [done|]. rewrite Heq. apply fmap_ext_elem.
  intros q Hq. apply Hh. by apply holders_subset in Hq as [? _].
Qed.

Lemma freeholder_builtin s p h k :
  pooled cfg = false → lookup_holder p s = Some h →
  ∃ s', nxsem_freeholder cfg k p s = Ret tt s' ∧
        same_entries_except p s s' ∧
        entry_htcb s' p = None ∧ entry_counts s' p = 0 ∧
        store_frame s s' ∧
        trace s' = trace s ++ [EvFree k p] ∧
        (∀ k', is_Some (sems s' !! k') ↔ is_Some (sems s !! k')).
Proof.
  intros Hpool Hl. unfold nxsem_freeholder.
  rewrite (bind_Ret _ _ _ _ _ (mark_Ret _ _)).
  set (s1 := log_event (EvFree k p) s).
  assert (Hl1 : lookup_holder p s1 = Some h) by (by destruct p).
  rewrite (bind_Ret _ _ _ _ _ (write_htcb_Ret _ _ _ None Hl1)).
  set (s2 := store_holder p (with_htcb None h) s1).
  assert (Hl2 : lookup_holder p s2 = Some (with_htcb None h))
    by (by eapply lookup_holder_store_eq).
  rewrite (bind_Ret _ _ _ _ _ (write_counts_Ret _ _ _ 0 Hl2)).
  rewrite Hpool. eexists. split; [reflexivity|].
  set (s3 := store_holder p _ s2).
  assert (Hl3 : lookup_holder p s3 = Some (with_counts 0 (with_htcb None h)))
    by (by eapply lookup_holder_store_eq).
  assert (Hfr : store_frame s s3).
  { eapply store_frame_trans; [apply (store_frame_log (EvFree k p))|].
    eapply store_frame_trans; apply store_frame_store_holder. }
  split; [|split; [|split; [|split; [|split]]]].
  - intros q Hq. unfold entry_htcb, entry_counts, s3, s2.
    rewrite !lookup_holder_store_ne by done. by destruct q.
  - by rewrite (entry_htcb_lookup _ _ _ Hl3).
  - by rewrite (entry_counts_lookup _ _ _ Hl3).
  - done.
  - unfold s3, s2. by rewrite !trace_store_holder.
  - intros k'. rewrite !lookup_lt_is_Some. by destruct Hfr as [_ _ _ ->].
Qed.

Lemma entries_split_pooled s fl ls k pre p rest :
  pooled cfg = true → pool_shape cfg s fl ls →
  entries cfg s k = pre ++ p :: rest →
  ∃ l1 i l2, ls !! k = Some (l1 ++ i :: l2) ∧ pre = Prealloc <$> l1 ∧
             p = Prealloc i ∧ rest = Prealloc <$> l2.
Proof.
  intros Hp Hsh He.
  assert (Hin : p ∈ entries cfg s k).
  { rewrite He. apply elem_of_app. right. apply elem_of_cons. by left. }
  destruct (entries_valid_sem _ _ _ Hin) as [sm Hsm].
  destruct (pool_shape_sem_l _ _ _ _ _ _ Hsh Hsm) as (lk & Hlk & _).
  rewrite (entries_pooled _ _ _ _ _ Hp Hsh Hlk) in He.
  apply fmap_app_inv in He as (l1 & l2' & -> & He & ->).
  symmetry in He. apply fmap_cons_inv in He as (i & l2 & -> & -> & ->).
  by exists l1, i, l2.
Qed.

(** [nxsem_freeholder] on an entry of the semaphore: the entry is cleared,
    in the pooled configuration it leaves the list, and the invariant of
    the store is kept. *)
Lemma freeholder_spec s k pre p rest :
  store_wf cfg s →
  entries cfg s k = pre ++ p :: rest →
  ∃ s', nxsem_freeholder cfg k p s = Ret tt s' ∧
        store_wf cfg s' ∧
        entries cfg s' k = (if pooled cfg then pre else pre ++ [p]) ++ rest ∧
        (∀ k', k' ≠ k → entries cfg s' k' = entries cfg s k') ∧
        same_entries_except p s s' ∧
        entry_htcb s' p = None ∧ entry_counts s' p = 0 ∧
        store_frame s s' ∧
        trace s' = trace s ++ [EvFree k p].
Proof.
  intros [Hpoolok Huniq] He.
  assert (Hshape : shape_ok s).
  { intros Hp. destruct (Hpoolok Hp) as (fl & ls & ? & _). eauto. }
  pose proof (entries_NoDup s k Hshape) as Hnd. rewrite He in Hnd.
  apply NoDup_app in Hnd as (Hndpre & Hdis & Hnd2).
  apply NoDup_cons in Hnd2 as [Hprest Hndrest].
  assert (Hppre : p ∉ pre).
  { intros Hin. apply (Hdis p Hin). apply elem_of_cons. by left. }
  assert (Hin : p ∈ entries cfg s k).
  { rewrite He. apply elem_of_app. right. apply elem_of_cons. by left. }
  assert (∃ s', nxsem_freeholder cfg k p s = Ret tt s' ∧
        (pooled cfg = true → pool_ok cfg s') ∧
        entries cfg s' k = (if pooled cfg then pre else pre ++ [p]) ++ rest ∧
        (∀ k', k' ≠ k → entries cfg s' k' = entries cfg s k') ∧
        same_entries_except p s s' ∧
        entry_htcb s' p = None ∧ entry_counts s' p = 0 ∧
        store_frame s s' ∧
        trace s' = trace s ++ [EvFree k p])
    as (s' & Hrun & Hpool' & He' & Heo & Hsame & Hh & Hcnt & Hfr & Htr).
  { destruct (pooled cfg) eqn:Hp.
    - destruct (Hpoolok eq_refl) as (fl & ls & Hsh & Hzero & Hlive).
      destruct (entries_split_pooled _ _ _ _ _ _ _ Hp Hsh He)
        as (l1 & i & l2 & Hlk & -> & -> & ->).
      destruct (freeholder_pool s fl ls k l1 i l2 Hp Hsh Hlk)
        as (s' & Hrun & Hsh' & Hsame & Hh & Hcnt & Hfr & Htr).
      exists s'. split; [done|].
      assert (Hlk' : <[k := l1 ++ l2]> ls !! k = Some (l1 ++ l2)).
      { apply list_lookup_insert_eq. by eapply lookup_lt_Some. }
      pose proof (pool_nodes_split _ _ _ _ _ Hsh Hlk) as Hsplit.
      split; [|split; [|split]].
      + intros _. exists (i :: fl), (<[k := l1 ++ l2]> ls).
        split; [done|]. split.
        * intros q Hq. apply elem_of_cons in Hq as [->|Hq]; [done|].
          assert (Prealloc q ≠ Prealloc i).
          { intros [= ->].
            apply (pool_free_not_sem _ _ _ _ _ _ Hsh Hlk Hq).
            apply elem_of_app. right. apply elem_of_cons. by left. }
          destruct (Hsame (Prealloc q)) as [-> ->]; [done|]. by apply Hzero.
        * intros q Hq.
          rewrite (concat_insert_perm _ _ _ _ Hlk) in Hq.
          assert (Hq' : q ∈ concat ls ∧ q ≠ i).
          { rewrite (concat_lookup_perm _ _ _ Hlk).
            apply NoDup_app in Hsplit as (_ & _ & Hnd).
            rewrite <- (assoc (++)) in Hnd. simpl in Hnd.
            apply NoDup_app in Hnd as (_ & Hd1 & Hnd).
            apply NoDup_cons in Hnd as [Hi _].
            rewrite !elem_of_app in Hq. rewrite !elem_of_app, elem_of_cons.
            split; [naive_solver|]. intros ->.
            destruct Hq as [[Hq|Hq]|Hq].
            - apply (Hd1 i Hq). apply elem_of_cons. by left.
            - apply Hi. apply elem_of_app. by left.
            - apply Hi. apply elem_of_app. by right. }
          destruct Hq' as [Hq1 Hq2].
          destruct (Hsame (Prealloc q)) as [-> _]; [congruence|].
          by apply Hlive.
      + rewrite (entries_pooled _ _ _ _ _ Hp Hsh' Hlk'). by rewrite fmap_app.
      + intros k' Hk'. unfold entries. rewrite Hp. f_equal.
        destruct (ls !! k') as [lk'|] eqn:Hlk2.
        * rewrite (sem_nodes_shape _ _ _ _ _ _ Hsh Hlk2).
          apply (sem_nodes_shape _ _ _ _ _ _ Hsh').
          by rewrite list_lookup_insert_ne.
        * assert (sems s !! k' = None).
          { destruct (sems s !! k') eqn:Hs; [|done].
            destruct (pool_shape_sem_l _ _ _ _ _ _ Hsh Hs) as (? & ? & _).
            congruence. }
          assert (sems s' !! k' = None).
          { apply lookup_ge_None. destruct Hfr as [_ _ _ ->].
            by apply lookup_ge_None. }
          by rewrite !sem_nodes_invalid.
      + done.
    - destruct (entries_lookup s k p Hshape Hin) as [h Hl].
      destruct (freeholder_builtin s p h k Hp Hl)
        as (s' & Hrun & Hsame & Hh & Hcnt & Hfr & Htr & Hval).
      exists s'. split; [done|]. split; [done|].
      assert (Hent : ∀ k', entries cfg s' k' = entries cfg s k').
      { intros k'. unfold entries. rewrite Hp.
        destruct (Hval k') as [H1 H2].
        destruct (sems s !! k') eqn:Hs, (sems s' !! k') eqn:Hs'; try done.
        - destruct H2 as [? ?]; [eauto|done].
        - destruct H1 as [? ?]; [eauto|done]. }
      split; [|split]; [|by intros; apply Hent|done].
      rewrite Hent, He. by rewrite <- (assoc (++)). }
  exists s'. split; [done|]. split; [|done].
  split; [done|].
  assert (Hcontent : ∀ q, q ≠ p → entry_htcb s' q = entry_htcb s q).
  { intros q Hq. by destruct (Hsame q Hq). }
  intros k'. destruct (decide (k' = k)) as [->|Hne].
  - assert (Hh' : holders cfg s' k = filter (live s) pre ++ filter (live s) rest).
    { unfold holders. rewrite He'.
      assert (Hpre : filter (live s') pre = filter (live s) pre).
      { apply filter_ext_elem. intros q Hq. unfold live.
        rewrite Hcontent; [done|]. intros ->. done. }
      assert (Hrest : filter (live s') rest = filter (live s) rest).
      { apply filter_ext_elem. intros q Hq. unfold live.
        rewrite Hcontent; [done|]. intros ->. done. }
      destruct (pooled cfg).
      + by rewrite filter_app, Hpre, Hrest.
      + rewrite !filter_app, Hpre, Hrest.
        rewrite (filter_cons_False _ p); [|unfold live; rewrite Hh; congruence].
        by rewrite filter_nil, app_nil_r. }
    rewrite Hh'.
    assert (Hmap : entry_htcb s' <$> (filter (live s) pre ++ filter (live s) rest)
                 = entry_htcb s <$> (filter (live s) pre ++ filter (live s) rest)).
    { apply fmap_ext_elem. intros q Hq. apply Hcontent. intros ->.
      apply elem_of_app in Hq as [Hq|Hq];
        apply list_elem_of_filter in Hq as [_ Hq]; done. }
    rewrite Hmap. eapply sublist_NoDup; [apply (Huniq k)|].
    apply fmap_sublist. unfold holders. rewrite He.
    rewrite filter_app. apply sublist_app; [done|].
    rewrite filter_cons. destruct (decide (live s p)); [|done].
    by apply sublist_cons.
  - destruct (holders_unchanged s s' k') as [_ ->]; [by apply Heo| |done].
    intros q Hq. apply Hcontent. intros ->.
    by eapply (entries_disjoint s k' k p).
Qed.

(** *** Walking the entries *)

(** Whatever the handler keeps, the walk keeps: [R] is a reflexive and
    transitive relation between the states before and after. *)
Lemma foreachholder_list_preserves (R : kstate → kstate → Prop)
    (handler : holderhandler_t) k arg :
  (∀ s, R s s) →
  (∀ s1 s2 s3, R s1 s2 → R s2 s3 → R s1 s3) →
  (∀ p s r s', handler p k arg s = Ret r s' → R s s') →
  ∀ fuel cur r s r' s',
    foreachholder_list fuel handler k arg cur r s = Ret r' s' → R s s'.
Proof.
  intros Hrefl Htrans Hh. induction fuel as [|fuel IH]; intros cur r s r' s' Hrun.
  - destruct cur as [p|]; simpl in Hrun.
    + destruct (r =? 0); [discriminate|]. inv_ret Hrun. apply Hrefl.
    + inv_ret Hrun. apply Hrefl.
  - destruct cur as [p|]; simpl in Hrun; [|inv_ret Hrun; apply Hrefl].
    destruct (r =? 0); [|inv_ret Hrun; apply Hrefl].
    apply bind_Ret_inv in Hrun as (next & s1 & Hr & Hrun).
    apply read_flink_inv in Hr as (-> & h & Hl & ->).
    apply bind_Ret_inv in Hrun as (ht & s1 & Hr & Hrun).
    apply read_htcb_inv in Hr as (-> & h' & Hl' & ->).
    apply bind_Ret_inv in Hrun as (r1 & s1 & Hr & Hrun).
    apply IH in Hrun.
    destruct (bool_decide (htcb h' ≠ None)).
    + eapply Htrans; [|exact Hrun]. by eapply Hh.
    + by inv_ret Hr.
Qed.

Lemma foreachholder_builtin_preserves (R : kstate → kstate → Prop)
    (handler : holderhandler_t) k arg :
  (∀ s, R s s) →
  (∀ s1 s2 s3, R s1 s2 → R s2 s3 → R s1 s3) →
  (∀ p s r s', handler p k arg s = Ret r s' → R s s') →
  ∀ n i r s r' s',
    foreachholder_builtin n handler k arg i r s = Ret r' s' → R s s'.
Proof.
  intros Hrefl Htrans Hh. induction n as [|n IH]; intros i r s r' s' Hrun.
  - simpl in Hrun. inv_ret Hrun. apply Hrefl.
  - simpl in Hrun.
    apply bind_Ret_inv in Hrun as (ht & s1 & Hr & Hrun).
    apply read_htcb_inv in Hr as (-> & h' & Hl' & ->).
    apply bind_Ret_inv in Hrun as (r1 & s1 & Hr & Hrun).
    apply IH in Hrun.
    destruct (bool_decide (htcb h' ≠ None)).
    + eapply Htrans; [|exact Hrun]. by eapply Hh.
    + by inv_ret Hr.
Qed.

Lemma foreachholder_preserves (R : kstate → kstate → Prop)
    (handler : holderhandler_t) k arg :
  (∀ s, R s s) →
  (∀ s1 s2 s3, R s1 s2 → R s2 s3 → R s1 s3) →
  (∀ p s r s', handler p k arg s = Ret r s' → R s s') →
  ∀ s r s', nxsem_foreachholder cfg k handler arg s = Ret r s' → R s s'.
Proof.
  intros Hrefl Htrans Hh s r s' Hrun. unfold nxsem_foreachholder in Hrun.
  destruct (pooled cfg).
  - apply bind_Ret_inv in Hrun as (hd & s1 & Hr & Hrun).
    apply read_hhead_inv in Hr as (-> & sm & Hsm & ->).
    by eapply foreachholder_list_preserves.
  - by eapply foreachholder_builtin_preserves.
Qed.

(** The rule of the walk: [Q r rest s] holds of the result [r] so far, the
    entries [rest] still to visit and the state [s].  A handler may free
    the entry it is called on, since the next entry is read before the
    call. *)
Section ForeachRule.

Variable Q : Z → list holder_ptr → kstate → Prop.
Variable handler : holderhandler_t.
Variable k : nat.
Variable arg : tcb_ptr.

Hypothesis Q_entries : ∀ r rest s,
  Q r rest s → shape_ok s ∧ ∃ pre, entries cfg s k = pre ++ rest.
Hypothesis Q_dead : ∀ r p rest s,
  Q r (p :: rest) s → entry_htcb s p = None → Q r rest s.
Hypothesis Q_live : ∀ r p rest s,
  Q r (p :: rest) s → entry_htcb s p ≠ None →
  (pooled cfg = true → r = 0) →
  ∃ r' s', handler p k arg s = Ret r' s' ∧ Q r' rest s'.

Lemma foreachholder_list_rule :
  pooled cfg = true →
  ∀ l2 fuel r s,
    Q r (Prealloc <$> l2) s → (length l2 < fuel)%nat →
    ∃ r' s' rest,
      foreachholder_list fuel handler k arg (head_ptr l2 None) r s = Ret r' s' ∧
      Q r' rest s' ∧ (rest = [] ∨ r' ≠ 0).
Proof.
  intros Hpool. induction l2 as [|i l2 IH]; intros fuel r s HQ Hfuel.
  - exists r, s, []. split; [by destruct fuel|]. split; [done|by left].
  - destruct (decide (r = 0)) as [->|Hr].
    2:{ exists r, s, (Prealloc <$> i :: l2).
        split; [by apply foreachholder_list_stops|]. split; [done|by right]. }
    destruct fuel as [|fuel]; simpl in Hfuel; [lia|].
    destruct (Q_entries _ _ _ HQ) as [Hshape [pre He]].
    destruct (Hshape Hpool) as (fl & ls & Hsh).
    rewrite fmap_cons in He.
    destruct (entries_split_pooled _ _ _ _ _ _ _ Hpool Hsh He)
      as (l1 & i' & l2' & Hlk & -> & [= <-] & Hl2).
    apply (inj (fmap (M:=list) Prealloc)) in Hl2 as <-.
    destruct (pool_shape_sem _ _ _ _ _ _ Hsh Hlk) as (sm & Hsm & Hc).
    destruct (lseg_app_inv _ _ _ _ _ Hc) as [_ Hc2]. simpl in Hc2.
    apply lseg_cons_inv in Hc2 as (_ & h & Hh & Hc3).
    assert (Hl : lookup_holder (Prealloc i) s = Some h) by done.
    cbn [foreachholder_list head_ptr]. rewrite Z.eqb_refl.
    rewrite (bind_Ret _ _ _ _ _ (read_flink_Ret _ _ _ Hl)).
    rewrite (bind_Ret _ _ _ _ _ (read_htcb_Ret _ _ _ Hl)).
    rewrite (lseg_head _ _ _ _ Hc3).
    destruct (decide (htcb h = None)) as [Hdead|Hlive].
    + rewrite bool_decide_eq_false_2 by (by intros ?).
      rewrite (bind_Ret _ _ _ _ _ (eq_refl : ret 0 s = Ret 0 s)).
      apply IH; [|lia]. eapply Q_dead; [exact HQ|].
      by rewrite (entry_htcb_lookup _ _ _ Hl).
    + rewrite bool_decide_eq_true_2 by done.
      assert (Hlive' : entry_htcb s (Prealloc i) ≠ None)
        by (by rewrite (entry_htcb_lookup _ _ _ Hl)).
      pose proof (Q_live 0 (Prealloc i) _ s HQ Hlive' (λ _, eq_refl))
        as (r' & s' & Hrun & HQ').
      rewrite (bind_Ret _ _ _ _ _ Hrun).
      apply IH; [done|lia].
Qed.

Lemma foreachholder_builtin_step i rest r s n :
  pooled cfg = false →
  Q r (Builtin k i :: rest) s →
  ∃ r' s',
    Q r' rest s' ∧
    foreachholder_builtin (S n) handler k arg i r s =
      foreachholder_builtin n handler k arg (S i) r' s'.
Proof.
  intros Hpool HQ.
  destruct (Q_entries _ _ _ HQ) as [Hshape [pre He]].
  assert (Hin : Builtin k i ∈ entries cfg s k).
  { rewrite He. apply elem_of_app. right. apply elem_of_cons. by left. }
  destruct (entries_lookup _ _ _ Hshape Hin) as [h Hl].
  cbn [foreachholder_builtin].
  rewrite (bind_Ret _ _ _ _ _ (read_htcb_Ret _ _ _ Hl)).
  destruct (decide (htcb h = None)) as [Hdead|Hlive].
  - rewrite bool_decide_eq_false_2 by (by intros ?).
    exists r, s. split; [|done]. eapply Q_dead; [exact HQ|].
    by rewrite (entry_htcb_lookup _ _ _ Hl).
  - rewrite bool_decide_eq_true_2 by done.
    assert (Hlive' : entry_htcb s (Builtin k i) ≠ None)
      by (by rewrite (entry_htcb_lookup _ _ _ Hl)).
    assert (Hr : pooled cfg = true → r = 0) by congruence.
    pose proof (Q_live r (Builtin k i) rest s HQ Hlive' Hr)
      as (r' & s' & Hrun & HQ').
    exists r', s'. split; [done|]. by rewrite (bind_Ret _ _ _ _ _ Hrun).
Qed.

Lemma foreachholder_rule s :
  Q 0 (entries cfg s k) s → is_Some (sems s !! k) →
  ∃ r s' rest,
    nxsem_foreachholder cfg k handler arg s = Ret r s' ∧
    Q r rest s' ∧ (rest = [] ∨ (pooled cfg = true ∧ r ≠ 0)).
Proof.
  intros HQ [sm Hsm]. unfold nxsem_foreachholder.
  assert (pooled cfg = true ∨ pooled cfg = false) as [Hpool|Hpool]
    by (destruct (pooled cfg); auto); rewrite Hpool.
  - destruct (Q_entries _ _ _ HQ) as [Hshape _].
    destruct (Hshape Hpool) as (fl & ls & Hsh).
    destruct (pool_shape_sem_l _ _ _ _ _ _ Hsh Hsm) as (lk & Hlk & Hc).
    rewrite (entries_pooled _ _ _ _ _ Hpool Hsh Hlk) in HQ.
    rewrite (bind_Ret _ _ _ _ _ (read_hhead_Ret _ _ _ Hsm)).
    rewrite (lseg_head _ _ _ _ Hc).
    destruct (foreachholder_list_rule Hpool lk (list_fuel cfg) 0 s HQ)
      as (r' & s' & rest & Hrun & HQ' & Hrest).
    { pose proof (pool_shape_length_sem _ _ _ _ _ _ Hsh Hlk).
      unfold list_fuel. lia. }
    exists r', s', rest. split; [done|]. split; [done|]. tauto.
  - rewrite (entries_builtin _ _ _ Hpool Hsm) in HQ.
    destruct (foreachholder_builtin_step 0 _ 0 s 1 Hpool HQ)
      as (r1 & s1 & HQ1 & ->).
    destruct (foreachholder_builtin_step 1 _ r1 s1 0 Hpool HQ1)
      as (r2 & s2 & HQ2 & ->).
    exists r2, s2, []. split; [done|]. split; [done|by left].
Qed.

End ForeachRule.

(** *** States with the same holder store *)

Definition same_store (s s' : kstate) : Prop :=
  g_holderalloc s' = g_holderalloc s ∧
  g_freeholders s' = g_freeholders s ∧
  sems s' = sems s.

(** An update of the scheduler's part of the state: the table of threads
    and the trace. *)
Definition sched_update (m : gmap nat tcb_s) (tr : list event) (s : kstate)
    : kstate :=
  KState (g_holderalloc s) (g_freeholders s) (sems s) m (g_running s)
    (g_irq s) tr.

Lemma sched_update_id s : sched_update (tcbs s) (trace s) s = s.
Proof. by destruct s. Qed.

Lemma same_store_sched_update m tr s : same_store s (sched_update m tr s).
Proof. done. Qed.

Lemma same_store_refl s : same_store s s.
Proof. done. Qed.

Lemma same_store_trans s1 s2 s3 :
  same_store s1 s2 → same_store s2 s3 → same_store s1 s3.
Proof. intros (? & ? & ?) (? & ? & ?). unfold same_store. split_and!; congruence. Qed.

Lemma same_store_lookup s s' p :
  same_store s s' → lookup_holder p s' = lookup_holder p s.
Proof. intros (Hh & _ & Hs). destruct p; simpl; by rewrite ?Hh, ?Hs. Qed.

Lemma same_store_entry_htcb s s' p :
  same_store s s' → entry_htcb s' p = entry_htcb s p.
Proof. intros H. unfold entry_htcb. by rewrite (same_store_lookup _ _ _ H). Qed.

Lemma same_store_entry_counts s s' p :
  same_store s s' → entry_counts s' p = entry_counts s p.
Proof. intros H. unfold entry_counts. by rewrite (same_store_lookup _ _ _ H). Qed.

Lemma same_store_entries s s' k :
  same_store s s' → entries cfg s' k = entries cfg s k.
Proof.
  intros (Hh & _ & Hs). unfold entries, sem_nodes. by rewrite Hh, Hs.
Qed.

Lemma same_store_holders s s' k :
  same_store s s' → holders cfg s' k = holders cfg s k.
Proof.
  intros H. unfold holders. rewrite (same_store_entries _ _ _ H).
  apply filter_ext_elem. intros q _. unfold live.
  by rewrite (same_store_entry_htcb _ _ _ H).
Qed.

Lemma same_store_find_entry s s' k t :
  same_store s s' → find_entry cfg s' k t = find_entry cfg s k t.
Proof.
  intros H. unfold find_entry. rewrite (same_store_entries _ _ _ H).
  f_equal. apply filter_ext_elem. intros q _.
  by rewrite (same_store_entry_htcb _ _ _ H).
Qed.

Lemma same_store_free_nodes s s' :
  same_store s s' → free_nodes cfg s' = free_nodes cfg s.
Proof. intros (Hh & Hf & _). unfold free_nodes. by rewrite Hh, Hf. Qed.

Lemma same_store_pool_shape s s' fl ls :
  same_store s s' → pool_shape cfg s fl ls → pool_shape cfg s' fl ls.
Proof.
  intros (Hh & Hf & Hs) [? ? ? ?]. split; by rewrite ?Hh, ?Hf, ?Hs.
Qed.

Lemma same_store_shape_ok s s' : same_store s s' → shape_ok s → shape_ok s'.
Proof.
  intros H Hok Hp. destruct (Hok Hp) as (fl & ls & Hsh).
  exists fl, ls. by eapply same_store_pool_shape.
Qed.

Lemma same_store_wf s s' : same_store s s' → store_wf cfg s → store_wf cfg s'.
Proof.
  intros H [Hpool Huniq]. split.
  - intros Hp. destruct (Hpool Hp) as (fl & ls & Hsh & Hz & Hl).
    exists fl, ls. split; [by eapply same_store_pool_shape|]. split.
    + intros p Hp'. rewrite (same_store_entry_htcb _ _ _ H).
      rewrite (same_store_entry_counts _ _ _ H). by apply Hz.
    + intros p Hp'. rewrite (same_store_entry_htcb _ _ _ H). by apply Hl.
  - intros k. rewrite (same_store_holders _ _ _ H).
    erewrite fmap_ext_elem; [apply Huniq|].
    intros q _. by apply same_store_entry_htcb.
Qed.

Lemma same_store_sems s s' k :
  same_store s s' → sems s' !! k = sems s !! k.
Proof. by intros (_ & _ & ->). Qed.

(** *** Scheduler accesses *)

Lemma read_sched_priority_Ret t s v :
  lookup_tcb t s = Some v → read_sched_priority t s = Ret (sched_priority v) s.
Proof.
  intros H. unfold read_sched_priority.
  by rewrite (bind_Ret _ _ _ _ _ (get_tcb_Ret _ _ _ H)).
Qed.

Lemma read_base_priority_Ret t s v :
  lookup_tcb t s = Some v → read_base_priority t s = Ret (base_priority v) s.
Proof.
  intros H. unfold read_base_priority.
  by rewrite (bind_Ret _ _ _ _ _ (get_tcb_Ret _ _ _ H)).
Qed.

Lemma read_sem_boosts_Ret t s v :
  lookup_tcb t s = Some v → read_sem_boosts t s = Ret (sem_boosts v) s.
Proof.
  intros H. unfold read_sem_boosts.
  by rewrite (bind_Ret _ _ _ _ _ (get_tcb_Ret _ _ _ H)).
Qed.

Lemma write_sem_boosts_Ret t s v l :
  tcbs s !! t = Some v →
  write_sem_boosts (Some t) l s
    = Ret tt (sched_update (<[t := with_sem_boosts l v]> (tcbs s)) (trace s) s).
Proof.
  intros H. unfold write_sem_boosts.
  rewrite (bind_Ret _ _ _ _ _ (get_tcb_Ret (Some t) _ _ H)).
  by rewrite (put_tcb_Ret _ _ _ _ H).
Qed.

Lemma nxsched_set_priority_Ret t s v prio :
  tcbs s !! t = Some v →
  nxsched_set_priority (Some t) prio s
    = Ret tt (sched_update (<[t := with_sched_priority prio v]> (tcbs s))
                (trace s ++ [EvSetPriority (Some t) prio]) s).
Proof.
  intros H. unfold nxsched_set_priority.
  rewrite (bind_Ret _ _ _ _ _ (get_tcb_Ret (Some t) _ _ H)).
  by rewrite (bind_Ret _ _ _ _ _ (put_tcb_Ret _ _ _ _ H)).
Qed.

Lemma nxsched_reprioritize_Ret t s v prio :
  tcbs s !! t = Some v →
  nxsched_reprioritize (Some t) prio s
    = Ret tt (sched_update
                (<[t := with_base_priority prio (with_sched_priority prio v)]>
                   (tcbs s))
                (trace s ++ [EvReprioritize (Some t) prio]) s).
Proof.
  intros H. unfold nxsched_reprioritize.
  rewrite (bind_Ret _ _ _ _ _ (get_tcb_Ret (Some t) _ _ H)).
  by rewrite (bind_Ret _ _ _ _ _ (put_tcb_Ret _ _ _ _ H)).
Qed.

Lemma verify_tcb_Ret t s :
  nxsched_verify_tcb t s = Ret (bool_decide (is_Some (lookup_tcb t s))) s.
Proof. done. Qed.

End StoreOps.

(** ** The boost ledger *)

Section Ledger.

Implicit Types (l : list semboost_s) (b : semboost_s).

(** The record moved into the hole: the last of the following ones. *)
Definition rotate_last l : list semboost_s :=
  match last l with
  | Some c => c :: take (length l - 1) l
  | None => []
  end.

Lemma rotate_last_perm l : rotate_last l ≡ₚ l.
Proof.
  unfold rotate_last. destruct l as [|b l] using rev_ind; [done|].
  rewrite last_snoc, length_app. simpl.
  replace (length l + 1 - 1)%nat with (length l) by lia.
  rewrite take_app_length. by rewrite Permutation_cons_append.
Qed.

Lemma boost_remove_app l1 b l2 :
  boost_remove (length l1) (l1 ++ b :: l2) = l1 ++ rotate_last l2.
Proof.
  unfold boost_remove, rotate_last.
  destruct l2 as [|c l2 _] using rev_ind.
  - rewrite length_app. simpl.
    replace (length l1 + 1 - 1)%nat with (length l1) by lia.
    rewrite list_lookup_middle by done.
    rewrite insert_app_r_alt by lia. rewrite Nat.sub_diag. simpl.
    by rewrite take_app_length, app_nil_r.
  - rewrite last_snoc.
    rewrite !length_app. simpl. rewrite length_app. simpl.
    replace (length l1 + S (length l2 + 1) - 1)%nat
      with (length (l1 ++ b :: l2)) by (rewrite length_app; simpl; lia).
    rewrite (assoc (++) l1 (b :: l2) [c]).
    rewrite list_lookup_middle by done.
    rewrite insert_app_r_alt by lia. rewrite Nat.sub_diag. simpl.
    replace (length l2 + 1 - 1)%nat with (length l2) by lia.
    rewrite take_app_length.
    change (l1 ++ c :: l2 ++ [c]) with (l1 ++ (c :: l2) ++ [c]).
    rewrite (assoc (++) l1 (c :: l2) [c]).
    apply take_app_length'. by rewrite !length_app.
Qed.

Lemma boost_remove_lookup l i b :
  l !! i = Some b →
  boost_remove i l = take i l ++ rotate_last (drop (S i) l).
Proof.
  intros Hi. rewrite <- (take_drop_middle _ _ _ Hi) at 1.
  assert (Hlen : length (take i l) = i).
  { apply length_take_le. apply lookup_lt_Some in Hi. lia. }
  rewrite <- Hlen at 1. apply boost_remove_app.
Qed.

(** Removing the record at [i] removes that record and no other. *)
Lemma boost_remove_perm l i b :
  l !! i = Some b → l ≡ₚ b :: boost_remove i l.
Proof.
  intros Hi. rewrite (boost_remove_lookup _ _ _ Hi).
  rewrite <- (take_drop_middle _ _ _ Hi) at 1.
  rewrite rotate_last_perm. by rewrite Permutation_middle.
Qed.

Lemma boost_remove_length l i b :
  l !! i = Some b → length l = S (length (boost_remove i l)).
Proof. intros Hi. by rewrite (boost_remove_perm _ _ _ Hi) at 1. Qed.

(** The discarding loop ends and keeps exactly the records of the other
    semaphores. *)
Lemma discard_boosts_spec k : ∀ fuel i l,
  (length l - i ≤ fuel)%nat →
  ∃ l', discard_boosts fuel k i l = Some l' ∧
        l' ≡ₚ take i l ++ filter (λ b, boost_sem b ≠ k) (drop i l).
Proof.
  induction fuel as [|fuel IH]; intros i l Hfuel.
  - assert (Hi : l !! i = None) by (apply lookup_ge_None; lia).
    exists l. split; [by destruct l; simpl; rewrite ?Hi|].
    rewrite drop_ge, take_ge by lia. by rewrite filter_nil, app_nil_r.
  - simpl. destruct (l !! i) as [b|] eqn:Hi.
    + destruct (decide (boost_sem b = k)) as [Hk|Hk].
      * rewrite bool_decide_eq_true_2 by done.
        destruct (IH i (boost_remove i l)) as (l' & Hrun & Hperm).
        { pose proof (boost_remove_length _ _ _ Hi). lia. }
        exists l'. split; [done|]. rewrite Hperm.
        rewrite (boost_remove_lookup _ _ _ Hi).
        assert (Hlen : length (take i l) = i).
        { apply length_take_le. apply lookup_lt_Some in Hi. lia. }
        rewrite take_app_le, take_take, Nat.min_id by lia.
        rewrite drop_app_length' by done.
        rewrite rotate_last_perm.
        rewrite (drop_S _ _ _ Hi), filter_cons_False; [done|].
        by intros ?.
      * rewrite bool_decide_eq_false_2 by done.
        destruct (IH (S i) l) as (l' & Hrun & Hperm); [lia|].
        exists l'. split; [done|]. rewrite Hperm.
        rewrite (take_S_r _ _ _ Hi), (drop_S _ _ _ Hi).
        rewrite filter_cons_True by done. by rewrite <- (assoc (++)).
    + exists l. split; [done|].
      apply lookup_ge_None in Hi.
      rewrite drop_ge, take_ge by lia. by rewrite filter_nil, app_nil_r.
Qed.

Lemma discard_boosts_all k l :
  ∃ l', discard_boosts (length l) k 0 l = Some l' ∧
        l' ≡ₚ filter (λ b, boost_sem b ≠ k) l.
Proof.
  destruct (discard_boosts_spec k (length l) 0 l) as (l' & Hrun & Hperm); [lia|].
  exists l'. split; [done|]. by rewrite take_0, drop_0 in Hperm.
Qed.

(** The search returns the index of a record of the semaphore with the
    highest priority, when one beats the starting priority. *)
Lemma max_boost_search_spec k : ∀ l (i mi : Z) (mp : N),
  (max_boost_search k l i mi mp = mi ∧
   ∀ b, b ∈ l → boost_sem b = k → (boost_priority b ≤ mp)%N) ∨
  (∃ j b, max_boost_search k l i mi mp = i + Z.of_nat j ∧
          l !! j = Some b ∧ boost_sem b = k ∧ (mp < boost_priority b)%N ∧
          ∀ b', b' ∈ l → boost_sem b' = k →
                (boost_priority b' ≤ boost_priority b)%N).
Proof.
  induction l as [|b l IH]; intros i mi mp; simpl.
  - left. split; [done|]. intros b Hb. by apply elem_of_nil in Hb.
  - destruct (decide (boost_sem b = k)) as [Hk|Hk].
    + rewrite bool_decide_eq_true_2 by done.
      destruct (mp <? boost_priority b)%N eqn:Hlt.
      * apply N.ltb_lt in Hlt. right.
        destruct (IH (i + 1) i (boost_priority b))
          as [[Hr Hmax]|(j & b' & Hr & Hj & Hk' & Hlt' & Hmax)].
        { exists 0%nat, b. rewrite Hr. split; [lia|]. split; [done|].
          split; [done|]. split; [done|].
          intros b' Hb' Hk'. apply elem_of_cons in Hb' as [->|Hb']; [lia|].
          by apply Hmax. }
        { exists (S j), b'. rewrite Hr. split; [lia|]. split; [done|].
          split; [done|]. split; [lia|].
          intros b'' Hb'' Hk''. apply elem_of_cons in Hb'' as [->|Hb'']; [lia|].
          by apply Hmax. }
      * apply N.ltb_ge in Hlt.
        destruct (IH (i + 1) mi mp)
          as [[Hr Hmax]|(j & b' & Hr & Hj & Hk' & Hlt' & Hmax)].
        { left. split; [done|].
          intros b' Hb' Hk'. apply elem_of_cons in Hb' as [->|Hb']; [done|].
          by apply Hmax. }
        { right. exists (S j), b'. rewrite Hr. split; [lia|]. split; [done|].
          split; [done|]. split; [done|].
          intros b'' Hb'' Hk''. apply elem_of_cons in Hb'' as [->|Hb'']; [lia|].
          by apply Hmax. }
    + rewrite bool_decide_eq_false_2 by done.
      destruct (IH (i + 1) mi mp)
        as [[Hr Hmax]|(j & b' & Hr & Hj & Hk' & Hlt' & Hmax)].
      { left. split; [done|].
        intros b' Hb' Hk'. apply elem_of_cons in Hb' as [->|Hb']; [done|].
        by apply Hmax. }
      { right. exists (S j), b'. rewrite Hr. split; [lia|]. split; [done|].
        split; [done|]. split; [done|].
        intros b'' Hb'' Hk''. apply elem_of_cons in Hb'' as [->|Hb'']; [done|].
        by apply Hmax. }
Qed.

(** The highest priority of a list of records, not below [base]. *)
Definition highest_priority (base : N) l : N :=
  foldr (λ b acc, N.max (boost_priority b) acc) base l.

Lemma max_priority_highest base l : max_priority base l = highest_priority base l.
Proof.
  unfold max_priority, highest_priority. revert base.
  induction l as [|b l IH]; intros base; simpl; [done|].
  rewrite IH. clear IH.
  destruct (base <? boost_priority b)%N eqn:Hlt.
  - apply N.ltb_lt in Hlt. induction l as [|c l IH]; simpl; lia.
  - apply N.ltb_ge in Hlt. induction l as [|c l IH]; simpl; lia.
Qed.

End Ledger.

(** ** The handlers *)

Section Handlers.

Variable cfg : config.

(** What [nxsem_boostholderprio] does to the TCB of a live holder, and the
    calls it makes, when the waiter runs at [rprio]. *)
Definition boost_tcb (k : nat) (t : tcb_ptr) (rprio : N) (v : tcb_s)
    : tcb_s * list event :=
  if nested cfg then
    if (base_priority v <? rprio)%N then
      if bool_decide (length (sem_boosts v) < CONFIG_SEM_NNESTPRIO cfg)%nat then
        let v1 := with_sem_boosts (sem_boosts v ++ [SemBoost k rprio]) v in
        if (sched_priority v <? rprio)%N
        then (with_sched_priority rprio v1, [EvSetPriority t rprio])
        else (v1, [])
      else (v, [EvLog (ErrOutOfBoostSlots t)])
    else (v, [])
  else
    if (sched_priority v <? rprio)%N
    then (with_sched_priority rprio v, [EvSetPriority t rprio])
    else (v, []).

(** The edit of the ledger by [nxsem_restoreholderprio]. *)
Definition restore_boosts (k : nat) (released : bool)
    (boosts : list semboost_s) : list semboost_s :=
  if released then
    default boosts (discard_boosts (length boosts) k 0 boosts)
  else
    let max_boost_index := max_boost_search k boosts 0 (-1) 0 in
    if 0 <=? max_boost_index
    then boost_remove (Z.to_nat max_boost_index) boosts
    else boosts.

(** What [nxsem_restoreholderprio] does to the TCB of a live thread. *)
Definition restore_tcb (k : nat) (t : tcb_ptr) (released : bool) (v : tcb_s)
    : tcb_s * list event :=
  if bool_decide (sched_priority v ≠ base_priority v) then
    if nested cfg then
      let boosts' := restore_boosts k released (sem_boosts v) in
      let new_priority := max_priority (base_priority v) boosts' in
      let v1 := with_sem_boosts boosts' v in
      if bool_decide (new_priority ≠ sched_priority v)
      then (with_sched_priority new_priority v1, [EvSetPriority t new_priority])
      else (v1, [])
    else
      (with_base_priority (base_priority v)
         (with_sched_priority (base_priority v) v),
       [EvReprioritize t (base_priority v)])
  else (v, []).

(** Whether the thread has released all its counts on the semaphore. *)
Definition released (s : kstate) (k : nat) (t : tcb_ptr) : bool :=
  match find_entry cfg s k t with
  | None => true
  | Some p => entry_counts s p =? 0
  end.

Lemma sched_update_noop s t v :
  tcbs s !! t = Some v →
  sched_update (<[t := v]> (tcbs s)) (trace s ++ []) s = s.
Proof.
  intros H. rewrite insert_id by done. rewrite app_nil_r.
  apply sched_update_id.
Qed.

Lemma with_sem_boosts_id v : with_sem_boosts (sem_boosts v) v = v.
Proof. by destruct v. Qed.

Lemma boostholderprio_live s p k r h t v vr :
  lookup_holder p s = Some h → htcb h = Some t →
  tcbs s !! t = Some v → lookup_tcb r s = Some vr →
  nxsem_boostholderprio cfg p k r s =
    Ret 0 (sched_update
             (<[t := (boost_tcb k (Some t) (sched_priority vr) v).1]> (tcbs s))
             (trace s ++ (boost_tcb k (Some t) (sched_priority vr) v).2) s).
Proof.
  intros Hl Ht Hv Hr. unfold nxsem_boostholderprio, boost_tcb.
  mstep (read_htcb_Ret _ _ _ Hl). rewrite Ht.
  cbv zeta.
  mstep (verify_tcb_Ret _ _).
  assert (Hv' : lookup_tcb (Some t) s = Some v) by done.
  rewrite Hv'. rewrite bool_decide_eq_true_2 by eauto. cbn [negb].
  destruct (nested cfg).
  - mstep (read_sched_priority_Ret _ _ _ Hr).
    mstep (read_base_priority_Ret _ _ _ Hv').
    destruct (base_priority v <? sched_priority vr)%N;
      [|cbn; by rewrite sched_update_noop].
    mstep (read_sem_boosts_Ret _ _ _ Hv').
    destruct (bool_decide (length (sem_boosts v) < CONFIG_SEM_NNESTPRIO cfg)%nat).
    + mstep (read_sched_priority_Ret _ _ _ Hr).
      mstep (write_sem_boosts_Ret _ _ _ _ Hv).
      set (v1 := with_sem_boosts _ v).
      set (s1 := sched_update _ _ s).
      assert (Hv1 : tcbs s1 !! t = Some v1) by apply lookup_insert_eq.
      mstep (read_sched_priority_Ret (Some t) _ _ Hv1).
      change (sched_priority v1) with (sched_priority v).
      destruct (sched_priority v <? sched_priority vr)%N.
      * mstep (nxsched_set_priority_Ret _ _ _ _ Hv1).
        cbn. unfold sched_update. cbn. by rewrite insert_insert_eq.
      * cbn. unfold s1, sched_update. cbn. by rewrite app_nil_r.
    + unfold serr. mstep (mark_Ret _ _). cbn.
      unfold log_event, set_trace, sched_update. by rewrite insert_id.
  - mstep (read_sched_priority_Ret _ _ _ Hr).
    mstep (read_sched_priority_Ret _ _ _ Hv').
    destruct (sched_priority v <? sched_priority vr)%N;
      [|cbn; by rewrite sched_update_noop].
    mstep (read_sched_priority_Ret _ _ _ Hr).
    by mstep (nxsched_set_priority_Ret _ _ _ _ Hv).
Qed.

Lemma boostholderprio_stale s p k r h :
  lookup_holder p s = Some h → lookup_tcb (htcb h) s = None →
  nxsem_boostholderprio cfg p k r s =
    (do* nxsem_freeholder cfg k p in ret 0)
      (log_event (EvLog (WarnStaleHandle (htcb h))) s).
Proof.
  intros Hl Hstale. unfold nxsem_boostholderprio.
  mstep (read_htcb_Ret _ _ _ Hl). cbv zeta.
  mstep (verify_tcb_Ret _ _).
  rewrite Hstale. rewrite bool_decide_eq_false_2 by (by intros [? ?]).
  cbn [negb]. unfold swarn.
  unfold bind at 1. unfold bind at 1. rewrite mark_Ret. done.
Qed.

Lemma restoreholderprio_live s k t v arg :
  shape_ok cfg s → is_Some (sems s !! k) → tcbs s !! t = Some v →
  nxsem_restoreholderprio cfg (Some t) k arg s =
    Ret 0 (sched_update
             (<[t := (restore_tcb k (Some t) (released s k (Some t)) v).1]>
                (tcbs s))
             (trace s ++ EvRestore (Some t) k ::
                (restore_tcb k (Some t) (released s k (Some t)) v).2) s).
Proof.
  intros Hshape Hk Hv. unfold nxsem_restoreholderprio.
  mstep (mark_Ret _ _).
  set (s1 := log_event (EvRestore (Some t) k) s).
  assert (Hss : same_store s s1) by done.
  mstep (findholder_spec cfg s1 k (Some t)
                (same_store_shape_ok _ _ _ Hss Hshape) Hk).
  rewrite (same_store_find_entry _ _ _ _ _ Hss).
  mstep (verify_tcb_Ret _ _).
  assert (Hv' : lookup_tcb (Some t) s1 = Some v) by done.
  rewrite Hv'. rewrite bool_decide_eq_true_2 by eauto. cbn [negb].
  mstep (read_sched_priority_Ret _ _ _ Hv').
  mstep (read_base_priority_Ret _ _ _ Hv').
  unfold restore_tcb.
  destruct (bool_decide (sched_priority v ≠ base_priority v)).
  2:{ cbn. unfold s1, log_event, set_trace, sched_update. cbn.
      by rewrite insert_id. }
  destruct (nested cfg).
  - assert (Hrel : (match find_entry cfg s k (Some t) with
                    | Some p => let* c := read_counts p in ret (c =? 0)
                    | None => ret true
                    end) s1 = Ret (released s k (Some t)) s1).
    { unfold released.
      destruct (find_entry cfg s k (Some t)) as [p|] eqn:Hf; [|done].
      apply find_entry_Some in Hf as [Hin _].
      destruct (entries_lookup cfg s k p Hshape Hin) as [h Hl].
      assert (Hl1 : lookup_holder p s1 = Some h)
        by (by rewrite (same_store_lookup _ _ _ Hss)).
      mstep (read_counts_Ret _ _ _ Hl1).
      by rewrite (entry_counts_lookup _ _ _ Hl). }
    mstep Hrel.
    mstep (read_sem_boosts_Ret _ _ _ Hv').
    assert (Hedit : (if released s k (Some t)
              then match discard_boosts (length (sem_boosts v)) k 0
                           (sem_boosts v) with
                   | Some boosts' => write_sem_boosts (Some t) boosts'
                   | None => abort OutOfFuel
                   end
              else
                if 0 <=? max_boost_search k (sem_boosts v) 0 (-1) 0
                then write_sem_boosts (Some t)
                       (boost_remove
                          (Z.to_nat (max_boost_search k (sem_boosts v) 0 (-1) 0))
                          (sem_boosts v))
                else ret tt) s1
            = Ret tt (sched_update
                        (<[t := with_sem_boosts
                                  (restore_boosts k (released s k (Some t))
                                     (sem_boosts v)) v]> (tcbs s1))
                        (trace s1) s1)).
    { unfold restore_boosts. destruct (released s k (Some t)).
      - destruct (discard_boosts_all k (sem_boosts v)) as (l' & -> & _).
        by apply write_sem_boosts_Ret.
      - destruct (0 <=? max_boost_search k (sem_boosts v) 0 (-1) 0).
        + by apply write_sem_boosts_Ret.
        + rewrite with_sem_boosts_id.
          rewrite insert_id by done. by rewrite sched_update_id. }
    mstep Hedit.
    set (v1 := with_sem_boosts _ v).
    set (s2 := sched_update _ _ s1).
    assert (Hv2 : tcbs s2 !! t = Some v1) by apply lookup_insert_eq.
    mstep (read_base_priority_Ret (Some t) _ _ Hv2).
    mstep (read_sem_boosts_Ret (Some t) _ _ Hv2).
    mstep (read_sched_priority_Ret (Some t) _ _ Hv2).
    change (base_priority v1) with (base_priority v).
    change (sched_priority v1) with (sched_priority v).
    change (sem_boosts v1)
      with (restore_boosts k (released s k (Some t)) (sem_boosts v)).
    destruct (bool_decide (max_priority (base_priority v)
                (restore_boosts k (released s k (Some t)) (sem_boosts v))
              ≠ sched_priority v)).
    + mstep (nxsched_set_priority_Ret _ _ _ _ Hv2).
      cbn. unfold sched_update. cbn. rewrite insert_insert_eq.
      by rewrite <- (assoc (++)).
    + cbn. unfold sched_update. cbn. done.
  - mstep (read_base_priority_Ret _ _ _ Hv').
    mstep (nxsched_reprioritize_Ret t s1 v _ Hv).
    cbn. unfold sched_update. cbn. by rewrite <- (assoc (++)).
Qed.

Lemma restoreholderprio_stale s k ht arg :
  shape_ok cfg s → is_Some (sems s !! k) → lookup_tcb ht s = None →
  nxsem_restoreholderprio cfg ht k arg s =
    match find_entry cfg s k ht with
    | Some p =>
        (do* nxsem_freeholder cfg k p in ret 0)
          (log_event (EvLog (WarnStaleHandle ht)) (log_event (EvRestore ht k) s))
    | None =>
        Ret 0 (log_event (EvLog (WarnStaleHandle ht))
                 (log_event (EvRestore ht k) s))
    end.
Proof.
  intros Hshape Hk Hstale. unfold nxsem_restoreholderprio.
  mstep (mark_Ret _ _).
  set (s1 := log_event (EvRestore ht k) s).
  assert (Hss : same_store s s1) by done.
  mstep (findholder_spec cfg s1 k ht
                (same_store_shape_ok _ _ _ Hss Hshape) Hk).
  rewrite (same_store_find_entry _ _ _ _ _ Hss).
  mstep (verify_tcb_Ret _ _).
  assert (Hv' : lookup_tcb ht s1 = None) by done.
  rewrite Hv'. rewrite bool_decide_eq_false_2 by (by intros [? ?]).
  cbn [negb]. unfold swarn.
  unfold bind at 1. unfold bind at 1. rewrite mark_Ret.
  destruct (find_entry cfg s k ht); done.
Qed.

(** *** The invariant *)

Definition ledger_positive (v : tcb_s) : Prop :=
  Forall (λ b, (0 < boost_priority b)%N) (sem_boosts v).

Record sched_wf (s : kstate) : Prop := {
  sc_running : is_Some (lookup_tcb (g_running s) s);
  sc_ledger : ∀ t v, tcbs s !! t = Some v → ledger_positive v
}.

Definition wf (s : kstate) : Prop := store_wf cfg s ∧ sched_wf s.

Lemma wf_shape_ok s : wf s → shape_ok cfg s.
Proof.
  intros [[Hpool _] _] Hp. destruct (Hpool Hp) as (fl & ls & ? & _). eauto.
Qed.

Lemma store_wf_shape_ok s : store_wf cfg s → shape_ok cfg s.
Proof.
  intros [Hpool _] Hp. destruct (Hpool Hp) as (fl & ls & ? & _). eauto.
Qed.

Lemma lookup_tcb_Some t s v : lookup_tcb t s = Some v ↔ ∃ i, t = Some i ∧ tcbs s !! i = Some v.
Proof.
  unfold lookup_tcb. destruct t as [i|]; simpl; [|naive_solver].
  split; [eauto|]. by intros (? & [= <-] & ?).
Qed.

Lemma filter_nil_intro {A} (P : A → Prop) `{!∀ x, Decision (P x)} (l : list A) :
  (∀ x, x ∈ l → ¬ P x) → filter P l = [].
Proof.
  induction l as [|a l IH]; intros Hnot; [done|].
  rewrite filter_cons_False by (apply Hnot; apply elem_of_cons; auto).
  apply IH. intros x Hx. apply Hnot. apply elem_of_cons; auto.
Qed.

(** In a well-formed store the entry of a holder is the one that
    [nxsem_findholder] returns for its thread. *)
Lemma find_entry_holder s k p :
  store_wf cfg s → p ∈ entries cfg s k → live s p →
  find_entry cfg s k (entry_htcb s p) = Some p.
Proof.
  intros Hwf Hin Hlive. pose proof (sw_uniq _ _ Hwf k) as Huniq.
  unfold find_entry.
  apply list_elem_of_split in Hin as (pre & rest & He).
  unfold holders in Huniq. rewrite He in Huniq |- *.
  rewrite filter_app, filter_cons_True in Huniq by done.
  rewrite fmap_app, fmap_cons in Huniq.
  apply NoDup_app in Huniq as (_ & Hdis & _).
  rewrite filter_app, filter_cons_True by done.
  assert (Hpre : filter (λ q, entry_htcb s q = entry_htcb s p) pre = []).
  { apply filter_nil_intro. intros q Hq Heq.
    apply (Hdis (entry_htcb s q)).
    - apply list_elem_of_fmap. exists q. split; [done|].
      apply list_elem_of_filter. split; [|done]. unfold live. by rewrite Heq.
    - rewrite Heq. apply elem_of_cons. by left. }
  by rewrite Hpre.
Qed.

Lemma sched_wf_frame s s' : store_frame s s' → sched_wf s → sched_wf s'.
Proof.
  intros [Ht Hr _ _] [Hrun Hled]. split.
  - unfold lookup_tcb in *. by rewrite Hr, Ht.
  - intros t v. rewrite Ht. apply Hled.
Qed.

Lemma sched_wf_update s t v v' tr :
  sched_wf s → tcbs s !! t = Some v → ledger_positive v' →
  sched_wf (sched_update (<[t := v']> (tcbs s)) tr s).
Proof.
  intros [Hrun Hled] Hv Hpos. split.
  - unfold lookup_tcb in *. cbn. destruct (g_running s) as [r|]; [|done].
    cbn in *. destruct (decide (t = r)) as [->|Hne].
    + rewrite lookup_insert_eq. eauto.
    + by rewrite lookup_insert_ne.
  - intros t' v''. cbn. destruct (decide (t = t')) as [->|Hne].
    + rewrite lookup_insert_eq. by intros [= <-].
    + rewrite lookup_insert_ne by done. apply Hled.
Qed.

Lemma wf_sched_update s t v v' tr :
  wf s → tcbs s !! t = Some v → ledger_positive v' →
  wf (sched_update (<[t := v']> (tcbs s)) tr s).
Proof.
  intros [Hst Hsc] Hv Hpos. split.
  - eapply same_store_wf; [|done]. done.
  - by eapply sched_wf_update.
Qed.

Lemma wf_log s e : wf s → wf (log_event e s).
Proof.
  intros [Hst Hsc]. split.
  - eapply same_store_wf; [|done]. done.
  - eapply sched_wf_frame; [|done]. by split.
Qed.

Lemma boost_tcb_positive k t rprio v :
  ledger_positive v → ledger_positive (boost_tcb k t rprio v).1.
Proof.
  intros Hpos. unfold boost_tcb.
  destruct (nested cfg).
  - destruct (base_priority v <? rprio)%N eqn:Hlt; [|done].
    apply N.ltb_lt in Hlt.
    destruct (bool_decide _); [|done].
    assert (ledger_positive
              (with_sem_boosts (sem_boosts v ++ [SemBoost k rprio]) v)).
    { unfold ledger_positive. cbn. apply Forall_app. split; [done|].
      apply Forall_singleton. cbn. lia. }
    by destruct (sched_priority v <? rprio)%N.
  - by destruct (sched_priority v <? rprio)%N.
Qed.

Lemma boost_tcb_sched k t rprio v :
  sched_priority (boost_tcb k t rprio v).1 =
    if (sched_priority v <? rprio)%N
    then (if nested cfg
          then (if (base_priority v <? rprio)%N
                then (if bool_decide (length (sem_boosts v)
                                      < CONFIG_SEM_NNESTPRIO cfg)%nat
                      then rprio else sched_priority v)
                else sched_priority v)
          else rprio)
    else sched_priority v.
Proof.
  unfold boost_tcb. destruct (nested cfg).
  - destruct (base_priority v <? rprio)%N; [|by destruct (_ <? _)%N].
    destruct (bool_decide _); [|by destruct (_ <? _)%N].
    by destruct (sched_priority v <? rprio)%N.
  - by destruct (sched_priority v <? rprio)%N.
Qed.

Lemma boost_tcb_sched_le k t rprio v :
  (sched_priority v ≤ sched_priority (boost_tcb k t rprio v).1)%N.
Proof.
  rewrite boost_tcb_sched.
  destruct (sched_priority v <? rprio)%N eqn:Hlt; [|lia].
  apply N.ltb_lt in Hlt.
  destruct (nested cfg); [|lia].
  destruct (base_priority v <? rprio)%N; [|lia].
  destruct (bool_decide _); lia.
Qed.

Lemma boost_tcb_self k t v :
  sched_priority (boost_tcb k t (sched_priority v) v).1 = sched_priority v.
Proof. rewrite boost_tcb_sched. by rewrite N.ltb_irrefl. Qed.

(** The calls of [boost_tcb]: at most one [nxsched_set_priority], on the
    holder, to the waiter's priority, which is above the holder's. *)
Lemma boost_tcb_events k t rprio v e :
  e ∈ (boost_tcb k t rprio v).2 →
  (e = EvSetPriority t rprio ∧ (sched_priority v < rprio)%N ∧
   sched_priority (boost_tcb k t rprio v).1 = rprio) ∨
  e = EvLog (ErrOutOfBoostSlots t).
Proof.
  unfold boost_tcb. destruct (nested cfg).
  - destruct (base_priority v <? rprio)%N; [|by intros ?%elem_of_nil].
    destruct (bool_decide _).
    + destruct (sched_priority v <? rprio)%N eqn:Hlt;
        [|by intros ?%elem_of_nil].
      apply N.ltb_lt in Hlt. intros ->%list_elem_of_singleton. by left.
    + intros ->%list_elem_of_singleton. by right.
  - destruct (sched_priority v <? rprio)%N eqn:Hlt;
      [|by intros ?%elem_of_nil].
    apply N.ltb_lt in Hlt. intros ->%list_elem_of_singleton. by left.
Qed.

Lemma entries_uniq s k p q :
  store_wf cfg s → p ∈ entries cfg s k → q ∈ entries cfg s k →
  live s p → entry_htcb s p = entry_htcb s q → p = q.
Proof.
  intros Hwf Hp Hq Hlive Heq.
  assert (Hliveq : live s q) by (unfold live in *; by rewrite <- Heq).
  pose proof (find_entry_holder s k p Hwf Hp Hlive) as H1.
  pose proof (find_entry_holder s k q Hwf Hq Hliveq) as H2.
  rewrite Heq in H1. congruence.
Qed.

Lemma elem_of_middle {A} (x : A) l1 l2 : x ∈ l1 ++ x :: l2.
Proof. apply elem_of_app. right. apply elem_of_cons. by left. Qed.

(** *** Calls that only raise priorities *)

(** The scheduling priorities of the threads. *)
Definition priorities (s : kstate) : gmap nat N := sched_priority <$> tcbs s.

(** [raises m evs m']: starting from the priorities [m], every call
    [nxsched_set_priority(t, prio)] in [evs] is made on a thread whose
    priority is below [prio] at the time of the call, there is no call to
    [nxsched_reprioritize], and the priorities end as [m']. *)
Inductive raises : gmap nat N → list event → gmap nat N → Prop :=
  | raises_nil m : raises m [] m
  | raises_set m t old prio evs m' :
      m !! t = Some old → (old < prio)%N →
      raises (<[t := prio]> m) evs m' →
      raises m (EvSetPriority (Some t) prio :: evs) m'
  | raises_log m msg evs m' :
      raises m evs m' → raises m (EvLog msg :: evs) m'
  | raises_free m k p evs m' :
      raises m evs m' → raises m (EvFree k p :: evs) m'.

Lemma raises_app m evs1 m1 evs2 m2 :
  raises m evs1 m1 → raises m1 evs2 m2 → raises m (evs1 ++ evs2) m2.
Proof.
  induction 1; intros H2; simpl; [done| | |].
  - econstructor; eauto.
  - constructor; eauto.
  - constructor; eauto.
Qed.

Lemma raises_monotone m evs m' :
  raises m evs m' →
  ∀ t old, m !! t = Some old → ∃ new, m' !! t = Some new ∧ (old ≤ new)%N.
Proof.
  induction 1 as [m|m t' old' prio evs m' Hold Hlt Hr IH|m msg evs m' Hr IH
                 |m k p evs m' Hr IH]; intros t old Ht.
  - exists old. split; [done|lia].
  - destruct (decide (t' = t)) as [->|Hne].
    + destruct (IH t prio) as (new & Hnew & Hle); [apply lookup_insert_eq|].
      exists new. split; [done|]. assert (old = old') by congruence. lia.
    + apply IH. by rewrite lookup_insert_ne.
  - by apply IH.
  - by apply IH.
Qed.

Lemma boost_tcb_raises k t rprio v m :
  m !! t = Some (sched_priority v) →
  raises m (boost_tcb k (Some t) rprio v).2
    (<[t := sched_priority (boost_tcb k (Some t) rprio v).1]> m).
Proof.
  intros Hm.
  assert (Hnoop : ∀ v', sched_priority v' = sched_priority v →
            <[t := sched_priority v']> m = m).
  { intros v' ->. by apply insert_id. }
  unfold boost_tcb. destruct (nested cfg).
  - destruct (base_priority v <? rprio)%N;
      [|cbn; rewrite insert_id by done; constructor].
    destruct (bool_decide _).
    + destruct (sched_priority v <? rprio)%N eqn:Hlt.
      * apply N.ltb_lt in Hlt. cbn. econstructor; [done|done|constructor].
      * cbn. rewrite insert_id by done. constructor.
    + cbn. rewrite insert_id by done. constructor. constructor.
  - destruct (sched_priority v <? rprio)%N eqn:Hlt.
    + apply N.ltb_lt in Hlt. cbn. econstructor; [done|done|constructor].
    + cbn. rewrite insert_id by done. constructor.
Qed.

(** *** The walk of [nxsem_boost_priority] *)

Section BoostWalk.

Variable s0 : kstate.
Variable k : nat.
Variable rprio : N.

(** What the walk has done to the holder [q] of the starting state: a
    holder with a stale handle has been freed, and the thread of any
    other holder has been boosted. *)
Definition boosted (q : holder_ptr) (evs : list event) (s : kstate) : Prop :=
  match lookup_tcb (entry_htcb s0 q) s0 with
  | None =>
      entry_htcb s q = None ∧ entry_counts s q = 0 ∧ EvFree k q ∈ evs
  | Some v =>
      q ∈ entries cfg s k ∧
      entry_htcb s q = entry_htcb s0 q ∧
      entry_counts s q = entry_counts s0 q ∧
      lookup_tcb (entry_htcb s0 q) s
        = Some (boost_tcb k (entry_htcb s0 q) rprio v).1
  end.

Definition boost_inv (r : Z) (rest : list holder_ptr) (s : kstate) : Prop :=
  r = 0 ∧ wf s ∧ g_running s = g_running s0 ∧ g_irq s = g_irq s0 ∧
  (∃ pre, entries cfg s k = pre ++ rest) ∧
  (∃ vr, lookup_tcb (g_running s0) s = Some vr ∧ sched_priority vr = rprio) ∧
  (∀ t, is_Some (tcbs s !! t) ↔ is_Some (tcbs s0 !! t)) ∧
  (∀ q, q ∈ rest →
        entry_htcb s q = entry_htcb s0 q ∧
        entry_counts s q = entry_counts s0 q ∧
        lookup_tcb (entry_htcb s0 q) s = lookup_tcb (entry_htcb s0 q) s0) ∧
  ∃ evs, trace s = trace s0 ++ evs ∧
         raises (priorities s0) evs (priorities s) ∧
         (∀ ht prio, EvSetPriority ht prio ∈ evs → is_Some (lookup_tcb ht s0)) ∧
         (∀ q, q ∈ entries cfg s0 k → q ∉ rest → live s0 q → boosted q evs s).

Lemma boost_inv_entries r rest s :
  boost_inv r rest s → shape_ok cfg s ∧ ∃ pre, entries cfg s k = pre ++ rest.
Proof. intros (_ & Hwf & _ & _ & He & _). split; [by apply wf_shape_ok|done]. Qed.

Lemma boost_inv_dead r p rest s :
  boost_inv r (p :: rest) s → entry_htcb s p = None → boost_inv r rest s.
Proof.
  intros (Hr & Hwf & Hrun & Hirq & [pre He] & Hvr & Hdom & Hrest
          & evs & Htr & Hraise & Hset & Hvis) Hdead.
  split_and!; try done.
  - exists (pre ++ [p]). by rewrite <- (assoc (++)).
  - intros q Hq. apply Hrest. apply elem_of_cons. by right.
  - exists evs. split_and!; try done.
    intros q Hq Hnot Hlive. apply Hvis; [done| |done].
    intros [->|Hin]%elem_of_cons; [|done].
    destruct (Hrest p) as (Hh & _); [apply elem_of_cons; by left|].
    unfold live in Hlive. congruence.
Qed.

Lemma boost_inv_live r p rest s :
  boost_inv r (p :: rest) s → entry_htcb s p ≠ None →
  (pooled cfg = true → r = 0) →
  ∃ r' s', nxsem_boostholderprio cfg p k (g_running s0) s = Ret r' s' ∧
           boost_inv r' rest s'.
Proof.
  intros (Hr & Hwf & Hrun & Hirq & [pre He] & (vr & Hvr & Hvrp) & Hdom & Hrest
          & evs & Htr & Hraise & Hset & Hvis) Hlive _.
  pose proof (wf_shape_ok _ Hwf) as Hshape.
  assert (Hin : p ∈ entries cfg s k) by (rewrite He; apply elem_of_middle).
  destruct (entries_lookup cfg s k p Hshape Hin) as [h Hl].
  pose proof (entries_NoDup cfg s k Hshape) as Hnd. rewrite He in Hnd.
  apply NoDup_app in Hnd as (_ & Hdis & Hnd2).
  apply NoDup_cons in Hnd2 as [Hprest _].
  assert (Hppre : p ∉ pre).
  { intros Hp. apply (Hdis p Hp). apply elem_of_cons. by left. }
  destruct (Hrest p) as (Hhp & Hcp & Htp); [apply elem_of_cons; by left|].
  assert (Hlive0 : live s0 p) by (unfold live; congruence).
  destruct (lookup_tcb (entry_htcb s p) s) as [v|] eqn:Hlk.
  - (* a live holder *)
    apply lookup_tcb_Some in Hlk as (t & Ht & Hv).
    assert (Hht : htcb h = Some t)
      by (by rewrite <- (entry_htcb_lookup _ _ _ Hl)).
    exists 0. eexists. split.
    { by eapply boostholderprio_live. }
    rewrite Hvrp.
    set (v' := (boost_tcb k (Some t) rprio v).1).
    set (bevs := (boost_tcb k (Some t) rprio v).2).
    set (s' := sched_update _ _ s).
    assert (Hss : same_store s s') by done.
    assert (Huniq : ∀ q, q ∈ entries cfg s k → q ≠ p →
              entry_htcb s q ≠ Some t).
    { intros q Hq Hne Heq. apply Hne. symmetry.
      eapply (entries_uniq s k p q); [by destruct Hwf|done|done|done|].
      congruence. }
    assert (Hother : ∀ ht, ht ≠ Some t → lookup_tcb ht s' = lookup_tcb ht s).
    { intros [t'|] Hne; [|done]. cbn. apply lookup_insert_ne. congruence. }
    split_and!; try done.
    + apply wf_sched_update with v; [done|done|].
      apply boost_tcb_positive. destruct Hwf as [_ [_ Hled]]. by eapply Hled.
    + exists (pre ++ [p]).
      rewrite (same_store_entries _ _ _ _ Hss), He. by rewrite <- (assoc (++)).
    + destruct (decide (g_running s0 = Some t)) as [Heq|Hne].
      * exists v'. rewrite Heq. split; [apply lookup_insert_eq|].
        rewrite Heq in Hvr. cbn in Hvr. assert (vr = v) as -> by congruence.
        unfold v'. rewrite <- Hvrp. apply boost_tcb_self.
      * exists vr. split; [|done]. by rewrite Hother.
    + intros t'. rewrite <- Hdom. cbn.
      destruct (decide (t = t')) as [<-|Hne].
      * rewrite lookup_insert_eq, Hv. split; eauto.
      * by rewrite lookup_insert_ne.
    + intros q Hq. destruct (Hrest q) as (Hhq & Hcq & Htq);
        [apply elem_of_cons; by right|].
      rewrite (same_store_entry_htcb _ _ _ Hss).
      rewrite (same_store_entry_counts _ _ _ Hss).
      split_and!; [done|done|]. rewrite <- Htq. apply Hother.
      rewrite <- Hhq. apply Huniq.
      * rewrite He. apply elem_of_app. right. apply elem_of_cons. by right.
      * intros ->. done.
    + exists (evs ++ bevs). split_and!.
      * cbn. rewrite Htr. by rewrite <- (assoc (++)).
      * eapply raises_app; [exact Hraise|].
        unfold priorities at 2. cbn. rewrite fmap_insert.
        apply boost_tcb_raises. unfold priorities. by rewrite lookup_fmap, Hv.
      * intros ht prio [Hev|Hev]%elem_of_app; [by eapply Hset|].
        apply boost_tcb_events in Hev as [[[= -> ->] _]|?]; [|done].
        rewrite <- Hhp, Ht in Htp. rewrite <- Htp. cbn. rewrite Hv. eauto.
      * intros q Hq Hnot Hliveq. unfold boosted.
        destruct (decide (q = p)) as [->|Hne].
        { rewrite <- Htp, <- Hhp, Ht. cbn. rewrite Hv.
          rewrite (same_store_entries _ _ _ _ Hss).
          rewrite (same_store_entry_htcb _ _ _ Hss).
          rewrite (same_store_entry_counts _ _ _ Hss).
          split_and!; [done|by rewrite Ht in Hhp|done|].
          apply lookup_insert_eq. }
        assert (Hb : boosted q evs s).
        { apply Hvis; [done| |done].
          intros [->|?]%elem_of_cons; done. }
        unfold boosted in Hb.
        destruct (lookup_tcb (entry_htcb s0 q) s0) as [vq|] eqn:Hq0.
        { destruct Hb as (Hqin & Hqh & Hqc & Hqt).
          rewrite (same_store_entries _ _ _ _ Hss).
          rewrite (same_store_entry_htcb _ _ _ Hss).
          rewrite (same_store_entry_counts _ _ _ Hss).
          split_and!; [done|done|done|].
          rewrite <- Hqt. apply Hother. rewrite <- Hqh. by apply Huniq. }
        { destruct Hb as (Hqh & Hqc & Hqe).
          rewrite (same_store_entry_htcb _ _ _ Hss).
          rewrite (same_store_entry_counts _ _ _ Hss).
          split_and!; [done|done|]. apply elem_of_app. by left. }
  - (* a stale handle *)
    rewrite (entry_htcb_lookup _ _ _ Hl) in Hlk.
    rewrite (boostholderprio_stale s p k _ h Hl Hlk).
    set (s1 := log_event (EvLog (WarnStaleHandle (htcb h))) s).
    assert (Hss : same_store s s1) by done.
    assert (Hwf1 : wf s1) by (by apply wf_log).
    assert (He1 : entries cfg s1 k = pre ++ p :: rest)
      by (by rewrite (same_store_entries _ _ _ _ Hss)).
    destruct (freeholder_spec cfg s1 k pre p rest (proj1 Hwf1) He1)
      as (s' & Hrun' & Hst' & He' & Heo & Hsame & Hh' & Hc' & Hfr & Htr').
    exists 0, s'. split.
    { unfold bind. by rewrite Hrun'. }
    assert (Hcontent : ∀ q, q ≠ p →
              entry_htcb s' q = entry_htcb s q ∧
              entry_counts s' q = entry_counts s q).
    { intros q Hq. destruct (Hsame q Hq) as [-> ->].
      by rewrite (same_store_entry_htcb _ _ _ Hss),
                 (same_store_entry_counts _ _ _ Hss). }
    assert (Htcb : ∀ ht, lookup_tcb ht s' = lookup_tcb ht s).
    { intros ht. unfold lookup_tcb. by destruct Hfr as [-> _ _ _]. }
    split_and!; try done.
    + split; [done|]. eapply sched_wf_frame; [exact Hfr|]. by destruct Hwf1.
    + destruct Hfr as [_ -> _ _]. done.
    + destruct Hfr as [_ _ -> _]. done.
    + eauto.
    + exists vr. by rewrite Htcb.
    + intros t'. destruct Hfr as [-> _ _ _]. apply Hdom.
    + intros q Hq. destruct (Hrest q) as (Hhq & Hcq & Htq);
        [apply elem_of_cons; by right|].
      destruct (Hcontent q) as [-> ->]; [intros ->; done|].
      by rewrite Htcb.
    + exists (evs ++ [EvLog (WarnStaleHandle (htcb h)); EvFree k p]).
      split_and!.
      * rewrite Htr'. cbn. rewrite Htr. by rewrite <- !(assoc (++)).
      * eapply raises_app; [exact Hraise|].
        unfold priorities. destruct Hfr as [-> _ _ _]. cbn.
        constructor. constructor. constructor.
      * intros ht prio [Hev|Hev]%elem_of_app; [by eapply Hset|].
        rewrite !elem_of_cons, elem_of_nil in Hev. naive_solver.
      * intros q Hq Hnot Hliveq. unfold boosted.
        destruct (decide (q = p)) as [->|Hne].
        { rewrite <- Htp, <- Hhp, (entry_htcb_lookup _ _ _ Hl), Hlk.
          split_and!; [done|done|].
          apply elem_of_app. right. apply elem_of_cons. right.
          apply elem_of_cons. by left. }
        assert (Hb : boosted q evs s).
        { apply Hvis; [done| |done].
          intros [->|?]%elem_of_cons; done. }
        unfold boosted in Hb.
        destruct (Hcontent q Hne) as [Hqh' Hqc'].
        destruct (lookup_tcb (entry_htcb s0 q) s0) as [vq|] eqn:Hq0.
        { destruct Hb as (Hqin & Hqh & Hqc & Hqt).
          rewrite Hqh', Hqc', Htcb. split_and!; try done.
          rewrite He'. rewrite He in Hqin.
          rewrite !elem_of_app, elem_of_cons in Hqin.
          destruct (pooled cfg); rewrite !elem_of_app; naive_solver. }
        { destruct Hb as (Hqh & Hqc & Hqe).
          rewrite Hqh', Hqc'. split_and!; [done|done|].
          apply elem_of_app. by left. }
Qed.

End BoostWalk.

Lemma boost_priority_spec s k vr :
  wf s → is_Some (sems s !! k) →
  lookup_tcb (g_running s) s = Some vr →
  ∃ s', nxsem_boost_priority cfg k s = Ret tt s' ∧
        boost_inv s k (sched_priority vr) 0 [] s'.
Proof.
  intros Hwf Hk Hvr. unfold nxsem_boost_priority, this_task.
  unfold bind at 1. unfold gets at 1.
  destruct (foreachholder_rule cfg (boost_inv s k (sched_priority vr))
              (nxsem_boostholderprio cfg) k (g_running s)
              (boost_inv_entries s k _)
              (boost_inv_dead s k _)
              (boost_inv_live s k _) s)
    as (r & s' & rest & Hrun & Hinv & Hrest); [|done|].
  - split_and!; try done.
    + by exists [].
    + eauto.
    + exists []. split_and!;
        [by rewrite app_nil_r|constructor|by intros ? ? ?%elem_of_nil|].
      intros q Hq Hnot. done.
  - exists s'. split; [by rewrite (bind_Ret _ _ _ _ _ Hrun)|].
    destruct Hrest as [->|[_ Hr]]; [|by destruct Hinv as [-> _]].
    by destruct Hinv as [-> ?].
Qed.

Lemma dead_node_free s i :
  pool_ok cfg s → (i < CONFIG_SEM_PREALLOCHOLDERS cfg)%nat →
  entry_htcb s (Prealloc i) = None → i ∈ free_nodes cfg s.
Proof.
  intros (fl & ls & Hsh & _ & Hlive) Hi Hdead.
  rewrite (free_nodes_shape _ _ _ _ Hsh).
  assert (Hin : i ∈ fl ++ concat ls).
  { destruct Hsh as [_ _ _ ->]. apply elem_of_seq. lia. }
  apply elem_of_app in Hin as [?|Hin]; [done|].
  by destruct (Hlive i Hin).
Qed.

Lemma not_holder_dead s k p : entry_htcb s p = None → p ∉ holders cfg s k.
Proof. intros Hd [_ Hl]%holders_subset. done. Qed.

(** C8: boosting is monotone.  In a well-formed state
    [nxsem_boost_priority] returns; every [nxsched_set_priority] it
    issues targets a value strictly above the priority the target thread
    has at that time, and no thread ends with a lower scheduling priority
    than it had before the call. *)
Theorem C8_boost_monotone s k :
  wf s → is_Some (sems s !! k) →
  ∃ s' evs,
    nxsem_boost_priority cfg k s = Ret tt s' ∧
    trace s' = trace s ++ evs ∧
    raises (priorities s) evs (priorities s') ∧
    ∀ t v, tcbs s !! t = Some v →
           ∃ v', tcbs s' !! t = Some v' ∧
                 (sched_priority v ≤ sched_priority v')%N.
Proof.
  intros Hwf Hk.
  destruct (sc_running _ (proj2 Hwf)) as [vr Hvr].
  destruct (boost_priority_spec s k vr Hwf Hk Hvr)
    as (s' & Hrun & _ & _ & _ & _ & _ & _ & _ & _ & evs & Htr & Hraise & _).
  exists s', evs. split_and!; try done.
  intros t v Hv.
  destruct (raises_monotone _ _ _ Hraise t (sched_priority v))
    as (new & Hnew & Hle).
  { unfold priorities. by rewrite lookup_fmap, Hv. }
  unfold priorities in Hnew. rewrite lookup_fmap in Hnew.
  destruct (tcbs s' !! t) as [v'|]; [|done].
  exists v'. split; [done|]. cbn in Hnew. injection Hnew as <-. done.
Qed.

(** C5: a holder whose thread died.  In a well-formed state
    [nxsem_boost_priority] returns; every holder entry whose handle the
    scheduler reports stale is freed (cleared and, in the pooled
    configuration, back on the free list), no [nxsched_set_priority] is
    issued for its handle, which stays out of the scheduler's table; and
    the walk goes on: every holder with a live thread keeps its entry and
    its thread is boosted. *)
Theorem C5_boost_frees_stale_holders s k :
  wf s → is_Some (sems s !! k) →
  ∃ s' evs vr,
    nxsem_boost_priority cfg k s = Ret tt s' ∧
    trace s' = trace s ++ evs ∧
    lookup_tcb (g_running s) s = Some vr ∧
    (∀ p, p ∈ holders cfg s k → lookup_tcb (entry_htcb s p) s = None →
       entry_htcb s' p = None ∧ entry_counts s' p = 0 ∧
       p ∉ holders cfg s' k ∧
       (pooled cfg = true → ∃ i, p = Prealloc i ∧ i ∈ free_nodes cfg s') ∧
       EvFree k p ∈ evs ∧
       (∀ prio, EvSetPriority (entry_htcb s p) prio ∉ evs) ∧
       lookup_tcb (entry_htcb s p) s' = None) ∧
    (∀ p v, p ∈ holders cfg s k → lookup_tcb (entry_htcb s p) s = Some v →
       p ∈ holders cfg s' k ∧
       entry_htcb s' p = entry_htcb s p ∧
       entry_counts s' p = entry_counts s p ∧
       lookup_tcb (entry_htcb s p) s'
         = Some (boost_tcb k (entry_htcb s p) (sched_priority vr) v).1).
Proof.
  intros Hwf Hk.
  destruct (sc_running _ (proj2 Hwf)) as [vr Hvr].
  destruct (boost_priority_spec s k vr Hwf Hk Hvr)
    as (s' & Hrun & _ & Hwf' & _ & _ & _ & _ & Hdom & _
        & evs & Htr & _ & Hset & Hvis).
  exists s', evs, vr. split_and!; try done.
  - intros p [Hin Hlive]%holders_subset Hstale.
    pose proof (Hvis p Hin (not_elem_of_nil _) Hlive) as Hb.
    unfold boosted in Hb. rewrite Hstale in Hb.
    destruct Hb as (Hh & Hc & He).
    split_and!; try done.
    + by apply not_holder_dead.
    + intros Hp. pose proof (wf_shape_ok _ Hwf) as Hshape.
      destruct (Hshape Hp) as (fl & ls & Hsh).
      destruct (entries_valid_sem _ _ _ _ Hin) as [sm Hsm].
      destruct (pool_shape_sem_l _ _ _ _ _ _ Hsh Hsm) as (lk & Hlk & _).
      rewrite (entries_pooled _ _ _ _ _ _ Hp Hsh Hlk) in Hin.
      apply list_elem_of_fmap in Hin as (i & -> & Hi).
      exists i. split; [done|].
      apply dead_node_free; [by apply (sw_pool _ _ (proj1 Hwf'))| |done].
      destruct (pool_shape_lookup _ _ _ _ _ _ _ Hsh Hlk Hi) as [h Hh'].
      apply lookup_lt_Some in Hh'. by destruct Hsh as [<- _ _ _].
    + intros prio Hev. destruct (Hset _ _ Hev) as [v Hv]. congruence.
    + destruct (lookup_tcb (entry_htcb s p) s') as [v|] eqn:Hl; [|done].
      apply lookup_tcb_Some in Hl as (t & Ht & Hv).
      assert (is_Some (tcbs s !! t)) as [v0 Hv0] by (apply Hdom; eauto).
      rewrite Ht in Hstale. cbn in Hstale. congruence.
  - intros p v [Hin Hlive]%holders_subset Hv.
    pose proof (Hvis p Hin (not_elem_of_nil _) Hlive) as Hb.
    unfold boosted in Hb. rewrite Hv in Hb.
    destruct Hb as (Hin' & Hh & Hc & Ht).
    split_and!; try done.
    apply list_elem_of_filter. split; [|done]. unfold live in *. congruence.
Qed.

(** *** The edit of the ledger *)

(** The edit of the ledger when the thread holds no count any more: every
    record of the semaphore goes. *)
Lemma restore_boosts_released k boosts :
  restore_boosts k true boosts ≡ₚ filter (λ b, boost_sem b ≠ k) boosts.
Proof.
  unfold restore_boosts.
  by destruct (discard_boosts_all k boosts) as (l' & -> & Hperm).
Qed.

(** The edit of the ledger when the thread still holds counts: one record
    of the semaphore with the highest priority goes, if a record of the
    semaphore with a nonzero priority exists. *)
Lemma restore_boosts_holding k boosts :
  (restore_boosts k false boosts = boosts ∧
   ∀ b, b ∈ boosts → boost_sem b = k → boost_priority b = 0%N) ∨
  (∃ b, boost_sem b = k ∧ (0 < boost_priority b)%N ∧
        (∀ b', b' ∈ boosts → boost_sem b' = k →
               (boost_priority b' ≤ boost_priority b)%N) ∧
        boosts ≡ₚ b :: restore_boosts k false boosts).
Proof.
  unfold restore_boosts.
  destruct (max_boost_search_spec k boosts 0 (-1) 0)
    as [[-> Hmax]|(j & b & -> & Hj & Hk & Hlt & Hmax)].
  - left. split; [done|]. intros b Hb Hk. specialize (Hmax b Hb Hk). lia.
  - right. exists b. split_and!; try done.
    replace (0 <=? 0 + Z.of_nat j) with true by (symmetry; apply Z.leb_le; lia).
    replace (Z.to_nat (0 + Z.of_nat j)) with j by lia.
    by apply boost_remove_perm.
Qed.

Lemma restore_boosts_Forall (P : semboost_s → Prop) k rel boosts :
  Forall P boosts → Forall P (restore_boosts k rel boosts).
Proof.
  intros HP. destruct rel.
  - rewrite restore_boosts_released. apply Forall_forall.
    intros b [_ Hb]%list_elem_of_filter. revert b Hb. by apply Forall_forall.
  - destruct (restore_boosts_holding k boosts) as [[-> _]|(b & _ & _ & _ & Hp)];
      [done|].
    rewrite Hp in HP. by apply Forall_cons in HP as [_ ?].
Qed.

Lemma restore_tcb_positive k t rel v :
  ledger_positive v → ledger_positive (restore_tcb k t rel v).1.
Proof.
  intros Hpos. unfold restore_tcb.
  destruct (bool_decide (sched_priority v ≠ base_priority v)); [|done].
  destruct (nested cfg); [|done].
  assert (ledger_positive (with_sem_boosts (restore_boosts k rel (sem_boosts v)) v))
    by (by apply restore_boosts_Forall).
  by destruct (bool_decide _).
Qed.

(** The events of [restore_tcb] are calls to the scheduler. *)
Lemma restore_tcb_events k t rel v e :
  e ∈ (restore_tcb k t rel v).2 →
  (∃ prio, e = EvSetPriority t prio) ∨ (∃ prio, e = EvReprioritize t prio).
Proof.
  unfold restore_tcb.
  destruct (bool_decide (sched_priority v ≠ base_priority v));
    [|by intros ?%elem_of_nil].
  destruct (nested cfg).
  - destruct (bool_decide _); [|by intros ?%elem_of_nil].
    intros ->%list_elem_of_singleton. eauto.
  - intros ->%list_elem_of_singleton. eauto.
Qed.

(** *** One call of [nxsem_restoreholderprio] on a holder *)

Lemma restore_entry_step s k pre p rest arg :
  wf s → entries cfg s k = pre ++ p :: rest → live s p →
  ∃ s' evs,
    nxsem_restoreholderprio cfg (entry_htcb s p) k arg s = Ret 0 s' ∧
    wf s' ∧
    g_running s' = g_running s ∧ g_irq s' = g_irq s ∧
    (∃ pre', entries cfg s' k = pre' ++ rest ∧ ∀ q, q ∈ pre → q ∈ pre') ∧
    (∀ k', k' ≠ k → entries cfg s' k' = entries cfg s k') ∧
    same_entries_except p s s' ∧
    (∀ t, is_Some (tcbs s' !! t) ↔ is_Some (tcbs s !! t)) ∧
    length (sems s') = length (sems s) ∧
    trace s' = trace s ++ EvRestore (entry_htcb s p) k :: evs ∧
    (∀ h k', EvRestore h k' ∉ evs).
Proof.
  intros Hwf He Hlive.
  pose proof (wf_shape_ok _ Hwf) as Hshape.
  assert (Hin : p ∈ entries cfg s k) by (rewrite He; apply elem_of_middle).
  pose proof (entries_valid_sem _ _ _ _ Hin) as Hk.
  destruct (lookup_tcb (entry_htcb s p) s) as [v|] eqn:Hlk.
  - apply lookup_tcb_Some in Hlk as (t & Ht & Hv). rewrite Ht.
    eexists. eexists. split; [by apply restoreholderprio_live|].
    set (s' := sched_update _ _ s).
    assert (Hss : same_store s s') by done.
    split_and!; try done.
    + apply wf_sched_update with v; [done|done|].
      apply restore_tcb_positive. destruct Hwf as [_ [_ Hled]]. by eapply Hled.
    + exists (pre ++ [p]). rewrite (same_store_entries _ _ _ _ Hss), He.
      split; [by rewrite <- (assoc (++))|].
      intros q Hq. apply elem_of_app. by left.
    + intros t'. cbn. destruct (decide (t = t')) as [<-|Hne].
      * rewrite lookup_insert_eq, Hv. split; eauto.
      * by rewrite lookup_insert_ne.
    + intros h k' Hev. apply restore_tcb_events in Hev as [[? ?]|[? ?]]; done.
  - rewrite (restoreholderprio_stale s k _ arg Hshape Hk Hlk).
    rewrite (find_entry_holder s k p (proj1 Hwf) Hin Hlive).
    set (s1 := log_event _ (log_event _ s)).
    assert (Hss : same_store s s1) by done.
    assert (Hwf1 : wf s1) by (by do 2 apply wf_log).
    assert (He1 : entries cfg s1 k = pre ++ p :: rest)
      by (by rewrite (same_store_entries _ _ _ _ Hss)).
    destruct (freeholder_spec cfg s1 k pre p rest (proj1 Hwf1) He1)
      as (s' & Hrun' & Hst' & He' & Heo & Hsame & Hh' & Hc' & Hfr & Htr').
    exists s', [EvLog (WarnStaleHandle (entry_htcb s p)); EvFree k p].
    split; [unfold bind; by rewrite Hrun'|].
    split_and!.
    + split; [done|]. eapply sched_wf_frame; [exact Hfr|]. by destruct Hwf1.
    + by destruct Hfr as [_ -> _ _].
    + by destruct Hfr as [_ _ -> _].
    + eexists. split; [exact He'|]. intros q Hq.
      destruct (pooled cfg); [done|]. apply elem_of_app. by left.
    + intros k' Hk'. rewrite (Heo k' Hk'). by apply same_store_entries.
    + intros q Hq. destruct (Hsame q Hq) as [-> ->].
      by rewrite (same_store_entry_htcb _ _ _ Hss),
                 (same_store_entry_counts _ _ _ Hss).
    + intros t. by destruct Hfr as [-> _ _ _].
    + by destruct Hfr as [_ _ _ ->].
    + rewrite Htr'. cbn. by rewrite <- !(assoc (++)).
    + intros h k' Hev. rewrite !elem_of_cons, elem_of_nil in Hev. naive_solver.
Qed.

(** *** The walks of the restore engine over all holders but some *)

Section RestoreWalk.

Variable s0 : kstate.
Variable k : nat.
Variable arg : tcb_ptr.

(** The handles the handler leaves alone. *)
Variable skip : tcb_ptr → Prop.
Context `{!∀ h, Decision (skip h)}.

Variable handler : holderhandler_t.
Hypothesis handler_spec : ∀ p s h,
  g_running s = g_running s0 → lookup_holder p s = Some h →
  handler p k arg s =
    if decide (skip (htcb h)) then Ret 0 s
    else nxsem_restoreholderprio cfg (htcb h) k arg s.

Definition restore_inv (r : Z) (rest : list holder_ptr) (s : kstate) : Prop :=
  r = 0 ∧ wf s ∧ g_running s = g_running s0 ∧ g_irq s = g_irq s0 ∧
  length (sems s) = length (sems s0) ∧
  (∃ pre, entries cfg s k = pre ++ rest) ∧
  (∀ q, q ∈ rest → entry_htcb s q = entry_htcb s0 q) ∧
  (∀ q, q ∈ entries cfg s0 k → skip (entry_htcb s0 q) →
        q ∈ entries cfg s k ∧ entry_htcb s q = entry_htcb s0 q ∧
        entry_counts s q = entry_counts s0 q) ∧
  ∃ evs, trace s = trace s0 ++ evs ∧
         (∀ h k', EvRestore h k' ∈ evs → ¬ skip h) ∧
         (∀ q, q ∈ entries cfg s0 k → q ∉ rest → live s0 q →
               ¬ skip (entry_htcb s0 q) →
               EvRestore (entry_htcb s0 q) k ∈ evs).

Lemma restore_inv_entries r rest s :
  restore_inv r rest s → shape_ok cfg s ∧ ∃ pre, entries cfg s k = pre ++ rest.
Proof.
  intros (_ & Hwf & _ & _ & _ & He & _). split; [by apply wf_shape_ok|done].
Qed.

Lemma restore_inv_dead r p rest s :
  restore_inv r (p :: rest) s → entry_htcb s p = None → restore_inv r rest s.
Proof.
  intros (Hr & Hwf & Hrun & Hirq & Hlen & [pre He] & Hrest & Hskip
          & evs & Htr & Hev & Hvis) Hdead.
  split_and!; try done.
  - exists (pre ++ [p]). by rewrite <- (assoc (++)).
  - intros q Hq. apply Hrest. apply elem_of_cons. by right.
  - exists evs. split_and!; try done.
    intros q Hq Hnot Hlive. apply Hvis; [done| |done].
    intros [->|Hin]%elem_of_cons; [|done].
    pose proof (Hrest p) as Hh. unfold live in Hlive.
    rewrite Hh in Hdead by (apply elem_of_cons; by left). done.
Qed.

Lemma restore_inv_live r p rest s :
  restore_inv r (p :: rest) s → entry_htcb s p ≠ None →
  (pooled cfg = true → r = 0) →
  ∃ r' s', handler p k arg s = Ret r' s' ∧ restore_inv r' rest s'.
Proof.
  intros (Hr & Hwf & Hrun & Hirq & Hlen & [pre He] & Hrest & Hskip
          & evs & Htr & Hev & Hvis) Hlive _.
  pose proof (wf_shape_ok _ Hwf) as Hshape.
  assert (Hin : p ∈ entries cfg s k) by (rewrite He; apply elem_of_middle).
  destruct (entries_lookup cfg s k p Hshape Hin) as [h Hl].
  pose proof (entries_NoDup cfg s k Hshape) as Hnd. rewrite He in Hnd.
  apply NoDup_app in Hnd as (_ & Hdis & Hnd2).
  apply NoDup_cons in Hnd2 as [Hprest _].
  assert (Hhp : entry_htcb s p = entry_htcb s0 p)
    by (apply Hrest; apply elem_of_cons; by left).
  rewrite (handler_spec p s h Hrun Hl).
  rewrite <- (entry_htcb_lookup _ _ _ Hl).
  destruct (decide (skip (entry_htcb s p))) as [Hsk|Hnsk].
  - (* the handler leaves the holder alone *)
    exists 0, s. split; [done|]. split_and!; try done.
    + exists (pre ++ [p]). by rewrite He, <- (assoc (++)).
    + intros q Hq. apply Hrest. apply elem_of_cons. by right.
    + exists evs. split_and!; try done.
      intros q Hq Hnot Hliveq Hnskq. apply Hvis; try done.
      intros [->|?]%elem_of_cons; [|done]. apply Hnskq. by rewrite <- Hhp.
  - destruct (restore_entry_step s k pre p rest arg Hwf He Hlive)
      as (s' & evs' & Hrun' & Hwf' & Hrun'' & Hirq' & (pre' & He' & Hpre')
          & Heo & Hsame & Hdom & Hlen' & Htr' & Hnr).
    exists 0, s'. split; [done|]. split_and!; try done; try congruence.
    + eauto.
    + intros q Hq. destruct (Hsame q) as [-> _]; [intros ->; done|].
      apply Hrest. apply elem_of_cons. by right.
    + intros q Hq Hsk. destruct (Hskip q Hq Hsk) as (Hqin & Hqh & Hqc).
      assert (Hne : q ≠ p).
      { intros ->. apply Hnsk. by rewrite Hhp. }
      destruct (Hsame q Hne) as [-> ->]. split_and!; try done.
      rewrite He'. rewrite He in Hqin.
      rewrite !elem_of_app, elem_of_cons in Hqin.
      rewrite elem_of_app. naive_solver.
    + exists (evs ++ EvRestore (entry_htcb s p) k :: evs'). split_and!.
      * rewrite Htr', Htr. by rewrite <- (assoc (++)).
      * intros h' k' [Hin'|Hin']%elem_of_app; [by eapply Hev|].
        apply elem_of_cons in Hin' as [[= -> ->]|Hin']; [done|].
        by apply Hnr in Hin'.
      * intros q Hq Hnot Hliveq Hnskq.
        destruct (decide (q = p)) as [->|Hne].
        { rewrite <- Hhp. apply elem_of_app. right. apply elem_of_cons. by left. }
        apply elem_of_app. left. apply Hvis; try done.
        intros [->|?]%elem_of_cons; done.
Qed.

Lemma restore_walk s :
  s = s0 → wf s0 → is_Some (sems s0 !! k) →
  ∃ r s', nxsem_foreachholder cfg k handler arg s = Ret r s' ∧
          restore_inv 0 [] s'.
Proof.
  intros -> Hwf Hk.
  destruct (foreachholder_rule cfg restore_inv handler k arg
              restore_inv_entries restore_inv_dead restore_inv_live s0)
    as (r & s' & rest & Hrun & Hinv & Hrest); [|done|].
  - split_and!; try done.
    + by exists [].
    + exists []. split_and!; [by rewrite app_nil_r|by intros ? ? ?%elem_of_nil|].
      intros q Hq Hnot. done.
  - exists r, s'. split; [done|].
    destruct Hrest as [->|[_ Hr]]; [|by destruct Hinv as [-> _]].
    by destruct Hinv as [-> ?].
Qed.

End RestoreWalk.

(** *** The handlers of the restore passes *)

Lemma restoreholderprioall_spec k arg p s h :
  lookup_holder p s = Some h →
  nxsem_restoreholderprioall cfg p k arg s =
    if decide False then Ret 0 s
    else nxsem_restoreholderprio cfg (htcb h) k arg s.
Proof.
  intros Hl. unfold nxsem_restoreholderprioall.
  by rewrite (bind_Ret _ _ _ _ _ (read_htcb_Ret _ _ _ Hl)).
Qed.

Lemma restoreholderprio_others_spec k arg p s h :
  lookup_holder p s = Some h →
  nxsem_restoreholderprio_others cfg p k arg s =
    if decide (htcb h = g_running s) then Ret 0 s
    else nxsem_restoreholderprio cfg (htcb h) k arg s.
Proof.
  intros Hl. unfold nxsem_restoreholderprio_others, this_task.
  unfold bind at 1. unfold gets at 1.
  rewrite (bind_Ret _ _ _ _ _ (read_htcb_Ret _ _ _ Hl)).
  destruct (decide (htcb h = g_running s)).
  - by rewrite bool_decide_eq_false_2 by (by intros ?).
  - by rewrite bool_decide_eq_true_2.
Qed.

Lemma restoreholderprio_self_spec k arg p s h :
  lookup_holder p s = Some h →
  nxsem_restoreholderprio_self cfg p k arg s =
    if decide (htcb h = g_running s) then
      (do* (if pooled cfg then ret tt
            else nxsem_findandfreeholder cfg k (g_running s)) in
       do* nxsem_restoreholderprio cfg (g_running s) k arg in
       ret 1) s
    else Ret 0 s.
Proof.
  intros Hl. unfold nxsem_restoreholderprio_self, this_task.
  unfold bind at 1. unfold gets at 1.
  rewrite (bind_Ret _ _ _ _ _ (read_htcb_Ret _ _ _ Hl)).
  destruct (decide (htcb h = g_running s)).
  - by rewrite bool_decide_eq_true_2.
  - by rewrite bool_decide_eq_false_2.
Qed.

Lemma findandfreeholder_spec s k ht :
  shape_ok cfg s → is_Some (sems s !! k) →
  nxsem_findandfreeholder cfg k ht s =
    match find_entry cfg s k ht with
    | Some p =>
        if entry_counts s p <=? 0 then nxsem_freeholder cfg k p s else Ret tt s
    | None => Ret tt s
    end.
Proof.
  intros Hshape Hk. unfold nxsem_findandfreeholder.
  rewrite (bind_Ret _ _ _ _ _ (findholder_spec cfg s k ht Hshape Hk)).
  destruct (find_entry cfg s k ht) as [p|] eqn:Hf; [|done].
  apply find_entry_Some in Hf as [Hin _].
  destruct (entries_lookup cfg s k p Hshape Hin) as [h Hl].
  rewrite (bind_Ret _ _ _ _ _ (read_counts_Ret _ _ _ Hl)).
  rewrite (entry_counts_lookup _ _ _ Hl). by destruct (counts h <=? 0).
Qed.

(** After [nxsem_findandfreeholder] a thread has no entry without
    counts. *)
Lemma findandfreeholder_post s k t :
  store_wf cfg s → is_Some (sems s !! k) →
  ∃ s', nxsem_findandfreeholder cfg k (Some t) s = Ret tt s' ∧
        store_wf cfg s' ∧ store_frame s s' ∧
        trace s' = trace s ++
          match find_entry cfg s k (Some t) with
          | Some p => if entry_counts s p <=? 0 then [EvFree k p] else []
          | None => []
          end ∧
        (∀ p, find_entry cfg s' k (Some t) = Some p → 0 < entry_counts s' p).
Proof.
  intros Hwf Hk. pose proof (store_wf_shape_ok _ Hwf) as Hshape.
  rewrite (findandfreeholder_spec s k _ Hshape Hk).
  destruct (find_entry cfg s k (Some t)) as [p|] eqn:Hf.
  - destruct (entry_counts s p <=? 0) eqn:Hc.
    + pose proof Hf as Hf'. apply find_entry_Some in Hf' as [Hin Hh].
      apply list_elem_of_split in Hin as (pre & rest & He).
      destruct (freeholder_spec cfg s k pre p rest Hwf He)
        as (s' & Hrun' & Hst' & He' & Heo & Hsame & Hh' & Hc' & Hfr & Htr').
      exists s'. split_and!; try done.
      intros q Hq. exfalso.
      apply find_entry_Some in Hq as [Hqin Hqh].
      assert (Hne : q ≠ p) by (intros ->; congruence).
      destruct (Hsame q Hne) as [Hqh' _].
      assert (Hqin' : q ∈ entries cfg s k).
      { rewrite He' in Hqin. rewrite He.
        rewrite !elem_of_app, elem_of_cons.
        destruct (pooled cfg); rewrite !elem_of_app in Hqin;
          [naive_solver|].
        destruct Hqin as [[?|Hq1]|?]; [naive_solver| |naive_solver].
        apply list_elem_of_singleton in Hq1. done. }
      apply Hne. symmetry.
      eapply (entries_uniq s k p q); try done.
      * rewrite He. apply elem_of_middle.
      * unfold live. by rewrite Hh.
      * congruence.
    + exists s. rewrite app_nil_r. split_and!; try done.
      intros q. rewrite Hf. intros [= <-]. apply Z.leb_gt in Hc. lia.
  - exists s. rewrite app_nil_r. split_and!; try done.
    intros q. by rewrite Hf.
Qed.

(** *** The handler of the second pass on the entry of the running
    thread *)

Lemma self_step s k pre p rest arg :
  wf s → entries cfg s k = pre ++ p :: rest →
  entry_htcb s p = g_running s →
  ∃ s' evs,
    nxsem_restoreholderprio_self cfg p k arg s = Ret 1 s' ∧
    wf s' ∧ g_running s' = g_running s ∧ g_irq s' = g_irq s ∧
    length (sems s') = length (sems s) ∧
    (∃ pre', entries cfg s' k = pre' ++ rest) ∧
    same_entries_except p s s' ∧
    trace s' = trace s ++
      (if decide (pooled cfg = false ∧ entry_counts s p ≤ 0)
       then [EvFree k p] else []) ++
      EvRestore (g_running s) k :: evs ∧
    (∀ h k', EvRestore h k' ∉ evs) ∧
    (∀ k' q, EvFree k' q ∉ evs).
Proof.
  intros Hwf He Hh.
  pose proof (wf_shape_ok _ Hwf) as Hshape.
  assert (Hin : p ∈ entries cfg s k) by (rewrite He; apply elem_of_middle).
  pose proof (entries_valid_sem _ _ _ _ Hin) as Hk.
  destruct (entries_lookup cfg s k p Hshape Hin) as [h Hl].
  destruct (sc_running _ (proj2 Hwf)) as [v Hv].
  apply lookup_tcb_Some in Hv as (r & Hr & Hv).
  assert (Hlive : live s p) by (unfold live; congruence).
  rewrite (restoreholderprio_self_spec k arg p s h Hl).
  rewrite <- (entry_htcb_lookup _ _ _ Hl), decide_True by done.
  assert (Hevs : ∀ rel (v' : tcb_s),
            (∀ h' k', EvRestore h' k' ∉ (restore_tcb k (Some r) rel v').2) ∧
            (∀ k' q, EvFree k' q ∉ (restore_tcb k (Some r) rel v').2)).
  { intros rel v'. split; intros ? ? Hev;
      apply restore_tcb_events in Hev as [[? ?]|[? ?]]; done. }
  assert (Hpool : pooled cfg = true ∨ pooled cfg = false)
    by (destruct (pooled cfg); auto).
  destruct Hpool as [Hp|Hp]; rewrite Hp.
  - rewrite decide_False by (intros [? _]; congruence).
    rewrite (bind_Ret _ _ _ _ _ (eq_refl : ret tt s = Ret tt s)).
    rewrite Hr.
    mstep (restoreholderprio_live s k r v arg Hshape Hk Hv).
    eexists. eexists. split; [reflexivity|].
    set (s' := sched_update _ _ s).
    assert (Hss : same_store s s') by done.
    split_and!; try done; try apply Hevs.
    + apply wf_sched_update with v; [done|done|].
      apply restore_tcb_positive. destruct Hwf as [_ [_ Hled]]. by eapply Hled.
    + exists (pre ++ [p]). rewrite (same_store_entries _ _ _ _ Hss), He.
      by rewrite <- (assoc (++)).
  - assert (Hfind : find_entry cfg s k (g_running s) = Some p).
    { rewrite <- Hh. by apply find_entry_holder; [destruct Hwf|..]. }
    pose proof (findandfreeholder_spec s k (g_running s) Hshape Hk) as Hfa.
    rewrite Hfind in Hfa.
    destruct (entry_counts s p <=? 0) eqn:Hc.
    + apply Z.leb_le in Hc. rewrite decide_True by done.
      destruct (freeholder_spec cfg s k pre p rest (proj1 Hwf) He)
        as (sa & Hrun' & Hst' & He' & Heo & Hsame & Hh' & Hc' & Hfr & Htr').
      rewrite Hrun' in Hfa. rewrite (bind_Ret _ _ _ _ _ Hfa).
      assert (Hwfa : wf sa).
      { split; [done|]. eapply sched_wf_frame; [exact Hfr|]. by destruct Hwf. }
      assert (Hva : tcbs sa !! r = Some v) by (by destruct Hfr as [-> _ _ _]).
      rewrite Hr.
      mstep (restoreholderprio_live sa k r v arg (wf_shape_ok _ Hwfa)
               (store_frame_valid _ _ _ Hfr Hk) Hva).
      eexists. eexists. split; [reflexivity|].
      set (s' := sched_update _ _ sa).
      assert (Hss : same_store sa s') by done.
      split_and!; try apply Hevs.
      * apply wf_sched_update with v; [done|done|].
        apply restore_tcb_positive. destruct Hwf as [_ [_ Hled]]. by eapply Hled.
      * cbn. by destruct Hfr as [_ -> _ _].
      * cbn. by destruct Hfr as [_ _ -> _].
      * cbn. by destruct Hfr as [_ _ _ ->].
      * eexists. rewrite (same_store_entries _ _ _ _ Hss). exact He'.
      * intros q Hq. destruct (Hsame q Hq) as [<- <-].
        by rewrite (same_store_entry_htcb _ _ _ Hss),
                   (same_store_entry_counts _ _ _ Hss).
      * cbn. rewrite Htr'. by rewrite <- !(assoc (++)).
    + apply Z.leb_gt in Hc. rewrite decide_False by (intros [_ ?]; lia).
      rewrite (bind_Ret _ _ _ _ _ Hfa).
      rewrite Hr.
      mstep (restoreholderprio_live s k r v arg Hshape Hk Hv).
      eexists. eexists. split; [reflexivity|].
      set (s' := sched_update _ _ s).
      assert (Hss : same_store s s') by done.
      split_and!; try done; try apply Hevs.
      * apply wf_sched_update with v; [done|done|].
        apply restore_tcb_positive. destruct Hwf as [_ [_ Hled]]. by eapply Hled.
      * exists (pre ++ [p]). rewrite (same_store_entries _ _ _ _ Hss), He.
        by rewrite <- (assoc (++)).
Qed.

(** *** The second pass *)

Section SelfWalk.

Variable s1 : kstate.
Variable k : nat.
Variable arg : tcb_ptr.
Hypothesis wf_s1 : wf s1.

Definition self_inv (r : Z) (rest : list holder_ptr) (s : kstate) : Prop :=
  (r = 0 ∧ s = s1 ∧
   ∃ pre, entries cfg s1 k = pre ++ rest ∧
          ∀ q, q ∈ pre → entry_htcb s1 q ≠ g_running s1) ∨
  (∃ pre0 p rest0,
     entries cfg s1 k = pre0 ++ p :: rest0 ∧
     entry_htcb s1 p = g_running s1 ∧
     nxsem_restoreholderprio_self cfg p k arg s1 = Ret 1 s ∧
     wf s ∧ g_running s = g_running s1 ∧
     (pooled cfg = true → r ≠ 0) ∧
     (∃ pre, entries cfg s k = pre ++ rest) ∧
     ∀ q, q ∈ rest → entry_htcb s q ≠ g_running s1).

Lemma running_not_null : g_running s1 ≠ None.
Proof.
  destruct (sc_running _ (proj2 wf_s1)) as [v Hv].
  apply lookup_tcb_Some in Hv as (r & -> & _). done.
Qed.

Lemma self_inv_entries r rest s :
  self_inv r rest s → shape_ok cfg s ∧ ∃ pre, entries cfg s k = pre ++ rest.
Proof.
  intros [(_ & -> & pre & He & _)|(_ & _ & _ & _ & _ & _ & Hwf & _ & _ & He & _)].
  - split; [by apply wf_shape_ok|eauto].
  - split; [by apply wf_shape_ok|done].
Qed.

Lemma self_inv_dead r p rest s :
  self_inv r (p :: rest) s → entry_htcb s p = None → self_inv r rest s.
Proof.
  intros [(Hr & -> & pre & He & Hpre)
         |(pre0 & p0 & rest0 & He0 & Hh0 & Hrun & Hwf & Hrn & Hr & [pre He] & Hrest)]
         Hdead.
  - left. split_and!; try done. exists (pre ++ [p]).
    split; [by rewrite <- (assoc (++))|].
    intros q [Hq|Hq]%elem_of_app; [by apply Hpre|].
    apply list_elem_of_singleton in Hq as ->. rewrite Hdead.
    intros Heq. by apply running_not_null.
  - right. exists pre0, p0, rest0. split_and!; try done.
    + exists (pre ++ [p]). by rewrite <- (assoc (++)).
    + intros q Hq. apply Hrest. apply elem_of_cons. by right.
Qed.

Lemma self_inv_live r p rest s :
  self_inv r (p :: rest) s → entry_htcb s p ≠ None →
  (pooled cfg = true → r = 0) →
  ∃ r' s', nxsem_restoreholderprio_self cfg p k arg s = Ret r' s' ∧
           self_inv r' rest s'.
Proof.
  intros [(Hr & -> & pre & He & Hpre)
         |(pre0 & p0 & rest0 & He0 & Hh0 & Hrun & Hwf & Hrn & Hr & [pre He] & Hrest)]
         Hlive Hpr.
  - pose proof (wf_shape_ok _ wf_s1) as Hshape.
    assert (Hin : p ∈ entries cfg s1 k) by (rewrite He; apply elem_of_middle).
    destruct (entries_lookup cfg s1 k p Hshape Hin) as [h Hl].
    destruct (decide (entry_htcb s1 p = g_running s1)) as [Heq|Hne].
    + destruct (self_step s1 k pre p rest arg wf_s1 He Heq)
        as (s' & evs & Hrun & Hwf' & Hrn' & _ & _ & He' & Hsame & _).
      exists 1, s'. split; [done|]. right.
      exists pre, p, rest. split_and!; try done.
      intros q Hq.
      assert (Hqp : q ≠ p).
      { intros ->. pose proof (entries_NoDup cfg s1 k Hshape) as Hnd.
        rewrite He in Hnd. apply NoDup_app in Hnd as (_ & _ & Hnd).
        by apply NoDup_cons in Hnd as [? _]. }
      destruct (Hsame q Hqp) as [-> _]. intros Hq'. apply Hqp. symmetry.
      eapply (entries_uniq s1 k p q); [by destruct wf_s1|done| |done|congruence].
      rewrite He. apply elem_of_app. right. apply elem_of_cons. by right.
    + exists 0, s1. split.
      { rewrite (restoreholderprio_self_spec k arg p s1 h Hl).
        rewrite <- (entry_htcb_lookup _ _ _ Hl). by rewrite decide_False. }
      left. split_and!; try done. exists (pre ++ [p]).
      split; [by rewrite <- (assoc (++))|].
      intros q [Hq|Hq]%elem_of_app; [by apply Hpre|].
      by apply list_elem_of_singleton in Hq as ->.
  - pose proof (wf_shape_ok _ Hwf) as Hshape.
    assert (Hin : p ∈ entries cfg s k) by (rewrite He; apply elem_of_middle).
    destruct (entries_lookup cfg s k p Hshape Hin) as [h Hl].
    exists 0, s. split.
    { rewrite (restoreholderprio_self_spec k arg p s h Hl).
      rewrite <- (entry_htcb_lookup _ _ _ Hl). rewrite decide_False; [done|].
      rewrite Hrn. apply Hrest. apply elem_of_cons. by left. }
    right. exists pre0, p0, rest0. split_and!; try done.
    + intros Hp. specialize (Hr Hp). specialize (Hpr Hp). done.
    + exists (pre ++ [p]). by rewrite <- (assoc (++)).
    + intros q Hq. apply Hrest. apply elem_of_cons. by right.
Qed.

(** The second pass calls the handler on the entry of the running thread,
    if it has one, and changes nothing otherwise. *)
Lemma self_walk :
  is_Some (sems s1 !! k) →
  ∃ r s2,
    nxsem_foreachholder cfg k (nxsem_restoreholderprio_self cfg) arg s1
      = Ret r s2 ∧
    wf s2 ∧ g_running s2 = g_running s1 ∧
    match find_entry cfg s1 k (g_running s1) with
    | Some p => nxsem_restoreholderprio_self cfg p k arg s1 = Ret 1 s2
    | None => s2 = s1
    end.
Proof.
  intros Hk.
  destruct (foreachholder_rule cfg self_inv (nxsem_restoreholderprio_self cfg)
              k arg self_inv_entries self_inv_dead self_inv_live s1)
    as (r & s' & rest & Hrun & Hinv & Hrest); [|done|].
  { left. split_and!; try done. exists []. split; [done|].
    by intros q ?%elem_of_nil. }
  exists r, s'. split; [done|].
  destruct Hinv as [(Hr & -> & pre & He & Hpre)
         |(pre0 & p0 & rest0 & He0 & Hh0 & Hrun' & Hwf & Hrn & Hr & [pre He] & Hrest')].
  - destruct Hrest as [->|[_ Hr']]; [|done].
    split_and!; try done.
    destruct (find_entry cfg s1 k (g_running s1)) as [p|] eqn:Hf; [|done].
    apply find_entry_Some in Hf as [Hin Hh].
    rewrite He, app_nil_r in Hin. by destruct (Hpre p Hin).
  - split_and!; try done.
    assert (Hin : p0 ∈ entries cfg s1 k) by (rewrite He0; apply elem_of_middle).
    rewrite <- Hh0.
    rewrite (find_entry_holder s1 k p0 (proj1 wf_s1) Hin); [done|].
    unfold live. rewrite Hh0. apply running_not_null.
Qed.

End SelfWalk.

(** *** [nxsem_restore_baseprio_task] *)

Lemma verify_walk s k :
  shape_ok cfg s → is_Some (sems s !! k) →
  ∃ r, nxsem_foreachholder cfg k nxsem_verifyholder None s = Ret r s.
Proof.
  intros Hshape Hk.
  destruct (foreachholder_rule cfg
              (λ r rest s', s' = s ∧ ∃ pre, entries cfg s k = pre ++ rest)
              nxsem_verifyholder k None) with (s := s)
    as (r & s' & rest & Hrun & [-> _] & _).
  - intros r rest s' [-> He]. done.
  - intros r p rest s' [-> [pre He]] _. split; [done|].
    exists (pre ++ [p]). by rewrite <- (assoc (++)).
  - intros r p rest s' [-> [pre He]] _ _. exists 0, s. split; [done|].
    split; [done|]. exists (pre ++ [p]). by rewrite <- (assoc (++)).
  - split; [done|]. by exists [].
  - done.
  - by exists r.
Qed.

Lemma others_walk s k arg :
  wf s → is_Some (sems s !! k) →
  ∃ r s1,
    nxsem_foreachholder cfg k (nxsem_restoreholderprio_others cfg) arg s
      = Ret r s1 ∧
    restore_inv s k (λ h, h = g_running s) 0 [] s1.
Proof.
  intros Hwf Hk.
  apply (restore_walk s k arg (λ h, h = g_running s)
           (nxsem_restoreholderprio_others cfg)); try done.
  intros p s' h Hrun Hl.
  rewrite (restoreholderprio_others_spec k arg p s' h Hl). rewrite Hrun.
  by destruct (decide (htcb h = g_running s)).
Qed.

Lemma all_walk s k arg :
  wf s → is_Some (sems s !! k) →
  ∃ r s1,
    nxsem_foreachholder cfg k (nxsem_restoreholderprioall cfg) arg s
      = Ret r s1 ∧
    restore_inv s k (λ h, False) 0 [] s1.
Proof.
  intros Hwf Hk.
  apply (restore_walk s k arg (λ h, False)
           (nxsem_restoreholderprioall cfg)); try done.
  intros p s' h Hrun Hl.
  by rewrite (restoreholderprioall_spec k arg p s' h Hl).
Qed.

(** What [nxsem_restore_baseprio_task] does in a well-formed state. *)
Lemma restore_baseprio_task_spec s k stcb :
  wf s → is_Some (sems s !! k) →
  ∃ s',
    nxsem_restore_baseprio_task cfg stcb k s = Ret tt s' ∧
    wf s' ∧ length (sems s') = length (sems s) ∧
    (∀ p, find_entry cfg s' k (g_running s) = Some p → 0 < entry_counts s' p) ∧
    (stcb ≠ None →
     ∃ r1 s1 r2 s2 t1 t2 t3,
       nxsem_foreachholder cfg k (nxsem_restoreholderprio_others cfg) stcb s
         = Ret r1 s1 ∧
       nxsem_foreachholder cfg k (nxsem_restoreholderprio_self cfg) stcb s1
         = Ret r2 s2 ∧
       nxsem_findandfreeholder cfg k (g_running s) s2 = Ret tt s' ∧
       trace s1 = trace s ++ t1 ∧
       trace s2 = trace s1 ++ t2 ∧
       trace s' = trace s2 ++ t3 ∧
       (∀ p, p ∈ holders cfg s k → entry_htcb s p ≠ g_running s →
             EvRestore (entry_htcb s p) k ∈ t1) ∧
       (∀ h k', EvRestore h k' ∈ t1 → h ≠ g_running s) ∧
       (∀ h k', EvRestore h k' ∈ t2 ++ t3 → h = g_running s) ∧
       (∀ p, find_entry cfg s k (g_running s) = Some p →
             ∃ t2', t2 = (if decide (pooled cfg = false ∧ entry_counts s p ≤ 0)
                          then [EvFree k p] else []) ++
                         EvRestore (g_running s) k :: t2' ∧
                    ∀ h k', EvRestore h k' ∉ t2')).
Proof.
  intros Hwf Hk.
  destruct (sc_running _ (proj2 Hwf)) as [v Hv].
  apply lookup_tcb_Some in Hv as (r & Hr & Hv).
  unfold nxsem_restore_baseprio_task, this_task.
  unfold bind at 1. unfold gets at 1.
  destruct (decide (stcb = None)) as [->|Hstcb].
  - (* no thread was given the count *)
    rewrite bool_decide_eq_false_2 by (by intros ?).
    assert (Hpass : (if CONFIG_DEBUG_ASSERTIONS cfg
                then do* nxsem_foreachholder cfg k nxsem_verifyholder None in
                     ret tt
                else ret tt) s = Ret tt s).
    { destruct (CONFIG_DEBUG_ASSERTIONS cfg); [|done].
      destruct (verify_walk s k (wf_shape_ok _ Hwf) Hk) as [r0 Hrun].
      by rewrite (bind_Ret _ _ _ _ _ Hrun). }
    rewrite (bind_Ret _ _ _ _ _ Hpass).
    rewrite Hr.
    destruct (findandfreeholder_post s k r (proj1 Hwf) Hk)
      as (s' & Hrun & Hst' & Hfr' & _ & Hfinal).
    exists s'. split_and!; try done.
    + split; [done|]. eapply sched_wf_frame; [exact Hfr'|]. by destruct Hwf.
    + by destruct Hfr'.
  - rewrite bool_decide_eq_true_2 by done.
    destruct (others_walk s k stcb Hwf Hk)
      as (r1 & s1 & Hrun1 & _ & Hwf1 & Hrn1 & _ & Hlen1 & _ & _ & Hskip
          & t1 & Htr1 & Hev1 & Hvis1).
    assert (Hk1 : is_Some (sems s1 !! k)).
    { apply lookup_lt_is_Some. rewrite Hlen1. by apply lookup_lt_is_Some. }
    destruct (self_walk s1 k stcb Hwf1 Hk1) as (r2 & s2 & Hrun2 & Hwf2 & Hrn2 & Hself).
    assert (Hk2 : ∃ t2, trace s2 = trace s1 ++ t2 ∧
              length (sems s2) = length (sems s1) ∧
              (∀ h k', EvRestore h k' ∈ t2 → h = g_running s) ∧
              (∀ p, find_entry cfg s k (g_running s) = Some p →
                 ∃ t2', t2 = (if decide (pooled cfg = false ∧ entry_counts s p ≤ 0)
                              then [EvFree k p] else []) ++
                             EvRestore (g_running s) k :: t2' ∧
                        ∀ h k', EvRestore h k' ∉ t2')).
    { assert (Hinit : ∀ p, find_entry cfg s k (g_running s) = Some p →
                find_entry cfg s1 k (g_running s1) = Some p ∧
                entry_counts s1 p = entry_counts s p).
      { intros p [Hin Hh]%find_entry_Some.
        destruct (Hskip p Hin Hh) as (Hin1 & Hh1 & Hc1). split; [|done].
        rewrite Hrn1, <- Hh, <- Hh1.
        apply find_entry_holder; [by destruct Hwf1|done|].
        unfold live. rewrite Hh1, Hh, Hr. done. }
      destruct (find_entry cfg s1 k (g_running s1)) as [p|] eqn:Hf1.
      - pose proof Hf1 as [Hin1 Hh1]%find_entry_Some.
        apply list_elem_of_split in Hin1 as (pre & rest & He1).
        destruct (self_step s1 k pre p rest stcb Hwf1 He1 Hh1)
          as (s2' & evs & Hrun' & _ & _ & _ & Hlen' & _ & _ & Htr' & Hnr & Hnf).
        assert (s2' = s2) as -> by congruence.
        eexists. split; [exact Htr'|]. split; [done|]. split.
        + intros h k' [Hev|Hev]%elem_of_app.
          { destruct (decide _); [|by apply elem_of_nil in Hev].
            by apply list_elem_of_singleton in Hev. }
          apply elem_of_cons in Hev as [[= -> _]|Hev]; [done|].
          by apply Hnr in Hev.
        + intros p' Hp'. destruct (Hinit p' Hp') as [[= <-] Hc].
          exists evs. rewrite Hrn1, Hc. done.
      - subst s2. exists []. rewrite app_nil_r. split_and!; try done.
        + by intros h k' ?%elem_of_nil.
        + intros p' Hp'. by destruct (Hinit p' Hp'). }
    destruct Hk2 as (t2 & Htr2 & Hlen2 & Hev2 & Hfree2).
    assert (Hk2 : is_Some (sems s2 !! k)).
    { apply lookup_lt_is_Some. rewrite Hlen2. by apply lookup_lt_is_Some. }
    mstep Hrun1. mstep Hrun2.
    mstep (eq_refl : ret tt s2 = Ret tt s2).
    rewrite Hr.
    destruct (findandfreeholder_post s2 k r (proj1 Hwf2) Hk2)
      as (s' & Hrun3 & Hst' & Hfr' & Htr3 & Hfinal).
    exists s'. split_and!; try done.
    { split; [done|]. eapply sched_wf_frame; [exact Hfr'|]. by destruct Hwf2. }
    { destruct Hfr' as [_ _ _ ->]. congruence. }
    intros _. exists r1, s1, r2, s2, t1, t2. eexists.
    split_and!; try done.
    + intros p [Hin Hlive]%holders_subset Hne.
      apply Hvis1; try done; [apply not_elem_of_nil|by rewrite Hr].
    + intros h k' Hev. rewrite <- Hr. by eapply Hev1.
    + intros h k' [Hev|Hev]%elem_of_app;
        [rewrite <- Hr; by eapply Hev2|].
      destruct (find_entry cfg s2 k (Some r)) as [q|]; [|by apply elem_of_nil in Hev].
      destruct (entry_counts s2 q <=? 0); [|by apply elem_of_nil in Hev].
      by apply list_elem_of_singleton in Hev.
    + intros p Hp. rewrite <- Hr in Hp |- *. by apply Hfree2.
Qed.


(** C4: the order of the restores in [nxsem_restore_baseprio_task].  In a
    well-formed state the call returns and the entry of the running
    thread is freed at the end if it holds no count.  When [stcb] is not
    NULL the call is the first pass, the second pass and
    [nxsem_findandfreeholder], in this order: the first pass restores
    every holder but the running thread and never the running thread; all
    later restores are of the running thread; and with built-in holders
    the entry of the running thread, if it holds no count, is freed
    before the restore of the second pass. *)
Theorem C4_restore_others_before_self s k stcb :
  wf s → is_Some (sems s !! k) →
  ∃ s',
    nxsem_restore_baseprio_task cfg stcb k s = Ret tt s' ∧
    (∀ p, find_entry cfg s' k (g_running s) = Some p → 0 < entry_counts s' p) ∧
    (stcb ≠ None →
     ∃ r1 s1 r2 s2 t1 t2 t3,
       nxsem_foreachholder cfg k (nxsem_restoreholderprio_others cfg) stcb s
         = Ret r1 s1 ∧
       nxsem_foreachholder cfg k (nxsem_restoreholderprio_self cfg) stcb s1
         = Ret r2 s2 ∧
       nxsem_findandfreeholder cfg k (g_running s) s2 = Ret tt s' ∧
       trace s1 = trace s ++ t1 ∧
       trace s2 = trace s1 ++ t2 ∧
       trace s' = trace s2 ++ t3 ∧
       (∀ p, p ∈ holders cfg s k → entry_htcb s p ≠ g_running s →
             EvRestore (entry_htcb s p) k ∈ t1) ∧
       (∀ h k', EvRestore h k' ∈ t1 → h ≠ g_running s) ∧
       (∀ h k', EvRestore h k' ∈ t2 ++ t3 → h = g_running s) ∧
       (∀ p, find_entry cfg s k (g_running s) = Some p →
             ∃ t2', t2 = (if decide (pooled cfg = false ∧ entry_counts s p ≤ 0)
                          then [EvFree k p] else []) ++
                         EvRestore (g_running s) k :: t2' ∧
                    ∀ h k', EvRestore h k' ∉ t2')).
Proof.
  intros Hwf Hk.
  destruct (restore_baseprio_task_spec s k stcb Hwf Hk)
    as (s' & Hrun & _ & _ & Hfinal & Hpasses).
  by exists s'.
Qed.

(** *** The ledger edit of one restore *)

(** C3: the nested restore of one live thread.  With CONFIG_SEM_NNESTPRIO
    above zero, on a live thread whose scheduling priority differs from
    its base priority and whose ledger holds records of nonzero priority
    only (every record [nxsem_boostholderprio] writes is above the base
    priority), [nxsem_restoreholderprio] returns 0.  If the thread has no
    entry on the semaphore or its entry has counts 0, the new ledger is the
    old one without all the records of the semaphore.  Otherwise, if the
    ledger has no record of the semaphore it is unchanged, and else exactly
    one record goes: a record of the semaphore of the highest priority among
    the records of the semaphore.  The thread then gets the highest of its
    base priority and the priorities left in the ledger, by one call of
    [nxsched_set_priority] exactly when that differs from its scheduling
    priority. *)
Theorem C3_restore_ledger_edit s k t v arg :
  nested cfg = true → shape_ok cfg s → is_Some (sems s !! k) →
  tcbs s !! t = Some v → ledger_positive v →
  sched_priority v ≠ base_priority v →
  ∃ boosts' s',
    nxsem_restoreholderprio cfg (Some t) k arg s = Ret 0 s' ∧
    (if released s k (Some t)
     then boosts' ≡ₚ filter (λ b, boost_sem b ≠ k) (sem_boosts v)
     else (boosts' = sem_boosts v ∧
           ∀ b, b ∈ sem_boosts v → boost_sem b ≠ k) ∨
          (∃ b, boost_sem b = k ∧
                (∀ b', b' ∈ sem_boosts v → boost_sem b' = k →
                       (boost_priority b' ≤ boost_priority b)%N) ∧
                sem_boosts v ≡ₚ b :: boosts')) ∧
    let new_priority := highest_priority (base_priority v) boosts' in
    tcbs s' = <[t := Tcb new_priority (base_priority v) boosts']> (tcbs s) ∧
    trace s' = trace s ++ EvRestore (Some t) k ::
                 (if decide (new_priority = sched_priority v) then []
                  else [EvSetPriority (Some t) new_priority]) ∧
    same_store s s'.
Proof.
  intros Hn Hshape Hk Hv Hpos Hne.
  exists (restore_boosts k (released s k (Some t)) (sem_boosts v)).
  eexists. split; [by apply restoreholderprio_live|].
  split.
  - destruct (released s k (Some t)).
    + apply restore_boosts_released.
    + destruct (restore_boosts_holding k (sem_boosts v))
        as [[-> Hz]|(b & Hb & _ & Hmax & Hperm)].
      * left. split; [done|]. intros b Hb Hkb.
        specialize (Hz b Hb Hkb).
        unfold ledger_positive in Hpos.
        rewrite Forall_forall in Hpos. specialize (Hpos b Hb). lia.
      * right. by exists b.
  - cbv zeta. unfold restore_tcb.
    rewrite bool_decide_eq_true_2 by done. rewrite Hn.
    rewrite max_priority_highest.
    set (np := highest_priority _ _).
    destruct (decide (np = sched_priority v)) as [He|He].
    + rewrite bool_decide_eq_false_2 by (by intros ?).
      cbn. split_and!; try done.
      by destruct v; cbn in *; subst.
    + rewrite bool_decide_eq_true_2 by done. cbn.
      split_and!; try done.
Qed.

End Handlers.

(** ** Adding, releasing and destroying holders *)

Section Lifecycle.

Variable cfg : config.

(** The pointers the configuration uses: nodes of the pool, or the
    built-in holders of the semaphores. *)
Definition ptr_ok (p : holder_ptr) : Prop :=
  match p with
  | Prealloc _ => pooled cfg = true
  | Builtin _ _ => pooled cfg = false
  end.

Lemma entries_ptr_ok s k p : p ∈ entries cfg s k → ptr_ok p.
Proof.
  unfold entries, ptr_ok. destruct (pooled cfg).
  - by intros (i & -> & _)%list_elem_of_fmap.
  - destruct (sems s !! k); [|by intros ?%elem_of_nil].
    rewrite !elem_of_cons, elem_of_nil. naive_solver.
Qed.

(** With preallocated holders the entries of a semaphore are live. *)
Lemma entries_live_pooled s k p :
  pooled cfg = true → store_wf cfg s → p ∈ entries cfg s k → live s p.
Proof.
  intros Hp [Hpool _] Hin.
  destruct (Hpool Hp) as (fl & ls & Hsh & _ & Hlive).
  destruct (entries_valid_sem _ _ _ _ Hin) as [sm Hsm].
  destruct (pool_shape_sem_l _ _ _ _ _ _ Hsh Hsm) as (lk & Hlk & _).
  rewrite (entries_pooled _ _ _ _ _ _ Hp Hsh Hlk) in Hin.
  apply list_elem_of_fmap in Hin as (i & -> & Hi).
  apply Hlive. by eapply elem_of_concat_lookup.
Qed.

Lemma filter_all {A} (P : A → Prop) `{!∀ x, Decision (P x)} (l : list A) :
  (∀ x, x ∈ l → P x) → filter P l = l.
Proof.
  induction l as [|a l IH]; intros Hall; [done|].
  rewrite filter_cons_True by (apply Hall, elem_of_cons; auto).
  f_equal. apply IH. intros x Hx. apply Hall, elem_of_cons. auto.
Qed.

Lemma holders_pooled s k :
  pooled cfg = true → store_wf cfg s → holders cfg s k = entries cfg s k.
Proof.
  intros Hp Hwf. apply filter_all. intros q Hq. by eapply entries_live_pooled.
Qed.

(** *** Writing the content of an entry *)

(** A store to [p] that keeps its [flink]. *)
Lemma store_content s p h x :
  shape_ok cfg s → ptr_ok p → lookup_holder p s = Some h →
  flink x = flink h →
  shape_ok cfg (store_holder p x s) ∧
  (∀ fl ls, pooled cfg = true → pool_shape cfg s fl ls →
            pool_shape cfg (store_holder p x s) fl ls) ∧
  (∀ k, entries cfg (store_holder p x s) k = entries cfg s k) ∧
  same_entries_except p s (store_holder p x s) ∧
  lookup_holder p (store_holder p x s) = Some x ∧
  store_frame s (store_holder p x s).
Proof.
  intros Hshape Hptr Hl Hfl.
  assert (Hsh' : ∀ fl ls, pooled cfg = true → pool_shape cfg s fl ls →
            pool_shape cfg (store_holder p x s) fl ls).
  { intros fl ls Hp Hsh. destruct p as [kp ip|i].
    - unfold ptr_ok in Hptr. congruence.
    - by eapply pool_shape_store_content. }
  assert (Hfr : store_frame s (store_holder p x s))
    by apply store_frame_store_holder.
  split_and!; try done.
  - intros Hp. destruct (Hshape Hp) as (fl & ls & Hsh). eauto.
  - intros k.
    assert (pooled cfg = true ∨ pooled cfg = false) as [Hp|Hp]
      by (destruct (pooled cfg); auto).
    + destruct (Hshape Hp) as (fl & ls & Hsh).
      destruct (ls !! k) as [lk|] eqn:Hlk.
      * rewrite (entries_pooled _ _ _ _ _ _ Hp Hsh Hlk).
        by rewrite (entries_pooled _ _ _ _ _ _ Hp (Hsh' _ _ Hp Hsh) Hlk).
      * assert (Hn : sems s !! k = None).
        { destruct (sems s !! k) eqn:Hs; [|done].
          destruct (pool_shape_sem_l _ _ _ _ _ _ Hsh Hs) as (? & ? & _).
          congruence. }
        rewrite (entries_invalid _ _ _ Hn). apply entries_invalid.
        apply lookup_ge_None. destruct Hfr as [_ _ _ ->].
        by apply lookup_ge_None.
    + unfold entries. rewrite Hp.
      assert (Hv : is_Some (sems (store_holder p x s) !! k)
                   ↔ is_Some (sems s !! k)).
      { rewrite !lookup_lt_is_Some. by destruct Hfr as [_ _ _ ->]. }
      destruct (sems s !! k) eqn:Hs, (sems (store_holder p x s) !! k) eqn:Hs';
        try done.
      * destruct Hv as [_ Hv]. destruct Hv as [? ?]; [eauto|done].
      * destruct Hv as [Hv _]. destruct Hv as [? ?]; [eauto|done].
  - intros q Hq. unfold entry_htcb, entry_counts.
    by rewrite lookup_holder_store_ne.
  - by eapply lookup_holder_store_eq.
Qed.

(** A change of the [htcb] of one entry keeps the holders of every
    semaphore distinct, when the entry keeps its thread, is cleared, or
    gets a thread that holds no entry of the semaphore. *)
Lemma uniq_content s s' p :
  shape_ok cfg s →
  (∀ k, entries cfg s' k = entries cfg s k) →
  same_entries_except p s s' →
  (entry_htcb s' p = entry_htcb s p ∨ entry_htcb s' p = None ∨
   ∀ k q, p ∈ entries cfg s k → q ∈ holders cfg s k →
          entry_htcb s q ≠ entry_htcb s' p) →
  (∀ k, NoDup (entry_htcb s <$> holders cfg s k)) →
  ∀ k, NoDup (entry_htcb s' <$> holders cfg s' k).
Proof.
  intros Hshape Hent Hsame Hcase Huniq k.
  assert (Hcontent : ∀ q, q ≠ p → entry_htcb s' q = entry_htcb s q).
  { intros q Hq. by destruct (Hsame q Hq). }
  destruct (decide (p ∈ entries cfg s k)) as [Hin|Hnin].
  2:{ destruct (holders_unchanged cfg s s' k) as [_ ->]; [by apply Hent| |done].
      intros q Hq. apply Hcontent. by intros ->. }
  pose proof Hin as Hin'.
  apply list_elem_of_split in Hin' as (pre & rest & He).
  pose proof (entries_NoDup cfg s k Hshape) as Hnd. rewrite He in Hnd.
  apply NoDup_app in Hnd as (_ & Hdis & Hnd2).
  apply NoDup_cons in Hnd2 as [Hprest _].
  assert (Hppre : p ∉ pre).
  { intros Hp. apply (Hdis p Hp). apply elem_of_cons. by left. }
  assert (Hpart : ∀ l : list holder_ptr, p ∉ l →
            entry_htcb s' <$> filter (live s') l
            = entry_htcb s <$> filter (live s) l).
  { intros l Hl.
    assert (filter (live s') l = filter (live s) l) as ->.
    { apply filter_ext_elem. intros q Hq. unfold live.
      rewrite Hcontent; [done|]. by intros ->. }
    apply fmap_ext_elem. intros q [_ Hq]%list_elem_of_filter.
    apply Hcontent. by intros ->. }
  specialize (Huniq k). unfold holders in Huniq |- *.
  rewrite Hent, He. rewrite He in Huniq.
  rewrite filter_app, fmap_app, filter_cons in Huniq |- *.
  rewrite (Hpart pre Hppre).
  set (A := entry_htcb s <$> filter (live s) pre) in *.
  assert (Hsub : NoDup (A ++ (entry_htcb s <$> filter (live s) rest))).
  { eapply sublist_NoDup; [exact Huniq|].
    apply sublist_app; [done|].
    destruct (decide (live s p)); [|done].
    rewrite fmap_cons. by apply sublist_cons. }
  destruct (decide (live s' p)) as [Hlive'|Hdead'].
  2:{ by rewrite (Hpart rest Hprest). }
  rewrite fmap_cons, (Hpart rest Hprest).
  set (B := entry_htcb s <$> filter (live s) rest) in *.
  destruct Hcase as [Hsame_t|[Hnone|Hfresh]].
  - destruct (decide (live s p)) as [Hlive|Hdead].
    + by rewrite fmap_cons, <- Hsame_t in Huniq.
    + exfalso. apply Hdead. unfold live in *. by rewrite <- Hsame_t.
  - done.
  - assert (HA : entry_htcb s' p ∉ A).
    { intros (q & Hq & [Hqin Hql]%list_elem_of_filter)%list_elem_of_fmap.
      apply (Hfresh k q Hin); [|done].
      apply list_elem_of_filter. split; [done|].
      rewrite He. apply elem_of_app. by left. }
    assert (HB : entry_htcb s' p ∉ B).
    { intros (q & Hq & [Hqin Hql]%list_elem_of_filter)%list_elem_of_fmap.
      apply (Hfresh k q Hin); [|done].
      apply list_elem_of_filter. split; [done|].
      rewrite He. apply elem_of_app. right. apply elem_of_cons. by right. }
    apply NoDup_app in Hsub as (HndA & HdisAB & HndB).
    apply NoDup_app. split_and!; [done| |by apply NoDup_cons].
    intros a Ha [->|Hb]%elem_of_cons; [done|]. by apply (HdisAB a).
Qed.

(** The invariant of the store after a store to [p] that keeps its
    [flink]. *)
Lemma store_wf_content s p h x :
  store_wf cfg s → ptr_ok p → lookup_holder p s = Some h →
  flink x = flink h →
  (htcb x = htcb h ∧ (htcb h = None → pooled cfg = true → counts x = 0)) ∨
  (pooled cfg = false ∧
   (htcb x = None ∨
    ∀ k q, p ∈ entries cfg s k → q ∈ holders cfg s k →
           entry_htcb s q ≠ htcb x)) →
  store_wf cfg (store_holder p x s).
Proof.
  intros Hwf Hptr Hl Hfl Hcase.
  pose proof (store_wf_shape_ok _ _ Hwf) as Hshape.
  destruct (store_content s p h x Hshape Hptr Hl Hfl)
    as (Hshape' & Hsh' & Hent & Hsame & Hl' & Hfr).
  split.
  - intros Hp. destruct (sw_pool _ _ Hwf Hp) as (fl & ls & Hsh & Hz & Hlive).
    destruct Hcase as [[Ht Hc]|[Hnp _]]; [|congruence].
    exists fl, ls. split; [by apply Hsh'|]. split.
    + intros q Hq. destruct (decide (Prealloc q = p)) as [<-|Hne].
      * rewrite (entry_htcb_lookup _ _ _ Hl'), (entry_counts_lookup _ _ _ Hl').
        destruct (Hz q Hq) as [Hzh _].
        rewrite (entry_htcb_lookup _ _ _ Hl) in Hzh.
        split; [congruence|by apply Hc].
      * destruct (Hsame (Prealloc q)) as [-> ->]; [done|]. by apply Hz.
    + intros q Hq. destruct (decide (Prealloc q = p)) as [<-|Hne].
      * rewrite (entry_htcb_lookup _ _ _ Hl'), Ht.
        rewrite <- (entry_htcb_lookup _ _ _ Hl). by apply Hlive.
      * destruct (Hsame (Prealloc q)) as [-> _]; [done|]. by apply Hlive.
  - apply (uniq_content s _ p); try done; [|by destruct Hwf].
    rewrite (entry_htcb_lookup _ _ _ Hl'), (entry_htcb_lookup _ _ _ Hl).
    destruct Hcase as [[Ht _]|[_ [Hn|Hf]]]; auto.
Qed.

(** *** [nxsem_destroyholder] *)

Section RecoverWalk.

Variable s0 : kstate.
Variable k : nat.
Hypothesis pooled_cfg : pooled cfg = true.

(** The walk of [nxsem_recoverholders] over the list of the semaphore:
    the entries visited are back on the free list. *)
Definition recover_inv (r : Z) (rest : list holder_ptr) (s : kstate) : Prop :=
  r = 0 ∧ store_wf cfg s ∧ store_frame s0 s ∧
  entries cfg s k = rest ∧
  (∀ k', k' ≠ k → entries cfg s k' = entries cfg s0 k') ∧
  (∀ q, q ∈ rest → q ∈ entries cfg s0 k) ∧
  (∀ q, q ∈ entries cfg s0 k → q ∉ rest →
        entry_htcb s q = None ∧ entry_counts s q = 0) ∧
  (∀ q, q ∉ entries cfg s0 k →
        entry_htcb s q = entry_htcb s0 q ∧
        entry_counts s q = entry_counts s0 q) ∧
  ∃ evs, trace s = trace s0 ++ evs ∧ ∀ e, e ∈ evs → ∃ q, e = EvFree k q.

Lemma recover_inv_entries r rest s :
  recover_inv r rest s → shape_ok cfg s ∧ ∃ pre, entries cfg s k = pre ++ rest.
Proof.
  intros (_ & Hwf & _ & He & _). split; [by apply store_wf_shape_ok|].
  by exists [].
Qed.

Lemma recover_inv_dead r p rest s :
  recover_inv r (p :: rest) s → entry_htcb s p = None → recover_inv r rest s.
Proof.
  intros (_ & Hwf & _ & He & _) Hdead. exfalso.
  apply (entries_live_pooled s k p pooled_cfg Hwf); [|done].
  rewrite He. apply elem_of_cons. by left.
Qed.

Lemma recover_inv_live r p rest s :
  recover_inv r (p :: rest) s → entry_htcb s p ≠ None →
  (pooled cfg = true → r = 0) →
  ∃ r' s', nxsem_recoverholders cfg p k None s = Ret r' s' ∧
           recover_inv r' rest s'.
Proof.
  intros (Hr & Hwf & Hfr & He & Heo & Hsub & Hdone & Hout & evs & Htr & Hevs) _ _.
  destruct (freeholder_spec cfg s k [] p rest Hwf He)
    as (s' & Hrun' & Hst' & He' & Heo' & Hsame & Hh' & Hc' & Hfr' & Htr').
  rewrite pooled_cfg in He'. simpl in He'.
  exists 0, s'. split.
  { unfold nxsem_recoverholders. by rewrite (bind_Ret _ _ _ _ _ Hrun'). }
  assert (Hp0 : p ∈ entries cfg s0 k).
  { apply Hsub. apply elem_of_cons. by left. }
  split_and!; try done.
  - by eapply store_frame_trans.
  - intros k' Hk'. rewrite (Heo' k' Hk'). by apply Heo.
  - intros q Hq. apply Hsub. apply elem_of_cons. by right.
  - intros q Hq Hnot. destruct (decide (q = p)) as [->|Hne]; [done|].
    destruct (Hsame q Hne) as [-> ->]. apply Hdone; [done|].
    intros [->|?]%elem_of_cons; done.
  - intros q Hq. destruct (Hsame q) as [-> ->]; [by intros ->|].
    by apply Hout.
  - exists (evs ++ [EvFree k p]). split.
    + rewrite Htr', Htr. by rewrite <- (assoc (++)).
    + intros e [He0|He0]%elem_of_app; [by apply Hevs|].
      apply list_elem_of_singleton in He0 as ->. by exists p.
Qed.

Lemma recover_walk :
  store_wf cfg s0 → is_Some (sems s0 !! k) →
  ∃ r s',
    nxsem_foreachholder cfg k (nxsem_recoverholders cfg) None s0 = Ret r s' ∧
    recover_inv r [] s'.
Proof.
  intros Hwf Hk.
  destruct (foreachholder_rule cfg recover_inv (nxsem_recoverholders cfg)
              k None recover_inv_entries recover_inv_dead recover_inv_live s0)
    as (r & s' & rest & Hrun & Hinv & Hrest); [|done|].
  - split_and!; try done.
    exists []. split; [by rewrite app_nil_r|]. by intros e ?%elem_of_nil.
  - exists r, s'. split; [done|].
    destruct Hrest as [->|[_ Hr]]; [done|]. by destruct Hinv as [-> _].
Qed.

End RecoverWalk.

(** What [nxsem_destroyholder] leaves behind. *)
Definition destroyed (s : kstate) (k : nat) (s' : kstate) : Prop :=
  wf cfg s' ∧ store_frame s s' ∧
  holders cfg s' k = [] ∧
  (∀ k', k' ≠ k → entries cfg s' k' = entries cfg s k') ∧
  (∀ p, p ∉ entries cfg s k →
        entry_htcb s' p = entry_htcb s p ∧
        entry_counts s' p = entry_counts s p) ∧
  (∀ p, p ∈ entries cfg s k → entry_htcb s' p = None) ∧
  (if pooled cfg
   then entries cfg s' k = [] ∧
        ∀ p, p ∈ entries cfg s k →
             entry_counts s' p = 0 ∧
             ∃ i, p = Prealloc i ∧ i ∈ free_nodes cfg s'
   else entries cfg s' k = entries cfg s k ∧
        ∀ p, entry_counts s' p = entry_counts s p).

Lemma destroyholder_pooled s k :
  pooled cfg = true → wf cfg s → is_Some (sems s !! k) →
  (CONFIG_DEBUG_ASSERTIONS cfg = true ∧ (2 ≤ length (holders cfg s k))%nat ∧
   nxsem_destroyholder cfg k s = Abort AssertionFailed) ∨
  ((CONFIG_DEBUG_ASSERTIONS cfg = false ∨ (length (holders cfg s k) ≤ 1)%nat) ∧
   ∃ s', nxsem_destroyholder cfg k s = Ret tt s' ∧ destroyed s k s').
Proof.
  intros Hp Hwf [sm Hsm].
  pose proof (wf_shape_ok _ _ Hwf) as Hshape.
  destruct (Hshape Hp) as (fl & ls & Hsh).
  destruct (pool_shape_sem_l _ _ _ _ _ _ Hsh Hsm) as (lk & Hlk & Hc).
  pose proof (entries_pooled _ _ _ _ _ _ Hp Hsh Hlk) as He.
  pose proof (holders_pooled s k Hp (proj1 Hwf)) as Hh.
  unfold nxsem_destroyholder. rewrite Hp.
  rewrite (bind_Ret _ _ _ _ _ (read_hhead_Ret _ _ _ Hsm)).
  rewrite (lseg_head _ _ _ _ Hc).
  destruct lk as [|i lk]; simpl.
  { right. split; [right; rewrite Hh, He; simpl; lia|].
    exists s. split; [done|]. unfold destroyed. rewrite Hp.
    split_and!; try done.
    - by rewrite Hh.
    - intros p Hin. rewrite He in Hin. by apply elem_of_nil in Hin.
    - intros p Hin. rewrite He in Hin. by apply elem_of_nil in Hin. }
  apply lseg_cons_inv in Hc as (_ & h & Hi & Hc').
  assert (Hl : lookup_holder (Prealloc i) s = Some h) by done.
  assert (Hassert : (CONFIG_DEBUG_ASSERTIONS cfg = true ∧ lk ≠ [] ∧
             (if CONFIG_DEBUG_ASSERTIONS cfg
              then let* next := read_flink (Prealloc i) in
                   DEBUGASSERT cfg (bool_decide (next = None))
              else ret tt) s = Abort AssertionFailed) ∨
            ((CONFIG_DEBUG_ASSERTIONS cfg = false ∨ lk = []) ∧
             (if CONFIG_DEBUG_ASSERTIONS cfg
              then let* next := read_flink (Prealloc i) in
                   DEBUGASSERT cfg (bool_decide (next = None))
              else ret tt) s = Ret tt s)).
  { destruct (CONFIG_DEBUG_ASSERTIONS cfg) eqn:Hdbg; [|right; auto].
    rewrite (bind_Ret _ _ _ _ _ (read_flink_Ret _ _ _ Hl)).
    rewrite (lseg_head _ _ _ _ Hc'). unfold DEBUGASSERT. rewrite Hdbg.
    destruct lk as [|j lk]; simpl; [right; auto|left; auto]. }
  destruct Hassert as [(Hdbg & Hne & Hrun)|[Hok Hrun]].
  { left. split; [done|]. split.
    - rewrite Hh, He. destruct lk; [done|]. simpl. lia.
    - unfold bind at 1. by rewrite Hrun. }
  right. split.
  { destruct Hok as [Hdbg|Hnil]; [by left|right].
    rewrite Hh, He, Hnil. simpl. lia. }
  rewrite (bind_Ret _ _ _ _ _ Hrun).
  destruct (recover_walk s k Hp (proj1 Hwf) (ex_intro _ sm Hsm))
    as (r & s' & Hwalk & _ & Hwf' & Hfr & He' & Heo & _ & Hdone & Hout & _).
  rewrite (bind_Ret _ _ _ _ _ Hwalk).
  exists s'. split; [done|]. unfold destroyed. rewrite Hp.
  assert (Hwf2 : wf cfg s').
  { split; [done|]. eapply sched_wf_frame; [exact Hfr|]. by destruct Hwf. }
  split_and!; try done.
  - by rewrite (holders_pooled s' k Hp Hwf').
  - intros p Hin. apply Hdone; [done|]. apply not_elem_of_nil.
  - intros p Hin. destruct (Hdone p Hin (not_elem_of_nil _)) as [Hd Hz].
    split; [done|].
    pose proof Hin as Hin'. rewrite He in Hin'.
    apply list_elem_of_fmap in Hin' as (j & -> & Hj).
    exists j. split; [done|].
    apply dead_node_free; [by apply (sw_pool _ _ Hwf')| |done].
    destruct (pool_shape_lookup _ _ _ _ _ _ _ Hsh Hlk Hj) as [hj Hhj].
    apply lookup_lt_Some in Hhj. by destruct Hsh as [<- _ _ _].
Qed.

Lemma destroyholder_builtin s k :
  pooled cfg = false → wf cfg s → is_Some (sems s !! k) →
  (CONFIG_DEBUG_ASSERTIONS cfg = true ∧ (2 ≤ length (holders cfg s k))%nat ∧
   nxsem_destroyholder cfg k s = Abort AssertionFailed) ∨
  ((CONFIG_DEBUG_ASSERTIONS cfg = false ∨ (length (holders cfg s k) ≤ 1)%nat) ∧
   ∃ s', nxsem_destroyholder cfg k s = Ret tt s' ∧ destroyed s k s').
Proof.
  intros Hp Hwf [sm Hsm].
  pose proof (wf_shape_ok _ _ Hwf) as Hshape.
  pose proof (entries_builtin _ _ _ _ Hp Hsm) as He.
  pose proof (lookup_builtin0 _ _ _ Hsm) as Hl0.
  pose proof (lookup_builtin1 _ _ _ Hsm) as Hl1.
  set (h0 := holder0 sm) in *. set (h1 := holder1 sm) in *.
  assert (Hlen : length (holders cfg s k)
                 = ((if decide (htcb h0 = None) then 0 else 1) +
                    (if decide (htcb h1 = None) then 0 else 1))%nat).
  { assert (Hlv0 : live s (Builtin k 0) ↔ htcb h0 ≠ None)
      by (unfold live; by rewrite (entry_htcb_lookup _ _ _ Hl0)).
    assert (Hlv1 : live s (Builtin k 1) ↔ htcb h1 ≠ None)
      by (unfold live; by rewrite (entry_htcb_lookup _ _ _ Hl1)).
    unfold holders. rewrite He. rewrite !filter_cons, filter_nil.
    destruct (decide (live s (Builtin k 0))), (decide (live s (Builtin k 1)));
      destruct (decide (htcb h0 = None)), (decide (htcb h1 = None));
      simpl; try done; exfalso; tauto. }
  unfold nxsem_destroyholder. rewrite Hp.
  assert (Hassert : (CONFIG_DEBUG_ASSERTIONS cfg = true ∧
             (2 ≤ length (holders cfg s k))%nat ∧
             (if CONFIG_DEBUG_ASSERTIONS cfg
              then let* a := read_htcb (Builtin k 0) in
                   let* b := read_htcb (Builtin k 1) in
                   DEBUGASSERT cfg
                     (bool_decide (a = None) || bool_decide (b = None))
              else ret tt) s = Abort AssertionFailed) ∨
            ((CONFIG_DEBUG_ASSERTIONS cfg = false ∨
              (length (holders cfg s k) ≤ 1)%nat) ∧
             (if CONFIG_DEBUG_ASSERTIONS cfg
              then let* a := read_htcb (Builtin k 0) in
                   let* b := read_htcb (Builtin k 1) in
                   DEBUGASSERT cfg
                     (bool_decide (a = None) || bool_decide (b = None))
              else ret tt) s = Ret tt s)).
  { destruct (CONFIG_DEBUG_ASSERTIONS cfg) eqn:Hdbg; [|right; auto].
    rewrite (bind_Ret _ _ _ _ _ (read_htcb_Ret _ _ _ Hl0)).
    rewrite (bind_Ret _ _ _ _ _ (read_htcb_Ret _ _ _ Hl1)).
    unfold DEBUGASSERT. rewrite Hdbg. rewrite Hlen.
    destruct (decide (htcb h0 = None)) as [H0|H0],
             (decide (htcb h1 = None)) as [H1|H1];
      rewrite ?(bool_decide_eq_true_2 _ H0), ?(bool_decide_eq_true_2 _ H1),
              ?(bool_decide_eq_false_2 _ H0), ?(bool_decide_eq_false_2 _ H1);
      simpl; first [right; split; [right; lia|done] | left; done]. }
  destruct Hassert as [(Hdbg & Hne & Hrun)|[Hok Hrun]].
  { left. split; [done|]. split; [done|]. unfold bind at 1. by rewrite Hrun. }
  right. split; [done|].
  rewrite (bind_Ret _ _ _ _ _ Hrun).
  rewrite (bind_Ret _ _ _ _ _ (write_htcb_Ret _ _ _ None Hl0)).
  set (s1 := store_holder (Builtin k 0) (with_htcb None h0) s).
  destruct (store_content s (Builtin k 0) h0 (with_htcb None h0) Hshape Hp Hl0
              eq_refl) as (Hshape1 & _ & Hent1 & Hsame1 & Hl0' & Hfr1).
  fold s1 in Hshape1, Hent1, Hsame1, Hl0', Hfr1.
  assert (Hwf1 : store_wf cfg s1).
  { eapply store_wf_content; try done; [by destruct Hwf|]. right. auto. }
  assert (Hl1' : lookup_holder (Builtin k 1) s1 = Some h1).
  { unfold s1. by rewrite lookup_holder_store_ne. }
  rewrite (write_htcb_Ret _ _ _ None Hl1').
  set (s2 := store_holder (Builtin k 1) (with_htcb None h1) s1).
  destruct (store_content s1 (Builtin k 1) h1 (with_htcb None h1) Hshape1 Hp
              Hl1' eq_refl) as (Hshape2 & _ & Hent2 & Hsame2 & Hl1'' & Hfr2).
  fold s2 in Hshape2, Hent2, Hsame2, Hl1'', Hfr2.
  assert (Hwf2 : store_wf cfg s2).
  { eapply store_wf_content; try done. right. auto. }
  assert (Hl0'' : lookup_holder (Builtin k 0) s2 = Some (with_htcb None h0)).
  { unfold s2. by rewrite lookup_holder_store_ne. }
  assert (Hfr : store_frame s s2) by (by eapply store_frame_trans).
  assert (Hdead : ∀ p, p ∈ entries cfg s k → entry_htcb s2 p = None).
  { intros p Hin. rewrite He in Hin.
    rewrite !elem_of_cons, elem_of_nil in Hin.
    destruct Hin as [->|[->|[]]].
    - by rewrite (entry_htcb_lookup _ _ _ Hl0'').
    - by rewrite (entry_htcb_lookup _ _ _ Hl1''). }
  exists s2. split; [done|]. unfold destroyed. rewrite Hp.
  split_and!; try done.
  - split; [done|]. eapply sched_wf_frame; [exact Hfr|]. by destruct Hwf.
  - apply filter_nil_intro. intros p Hin Hlive. apply Hlive.
    apply Hdead. by rewrite <- Hent1, <- Hent2.
  - intros k' _. by rewrite Hent2, Hent1.
  - intros p Hnin. rewrite He in Hnin.
    rewrite !elem_of_cons, elem_of_nil in Hnin.
    destruct (Hsame2 p) as [-> ->]; [naive_solver|].
    apply Hsame1. naive_solver.
  - by rewrite Hent2, Hent1.
  - intros p. destruct (decide (p = Builtin k 1)) as [->|Hne1].
    { rewrite (entry_counts_lookup _ _ _ Hl1''). simpl.
      by rewrite (entry_counts_lookup _ _ _ Hl1). }
    destruct (Hsame2 p Hne1) as [_ ->].
    destruct (decide (p = Builtin k 0)) as [->|Hne0].
    { rewrite (entry_counts_lookup _ _ _ Hl0'). simpl.
      by rewrite (entry_counts_lookup _ _ _ Hl0). }
    by destruct (Hsame1 p Hne0) as [_ ->].
Qed.

Lemma destroyholder_spec s k :
  wf cfg s → is_Some (sems s !! k) →
  (CONFIG_DEBUG_ASSERTIONS cfg = true ∧ (2 ≤ length (holders cfg s k))%nat ∧
   nxsem_destroyholder cfg k s = Abort AssertionFailed) ∨
  ((CONFIG_DEBUG_ASSERTIONS cfg = false ∨ (length (holders cfg s k) ≤ 1)%nat) ∧
   ∃ s', nxsem_destroyholder cfg k s = Ret tt s' ∧ destroyed s k s').
Proof.
  intros Hwf Hk.
  assert (pooled cfg = true ∨ pooled cfg = false) as [Hp|Hp]
    by (destruct (pooled cfg); auto).
  - by apply destroyholder_pooled.
  - by apply destroyholder_builtin.
Qed.

Lemma find_entry_no_holder s k t :
  holders cfg s k = [] → find_entry cfg s k (Some t) = None.
Proof.
  intros Hh. unfold find_entry.
  rewrite (filter_nil_intro (λ p, entry_htcb s p = Some t)); [done|].
  intros p Hin Ht.
  assert (Hp : p ∈ holders cfg s k).
  { apply list_elem_of_filter. split; [|done]. unfold live. by rewrite Ht. }
  rewrite Hh in Hp. by apply elem_of_nil in Hp.
Qed.

(** C7 (amended): [nxsem_destroyholder] on a semaphore of a well-formed
    state.  With debug assertions enabled and two or more holders the
    assertion of the function fails.  Otherwise it returns, and then the
    semaphore has no holder: every former holder entry has [htcb] NULL
    and, with preallocated holders, counts 0 and is back on the free
    list; [nxsem_findholder] returns NULL for every thread; for the NULL
    handle it returns NULL with preallocated holders, and the first
    built-in holder, which is free, with built-in holders. *)
Theorem C7_destroy_frees_all_holders s k :
  wf cfg s → is_Some (sems s !! k) →
  (CONFIG_DEBUG_ASSERTIONS cfg = true → (2 ≤ length (holders cfg s k))%nat →
   nxsem_destroyholder cfg k s = Abort AssertionFailed) ∧
  (CONFIG_DEBUG_ASSERTIONS cfg = false ∨ (length (holders cfg s k) ≤ 1)%nat →
   ∃ s', nxsem_destroyholder cfg k s = Ret tt s' ∧
         holders cfg s' k = [] ∧
         (∀ p, p ∈ holders cfg s k →
               entry_htcb s' p = None ∧
               (pooled cfg = true →
                entry_counts s' p = 0 ∧
                ∃ i, p = Prealloc i ∧ i ∈ free_nodes cfg s')) ∧
         (∀ t, nxsem_findholder cfg k (Some t) s' = Ret None s') ∧
         nxsem_findholder cfg k None s'
           = Ret (if pooled cfg then None else Some (Builtin k 0)) s').
Proof.
  intros Hwf Hk.
  destruct (destroyholder_spec s k Hwf Hk)
    as [(Hdbg & Hlen & Hrun)|(Hok & s' & Hrun & Hd)].
  { split; [done|]. intros [Hn|Hle]; [congruence|lia]. }
  split.
  { intros Hdbg Hlen. destruct Hok as [Hn|Hle]; [congruence|lia]. }
  intros _. exists s'. split; [done|].
  destruct Hd as (Hwf' & Hfr & Hh & Heo & Hout & Hdead & Hreg).
  pose proof (wf_shape_ok _ _ Hwf') as Hshape'.
  pose proof (store_frame_valid _ _ _ Hfr Hk) as Hk'.
  split_and!; try done.
  - intros p [Hin _]%holders_subset. split; [by apply Hdead|].
    intros Hp. rewrite Hp in Hreg. destruct Hreg as [_ Hreg]. by apply Hreg.
  - intros t. rewrite (findholder_spec cfg s' k _ Hshape' Hk').
    by rewrite find_entry_no_holder.
  - rewrite (findholder_spec cfg s' k _ Hshape' Hk').
    unfold find_entry. destruct (pooled cfg) eqn:Hp.
    + destruct Hreg as [-> _]. done.
    + destruct Hreg as [-> _]. destruct Hk as [sm Hsm].
      assert (Hin : Builtin k 0 ∈ entries cfg s k).
      { rewrite (entries_builtin _ _ _ _ Hp Hsm). apply elem_of_cons. by left. }
      rewrite (entries_builtin _ _ _ _ Hp Hsm).
      by rewrite filter_cons_True by (by apply Hdead).
Qed.

(** *** [nxsem_allocholder] *)

(** With preallocated holders: the first free node is pushed on the list
    of the semaphore, with counts 0. *)
Lemma allocholder_pool s fl ls k lk p :
  pooled cfg = true → pool_shape cfg s (p :: fl) ls → ls !! k = Some lk →
  ∃ s' h',
    nxsem_allocholder cfg k s = Ret (Some (Prealloc p)) s' ∧
    pool_shape cfg s' fl (<[k := p :: lk]> ls) ∧
    same_entries_except (Prealloc p) s s' ∧
    lookup_holder (Prealloc p) s' = Some h' ∧
    htcb h' = entry_htcb s (Prealloc p) ∧ counts h' = 0 ∧
    store_frame s s' ∧ trace s' = trace s.
Proof.
  intros Hp Hsh Hk.
  destruct (pool_shape_sem _ _ _ _ _ _ Hsh Hk) as (sm & Hsm & Hc).
  pose proof (pool_shape_NoDup _ _ _ _ Hsh) as Hnd. simpl in Hnd.
  apply NoDup_cons in Hnd as [Hpnot Hnd].
  assert (Hpfl : p ∉ fl).
  { intros Hin. apply Hpnot. apply elem_of_app. by left. }
  assert (Hpls : ∀ k' lk', ls !! k' = Some lk' → p ∉ lk').
  { intros k' lk' Hk' Hin. apply Hpnot. apply elem_of_app. right.
    by eapply elem_of_concat_lookup. }
  pose proof (ps_free _ _ _ _ Hsh) as Hfree.
  apply lseg_cons_inv in Hfree as (Hhead & h & Hh & Hfree).
  assert (Hl : lookup_holder (Prealloc p) s = Some h) by done.
  unfold nxsem_allocholder. rewrite Hp.
  unfold gets at 1. rewrite !bind_assoc. unfold bind at 1. rewrite Hhead.
  mstep (read_flink_Ret _ _ _ Hl).
  unfold modify at 1. rewrite !bind_assoc. unfold bind at 1.
  set (s1 := set_freeholders (flink h) s).
  assert (Hsm1 : sems s1 !! k = Some sm) by done.
  mstep (read_hhead_Ret _ _ _ Hsm1).
  assert (Hl1 : lookup_holder (Prealloc p) s1 = Some h) by done.
  mstep (write_flink_Ret _ _ _ (hhead sm) Hl1).
  set (s2 := store_holder (Prealloc p) (with_flink (hhead sm) h) s1).
  assert (Hsm2 : sems s2 !! k = Some sm) by done.
  mstep (write_hhead_Ret _ _ _ (Some p) Hsm2).
  set (s3 := store_sem k (with_hhead (Some p) sm) s2).
  assert (Hl3 : lookup_holder (Prealloc p) s3
                = Some (with_flink (hhead sm) h)).
  { simpl. apply list_lookup_insert_eq. by eapply lookup_lt_Some. }
  mstep (write_counts_Ret _ _ _ 0 Hl3).
  set (h4 := with_counts 0 (with_flink (hhead sm) h)).
  set (s4 := store_holder (Prealloc p) h4 s3).
  assert (Hret : (ret (Some (Prealloc p)) : M (option holder_ptr)) s4
                 = Ret (Some (Prealloc p)) s4) by done.
  mstep Hret.
  assert (Hdbg : DEBUGASSERT cfg (bool_decide (Some (Prealloc p) ≠ None)) s4
                 = Ret tt s4).
  { unfold DEBUGASSERT. rewrite bool_decide_eq_true_2 by done.
    by destruct (CONFIG_DEBUG_ASSERTIONS cfg). }
  mstep Hdbg.
  exists s4, h4. split; [done|].
  assert (Hheap : ∀ i, i ≠ p → g_holderalloc s4 !! i = g_holderalloc s !! i).
  { intros i Hi. simpl. by rewrite !list_lookup_insert_ne by done. }
  assert (Hl4 : g_holderalloc s4 !! p = Some h4).
  { simpl. apply list_lookup_insert_eq. rewrite length_insert.
    by eapply lookup_lt_Some. }
  split_and!; try done.
  - split.
    + simpl. rewrite !length_insert. by destruct Hsh.
    + eapply lseg_agree; [exact Hfree|]. intros i Hi.
      apply Hheap. by intros ->.
    + apply Forall2_same_length_lookup. split.
      { simpl. rewrite !length_insert. destruct Hsh as [_ _ Hs _].
        by apply Forall2_length in Hs. }
      intros k' sm' lk' Hsm' Hlk'.
      change (sems s4) with (<[k := with_hhead (Some p) sm]> (sems s)) in Hsm'.
      destruct (decide (k = k')) as [<-|Hne].
      * rewrite list_lookup_insert_eq in Hlk' by (by eapply lookup_lt_Some).
        rewrite list_lookup_insert_eq in Hsm' by (by eapply lookup_lt_Some).
        injection Hlk' as <-. injection Hsm' as <-. simpl.
        econstructor; [exact Hl4|]. simpl.
        eapply lseg_agree; [exact Hc|]. intros i Hi.
        apply Hheap. intros ->. by eapply Hpls.
      * rewrite list_lookup_insert_ne in Hlk' by done.
        rewrite list_lookup_insert_ne in Hsm' by done.
        destruct (pool_shape_sem _ _ _ _ _ _ Hsh Hlk') as (sm'' & Hsm'' & Hc'').
        assert (sm'' = sm') as -> by congruence.
        eapply lseg_agree; [exact Hc''|]. intros i Hi.
        apply Hheap. intros ->. by eapply Hpls.
    + destruct Hsh as [_ _ _ Hperm]. rewrite <- Hperm.
      rewrite (concat_insert_perm _ _ _ _ Hk), (concat_lookup_perm _ _ _ Hk).
      simpl. by rewrite <- Permutation_middle.
  - intros q Hq. unfold entry_htcb, entry_counts.
    destruct q as [kq iq|iq].
    { simpl. destruct (decide (kq = k)) as [->|Hkq].
      - rewrite list_lookup_insert_eq by (by eapply lookup_lt_Some).
        rewrite Hsm. simpl. by destruct iq as [|[|iq]].
      - by rewrite list_lookup_insert_ne. }
    assert (iq ≠ p) by congruence.
    simpl. by rewrite !list_lookup_insert_ne by done.
  - by rewrite (entry_htcb_lookup _ _ _ Hl).
  - split; try done. simpl. by rewrite length_insert.
Qed.

(** *** [nxsem_add_holder_tcb] *)

Lemma take_entry s p h t :
  lookup_holder p s = Some h →
  (do* write_htcb p (Some t) in
   let* c := read_counts p in
   write_counts p (wrap16 (c + 1))) s
  = Ret tt (store_holder p
              (with_counts (wrap16 (counts h + 1)) (with_htcb (Some t) h))
              (store_holder p (with_htcb (Some t) h) s)).
Proof.
  intros Hl.
  rewrite (bind_Ret _ _ _ _ _ (write_htcb_Ret _ _ _ (Some t) Hl)).
  assert (Hl' : lookup_holder p (store_holder p (with_htcb (Some t) h) s)
                = Some (with_htcb (Some t) h))
    by (by eapply lookup_holder_store_eq).
  rewrite (bind_Ret _ _ _ _ _ (read_counts_Ret _ _ _ Hl')).
  by rewrite (write_counts_Ret _ _ _ _ Hl').
Qed.

Lemma store_counts_wf s p h c :
  store_wf cfg s → ptr_ok p → lookup_holder p s = Some h →
  htcb h ≠ None →
  store_wf cfg (store_holder p (with_counts c h) s).
Proof.
  intros Hwf Hptr Hl Hlive.
  eapply store_wf_content; try done. left. split; [done|]. by intros ?.
Qed.

Lemma wf_store_frame s s' :
  wf cfg s → store_wf cfg s' → store_frame s s' → wf cfg s'.
Proof.
  intros [_ Hs] Hst Hfr. split; [done|]. by eapply sched_wf_frame.
Qed.

(** The thread takes an entry it has already. *)
Lemma add_holder_found s k p t :
  wf cfg s → find_entry cfg s k (Some t) = Some p →
  ∃ s', (do* write_htcb p (Some t) in
         let* c := read_counts p in
         write_counts p (wrap16 (c + 1))) s = Ret tt s' ∧
        wf cfg s'.
Proof.
  intros Hwf [Hin Ht]%find_entry_Some.
  pose proof (wf_shape_ok _ _ Hwf) as Hshape.
  destruct (entries_lookup cfg s k p Hshape Hin) as [h Hl].
  pose proof (entries_ptr_ok _ _ _ Hin) as Hptr.
  rewrite (entry_htcb_lookup _ _ _ Hl) in Ht.
  eexists. split; [by apply take_entry|].
  assert (Hwf1 : store_wf cfg (store_holder p (with_htcb (Some t) h) s)).
  { eapply store_wf_content; try done; [by destruct Hwf|].
    left. simpl. split; [done|]. rewrite Ht. by intros ?. }
  destruct (store_content s p h (with_htcb (Some t) h) Hshape Hptr Hl eq_refl)
    as (_ & _ & _ & _ & Hl1 & Hfr1).
  eapply wf_store_frame; [exact Hwf| |].
  - by eapply store_counts_wf.
  - eapply store_frame_trans; [exact Hfr1|]. apply store_frame_store_holder.
Qed.

(** The thread takes a free built-in holder. *)
Lemma add_holder_slot s k i sm h t :
  pooled cfg = false → wf cfg s → sems s !! k = Some sm →
  lookup_holder (Builtin k i) s = Some h → htcb h = None →
  find_entry cfg s k (Some t) = None →
  ∃ s1 s',
    write_counts (Builtin k i) 0 s = Ret tt s1 ∧
    (do* write_htcb (Builtin k i) (Some t) in
     let* c := read_counts (Builtin k i) in
     write_counts (Builtin k i) (wrap16 (c + 1))) s1 = Ret tt s' ∧
    wf cfg s'.
Proof.
  intros Hp Hwf Hsm Hl Hdead Hfind.
  pose proof (wf_shape_ok _ _ Hwf) as Hshape.
  set (p := Builtin k i) in *.
  assert (Hptr : ptr_ok p) by done.
  set (h1 := with_counts 0 h). set (s1 := store_holder p h1 s).
  exists s1.
  destruct (store_content s p h h1 Hshape Hptr Hl eq_refl)
    as (Hshape1 & _ & Hent1 & Hsame1 & Hl1 & Hfr1).
  fold s1 in Hshape1, Hent1, Hsame1, Hl1, Hfr1.
  assert (Hwf1 : store_wf cfg s1).
  { eapply store_wf_content; try done; [by destruct Hwf|].
    left. split; [done|]. intros _ ?. congruence. }
  eexists. split; [by apply write_counts_Ret|].
  split; [by apply take_entry|].
  set (h2 := with_htcb (Some t) h1).
  set (s2 := store_holder p h2 s1).
  destruct (store_content s1 p h1 h2 Hshape1 Hptr Hl1 eq_refl)
    as (Hshape2 & _ & Hent2 & Hsame2 & Hl2 & Hfr2).
  fold s2 in Hshape2, Hent2, Hsame2, Hl2, Hfr2.
  assert (Hwf2 : store_wf cfg s2).
  { eapply store_wf_content; try done. right. split; [done|]. right.
    intros k' q Hpin [Hqin Hqlive]%holders_subset. simpl.
    rewrite Hent1 in Hpin, Hqin.
    assert (k' = k) as ->.
    { destruct (decide (k' = k)) as [|Hne]; [done|]. exfalso.
      destruct (entries_valid_sem _ _ _ _ Hpin) as [sm' Hsm'].
      rewrite (entries_builtin _ _ _ _ Hp Hsm') in Hpin.
      rewrite !elem_of_cons, elem_of_nil in Hpin. unfold p in Hpin.
      naive_solver. }
    destruct (decide (q = p)) as [->|Hne].
    - unfold live in Hqlive. rewrite (entry_htcb_lookup _ _ _ Hl1) in Hqlive.
      done.
    - destruct (Hsame1 q Hne) as [-> _].
      by apply (find_entry_None _ _ _ _ _ Hfind). }
  eapply wf_store_frame; [exact Hwf| |].
  - by eapply store_counts_wf.
  - eapply store_frame_trans; [exact Hfr1|].
    eapply store_frame_trans; [exact Hfr2|]. apply store_frame_store_holder.
Qed.

Lemma live_map_ext (l : list holder_ptr) s s' :
  (∀ q, q ∈ l → entry_htcb s' q = entry_htcb s q) →
  entry_htcb s' <$> filter (live s') l = entry_htcb s <$> filter (live s) l.
Proof.
  intros Hext.
  assert (filter (live s') l = filter (live s) l) as ->.
  { apply filter_ext_elem. intros q Hq. unfold live. by rewrite Hext. }
  apply fmap_ext_elem. intros q [_ Hq]%list_elem_of_filter. by apply Hext.
Qed.

(** The thread takes the first node of the free list. *)
Lemma add_holder_node s k t p :
  pooled cfg = true → wf cfg s → is_Some (sems s !! k) →
  find_entry cfg s k (Some t) = None → g_freeholders s = Some p →
  ∃ s1 s',
    nxsem_allocholder cfg k s = Ret (Some (Prealloc p)) s1 ∧
    (do* write_htcb (Prealloc p) (Some t) in
     let* c := read_counts (Prealloc p) in
     write_counts (Prealloc p) (wrap16 (c + 1))) s1 = Ret tt s' ∧
    wf cfg s'.
Proof.
  intros Hp Hwf [sm Hsm] Hfind Hfree.
  destruct (sw_pool _ _ (proj1 Hwf) Hp) as (fl0 & ls & Hsh & Hz & Hlive).
  pose proof (ps_free _ _ _ _ Hsh) as Hc. rewrite Hfree in Hc.
  destruct fl0 as [|p' fl]; [by apply lseg_head in Hc|].
  pose proof (lseg_head _ _ _ _ Hc) as Hhd. simpl in Hhd.
  injection Hhd as <-.
  destruct (pool_shape_sem_l _ _ _ _ _ _ Hsh Hsm) as (lk & Hlk & _).
  destruct (allocholder_pool s fl ls k lk p Hp Hsh Hlk)
    as (s1 & h1 & Hrun & Hsh1 & Hsame1 & Hl1 & Hh1 & Hc1 & Hfr1 & Htr1).
  exists s1. eexists. split; [done|]. split; [by apply take_entry|].
  set (h2 := with_htcb (Some t) h1).
  set (s2 := store_holder (Prealloc p) h2 s1).
  assert (Hsh2 : pool_shape cfg s2 fl (<[k := p :: lk]> ls)).
  { by eapply pool_shape_store_content. }
  assert (Hl2 : lookup_holder (Prealloc p) s2 = Some h2)
    by (by eapply lookup_holder_store_eq).
  assert (Hcontent : ∀ q, q ≠ Prealloc p →
            entry_htcb s2 q = entry_htcb s q ∧
            entry_counts s2 q = entry_counts s q).
  { intros q Hq. unfold entry_htcb, entry_counts, s2.
    rewrite lookup_holder_store_ne by done. by apply Hsame1. }
  pose proof (pool_shape_NoDup _ _ _ _ Hsh) as Hnd. simpl in Hnd.
  apply NoDup_cons in Hnd as [Hpnot Hnd].
  assert (Hpls : ∀ k' lk', ls !! k' = Some lk' → p ∉ lk').
  { intros k' lk' Hk' Hin. apply Hpnot. apply elem_of_app. right.
    by eapply elem_of_concat_lookup. }
  assert (Hlk' : <[k := p :: lk]> ls !! k = Some (p :: lk)).
  { apply list_lookup_insert_eq. by eapply lookup_lt_Some. }
  assert (Hwf2 : store_wf cfg s2).
  { split.
    - intros _. exists fl, (<[k := p :: lk]> ls). split; [done|]. split.
      + intros q Hq.
        destruct (Hcontent (Prealloc q)) as [-> ->].
        { intros [= ->]. apply Hpnot. apply elem_of_app. by left. }
        apply Hz. apply elem_of_cons. by right.
      + intros q Hq. rewrite (concat_insert_perm _ _ _ _ Hlk) in Hq.
        simpl in Hq. apply elem_of_cons in Hq as [->|Hq].
        { by rewrite (entry_htcb_lookup _ _ _ Hl2). }
        assert (Hq' : q ∈ concat ls)
          by (by rewrite (concat_lookup_perm _ _ _ Hlk)).
        destruct (Hcontent (Prealloc q)) as [-> _].
        { intros [= ->]. apply Hpnot. apply elem_of_app. by right. }
        by apply Hlive.
    - intros k'. destruct (decide (k' = k)) as [->|Hne].
      + unfold holders.
        rewrite (entries_pooled _ _ _ _ _ _ Hp Hsh2 Hlk'). rewrite fmap_cons.
        rewrite filter_cons_True
          by (unfold live; by rewrite (entry_htcb_lookup _ _ _ Hl2)).
        rewrite fmap_cons, (entry_htcb_lookup _ _ _ Hl2). simpl.
        rewrite (live_map_ext _ s s2).
        2:{ intros q (i & -> & Hi)%list_elem_of_fmap. apply Hcontent.
            intros [= ->]. by eapply Hpls. }
        rewrite <- (entries_pooled _ _ _ _ _ _ Hp Hsh Hlk).
        apply NoDup_cons. split; [|apply (sw_uniq _ _ (proj1 Hwf) k)].
        intros (q & Hq & [Hql Hqin]%list_elem_of_filter)%list_elem_of_fmap.
        by apply (find_entry_None _ _ _ _ _ Hfind Hqin).
      + assert (He : entries cfg s2 k' = entries cfg s k').
        { destruct (ls !! k') as [lk2|] eqn:Hlk2.
          - rewrite (entries_pooled _ _ _ _ _ _ Hp Hsh Hlk2).
            apply (entries_pooled _ _ _ _ _ _ Hp Hsh2).
            by rewrite list_lookup_insert_ne.
          - assert (Hn : sems s !! k' = None).
            { destruct (sems s !! k') eqn:Hs; [|done].
              destruct (pool_shape_sem_l _ _ _ _ _ _ Hsh Hs) as (? & ? & _).
              congruence. }
            rewrite (entries_invalid _ _ _ Hn). apply entries_invalid.
            apply lookup_ge_None. unfold s2. simpl.
            destruct Hfr1 as [_ _ _ ->]. by apply lookup_ge_None. }
        destruct (holders_unchanged cfg s s2 k') as [_ ->]; [done| |].
        * intros q Hq. apply Hcontent. intros ->.
          destruct (entries_valid_sem _ _ _ _ Hq) as [sm' Hsm'].
          destruct (pool_shape_sem_l _ _ _ _ _ _ Hsh Hsm') as (lk2 & Hlk2 & _).
          rewrite (entries_pooled _ _ _ _ _ _ Hp Hsh Hlk2) in Hq.
          apply list_elem_of_fmap in Hq as (i & [= <-] & Hi).
          by eapply Hpls.
        * apply (sw_uniq _ _ (proj1 Hwf) k'). }
  eapply wf_store_frame; [exact Hwf| |].
  - by eapply store_counts_wf.
  - eapply store_frame_trans; [exact Hfr1|].
    eapply store_frame_trans; apply store_frame_store_holder.
Qed.

Lemma allocholder_slot s k i sm s1 :
  pooled cfg = false → sems s !! k = Some sm →
  (i = 0%nat ∧ htcb (holder0 sm) = None) ∨
  (i = 1%nat ∧ htcb (holder0 sm) ≠ None ∧ htcb (holder1 sm) = None) →
  write_counts (Builtin k i) 0 s = Ret tt s1 →
  nxsem_allocholder cfg k s = Ret (Some (Builtin k i)) s1.
Proof.
  intros Hp Hsm Hcase Hw. unfold nxsem_allocholder. rewrite Hp.
  assert (Hdbg : ∀ s2, DEBUGASSERT cfg
                    (bool_decide (Some (Builtin k i) ≠ None)) s2 = Ret tt s2).
  { intros s2. unfold DEBUGASSERT. rewrite bool_decide_eq_true_2 by done.
    by destruct (CONFIG_DEBUG_ASSERTIONS cfg). }
  mstep (read_htcb_Ret _ _ _ (lookup_builtin0 _ _ _ Hsm)).
  destruct Hcase as [[-> H0]|(-> & H0 & H1)].
  - rewrite bool_decide_eq_true_2 by done.
    mstep Hw.
    mstep (eq_refl : ret (Some (Builtin k 0)) s1 = Ret (Some (Builtin k 0)) s1).
    by mstep (Hdbg s1).
  - rewrite bool_decide_eq_false_2 by done.
    mstep (read_htcb_Ret _ _ _ (lookup_builtin1 _ _ _ Hsm)).
    rewrite bool_decide_eq_true_2 by done.
    mstep Hw.
    mstep (eq_refl : ret (Some (Builtin k 1)) s1 = Ret (Some (Builtin k 1)) s1).
    by mstep (Hdbg s1).
Qed.

(** [nxsem_add_holder_tcb] keeps the invariant, or fails the assertion of
    [nxsem_allocholder] on a full store. *)
Lemma add_holder_tcb_spec s k t :
  wf cfg s → is_Some (sems s !! k) →
  (∃ s', nxsem_add_holder_tcb cfg (Some t) k s = Ret tt s' ∧ wf cfg s') ∨
  (CONFIG_DEBUG_ASSERTIONS cfg = true ∧ store_full cfg s k ∧
   nxsem_add_holder_tcb cfg (Some t) k s = Abort AssertionFailed).
Proof.
  intros Hwf [sm Hsm].
  pose proof (wf_shape_ok _ _ Hwf) as Hshape.
  unfold nxsem_add_holder_tcb.
  rewrite (bind_Ret _ _ _ _ _ (get_sem_Ret _ _ _ Hsm)).
  destruct (Z.land (flags sm) PRIOINHERIT_FLAGS_DISABLE =? 0);
    [|left; by exists s].
  unfold nxsem_findorallocateholder.
  mstep (findholder_spec cfg s k (Some t) Hshape (ex_intro _ sm Hsm)).
  destruct (find_entry cfg s k (Some t)) as [p|] eqn:Hfind.
  { left. destruct (add_holder_found s k p t Hwf Hfind) as (s' & Hrun & Hwf').
    exists s'. split; [|done].
    by mstep (eq_refl : ret (Some p) s = Ret (Some p) s). }
  assert (Hfull : store_full cfg s k →
            (∃ s', (let* pholder := nxsem_allocholder cfg k in
                    match pholder with
                    | Some p =>
                        do* write_htcb p (Some t) in
                        let* c := read_counts p in
                        write_counts p (wrap16 (c + 1))
                    | None => ret tt
                    end) s = Ret tt s' ∧ wf cfg s') ∨
            (CONFIG_DEBUG_ASSERTIONS cfg = true ∧ store_full cfg s k ∧
             (let* pholder := nxsem_allocholder cfg k in
              match pholder with
              | Some p =>
                  do* write_htcb p (Some t) in
                  let* c := read_counts p in
                  write_counts p (wrap16 (c + 1))
              | None => ret tt
              end) s = Abort AssertionFailed)).
  { intros Hf. pose proof (allocholder_full _ _ _ Hf) as Ha.
    destruct (CONFIG_DEBUG_ASSERTIONS cfg) eqn:Hd.
    - right. split; [done|]. split; [done|]. unfold bind at 1. by rewrite Ha.
    - left. eexists. split; [by rewrite (bind_Ret _ _ _ _ _ Ha)|].
      by apply wf_log. }
  assert (pooled cfg = true ∨ pooled cfg = false) as [Hp|Hp]
    by (destruct (pooled cfg); auto).
  - destruct (g_freeholders s) as [p|] eqn:Hfree.
    + left. destruct (add_holder_node s k t p Hp Hwf (ex_intro _ sm Hsm)
                        Hfind Hfree) as (s1 & s' & Halloc & Hrun & Hwf').
      exists s'. split; [|done]. by mstep Halloc.
    + apply Hfull. unfold store_full. rewrite Hp. eauto.
  - destruct (decide (htcb (holder0 sm) = None)) as [H0|H0].
    { left. destruct (add_holder_slot s k 0 sm _ t Hp Hwf Hsm
                        (lookup_builtin0 _ _ _ Hsm) H0 Hfind)
        as (s1 & s' & Hw & Hrun & Hwf').
      exists s'. split; [|done].
      by mstep (allocholder_slot s k 0 sm s1 Hp Hsm (or_introl (conj eq_refl H0)) Hw). }
    destruct (decide (htcb (holder1 sm) = None)) as [H1|H1].
    { left. destruct (add_holder_slot s k 1 sm _ t Hp Hwf Hsm
                        (lookup_builtin1 _ _ _ Hsm) H1 Hfind)
        as (s1 & s' & Hw & Hrun & Hwf').
      exists s'. split; [|done].
      by mstep (allocholder_slot s k 1 sm s1 Hp Hsm
                  (or_intror (conj eq_refl (conj H0 H1))) Hw). }
    apply Hfull. unfold store_full. rewrite Hp. eauto.
Qed.

(** *** [nxsem_release_holder], [nxsem_restore_baseprio], [nxsem_canceled] *)

Lemma release_holder_spec s k :
  wf cfg s → is_Some (sems s !! k) →
  ∃ s', nxsem_release_holder cfg k s = Ret tt s' ∧ wf cfg s'.
Proof.
  intros Hwf Hk.
  pose proof (wf_shape_ok _ _ Hwf) as Hshape.
  destruct (sc_running _ (proj2 Hwf)) as [v Hv].
  apply lookup_tcb_Some in Hv as (r & Hr & Hv).
  unfold nxsem_release_holder, this_task.
  unfold gets at 1. unfold bind at 1. rewrite Hr.
  mstep (findholder_spec cfg s k (Some r) Hshape Hk).
  destruct (find_entry cfg s k (Some r)) as [p|] eqn:Hfind; [|by exists s].
  apply find_entry_Some in Hfind as [Hin Ht].
  destruct (entries_lookup cfg s k p Hshape Hin) as [h Hl].
  mstep (read_counts_Ret _ _ _ Hl).
  destruct (0 <? counts h); [|by exists s].
  eexists. split; [by apply write_counts_Ret|].
  eapply wf_store_frame; [exact Hwf| |apply store_frame_store_holder].
  eapply store_counts_wf; try done; [by destruct Hwf|by eapply entries_ptr_ok|].
  rewrite <- (entry_htcb_lookup _ _ _ Hl), Ht. done.
Qed.

Lemma restore_all_spec s k stcb :
  wf cfg s → is_Some (sems s !! k) →
  ∃ s', (do* nxsem_foreachholder cfg k (nxsem_restoreholderprioall cfg) stcb in
         ret tt) s = Ret tt s' ∧ wf cfg s'.
Proof.
  intros Hwf Hk.
  destruct (all_walk cfg s k stcb Hwf Hk) as (r & s1 & Hrun & _ & Hwf1 & _).
  exists s1. split; [by rewrite (bind_Ret _ _ _ _ _ Hrun)|done].
Qed.

Lemma verify_all_spec s k :
  wf cfg s → is_Some (sems s !! k) →
  (if CONFIG_DEBUG_ASSERTIONS cfg
   then do* nxsem_foreachholder cfg k nxsem_verifyholder None in ret tt
   else ret tt) s = Ret tt s.
Proof.
  intros Hwf Hk. destruct (CONFIG_DEBUG_ASSERTIONS cfg); [|done].
  destruct (verify_walk cfg s k (wf_shape_ok _ _ Hwf) Hk) as [r0 Hrun].
  by rewrite (bind_Ret _ _ _ _ _ Hrun).
Qed.

Lemma restore_baseprio_spec s k stcb :
  wf cfg s → is_Some (sems s !! k) →
  ∃ s', nxsem_restore_baseprio cfg stcb k s = Ret tt s' ∧ wf cfg s'.
Proof.
  intros Hwf Hk. unfold nxsem_restore_baseprio, up_interrupt_context.
  unfold gets at 1. unfold bind at 1.
  destruct (g_irq s).
  - unfold nxsem_restore_baseprio_irq.
    destruct (bool_decide (stcb ≠ None)).
    + by apply restore_all_spec.
    + exists s. split; [|done]. by apply verify_all_spec.
  - destruct (restore_baseprio_task_spec cfg s k stcb Hwf Hk)
      as (s' & Hrun & Hwf' & _). by exists s'.
Qed.

(** [nxsem_canceled] keeps the invariant, or fails its assertion on the
    count of the semaphore. *)
Lemma canceled_spec s k stcb sm :
  wf cfg s → sems s !! k = Some sm →
  (∃ s', nxsem_canceled cfg stcb k s = Ret tt s' ∧ wf cfg s') ∨
  (CONFIG_DEBUG_ASSERTIONS cfg = true ∧ 0 < semcount sm ∧
   nxsem_canceled cfg stcb k s = Abort AssertionFailed).
Proof.
  intros Hwf Hsm. unfold nxsem_canceled.
  assert (Hassert : (if CONFIG_DEBUG_ASSERTIONS cfg
             then let* sm := get_sem k in DEBUGASSERT cfg (semcount sm <=? 0)
             else ret tt) s = Ret tt s ∨
            (CONFIG_DEBUG_ASSERTIONS cfg = true ∧ 0 < semcount sm ∧
             (if CONFIG_DEBUG_ASSERTIONS cfg
              then let* sm := get_sem k in DEBUGASSERT cfg (semcount sm <=? 0)
              else ret tt) s = Abort AssertionFailed)).
  { destruct (CONFIG_DEBUG_ASSERTIONS cfg) eqn:Hd; [|by left].
    rewrite (bind_Ret _ _ _ _ _ (get_sem_Ret _ _ _ Hsm)).
    unfold DEBUGASSERT. rewrite Hd.
    destruct (semcount sm <=? 0) eqn:Hc; [by left|right].
    apply Z.leb_gt in Hc. done. }
  destruct Hassert as [Hrun|(Hd & Hc & Hrun)].
  - left. rewrite (bind_Ret _ _ _ _ _ Hrun).
    apply restore_all_spec; eauto.
  - right. split; [done|]. split; [done|]. unfold bind at 1. by rewrite Hrun.
Qed.

Lemma boost_priority_wf s k :
  wf cfg s → is_Some (sems s !! k) →
  ∃ s', nxsem_boost_priority cfg k s = Ret tt s' ∧ wf cfg s'.
Proof.
  intros Hwf Hk.
  destruct (sc_running _ (proj2 Hwf)) as [vr Hvr].
  destruct (boost_priority_spec cfg s k vr Hwf Hk Hvr)
    as (s' & Hrun & _ & Hwf' & _).
  by exists s'.
Qed.

(** *** [nxsem_initialize_holders] *)

Local Abbreviation NPOOL := (CONFIG_SEM_PREALLOCHOLDERS cfg).

Lemma set_holderalloc_id s : set_holderalloc (g_holderalloc s) s = s.
Proof. by destruct s. Qed.

(** The loop links the nodes [i], ..., [i + n - 1] to their successors. *)
Lemma initialize_links_Ret n : ∀ i s,
  (i + n ≤ length (g_holderalloc s))%nat →
  ∃ heap',
    initialize_links n i s = Ret tt (set_holderalloc heap' s) ∧
    length heap' = length (g_holderalloc s) ∧
    ∀ j, heap' !! j =
         if decide (i ≤ j < i + n)%nat
         then with_flink (Some (S j)) <$> g_holderalloc s !! j
         else g_holderalloc s !! j.
Proof.
  induction n as [|n IH]; intros i s Hlen.
  - exists (g_holderalloc s). rewrite set_holderalloc_id.
    split; [done|]. split; [done|]. intros j.
    destruct (decide _); [lia|done].
  - assert (is_Some (g_holderalloc s !! i)) as [h Hh]
      by (apply lookup_lt_is_Some; lia).
    assert (Hl : lookup_holder (Prealloc i) s = Some h) by done.
    cbn [initialize_links].
    rewrite (bind_Ret _ _ _ _ _ (write_flink_Ret _ _ _ (Some (S i)) Hl)).
    set (s1 := store_holder (Prealloc i) (with_flink (Some (S i)) h) s).
    destruct (IH (S i) s1) as (heap' & Hrun & Hlen' & Hlook).
    { simpl. rewrite length_insert. lia. }
    exists heap'. split; [done|]. split.
    { rewrite Hlen'. simpl. by rewrite length_insert. }
    intros j. rewrite Hlook.
    change (g_holderalloc s1)
      with (<[i := with_flink (Some (S i)) h]> (g_holderalloc s)).
    destruct (decide (j = i)) as [->|Hne].
    + rewrite list_lookup_insert_eq by (by eapply lookup_lt_Some).
      rewrite Hh. repeat destruct (decide _); try lia; done.
    + rewrite list_lookup_insert_ne by done.
      repeat destruct (decide _); try lia; done.
Qed.

(** The successor [nxsem_initialize_holders] gives the node [j]. *)
Definition next_node (j : nat) : option nat :=
  if decide (S j < NPOOL)%nat then Some (S j) else None.

Lemma initialize_holders_Ret s :
  pooled cfg = true → length (g_holderalloc s) = NPOOL →
  ∃ heap',
    nxsem_initialize_holders cfg s
      = Ret tt (set_holderalloc heap' (set_freeholders (Some 0%nat) s)) ∧
    length heap' = NPOOL ∧
    ∀ j, heap' !! j = with_flink (next_node j) <$> g_holderalloc s !! j.
Proof.
  intros Hp Hlen.
  assert (Hn : (0 < NPOOL)%nat).
  { unfold pooled in Hp. by apply bool_decide_eq_true in Hp. }
  unfold nxsem_initialize_holders. rewrite Hp.
  unfold modify at 1. unfold bind at 1.
  set (s0 := set_freeholders (Some 0%nat) s).
  destruct (initialize_links_Ret (NPOOL - 1) 0 s0)
    as (heap1 & Hrun & Hlen1 & Hlook1).
  { simpl. lia. }
  rewrite (bind_Ret _ _ _ _ _ Hrun).
  assert (is_Some (heap1 !! (NPOOL - 1)%nat)) as [h Hh].
  { apply lookup_lt_is_Some. rewrite Hlen1. simpl. lia. }
  assert (Hl : lookup_holder (Prealloc (NPOOL - 1)) (set_holderalloc heap1 s0)
               = Some h) by done.
  rewrite (write_flink_Ret _ _ _ None Hl).
  exists (<[(NPOOL - 1)%nat := with_flink None h]> heap1).
  split; [done|]. split.
  { rewrite length_insert, Hlen1. done. }
  intros j. unfold next_node.
  destruct (decide (j = NPOOL - 1)%nat) as [->|Hne].
  - rewrite list_lookup_insert_eq by (by eapply lookup_lt_Some).
    rewrite Hlook1 in Hh. destruct (decide _) as [?|_] in Hh; [lia|].
    simpl in Hh. rewrite Hh. destruct (decide _); [lia|done].
  - rewrite list_lookup_insert_ne by done. rewrite Hlook1.
    change (g_holderalloc s0) with (g_holderalloc s).
    destruct (g_holderalloc s !! j) as [hj|] eqn:Hj.
    + apply lookup_lt_Some in Hj. repeat destruct (decide _); try lia; done.
    + by repeat destruct (decide _).
Qed.

Lemma linked_chain heap :
  length heap = NPOOL →
  (∀ j h, heap !! j = Some h → flink h = next_node j) →
  ∀ m i, (i + m = NPOOL)%nat →
    lseg heap (if decide (i < NPOOL)%nat then Some i else None) (seq i m) None.
Proof.
  intros Hlen Hlink. induction m as [|m IH]; intros i Him.
  - destruct (decide _); [lia|]. constructor.
  - destruct (decide _); [|lia]. simpl.
    assert (is_Some (heap !! i)) as [h Hh] by (apply lookup_lt_is_Some; lia).
    econstructor; [exact Hh|].
    rewrite (Hlink _ _ Hh). unfold next_node.
    specialize (IH (S i)). destruct (decide (S i < NPOOL)%nat); apply IH; lia.
Qed.

(** *** The state at boot *)

Definition zero_holder : semholder_s := SemHolder None None 0.

(** The state before [nxsem_initialize_holders]: the pool is zeroed
    static storage, the semaphores are initialised with no holder, no
    thread has a boost, and there is a running thread. *)
Definition boot (s : kstate) : Prop :=
  g_holderalloc s = replicate NPOOL zero_holder ∧
  g_freeholders s = None ∧
  Forall (λ sm, hhead sm = None ∧
                holder0 sm = zero_holder ∧ holder1 sm = zero_holder) (sems s) ∧
  map_Forall (λ _ v, sem_boosts v = []) (tcbs s) ∧
  is_Some (lookup_tcb (g_running s) s).

Lemma concat_replicate_nil {A} n : concat (replicate n (@nil A)) = [].
Proof. induction n; simpl; auto. Qed.

Lemma boot_sched_wf s : boot s → sched_wf s.
Proof.
  intros (_ & _ & _ & Ht & Hr). split; [done|].
  intros t v Hv. unfold ledger_positive. by rewrite (Ht t v Hv).
Qed.

Lemma boot_builtin s k i sm h :
  boot s → sems s !! k = Some sm → holder_at sm i = Some h → h = zero_holder.
Proof.
  intros (_ & _ & Hs & _) Hsm Hh.
  rewrite Forall_forall in Hs.
  destruct (Hs sm) as (_ & H0 & H1); [by eapply list_elem_of_lookup_2|].
  destruct i as [|[|i]]; simpl in Hh; congruence.
Qed.

(** What [nxsem_initialize_holders] makes of the state at boot. *)
Lemma initialize_holders_boot s0 :
  boot s0 →
  ∃ s1, nxsem_initialize_holders cfg s0 = Ret tt s1 ∧
        wf cfg s1 ∧
        (∀ p, entry_htcb s1 p = None ∧ entry_counts s1 p = 0) ∧
        (pooled cfg = true →
         chain (g_holderalloc s1) (g_freeholders s1) (seq 0 NPOOL)).
Proof.
  intros Hboot. pose proof Hboot as (Hheap & Hfree & Hsems & Htcbs & Hrun).
  assert (pooled cfg = true ∨ pooled cfg = false) as [Hp|Hp]
    by (destruct (pooled cfg); auto).
  - assert (Hlen : length (g_holderalloc s0) = NPOOL)
      by (by rewrite Hheap, length_replicate).
    destruct (initialize_holders_Ret s0 Hp Hlen) as (heap' & Hinit & Hlen' & Hlook).
    set (s1 := set_holderalloc heap' (set_freeholders (Some 0%nat) s0)) in *.
    assert (Hnode : ∀ j h, heap' !! j = Some h →
              h = with_flink (next_node j) zero_holder).
    { intros j h Hj. rewrite Hlook, Hheap in Hj.
      destruct (replicate NPOOL zero_holder !! j) as [h0|] eqn:Hr; [|done].
      apply lookup_replicate in Hr as [-> _]. simpl in Hj. congruence. }
    assert (Hn : (0 < NPOOL)%nat).
    { unfold pooled in Hp. by apply bool_decide_eq_true in Hp. }
    assert (Hchain : chain heap' (Some 0%nat) (seq 0 NPOOL)).
    { pose proof (linked_chain heap' Hlen') as Hc.
      specialize (Hc (λ j h Hj, f_equal flink (Hnode j h Hj)) NPOOL 0%nat eq_refl).
      by destruct (decide (0 < NPOOL)%nat). }
    assert (Hdead : ∀ p, entry_htcb s1 p = None ∧ entry_counts s1 p = 0).
    { intros [k i|j]; unfold entry_htcb, entry_counts.
      - simpl. destruct (sems s0 !! k) as [sm|] eqn:Hsm; [|done]. simpl.
        destruct (holder_at sm i) as [h|] eqn:Hh; [|done].
        by rewrite (boot_builtin _ _ _ _ _ Hboot Hsm Hh).
      - simpl. destruct (heap' !! j) as [h|] eqn:Hj; [|done].
        by rewrite (Hnode _ _ Hj). }
    assert (Hsh : pool_shape cfg s1 (seq 0 NPOOL)
                    (replicate (length (sems s0)) [])).
    { split; [done|done| |].
      - simpl. clear -Hsems. induction Hsems as [|sm l (Hh & _) _ IH]; simpl.
        + constructor.
        + constructor; [|done]. rewrite Hh. constructor.
      - by rewrite concat_replicate_nil, app_nil_r. }
    exists s1. split; [done|]. split; [|split; [done|done]].
    split; [|apply (sched_wf_frame s0); [by split|by apply boot_sched_wf]].
    split.
    + intros _. exists (seq 0 NPOOL), (replicate (length (sems s0)) []).
      split; [done|]. split.
      * intros q _. apply Hdead.
      * intros q Hq. rewrite concat_replicate_nil in Hq.
        by apply elem_of_nil in Hq.
    + intros k. unfold holders.
      rewrite (filter_nil_intro (live s1)); [constructor|].
      intros p _ Hlive. apply Hlive. apply Hdead.
  - assert (Hinit : nxsem_initialize_holders cfg s0 = Ret tt s0).
    { unfold nxsem_initialize_holders. by rewrite Hp. }
    assert (Hdead : ∀ p, entry_htcb s0 p = None ∧ entry_counts s0 p = 0).
    { intros [k i|j]; unfold entry_htcb, entry_counts.
      - simpl. destruct (sems s0 !! k) as [sm|] eqn:Hsm; [|done]. simpl.
        destruct (holder_at sm i) as [h|] eqn:Hh; [|done].
        by rewrite (boot_builtin _ _ _ _ _ Hboot Hsm Hh).
      - simpl. rewrite Hheap.
        destruct (replicate NPOOL zero_holder !! j) as [h|] eqn:Hj; [|done].
        by apply lookup_replicate in Hj as [-> _]. }
    exists s0. split; [done|]. split; [|split; [done|congruence]].
    split; [|by apply boot_sched_wf].
    split; [congruence|].
    intros k. unfold holders. rewrite (filter_nil_intro (live s0)); [constructor|].
    intros p _ Hlive. apply Hlive. apply Hdead.
Qed.

(** ** The states the core reaches *)

Definition set_running (t : tcb_ptr) (s : kstate) : kstate :=
  KState (g_holderalloc s) (g_freeholders s) (sems s) (tcbs s) t (g_irq s)
    (trace s).
Definition set_irq (b : bool) (s : kstate) : kstate :=
  KState (g_holderalloc s) (g_freeholders s) (sems s) (tcbs s) (g_running s) b
    (trace s).

(** The calls into the core, and what the rest of the kernel does between
    them: context switches, interrupts, threads that exit and threads
    that are created. *)
Inductive op :=
  | AddHolder (sem : nat)
  | AddHolderTcb (t : nat) (sem : nat)
  | BoostPriority (sem : nat)
  | ReleaseHolder (sem : nat)
  | RestoreBaseprio (stcb : tcb_ptr) (sem : nat)
  | Canceled (stcb : tcb_ptr) (sem : nat)
  | DestroyHolder (sem : nat)
  | Switch (t : nat)
  | Interrupt (b : bool)
  | ThreadExit (t : nat)
  | ThreadCreate (t : nat) (prio : N).

Global Instance op_eq_dec : EqDecision op.
Proof. solve_decision. Defined.

(** A call on a semaphore: the caller passes an initialised semaphore. *)
Definition on_sem (sem : nat) (m : M unit) : M unit :=
  do* get_sem sem in m.

Definition run_op (o : op) : M unit :=
  match o with
  | AddHolder k => on_sem k (nxsem_add_holder cfg k)
  | AddHolderTcb t k => on_sem k (nxsem_add_holder_tcb cfg (Some t) k)
  | BoostPriority k => on_sem k (nxsem_boost_priority cfg k)
  | ReleaseHolder k => on_sem k (nxsem_release_holder cfg k)
  | RestoreBaseprio stcb k => on_sem k (nxsem_restore_baseprio cfg stcb k)
  | Canceled stcb k => on_sem k (nxsem_canceled cfg stcb k)
  | DestroyHolder k => on_sem k (nxsem_destroyholder cfg k)
  | Switch t =>
      modify (λ s, if bool_decide (is_Some (tcbs s !! t))
                   then set_running (Some t) s else s)
  | Interrupt b => modify (set_irq b)
  | ThreadExit t =>
      modify (λ s, if bool_decide (g_running s = Some t)
                   then s else set_tcbs (delete t (tcbs s)) s)
  | ThreadCreate t prio =>
      modify (λ s, if bool_decide (tcbs s !! t = None)
                   then set_tcbs (<[t := Tcb prio prio []]> (tcbs s)) s
                   else s)
  end.

Fixpoint run (os : list op) : M unit :=
  match os with
  | [] => ret tt
  | o :: os' => do* run_op o in run os'
  end.

(** [reaches s0 os s]: the operations [os] after
    [nxsem_initialize_holders] take the state [s0] to [s]. *)
Definition reaches (s0 : kstate) (os : list op) (s : kstate) : Prop :=
  (do* nxsem_initialize_holders cfg in run os) s0 = Ret tt s.

Definition reachable (s : kstate) : Prop :=
  ∃ s0 os, boot s0 ∧ reaches s0 os s.

Lemma on_sem_inv k m s s' :
  on_sem k m s = Ret tt s' → is_Some (sems s !! k) ∧ m s = Ret tt s'.
Proof.
  unfold on_sem. intros Hrun.
  apply bind_Ret_inv in Hrun as (sm & s1 & Hr & Hrun).
  apply get_sem_inv in Hr as [-> Hsm]. eauto.
Qed.

Lemma same_store_sched_wf s s' :
  same_store s s' → store_wf cfg s → sched_wf s' → wf cfg s'.
Proof. intros Hss Hst Hsc. split; [by eapply same_store_wf|done]. Qed.

(** Every operation keeps the invariant. *)
Lemma run_op_wf o s s' : wf cfg s → run_op o s = Ret tt s' → wf cfg s'.
Proof.
  intros Hwf Hrun. destruct o as [k|t k|k|k|stcb k|stcb k|k|t|b|t|t prio];
    simpl in Hrun.
  - apply on_sem_inv in Hrun as [Hk Hrun].
    destruct (sc_running _ (proj2 Hwf)) as [v Hv].
    apply lookup_tcb_Some in Hv as (r & Hr & Hv).
    unfold nxsem_add_holder, this_task in Hrun.
    unfold gets at 1 in Hrun. unfold bind at 1 in Hrun. rewrite Hr in Hrun.
    destruct (add_holder_tcb_spec s k r Hwf Hk)
      as [(s'' & Hrun' & Hwf')|(_ & _ & Hrun')]; congruence.
  - apply on_sem_inv in Hrun as [Hk Hrun].
    destruct (add_holder_tcb_spec s k t Hwf Hk)
      as [(s'' & Hrun' & Hwf')|(_ & _ & Hrun')]; congruence.
  - apply on_sem_inv in Hrun as [Hk Hrun].
    destruct (boost_priority_wf s k Hwf Hk) as (s'' & Hrun' & Hwf').
    congruence.
  - apply on_sem_inv in Hrun as [Hk Hrun].
    destruct (release_holder_spec s k Hwf Hk) as (s'' & Hrun' & Hwf').
    congruence.
  - apply on_sem_inv in Hrun as [Hk Hrun].
    destruct (restore_baseprio_spec s k stcb Hwf Hk) as (s'' & Hrun' & Hwf').
    congruence.
  - apply on_sem_inv in Hrun as [[sm Hsm] Hrun].
    destruct (canceled_spec s k stcb sm Hwf Hsm)
      as [(s'' & Hrun' & Hwf')|(_ & _ & Hrun')]; congruence.
  - apply on_sem_inv in Hrun as [Hk Hrun].
    destruct (destroyholder_spec s k Hwf Hk)
      as [(_ & _ & Hrun')|(_ & s'' & Hrun' & Hwf' & _)]; congruence.
  - inv_ret Hrun. destruct (bool_decide _) eqn:Hb; [|done].
    apply bool_decide_eq_true in Hb.
    apply (same_store_sched_wf s); [done|by destruct Hwf|].
    split; [done|]. by destruct Hwf as [_ [_ ?]].
  - inv_ret Hrun. apply (same_store_sched_wf s); [done|by destruct Hwf|].
    by destruct Hwf as [_ [? ?]].
  - inv_ret Hrun. destruct (bool_decide _) eqn:Hb; [done|].
    apply bool_decide_eq_false in Hb.
    apply (same_store_sched_wf s); [done|by destruct Hwf|].
    destruct Hwf as [_ [Hr Hl]]. split.
    + destruct Hr as [v Hv]. apply lookup_tcb_Some in Hv as (r & Hr & Hv).
      exists v. apply lookup_tcb_Some. exists r. split; [done|]. simpl.
      rewrite lookup_delete_ne; [done|]. congruence.
    + intros t' v Hv. simpl in Hv.
      apply lookup_delete_Some in Hv as [_ Hv]. by eapply Hl.
  - inv_ret Hrun. destruct (bool_decide _) eqn:Hb; [|done].
    apply bool_decide_eq_true in Hb.
    apply (same_store_sched_wf s); [done|by destruct Hwf|].
    destruct Hwf as [_ [Hr Hl]]. split.
    + destruct Hr as [v Hv]. apply lookup_tcb_Some in Hv as (r & Hr & Hv).
      exists v. apply lookup_tcb_Some. exists r. split; [done|]. simpl.
      rewrite lookup_insert_ne; [done|]. congruence.
    + intros t' v Hv. simpl in Hv.
      apply lookup_insert_Some in Hv as [[_ <-]|[_ Hv]]; [constructor|].
      by eapply Hl.
Qed.

Lemma run_wf os : ∀ s s', wf cfg s → run os s = Ret tt s' → wf cfg s'.
Proof.
  induction os as [|o os IH]; intros s s' Hwf Hrun; simpl in Hrun.
  - by inv_ret Hrun.
  - apply bind_Ret_inv in Hrun as ([] & s1 & Hop & Hrun).
    eapply IH; [|exact Hrun]. by eapply run_op_wf.
Qed.

Lemma reaches_inv s0 os s :
  boot s0 → reaches s0 os s →
  ∃ s1, nxsem_initialize_holders cfg s0 = Ret tt s1 ∧ wf cfg s1 ∧
        (∀ p, entry_htcb s1 p = None ∧ entry_counts s1 p = 0) ∧
        run os s1 = Ret tt s.
Proof.
  intros Hboot Hreach.
  destruct (initialize_holders_boot s0 Hboot) as (s1 & Hinit & Hwf1 & Hz & _).
  unfold reaches in Hreach. rewrite (bind_Ret _ _ _ _ _ Hinit) in Hreach.
  by exists s1.
Qed.

Lemma reachable_wf s : reachable s → wf cfg s.
Proof.
  intros (s0 & os & Hboot & Hreach).
  destruct (reaches_inv s0 os s Hboot Hreach) as (s1 & _ & Hwf1 & _ & Hrun).
  by eapply run_wf.
Qed.

(** *** Uniqueness of the holders *)

(** C9: the holders of a semaphore are distinct threads.  In every
    reachable state no two live entries of a semaphore have the same
    [htcb]; [nxsem_findholder] on the thread of a holder returns that
    holder's entry, and [nxsem_findorallocateholder] then returns it
    without allocating; every operation that returns keeps the holders
    of every semaphore distinct. *)
Theorem C9_holders_unique s k :
  reachable s →
  NoDup (entry_htcb s <$> holders cfg s k) ∧
  (∀ p q, p ∈ holders cfg s k → q ∈ holders cfg s k →
          entry_htcb s p = entry_htcb s q → p = q) ∧
  (∀ t p, p ∈ holders cfg s k → entry_htcb s p = Some t →
          nxsem_findholder cfg k (Some t) s = Ret (Some p) s ∧
          nxsem_findorallocateholder cfg k (Some t) s = Ret (Some p) s) ∧
  (∀ o s', run_op o s = Ret tt s' →
           ∀ k', NoDup (entry_htcb s' <$> holders cfg s' k')).
Proof.
  intros Hreach. pose proof (reachable_wf s Hreach) as Hwf.
  pose proof (wf_shape_ok _ _ Hwf) as Hshape.
  split_and!.
  - apply (sw_uniq _ _ (proj1 Hwf)).
  - intros p q [Hp Hlp]%holders_subset [Hq Hlq]%holders_subset Heq.
    by apply (entries_uniq cfg s k p q (proj1 Hwf)).
  - intros t p [Hp Hlp]%holders_subset Ht.
    assert (Hfind : nxsem_findholder cfg k (Some t) s = Ret (Some p) s).
    { rewrite (findholder_spec cfg s k _ Hshape (entries_valid_sem _ _ _ _ Hp)).
      by rewrite <- Ht, (find_entry_holder cfg s k p (proj1 Hwf) Hp Hlp). }
    split; [done|]. unfold nxsem_findorallocateholder.
    by rewrite (bind_Ret _ _ _ _ _ Hfind).
  - intros o s' Hrun k'.
    apply (sw_uniq _ _ (proj1 (run_op_wf o s s' Hwf Hrun))).
Qed.

(** *** The pool *)

(** The holders of all the semaphores. *)
Definition all_holders (s : kstate) : list holder_ptr :=
  concat ((λ k, holders cfg s k) <$> seq 0 (length (sems s))).

Lemma concat_fmap_fmap {A B} (f : A → B) (ls : list (list A)) :
  concat (fmap (M:=list) f <$> ls) = f <$> concat ls.
Proof.
  induction ls as [|l ls IH]; [done|].
  rewrite fmap_cons, !concat_cons, fmap_app. by rewrite IH.
Qed.

Lemma all_holders_pooled s fl ls :
  pooled cfg = true → store_wf cfg s → pool_shape cfg s fl ls →
  all_holders s = Prealloc <$> concat ls.
Proof.
  intros Hp Hwf Hsh. unfold all_holders.
  rewrite <- concat_fmap_fmap. f_equal.
  pose proof (ps_sems _ _ _ _ Hsh) as Hs. apply Forall2_length in Hs.
  apply list_eq. intros i. rewrite !list_lookup_fmap.
  destruct (ls !! i) as [lk|] eqn:Hlk.
  - rewrite lookup_seq_lt by (rewrite Hs; by eapply lookup_lt_Some).
    simpl. rewrite (holders_pooled s i Hp Hwf).
    by rewrite (entries_pooled _ _ _ _ _ _ Hp Hsh Hlk).
  - rewrite lookup_seq_ge; [done|]. rewrite Hs. by apply lookup_ge_None.
Qed.

Lemma initialize_holders_chain s0 :
  pooled cfg = true → length (g_holderalloc s0) = NPOOL →
  ∃ s1, nxsem_initialize_holders cfg s0 = Ret tt s1 ∧
        g_freeholders s1 = Some 0%nat ∧
        chain (g_holderalloc s1) (g_freeholders s1) (seq 0 NPOOL).
Proof.
  intros Hp Hlen.
  destruct (initialize_holders_Ret s0 Hp Hlen) as (heap' & Hinit & Hlen' & Hlook).
  eexists. split; [exact Hinit|]. split; [done|]. simpl.
  assert (Hn : (0 < NPOOL)%nat).
  { unfold pooled in Hp. by apply bool_decide_eq_true in Hp. }
  pose proof (linked_chain heap' Hlen') as Hc.
  assert (Hlink : ∀ j h, heap' !! j = Some h → flink h = next_node j).
  { intros j h Hj. rewrite Hlook in Hj.
    destruct (g_holderalloc s0 !! j); simpl in Hj; [|done]. by injection Hj as <-. }
  specialize (Hc Hlink NPOOL 0%nat eq_refl).
  by destruct (decide (0 < NPOOL)%nat).
Qed.

(** C10: the pool.  With preallocated holders,
    [nxsem_initialize_holders] makes the free list the null-terminated
    chain of the nodes 0, ..., CONFIG_SEM_PREALLOCHOLDERS - 1, each one
    once; from the state at boot, after any operations the holders of all
    the semaphores are distinct nodes, at most
    CONFIG_SEM_PREALLOCHOLDERS of them, and with the nodes of the free
    list they are all the nodes of the pool. *)
Theorem C10_pool_bounds_holders s0 :
  pooled cfg = true → length (g_holderalloc s0) = NPOOL →
  ∃ s1, nxsem_initialize_holders cfg s0 = Ret tt s1 ∧
        g_freeholders s1 = Some 0%nat ∧
        chain (g_holderalloc s1) (g_freeholders s1) (seq 0 NPOOL) ∧
        NoDup (seq 0 NPOOL) ∧
        (boot s0 → ∀ os s, run os s1 = Ret tt s →
           NoDup (all_holders s) ∧
           (length (all_holders s) ≤ NPOOL)%nat ∧
           (length (free_nodes cfg s) + length (all_holders s))%nat = NPOOL).
Proof.
  intros Hp Hlen.
  destruct (initialize_holders_chain s0 Hp Hlen) as (s1 & Hinit & Hhd & Hchain).
  exists s1. split_and!; try done; [apply NoDup_seq|].
  intros Hboot os s Hrun.
  destruct (initialize_holders_boot s0 Hboot) as (s1' & Hinit' & Hwf1 & _).
  assert (s1' = s1) as -> by congruence.
  pose proof (run_wf os s1 s Hwf1 Hrun) as Hwf.
  destruct (sw_pool _ _ (proj1 Hwf) Hp) as (fl & ls & Hsh & _ & _).
  rewrite (all_holders_pooled s fl ls Hp (proj1 Hwf) Hsh).
  rewrite (free_nodes_shape _ _ _ _ Hsh), length_fmap.
  pose proof (pool_shape_NoDup _ _ _ _ Hsh) as Hnd.
  apply NoDup_app in Hnd as (_ & _ & Hnd).
  pose proof (ps_perm _ _ _ _ Hsh) as Hperm.
  apply Permutation_length in Hperm.
  rewrite length_app, length_seq in Hperm.
  split_and!; [by apply NoDup_fmap_2; [apply _|]|lia|done].
Qed.

(** ** Counts of free entries *)

(** An entry with no thread has counts 0. *)
Definition zero_ok (s : kstate) : Prop :=
  ∀ p, entry_htcb s p = None → entry_counts s p = 0.

(** The content of every entry is the same in both states. *)
Definition same_content (s s' : kstate) : Prop :=
  ∀ p, entry_htcb s' p = entry_htcb s p ∧ entry_counts s' p = entry_counts s p.

(** Computations that keep the content of the entries, and computations
    that keep [zero_ok]. *)
Definition ckeeps {A} (m : M A) : Prop :=
  ∀ s a s', m s = Ret a s' → same_content s s'.
Definition zkeeps {A} (m : M A) : Prop :=
  ∀ s a s', zero_ok s → m s = Ret a s' → zero_ok s'.

Lemma same_content_refl s : same_content s s.
Proof. by intros p. Qed.

Lemma same_content_trans s1 s2 s3 :
  same_content s1 s2 → same_content s2 s3 → same_content s1 s3.
Proof.
  intros H1 H2 p. destruct (H1 p) as [<- <-]. apply H2.
Qed.

Lemma same_content_zero_ok s s' : same_content s s' → zero_ok s → zero_ok s'.
Proof.
  intros Hc Hz p Hp. destruct (Hc p) as [Hh ->]. apply Hz. by rewrite <- Hh.
Qed.

Lemma same_content_lookup s s' :
  (∀ p, htcb <$> lookup_holder p s' = htcb <$> lookup_holder p s) →
  (∀ p, counts <$> lookup_holder p s' = counts <$> lookup_holder p s) →
  same_content s s'.
Proof.
  intros Hh Hc p. unfold entry_htcb, entry_counts. by rewrite Hh, Hc.
Qed.

Lemma ckeeps_zkeeps {A} (m : M A) : ckeeps m → zkeeps m.
Proof.
  intros Hc s a s' Hz Hrun. eapply same_content_zero_ok; [|exact Hz].
  by eapply Hc.
Qed.

Lemma ckeeps_ret {A} (a : A) : ckeeps (ret a).
Proof. intros s b s' Hrun. inv_ret Hrun. apply same_content_refl. Qed.

Lemma ckeeps_abort {A} f : ckeeps (abort f : M A).
Proof. by intros s b s' Hrun. Qed.

Lemma ckeeps_bind {A B} (m : M A) (k : A → M B) :
  ckeeps m → (∀ a, ckeeps (k a)) → ckeeps (bind m k).
Proof.
  intros Hm Hk s b s' Hrun.
  apply bind_Ret_inv in Hrun as (a & s1 & H1 & H2).
  eapply same_content_trans; [by eapply Hm|by eapply Hk].
Qed.

Lemma zkeeps_bind {A B} (m : M A) (k : A → M B) :
  zkeeps m → (∀ a, zkeeps (k a)) → zkeeps (bind m k).
Proof.
  intros Hm Hk s b s' Hz Hrun.
  apply bind_Ret_inv in Hrun as (a & s1 & H1 & H2).
  eapply Hk; [|exact H2]. by eapply Hm.
Qed.

Lemma ckeeps_gets {A} (f : kstate → A) : ckeeps (gets f).
Proof.
  intros s a s' Hrun.
  assert (s' = s) as -> by (unfold gets in Hrun; congruence).
  apply same_content_refl.
Qed.

Lemma ckeeps_modify (f : kstate → kstate) :
  (∀ s, same_content s (f s)) → ckeeps (modify f).
Proof.
  intros Hf s a s' Hrun.
  assert (s' = f s) as -> by (unfold modify in Hrun; congruence). apply Hf.
Qed.

Lemma ckeeps_get_holder p : ckeeps (get_holder p).
Proof.
  intros s a s' Hrun. apply get_holder_inv in Hrun as [-> _].
  apply same_content_refl.
Qed.

Lemma ckeeps_get_sem k : ckeeps (get_sem k).
Proof.
  intros s a s' Hrun. apply get_sem_inv in Hrun as [-> _].
  apply same_content_refl.
Qed.

Lemma ckeeps_get_tcb t : ckeeps (get_tcb t).
Proof.
  intros s a s' Hrun. apply get_tcb_inv in Hrun as [-> _].
  apply same_content_refl.
Qed.

Lemma put_holder_inv p x s s' :
  put_holder p x s = Ret tt s' →
  ∃ h, lookup_holder p s = Some h ∧ s' = store_holder p x s.
Proof.
  unfold put_holder. intros Hrun.
  apply bind_Ret_inv in Hrun as (h & s1 & H1 & H2).
  apply get_holder_inv in H1 as [-> Hl]. exists h. split; [done|].
  injection H2 as H2. by subst s'.
Qed.

(** The content of the entries after a store. *)
Lemma store_holder_content p x s h q :
  lookup_holder p s = Some h →
  entry_htcb (store_holder p x s) q
    = (if decide (p = q) then htcb x else entry_htcb s q) ∧
  entry_counts (store_holder p x s) q
    = (if decide (p = q) then counts x else entry_counts s q).
Proof.
  intros Hl. unfold entry_htcb, entry_counts.
  rewrite (lookup_holder_store _ _ _ _ _ Hl). by destruct (decide (p = q)).
Qed.

Lemma ckeeps_put_holder p x h0 :
  htcb x = htcb h0 → counts x = counts h0 →
  ∀ s a s', lookup_holder p s = Some h0 →
            put_holder p x s = Ret a s' → same_content s s'.
Proof.
  intros Hh Hc s [] s' Hl Hrun.
  apply put_holder_inv in Hrun as (h & _ & ->).
  intros q. destruct (store_holder_content p x s h0 q Hl) as [-> ->].
  destruct (decide (p = q)) as [<-|]; [|done].
  by rewrite (entry_htcb_lookup _ _ _ Hl), (entry_counts_lookup _ _ _ Hl).
Qed.

Lemma ckeeps_write_flink p v : ckeeps (write_flink p v).
Proof.
  intros s a s' Hrun. unfold write_flink in Hrun.
  apply bind_Ret_inv in Hrun as (h & s1 & H1 & H2).
  apply get_holder_inv in H1 as [-> Hl].
  by eapply (ckeeps_put_holder p (with_flink v h) h).
Qed.

Lemma ckeeps_write_hhead k v : ckeeps (write_hhead k v).
Proof.
  intros s a s' Hrun. unfold write_hhead, put_sem in Hrun.
  apply bind_Ret_inv in Hrun as (sm & s1 & H1 & H2).
  apply get_sem_inv in H1 as [-> Hsm].
  apply bind_Ret_inv in H2 as (sm' & s1 & H1 & H2).
  apply get_sem_inv in H1 as [-> _]. injection H2 as H2. subst s'.
  apply same_content_lookup; intros [kq iq|iq]; simpl; try done.
  - destruct (decide (kq = k)) as [->|Hne].
    + rewrite list_lookup_insert_eq by (by eapply lookup_lt_Some).
      rewrite Hsm. simpl. by destruct iq as [|[|iq]].
    + by rewrite list_lookup_insert_ne.
  - destruct (decide (kq = k)) as [->|Hne].
    + rewrite list_lookup_insert_eq by (by eapply lookup_lt_Some).
      rewrite Hsm. simpl. by destruct iq as [|[|iq]].
    + by rewrite list_lookup_insert_ne.
Qed.

Lemma ckeeps_mark e : ckeeps (mark e).
Proof. apply ckeeps_modify. intros s. by apply same_content_lookup. Qed.

Lemma ckeeps_set_freeholders v : ckeeps (modify (set_freeholders v)).
Proof. apply ckeeps_modify. intros s. by apply same_content_lookup. Qed.

Lemma ckeeps_put_tcb t v : ckeeps (put_tcb t v).
Proof.
  unfold put_tcb. apply ckeeps_bind; [apply ckeeps_get_tcb|]. intros _.
  destruct t; [|apply ckeeps_abort].
  apply ckeeps_modify. intros s. by apply same_content_lookup.
Qed.

Create HintDb keeps.

#[local] Hint Resolve ckeeps_ret ckeeps_abort ckeeps_gets ckeeps_get_holder
  ckeeps_get_sem ckeeps_get_tcb ckeeps_write_flink ckeeps_write_hhead
  ckeeps_mark ckeeps_set_freeholders ckeeps_put_tcb ckeeps_zkeeps : keeps.

(** One step through the structure of a computation. *)
Ltac keeps_step :=
  first [solve [auto with keeps] |
  match goal with
  | |- ckeeps (bind _ _) => apply ckeeps_bind; [|intros ?]
  | |- zkeeps (bind _ _) => apply zkeeps_bind; [|intros ?]
  | |- ckeeps (if ?b then _ else _) => destruct b
  | |- zkeeps (if ?b then _ else _) => destruct b
  | |- ckeeps (match ?x with _ => _ end) => destruct x
  | |- zkeeps (match ?x with _ => _ end) => destruct x
  end].
Ltac keeps := cbv zeta; repeat keeps_step.

Lemma ckeeps_read_flink p : ckeeps (read_flink p).
Proof. unfold read_flink. keeps. Qed.
Lemma ckeeps_read_htcb p : ckeeps (read_htcb p).
Proof. unfold read_htcb. keeps. Qed.
Lemma ckeeps_read_counts p : ckeeps (read_counts p).
Proof. unfold read_counts. keeps. Qed.
Lemma ckeeps_read_hhead k : ckeeps (read_hhead k).
Proof. unfold read_hhead. keeps. Qed.
Lemma ckeeps_read_sched_priority t : ckeeps (read_sched_priority t).
Proof. unfold read_sched_priority. keeps. Qed.
Lemma ckeeps_read_base_priority t : ckeeps (read_base_priority t).
Proof. unfold read_base_priority. keeps. Qed.
Lemma ckeeps_read_sem_boosts t : ckeeps (read_sem_boosts t).
Proof. unfold read_sem_boosts. keeps. Qed.
Lemma ckeeps_write_sem_boosts t l : ckeeps (write_sem_boosts t l).
Proof. unfold write_sem_boosts. keeps. Qed.
Lemma ckeeps_set_priority t prio : ckeeps (nxsched_set_priority t prio).
Proof. unfold nxsched_set_priority. keeps. Qed.
Lemma ckeeps_reprioritize t prio : ckeeps (nxsched_reprioritize t prio).
Proof. unfold nxsched_reprioritize. keeps. Qed.
Lemma ckeeps_verify_tcb t : ckeeps (nxsched_verify_tcb t).
Proof. unfold nxsched_verify_tcb. keeps. Qed.
Lemma ckeeps_this_task : ckeeps this_task.
Proof. unfold this_task. keeps. Qed.
Lemma ckeeps_up_interrupt_context : ckeeps up_interrupt_context.
Proof. unfold up_interrupt_context. keeps. Qed.
Lemma ckeeps_serr m : ckeeps (serr m).
Proof. unfold serr. keeps. Qed.
Lemma ckeeps_swarn m : ckeeps (swarn m).
Proof. unfold swarn. keeps. Qed.
Lemma ckeeps_DEBUGASSERT b : ckeeps (DEBUGASSERT cfg b).
Proof. unfold DEBUGASSERT. keeps. Qed.

#[local] Hint Resolve ckeeps_read_flink ckeeps_read_htcb ckeeps_read_counts
  ckeeps_read_hhead ckeeps_read_sched_priority ckeeps_read_base_priority
  ckeeps_read_sem_boosts ckeeps_write_sem_boosts ckeeps_set_priority
  ckeeps_reprioritize ckeeps_verify_tcb ckeeps_this_task
  ckeeps_up_interrupt_context ckeeps_serr ckeeps_swarn ckeeps_DEBUGASSERT
  : keeps.

Lemma ckeeps_findholder_list t : ∀ fuel cur, ckeeps (findholder_list fuel t cur).
Proof.
  induction fuel as [|fuel IH]; intros [p|]; simpl; keeps.
Qed.

Lemma ckeeps_findholder_builtin k t : ∀ n i, ckeeps (findholder_builtin n k t i).
Proof.
  induction n as [|n IH]; intros i; simpl; keeps.
Qed.

#[local] Hint Resolve ckeeps_findholder_list ckeeps_findholder_builtin : keeps.

Lemma ckeeps_findholder k t : ckeeps (nxsem_findholder cfg k t).
Proof. unfold nxsem_findholder. keeps. Qed.

Lemma ckeeps_freeholder_search p : ∀ fuel prev cur,
  ckeeps (freeholder_search fuel p prev cur).
Proof.
  induction fuel as [|fuel IH]; intros prev [c|]; simpl; keeps.
Qed.

#[local] Hint Resolve ckeeps_findholder ckeeps_freeholder_search : keeps.

(** *** The stores that change the content of an entry *)

Lemma zero_ok_store p x s h :
  zero_ok s → lookup_holder p s = Some h →
  (htcb x = None → counts x = 0) →
  zero_ok (store_holder p x s).
Proof.
  intros Hz Hl Hx q.
  destruct (store_holder_content p x s h q Hl) as [-> ->].
  destruct (decide (p = q)); [done|apply Hz].
Qed.

Lemma write_htcb_inv p v s s' :
  write_htcb p v s = Ret tt s' →
  ∃ h, lookup_holder p s = Some h ∧ s' = store_holder p (with_htcb v h) s.
Proof.
  unfold write_htcb. intros Hrun.
  apply bind_Ret_inv in Hrun as (h & s1 & H1 & H2).
  apply get_holder_inv in H1 as [-> Hl].
  apply put_holder_inv in H2 as (_ & _ & ->). eauto.
Qed.

Lemma write_counts_inv p v s s' :
  write_counts p v s = Ret tt s' →
  ∃ h, lookup_holder p s = Some h ∧ s' = store_holder p (with_counts v h) s.
Proof.
  unfold write_counts. intros Hrun.
  apply bind_Ret_inv in Hrun as (h & s1 & H1 & H2).
  apply get_holder_inv in H1 as [-> Hl].
  apply put_holder_inv in H2 as (_ & _ & ->). eauto.
Qed.

Lemma zkeeps_write_counts_zero p : zkeeps (write_counts p 0).
Proof.
  intros s [] s' Hz Hrun. apply write_counts_inv in Hrun as (h & Hl & ->).
  by eapply zero_ok_store.
Qed.

(** Clearing an entry: [htcb = NULL], then [counts = 0]. *)
Lemma zkeeps_clear {A} p (rest : M A) :
  zkeeps rest →
  zkeeps (do* write_htcb p None in do* write_counts p 0 in rest).
Proof.
  intros Hrest s a s' Hz Hrun.
  apply bind_Ret_inv in Hrun as ([] & s1 & H1 & Hrun).
  apply write_htcb_inv in H1 as (h & Hl & ->).
  apply bind_Ret_inv in Hrun as ([] & s2 & H2 & Hrun).
  apply write_counts_inv in H2 as (h1 & Hl1 & ->).
  eapply Hrest; [|exact Hrun]. intros q.
  destruct (store_holder_content p (with_counts 0 h1) _ h1 q Hl1) as [-> ->].
  destruct (decide (p = q)); [done|].
  destruct (store_holder_content p (with_htcb None h) s h q Hl) as [-> ->].
  destruct (decide (p = q)); [done|]. apply Hz.
Qed.

(** Taking an entry for a thread. *)
Lemma zkeeps_take p t :
  zkeeps (do* write_htcb p (Some t) in
          let* c := read_counts p in
          write_counts p (wrap16 (c + 1))).
Proof.
  intros s a s' Hz Hrun.
  apply bind_Ret_inv in Hrun as ([] & s1 & H1 & Hrun).
  apply write_htcb_inv in H1 as (h & Hl & ->).
  apply bind_Ret_inv in Hrun as (c & s2 & H2 & Hrun).
  apply read_counts_inv in H2 as (-> & h1 & Hl1 & ->).
  destruct a. apply write_counts_inv in Hrun as (h2 & Hl2 & ->).
  assert (h2 = with_htcb (Some t) h) as ->.
  { rewrite (lookup_holder_store_eq _ _ _ _ Hl) in Hl2. congruence. }
  eapply zero_ok_store; [|exact Hl2|done].
  by eapply zero_ok_store.
Qed.

(** Giving back one count. *)
Lemma zkeeps_give_back p :
  zkeeps (let* c := read_counts p in
          if 0 <? c then write_counts p (wrap16 (c - 1)) else ret tt).
Proof.
  intros s a s' Hz Hrun.
  apply bind_Ret_inv in Hrun as (c & s2 & H2 & Hrun).
  apply read_counts_inv in H2 as (-> & h & Hl & ->).
  destruct (0 <? counts h) eqn:Hc; [|by inv_ret Hrun].
  apply Z.ltb_lt in Hc.
  destruct a. apply write_counts_inv in Hrun as (h2 & Hl2 & ->).
  assert (h2 = h) as -> by congruence.
  eapply zero_ok_store; [done|done|]. simpl. intros Hn.
  specialize (Hz p). rewrite (entry_htcb_lookup _ _ _ Hl) in Hz.
  rewrite (entry_counts_lookup _ _ _ Hl) in Hz. specialize (Hz Hn). lia.
Qed.

#[local] Hint Resolve zkeeps_write_counts_zero zkeeps_take zkeeps_give_back
  : keeps.

(** *** The functions of the core *)

Lemma zkeeps_allocholder k : zkeeps (nxsem_allocholder cfg k).
Proof. unfold nxsem_allocholder. keeps. Qed.

#[local] Hint Resolve zkeeps_allocholder : keeps.

Lemma zkeeps_findorallocateholder k t :
  zkeeps (nxsem_findorallocateholder cfg k t).
Proof. unfold nxsem_findorallocateholder. keeps. Qed.

Lemma zkeeps_freeholder k p : zkeeps (nxsem_freeholder cfg k p).
Proof.
  unfold nxsem_freeholder. apply zkeeps_bind; [auto with keeps|]. intros _.
  apply zkeeps_clear. keeps.
Qed.

#[local] Hint Resolve zkeeps_findorallocateholder zkeeps_freeholder : keeps.

Lemma zkeeps_findandfreeholder k t : zkeeps (nxsem_findandfreeholder cfg k t).
Proof. unfold nxsem_findandfreeholder. keeps. Qed.

#[local] Hint Resolve zkeeps_findandfreeholder : keeps.

Lemma zkeeps_foreachholder_list (handler : holderhandler_t) k arg :
  (∀ p, zkeeps (handler p k arg)) →
  ∀ fuel cur r, zkeeps (foreachholder_list fuel handler k arg cur r).
Proof.
  intros Hh. induction fuel as [|fuel IH]; intros [p|] r; simpl; keeps.
Qed.

Lemma zkeeps_foreachholder_builtin (handler : holderhandler_t) k arg :
  (∀ p, zkeeps (handler p k arg)) →
  ∀ n i r, zkeeps (foreachholder_builtin n handler k arg i r).
Proof.
  intros Hh. induction n as [|n IH]; intros i r; simpl; keeps.
Qed.

Lemma zkeeps_foreachholder (handler : holderhandler_t) k arg :
  (∀ p, zkeeps (handler p k arg)) →
  zkeeps (nxsem_foreachholder cfg k handler arg).
Proof.
  intros Hh. unfold nxsem_foreachholder.
  pose proof (zkeeps_foreachholder_list handler k arg Hh).
  pose proof (zkeeps_foreachholder_builtin handler k arg Hh).
  keeps.
Qed.

Lemma zkeeps_recoverholders p k arg : zkeeps (nxsem_recoverholders cfg p k arg).
Proof. unfold nxsem_recoverholders. keeps. Qed.

Lemma zkeeps_boostholderprio p k arg : zkeeps (nxsem_boostholderprio cfg p k arg).
Proof. unfold nxsem_boostholderprio. keeps. Qed.

Lemma zkeeps_verifyholder p k arg : zkeeps (nxsem_verifyholder p k arg).
Proof. unfold nxsem_verifyholder. keeps. Qed.

Lemma zkeeps_restoreholderprio t k arg :
  zkeeps (nxsem_restoreholderprio cfg t k arg).
Proof. unfold nxsem_restoreholderprio. keeps. Qed.

#[local] Hint Resolve zkeeps_restoreholderprio : keeps.

Lemma zkeeps_restoreholderprioall p k arg :
  zkeeps (nxsem_restoreholderprioall cfg p k arg).
Proof. unfold nxsem_restoreholderprioall. keeps. Qed.

Lemma zkeeps_restoreholderprio_others p k arg :
  zkeeps (nxsem_restoreholderprio_others cfg p k arg).
Proof. unfold nxsem_restoreholderprio_others. keeps. Qed.

Lemma zkeeps_restoreholderprio_self p k arg :
  zkeeps (nxsem_restoreholderprio_self cfg p k arg).
Proof. unfold nxsem_restoreholderprio_self. keeps. Qed.

#[local] Hint Resolve zkeeps_foreachholder zkeeps_recoverholders
  zkeeps_boostholderprio zkeeps_verifyholder zkeeps_restoreholderprioall
  zkeeps_restoreholderprio_others zkeeps_restoreholderprio_self : keeps.

Lemma zkeeps_restore_baseprio stcb k : zkeeps (nxsem_restore_baseprio cfg stcb k).
Proof.
  unfold nxsem_restore_baseprio, nxsem_restore_baseprio_irq,
    nxsem_restore_baseprio_task.
  keeps.
Qed.

Lemma zkeeps_canceled stcb k : zkeeps (nxsem_canceled cfg stcb k).
Proof. unfold nxsem_canceled. keeps. Qed.

Lemma zkeeps_boost_priority k : zkeeps (nxsem_boost_priority cfg k).
Proof. unfold nxsem_boost_priority. keeps. Qed.

Lemma zkeeps_release_holder k : zkeeps (nxsem_release_holder cfg k).
Proof. unfold nxsem_release_holder. keeps. Qed.

Lemma zkeeps_add_holder_tcb t k : zkeeps (nxsem_add_holder_tcb cfg (Some t) k).
Proof. unfold nxsem_add_holder_tcb. keeps. Qed.

Lemma zkeeps_destroyholder k :
  pooled cfg = true → zkeeps (nxsem_destroyholder cfg k).
Proof. intros Hp. unfold nxsem_destroyholder. rewrite Hp. keeps. Qed.

Lemma run_op_zero_ok o s s' :
  (pooled cfg = false → ∀ k, o ≠ DestroyHolder k) →
  wf cfg s → zero_ok s → run_op o s = Ret tt s' → zero_ok s'.
Proof.
  intros Hnd Hwf Hz Hrun.
  destruct o as [k|t k|k|k|stcb k|stcb k|k|t|b|t|t prio]; simpl in Hrun;
    try (apply on_sem_inv in Hrun as [Hk Hrun]).
  - destruct (sc_running _ (proj2 Hwf)) as [v Hv].
    apply lookup_tcb_Some in Hv as (r & Hr & Hv).
    unfold nxsem_add_holder, this_task in Hrun.
    unfold gets at 1 in Hrun. unfold bind at 1 in Hrun. rewrite Hr in Hrun.
    by eapply zkeeps_add_holder_tcb.
  - by eapply zkeeps_add_holder_tcb.
  - by eapply zkeeps_boost_priority.
  - by eapply zkeeps_release_holder.
  - by eapply zkeeps_restore_baseprio.
  - by eapply zkeeps_canceled.
  - assert (Hp : pooled cfg = true).
    { destruct (pooled cfg) eqn:Hp; [done|]. by destruct (Hnd eq_refl k). }
    by eapply (zkeeps_destroyholder k Hp).
  - inv_ret Hrun. by destruct (bool_decide _).
  - by inv_ret Hrun.
  - inv_ret Hrun. by destruct (bool_decide _).
  - inv_ret Hrun. by destruct (bool_decide _).
Qed.

Lemma run_zero_ok os : ∀ s s',
  (pooled cfg = false → ∀ k, DestroyHolder k ∉ os) →
  wf cfg s → zero_ok s → run os s = Ret tt s' → zero_ok s'.
Proof.
  induction os as [|o os IH]; intros s s' Hnd Hwf Hz Hrun; simpl in Hrun.
  - by inv_ret Hrun.
  - apply bind_Ret_inv in Hrun as ([] & s1 & Hop & Hrun).
    eapply (IH s1); [| | |exact Hrun].
    + intros Hp k Hin. apply (Hnd Hp k). apply elem_of_cons. by right.
    + by eapply run_op_wf.
    + eapply run_op_zero_ok; [|exact Hwf|exact Hz|exact Hop].
      intros Hp k ->. apply (Hnd Hp k). apply elem_of_cons. by left.
Qed.

(** [nxsem_release_holder] gives back one count and keeps the entry. *)
Lemma release_holder_keeps_entry s k r p :
  wf cfg s → g_running s = Some r → find_entry cfg s k (Some r) = Some p →
  ∃ s', nxsem_release_holder cfg k s = Ret tt s' ∧
        entry_htcb s' p = Some r ∧ p ∈ holders cfg s' k ∧
        entry_counts s' p
          = (if 0 <? entry_counts s p
             then wrap16 (entry_counts s p - 1) else entry_counts s p).
Proof.
  intros Hwf Hr Hfind.
  pose proof (wf_shape_ok _ _ Hwf) as Hshape.
  pose proof Hfind as [Hin Ht]%find_entry_Some.
  pose proof (entries_valid_sem _ _ _ _ Hin) as Hk.
  destruct (entries_lookup cfg s k p Hshape Hin) as [h Hl].
  unfold nxsem_release_holder, this_task.
  unfold gets at 1. unfold bind at 1. rewrite Hr.
  mstep (findholder_spec cfg s k (Some r) Hshape Hk). rewrite Hfind.
  mstep (read_counts_Ret _ _ _ Hl).
  rewrite (entry_counts_lookup _ _ _ Hl).
  destruct (0 <? counts h).
  - eexists. split; [by apply write_counts_Ret|].
    destruct (store_content s p h (with_counts (wrap16 (counts h - 1)) h)
                Hshape (entries_ptr_ok _ _ _ Hin) Hl eq_refl)
      as (_ & _ & Hent & _ & Hl' & _).
    rewrite (entry_htcb_lookup _ _ _ Hl'), (entry_counts_lookup _ _ _ Hl').
    rewrite (entry_htcb_lookup _ _ _ Hl) in Ht.
    split_and!; try done.
    apply list_elem_of_filter. split; [|by rewrite Hent].
    unfold live. rewrite (entry_htcb_lookup _ _ _ Hl'). simpl. by rewrite Ht.
  - exists s. split_and!; try done; [|by apply entry_counts_lookup].
    apply list_elem_of_filter. split; [|done]. unfold live. by rewrite Ht.
Qed.

(** C2 (amended): the counts of free entries.  In every state reached
    from boot, without [nxsem_destroyholder] when the holders are built
    into the semaphores, an entry whose [htcb] is NULL has counts 0: an
    entry with counts is live.  With preallocated holders the nodes of the
    free list have [htcb] NULL and counts 0 and the entries on the lists
    of the semaphores are live.  The converse fails:
    [nxsem_release_holder] gives back one count of the running thread and
    leaves its entry live, also when that was its last count. *)
Theorem C2_free_entries_have_no_counts s0 os s :
  boot s0 → reaches s0 os s →
  (pooled cfg = false → ∀ k, DestroyHolder k ∉ os) →
  (∀ p, entry_htcb s p = None → entry_counts s p = 0) ∧
  (∀ p, entry_counts s p ≠ 0 → live s p) ∧
  (pooled cfg = true →
   (∀ i, i ∈ free_nodes cfg s →
         entry_htcb s (Prealloc i) = None ∧ entry_counts s (Prealloc i) = 0) ∧
   (∀ k p, p ∈ entries cfg s k → live s p)) ∧
  (∀ k r p, g_running s = Some r → find_entry cfg s k (Some r) = Some p →
     ∃ s', nxsem_release_holder cfg k s = Ret tt s' ∧
           entry_htcb s' p = Some r ∧ p ∈ holders cfg s' k ∧
           entry_counts s' p
             = (if 0 <? entry_counts s p
                then wrap16 (entry_counts s p - 1) else entry_counts s p)).
Proof.
  intros Hboot Hreach Hnd.
  destruct (reaches_inv s0 os s Hboot Hreach) as (s1 & _ & Hwf1 & Hz1 & Hrun).
  pose proof (run_wf os s1 s Hwf1 Hrun) as Hwf.
  assert (Hz : zero_ok s).
  { eapply run_zero_ok; [exact Hnd|exact Hwf1| |exact Hrun].
    intros p _. apply Hz1. }
  split_and!.
  - exact Hz.
  - intros p Hc Hdead. apply Hc. by apply Hz.
  - intros Hp. split.
    + intros i Hi.
      destruct (sw_pool _ _ (proj1 Hwf) Hp) as (fl & ls & Hsh & Hzero & _).
      rewrite (free_nodes_shape _ _ _ _ Hsh) in Hi. by apply Hzero.
    + intros k p Hin. by eapply entries_live_pooled; [|destruct Hwf|].
  - intros k r p. by apply release_holder_keeps_entry.
Qed.

End Lifecycle.

(** ** Scenarios *)

(** Four preallocated holders, two nested boosts per thread, assertions
    enabled; and built-in holders with two nested boosts. *)
Definition cfg_pooled : config := Config 4 2 true.
Definition cfg_builtin_nested : config := Config 0 2 false.

Definition three_threads : gmap nat tcb_s :=
  <[1%nat := Tcb 10 10 []]>
    (<[2%nat := Tcb 20 20 []]> (<[3%nat := Tcb 30 30 []]> ∅)).

Definition fresh_sem : sem_t := Sem 0 0 None zero_holder zero_holder.

(** The states at boot: two semaphores, three threads, thread 1 runs. *)
Definition boot_pooled : kstate :=
  KState (replicate 4 zero_holder) None [fresh_sem; fresh_sem] three_threads
    (Some 1%nat) false [].
Definition boot_inline : kstate :=
  KState [] None [fresh_sem; fresh_sem] three_threads (Some 1%nat) false [].

(** The state a run ends in. *)
Definition final (o : outcome unit) (d : kstate) : kstate :=
  match o with
  | Ret _ s => s
  | Abort _ => d
  end.

Definition state_after (cfg : config) (s0 : kstate) (os : list op) : kstate :=
  final ((do* nxsem_initialize_holders cfg in run cfg os) s0) s0.

Lemma three_threads_no_boost :
  map_Forall (λ (_ : nat) v, sem_boosts v = []) three_threads.
Proof.
  unfold three_threads.
  repeat (apply map_Forall_insert_2; [done|]). apply map_Forall_empty.
Qed.

Lemma boot_pooled_ok : boot cfg_pooled boot_pooled.
Proof.
  unfold boot. split; [done|]. split; [done|].
  split; [repeat constructor|]. split; [apply three_threads_no_boost|].
  eexists. vm_compute. reflexivity.
Qed.

Lemma boot_inline_ok cfg :
  CONFIG_SEM_PREALLOCHOLDERS cfg = 0%nat → boot cfg boot_inline.
Proof.
  intros Hn. unfold boot. rewrite Hn. split; [done|]. split; [done|].
  split; [repeat constructor|]. split; [apply three_threads_no_boost|].
  eexists. vm_compute. reflexivity.
Qed.

(** Thread 1 holds a count of semaphore 0 and thread 3 runs. *)
Definition held_ops : list op := [AddHolder 0; Switch 3].
Definition held_pooled : kstate := state_after cfg_pooled boot_pooled held_ops.

Lemma held_pooled_reaches : reaches cfg_pooled boot_pooled held_ops held_pooled.
Proof. vm_compute. reflexivity. Qed.

Lemma held_pooled_reachable : reachable cfg_pooled held_pooled.
Proof.
  exists boot_pooled, held_ops. split; [apply boot_pooled_ok|].
  apply held_pooled_reaches.
Qed.

(** Thread 1 exits while it holds the count. *)
Definition stale_ops : list op := [AddHolder 0; Switch 3; ThreadExit 1].
Definition stale_pooled : kstate := state_after cfg_pooled boot_pooled stale_ops.

Lemma stale_pooled_reachable : reachable cfg_pooled stale_pooled.
Proof.
  exists boot_pooled, stale_ops. split; [apply boot_pooled_ok|].
  vm_compute. reflexivity.
Qed.

(** Thread 3 has boosted thread 1, which has given its count back. *)
Definition released_ops : list op :=
  [AddHolder 0; Switch 3; BoostPriority 0; Switch 1; ReleaseHolder 0].
Definition released_pooled : kstate :=
  state_after cfg_pooled boot_pooled released_ops.

Lemma released_pooled_reachable : reachable cfg_pooled released_pooled.
Proof.
  exists boot_pooled, released_ops. split; [apply boot_pooled_ok|].
  vm_compute. reflexivity.
Qed.

(** Thread 3 has boosted thread 1, with built-in holders. *)
Definition boosted_ops : list op := [AddHolder 0; Switch 3; BoostPriority 0].
Definition boosted_builtin : kstate :=
  state_after cfg_builtin_nested boot_inline boosted_ops.

(** Thread 1 has taken and given back a count, with built-in holders. *)
Definition given_back_ops : list op := [AddHolder 0; ReleaseHolder 0].
Definition given_back_builtin : kstate :=
  state_after cfg_builtin boot_inline given_back_ops.

Lemma given_back_reaches :
  reaches cfg_builtin boot_inline given_back_ops given_back_builtin.
Proof. vm_compute. reflexivity. Qed.

(** Thread 1 holds a count, with built-in holders. *)
Definition held_builtin : kstate :=
  state_after cfg_builtin boot_inline [AddHolder 0].

Lemma held_builtin_reachable : reachable cfg_builtin held_builtin.
Proof.
  exists boot_inline, [AddHolder 0]. split; [by apply boot_inline_ok|].
  vm_compute. reflexivity.
Qed.

Lemma sem0_valid s0 cfg os :
  length (sems (state_after cfg s0 os)) = 2%nat →
  is_Some (sems (state_after cfg s0 os) !! 0%nat).
Proof. intros Hlen. apply lookup_lt_is_Some. lia. Qed.

Lemma C8_boost_monotone_witness :
  wf cfg_pooled held_pooled ∧ is_Some (sems held_pooled !! 0%nat) ∧
  ∃ s' evs, nxsem_boost_priority cfg_pooled 0 held_pooled = Ret tt s' ∧
            trace s' = trace held_pooled ++ evs.
Proof.
  pose proof (reachable_wf _ _ held_pooled_reachable) as Hwf.
  assert (Hk : is_Some (sems held_pooled !! 0%nat))
    by (apply sem0_valid; vm_compute; reflexivity).
  split; [exact Hwf|]. split; [exact Hk|].
  destruct (C8_boost_monotone cfg_pooled held_pooled 0 Hwf Hk)
    as (s' & evs & Hrun & Htr & _).
  exists s', evs. split; [exact Hrun|exact Htr].
Defined.

Lemma C5_boost_frees_stale_holders_witness :
  wf cfg_pooled stale_pooled ∧ is_Some (sems stale_pooled !! 0%nat) ∧
  ∃ s', nxsem_boost_priority cfg_pooled 0 stale_pooled = Ret tt s' ∧
        entry_htcb s' (Prealloc 0) = None.
Proof.
  pose proof (reachable_wf _ _ stale_pooled_reachable) as Hwf.
  assert (Hk : is_Some (sems stale_pooled !! 0%nat))
    by (apply sem0_valid; vm_compute; reflexivity).
  split; [exact Hwf|]. split; [exact Hk|].
  destruct (C5_boost_frees_stale_holders cfg_pooled stale_pooled 0 Hwf Hk)
    as (s' & evs & vr & Hrun & _ & _ & Hstale & _).
  exists s'. split; [exact Hrun|].
  assert (Hh : holders cfg_pooled stale_pooled 0 = [Prealloc 0])
    by (vm_compute; reflexivity).
  destruct (Hstale (Prealloc 0)) as [Hdead _].
  - rewrite Hh. apply list_elem_of_singleton. reflexivity.
  - vm_compute. reflexivity.
  - exact Hdead.
Defined.

Lemma C4_restore_others_before_self_witness :
  wf cfg_pooled released_pooled ∧ is_Some (sems released_pooled !! 0%nat) ∧
  ∃ s', nxsem_restore_baseprio_task cfg_pooled (Some 3%nat) 0 released_pooled
          = Ret tt s' ∧
        ∀ p, find_entry cfg_pooled s' 0 (g_running released_pooled) = Some p →
             0 < entry_counts s' p.
Proof.
  pose proof (reachable_wf _ _ released_pooled_reachable) as Hwf.
  assert (Hk : is_Some (sems released_pooled !! 0%nat))
    by (apply sem0_valid; vm_compute; reflexivity).
  split; [exact Hwf|]. split; [exact Hk|].
  destruct (C4_restore_others_before_self cfg_pooled released_pooled 0
              (Some 3%nat) Hwf Hk) as (s' & Hrun & Hfinal & _).
  exists s'. split; [exact Hrun|exact Hfinal].
Defined.

Lemma C3_restore_ledger_edit_witness :
  ∃ boosts' s',
    nxsem_restoreholderprio cfg_builtin_nested (Some 1%nat) 0 None
      boosted_builtin = Ret 0 s' ∧
    tcbs s' = <[1%nat := Tcb (highest_priority 10 boosts') 10 boosts']>
                (tcbs boosted_builtin).
Proof.
  destruct (C3_restore_ledger_edit cfg_builtin_nested boosted_builtin 0 1%nat
              (Tcb 30 10 [SemBoost 0 30]) None)
    as (boosts' & s' & Hrun & _ & Htcbs & _).
  - reflexivity.
  - intros Hp. vm_compute in Hp. discriminate Hp.
  - apply sem0_valid. vm_compute. reflexivity.
  - vm_compute. reflexivity.
  - constructor; [reflexivity|constructor].
  - simpl. discriminate.
  - exists boosts', s'. split; [exact Hrun|exact Htcbs].
Defined.

Lemma C7_destroy_frees_all_holders_witness :
  wf cfg_pooled held_pooled ∧ is_Some (sems held_pooled !! 0%nat) ∧
  ∃ s', nxsem_destroyholder cfg_pooled 0 held_pooled = Ret tt s' ∧
        holders cfg_pooled s' 0 = [] ∧
        nxsem_findholder cfg_pooled 0 None s' = Ret None s'.
Proof.
  pose proof (reachable_wf _ _ held_pooled_reachable) as Hwf.
  assert (Hk : is_Some (sems held_pooled !! 0%nat))
    by (apply sem0_valid; vm_compute; reflexivity).
  split; [exact Hwf|]. split; [exact Hk|].
  destruct (C7_destroy_frees_all_holders cfg_pooled held_pooled 0 Hwf Hk)
    as [_ Hret].
  destruct Hret as (s' & Hrun & Hh & _ & _ & Hnull).
  - right. vm_compute. lia.
  - exists s'. split; [exact Hrun|]. split; [exact Hh|exact Hnull].
Defined.

(** C7 (counterexample): with built-in holders, after
    [nxsem_destroyholder] has returned, [nxsem_findholder] on the NULL
    handle returns the first built-in holder, not NULL. *)
Lemma C7_counterexample :
  ∃ s', reachable cfg_builtin held_builtin ∧
        nxsem_destroyholder cfg_builtin 0 held_builtin = Ret tt s' ∧
        nxsem_findholder cfg_builtin 0 None s' = Ret (Some (Builtin 0 0)) s'.
Proof.
  eexists. split; [apply held_builtin_reachable|].
  split; vm_compute; reflexivity.
Qed.

Lemma C9_holders_unique_witness :
  reachable cfg_pooled held_pooled ∧
  NoDup (entry_htcb held_pooled <$> holders cfg_pooled held_pooled 0).
Proof.
  split; [apply held_pooled_reachable|].
  destruct (C9_holders_unique cfg_pooled held_pooled 0 held_pooled_reachable)
    as [Hnd _].
  exact Hnd.
Defined.

Lemma C10_pool_bounds_holders_witness :
  pooled cfg_pooled = true ∧ length (g_holderalloc boot_pooled) = 4%nat ∧
  boot cfg_pooled boot_pooled ∧
  ∃ s1, nxsem_initialize_holders cfg_pooled boot_pooled = Ret tt s1 ∧
        chain (g_holderalloc s1) (g_freeholders s1) (seq 0 4) ∧
        run cfg_pooled held_ops s1 = Ret tt held_pooled ∧
        (length (all_holders cfg_pooled held_pooled) ≤ 4)%nat.
Proof.
  split; [reflexivity|]. split; [reflexivity|].
  split; [exact boot_pooled_ok|].
  destruct (C10_pool_bounds_holders cfg_pooled boot_pooled eq_refl eq_refl)
    as (s1 & Hinit & _ & Hchain & _ & Hbound).
  pose proof held_pooled_reaches as Hrun. unfold reaches in Hrun.
  rewrite (bind_Ret _ _ _ _ _ Hinit) in Hrun.
  exists s1. split; [exact Hinit|]. split; [exact Hchain|].
  split; [exact Hrun|].
  destruct (Hbound boot_pooled_ok held_ops held_pooled Hrun) as (_ & Hle & _).
  exact Hle.
Defined.

Lemma given_back_no_destroy :
  pooled cfg_builtin = false → ∀ k, DestroyHolder k ∉ given_back_ops.
Proof.
  intros _ k Hin. unfold given_back_ops in Hin.
  rewrite !elem_of_cons, elem_of_nil in Hin.
  by destruct Hin as [?|[?|[]]].
Qed.

Lemma C2_free_entries_have_no_counts_witness :
  boot cfg_builtin boot_inline ∧
  reaches cfg_builtin boot_inline given_back_ops given_back_builtin ∧
  ∀ p, entry_htcb given_back_builtin p = None →
       entry_counts given_back_builtin p = 0.
Proof.
  pose proof (boot_inline_ok cfg_builtin eq_refl) as Hboot.
  split; [exact Hboot|]. split; [exact given_back_reaches|].
  destruct (C2_free_entries_have_no_counts cfg_builtin boot_inline
              given_back_ops given_back_builtin Hboot given_back_reaches
              given_back_no_destroy) as [Hz _].
  exact Hz.
Defined.

(** C2 (counterexample): after [nxsem_add_holder] and
    [nxsem_release_holder] by the same thread, the entry of the thread is
    still in the store with its [htcb] set, and its counts are 0. *)
Lemma C2_counterexample :
  boot cfg_builtin boot_inline ∧
  reaches cfg_builtin boot_inline [AddHolder 0; ReleaseHolder 0]
    given_back_builtin ∧
  Builtin 0 0 ∈ holders cfg_builtin given_back_builtin 0 ∧
  entry_htcb given_back_builtin (Builtin 0 0) = Some 1%nat ∧
  entry_counts given_back_builtin (Builtin 0 0) = 0.
Proof.
  split; [by apply boot_inline_ok|]. split; [exact given_back_reaches|].
  split; [|split; vm_compute; reflexivity].
  assert (Hh : holders cfg_builtin given_back_builtin 0 = [Builtin 0 0])
    by (vm_compute; reflexivity).
  rewrite Hh. by apply list_elem_of_singleton.
Qed.

(** ** More properties of the core *)

Section MoreProperties.

Variable cfg : config.

Local Abbreviation NPOOL := (CONFIG_SEM_PREALLOCHOLDERS cfg).

(** *** Finding an entry *)

(** X1: [nxsem_findholder] is a lookup.  On a semaphore of a store with
    well-shaped lists it returns without changing the state; for a thread
    [t] it returns NULL exactly when no holder of the semaphore has the
    thread, and an entry it returns is a holder of the semaphore whose
    [htcb] is [t]. *)
Theorem X1_findholder_lookup s k t :
  shape_ok cfg s → is_Some (sems s !! k) →
  ∃ r, nxsem_findholder cfg k (Some t) s = Ret r s ∧
       (r = None ↔ ∀ p, p ∈ holders cfg s k → entry_htcb s p ≠ Some t) ∧
       (∀ p, r = Some p → p ∈ holders cfg s k ∧ entry_htcb s p = Some t).
Proof.
  intros Hshape Hk. exists (find_entry cfg s k (Some t)).
  split; [by apply findholder_spec|]. split; [split|].
  - intros Hnone p [Hin _]%holders_subset.
    by apply (find_entry_None _ _ _ _ _ Hnone).
  - intros Hall. destruct (find_entry cfg s k (Some t)) as [p|] eqn:Hf; [|done].
    apply find_entry_Some in Hf as [Hin Ht]. exfalso.
    apply (Hall p); [|done]. apply list_elem_of_filter. split; [|done].
    unfold live. by rewrite Ht.
  - intros p [Hin Ht]%find_entry_Some. split; [|done].
    apply list_elem_of_filter. split; [|done]. unfold live. by rewrite Ht.
Qed.

(** *** Freeing and allocating entries *)

Lemma freeholder_free_list s k pre i rest :
  pooled cfg = true → store_wf cfg s →
  entries cfg s k = pre ++ Prealloc i :: rest →
  ∃ s' fl ls l1 l2,
    nxsem_freeholder cfg k (Prealloc i) s = Ret tt s' ∧
    pool_shape cfg s fl ls ∧ ls !! k = Some (l1 ++ i :: l2) ∧
    pre = Prealloc <$> l1 ∧ rest = Prealloc <$> l2 ∧
    pool_shape cfg s' (i :: fl) (<[k := l1 ++ l2]> ls) ∧
    store_frame s s'.
Proof.
  intros Hp Hwf He.
  destruct (sw_pool _ _ Hwf Hp) as (fl & ls & Hsh & _ & _).
  destruct (entries_split_pooled _ _ _ _ _ _ _ _ Hp Hsh He)
    as (l1 & i' & l2 & Hlk & -> & [= <-] & ->).
  destruct (freeholder_pool cfg s fl ls k l1 i l2 Hp Hsh Hlk)
    as (s' & Hrun & Hsh' & _ & _ & _ & Hfr & _).
  by exists s', fl, ls, l1, l2.
Qed.

(** X2: [nxsem_freeholder] on an entry of the semaphore.  The entry is
    cleared ([htcb] NULL, counts 0) and is no holder any more; every other
    entry keeps its content and every other semaphore its entries; the
    scheduler's state is untouched and the invariant of the store is
    kept.  With preallocated holders the node leaves the list of the
    semaphore, the order of the others unchanged, and becomes the head of
    the free list; with built-in holders the slot stays in place. *)
Theorem X2_freeholder_unlinks s k pre p rest :
  store_wf cfg s → entries cfg s k = pre ++ p :: rest →
  ∃ s', nxsem_freeholder cfg k p s = Ret tt s' ∧
        store_wf cfg s' ∧
        entry_htcb s' p = None ∧ entry_counts s' p = 0 ∧
        p ∉ holders cfg s' k ∧
        (∀ q, q ≠ p → entry_htcb s' q = entry_htcb s q ∧
                      entry_counts s' q = entry_counts s q) ∧
        (∀ k', k' ≠ k → entries cfg s' k' = entries cfg s k') ∧
        tcbs s' = tcbs s ∧ g_running s' = g_running s ∧
        (if pooled cfg
         then entries cfg s' k = pre ++ rest ∧
              ∃ i, p = Prealloc i ∧ free_nodes cfg s' = i :: free_nodes cfg s
         else entries cfg s' k = pre ++ p :: rest).
Proof.
  intros Hwf He.
  destruct (freeholder_spec cfg s k pre p rest Hwf He)
    as (s' & Hrun & Hwf' & He' & Heo & Hsame & Hh & Hc & Hfr & _).
  exists s'. split_and!; try done.
  - intros [_ Hlive]%holders_subset. by apply Hlive.
  - by destruct Hfr.
  - by destruct Hfr.
  - destruct (pooled cfg) eqn:Hp.
    + split; [done|].
      assert (Hin : p ∈ entries cfg s k) by (rewrite He; apply elem_of_middle).
      destruct (sw_pool _ _ Hwf Hp) as (fl & ls & Hsh & _ & _).
      destruct (entries_valid_sem _ _ _ _ Hin) as [sm Hsm].
      destruct (pool_shape_sem_l _ _ _ _ _ _ Hsh Hsm) as (lk & Hlk & _).
      rewrite (entries_pooled _ _ _ _ _ _ Hp Hsh Hlk) in Hin.
      apply list_elem_of_fmap in Hin as (i & -> & Hi).
      exists i. split; [done|].
      destruct (freeholder_free_list s k pre i rest Hp Hwf He)
        as (s2 & fl2 & ls2 & l1 & l2 & Hrun2 & Hsh2 & _ & _ & _ & Hsh2' & _).
      assert (s2 = s') as -> by congruence.
      by rewrite (free_nodes_shape _ _ _ _ Hsh2'), (free_nodes_shape _ _ _ _ Hsh2).
    + by rewrite He', <- (assoc (++)).
Qed.

(** X3: the free list is a stack.  With preallocated holders, the node
    that [nxsem_freeholder] has just freed is the one the next
    [nxsem_allocholder] returns, for any semaphore: it becomes the first
    entry of that semaphore, with [htcb] NULL and counts 0, and the free
    list is again the one before the two calls. *)
Theorem X3_free_then_alloc s k k' pre i rest :
  pooled cfg = true → store_wf cfg s →
  entries cfg s k = pre ++ Prealloc i :: rest → is_Some (sems s !! k') →
  ∃ s1 s2,
    nxsem_freeholder cfg k (Prealloc i) s = Ret tt s1 ∧
    nxsem_allocholder cfg k' s1 = Ret (Some (Prealloc i)) s2 ∧
    entries cfg s2 k' = Prealloc i :: entries cfg s1 k' ∧
    entry_htcb s2 (Prealloc i) = None ∧
    entry_counts s2 (Prealloc i) = 0 ∧
    free_nodes cfg s2 = free_nodes cfg s.
Proof.
  intros Hp Hwf He Hk'.
  destruct (freeholder_spec cfg s k pre (Prealloc i) rest Hwf He)
    as (s1' & Hrun' & _ & _ & _ & _ & Hh1 & _).
  destruct (freeholder_free_list s k pre i rest Hp Hwf He)
    as (s1 & fl & ls & l1 & l2 & Hrun & Hsh & Hlk & _ & _ & Hsh1 & Hfr).
  assert (s1' = s1) as -> by congruence.
  destruct (store_frame_valid _ _ _ Hfr Hk') as [sm1 Hsm1].
  destruct (pool_shape_sem_l _ _ _ _ _ _ Hsh1 Hsm1) as (lk' & Hlk' & _).
  destruct (allocholder_pool cfg s1 fl _ k' lk' i Hp Hsh1 Hlk')
    as (s2 & h2 & Halloc & Hsh2 & _ & Hl2 & Hh2 & Hc2 & _).
  exists s1, s2. split_and!; try done.
  - rewrite (entries_pooled _ _ _ _ _ _ Hp Hsh1 Hlk').
    rewrite (entries_pooled _ _ _ _ _ (i :: lk') Hp Hsh2); [done|].
    apply list_lookup_insert_eq. by eapply lookup_lt_Some.
  - rewrite (entry_htcb_lookup _ _ _ Hl2). congruence.
  - by rewrite (entry_counts_lookup _ _ _ Hl2).
  - by rewrite (free_nodes_shape _ _ _ _ Hsh2), (free_nodes_shape _ _ _ _ Hsh).
Qed.

(** X4: [nxsem_allocholder] with a free node.  With preallocated holders
    and a free list that is not empty, the first free node leaves the
    free list and becomes the first entry of the semaphore, with counts 0;
    its [htcb] is left as it is (NULL), every other entry keeps its
    content, every other semaphore its entries, and nothing is logged. *)
Theorem X4_allocholder_pops_free_list s k i :
  pooled cfg = true → store_wf cfg s → is_Some (sems s !! k) →
  g_freeholders s = Some i →
  ∃ s', nxsem_allocholder cfg k s = Ret (Some (Prealloc i)) s' ∧
        entries cfg s' k = Prealloc i :: entries cfg s k ∧
        (∀ k', k' ≠ k → entries cfg s' k' = entries cfg s k') ∧
        free_nodes cfg s = i :: free_nodes cfg s' ∧
        entry_htcb s' (Prealloc i) = None ∧
        entry_counts s' (Prealloc i) = 0 ∧
        (∀ q, q ≠ Prealloc i → entry_htcb s' q = entry_htcb s q ∧
                               entry_counts s' q = entry_counts s q) ∧
        tcbs s' = tcbs s ∧ trace s' = trace s.
Proof.
  intros Hp Hwf [sm Hsm] Hfree.
  destruct (sw_pool _ _ Hwf Hp) as (fl0 & ls & Hsh & Hz & _).
  pose proof (ps_free _ _ _ _ Hsh) as Hc. rewrite Hfree in Hc.
  destruct fl0 as [|i' fl]; [by apply lseg_head in Hc|].
  pose proof (lseg_head _ _ _ _ Hc) as Hhd. simpl in Hhd.
  injection Hhd as <-.
  destruct (pool_shape_sem_l _ _ _ _ _ _ Hsh Hsm) as (lk & Hlk & _).
  destruct (allocholder_pool cfg s fl ls k lk i Hp Hsh Hlk)
    as (s' & h' & Hrun & Hsh' & Hsame & Hl' & Hh' & Hc' & Hfr & Htr).
  exists s'. split_and!; try done.
  - rewrite (entries_pooled _ _ _ _ _ _ Hp Hsh Hlk).
    rewrite (entries_pooled _ _ _ _ _ (i :: lk) Hp Hsh'); [done|].
    apply list_lookup_insert_eq. by eapply lookup_lt_Some.
  - intros k' Hne. destruct (ls !! k') as [lk2|] eqn:Hlk2.
    + rewrite (entries_pooled _ _ _ _ _ _ Hp Hsh Hlk2).
      apply (entries_pooled _ _ _ _ _ _ Hp Hsh').
      by rewrite list_lookup_insert_ne.
    + assert (Hn : sems s !! k' = None).
      { destruct (sems s !! k') eqn:Hs; [|done].
        destruct (pool_shape_sem_l _ _ _ _ _ _ Hsh Hs) as (? & ? & _).
        congruence. }
      rewrite (entries_invalid _ _ _ Hn). apply entries_invalid.
      apply lookup_ge_None. destruct Hfr as [_ _ _ ->]. by apply lookup_ge_None.
  - by rewrite (free_nodes_shape _ _ _ _ Hsh), (free_nodes_shape _ _ _ _ Hsh').
  - rewrite (entry_htcb_lookup _ _ _ Hl'), Hh'.
    apply Hz. apply elem_of_cons. by left.
  - by rewrite (entry_counts_lookup _ _ _ Hl').
  - by destruct Hfr.
Qed.

(** X5: [nxsem_allocholder] with built-in holders does not reserve the
    slot.  It returns the first of the two slots whose [htcb] is NULL and
    resets its counts, but leaves [htcb] NULL: until the caller sets
    [htcb], a second [nxsem_allocholder] returns the same slot. *)
Theorem X5_allocholder_slot_not_reserved s k sm :
  pooled cfg = false → sems s !! k = Some sm →
  htcb (holder0 sm) = None ∨ htcb (holder1 sm) = None →
  ∃ i s1 s2,
    nxsem_allocholder cfg k s = Ret (Some (Builtin k i)) s1 ∧
    i = (if decide (htcb (holder0 sm) = None) then 0%nat else 1%nat) ∧
    entry_htcb s1 (Builtin k i) = None ∧
    entry_counts s1 (Builtin k i) = 0 ∧
    (∀ q, q ≠ Builtin k i → entry_htcb s1 q = entry_htcb s q ∧
                            entry_counts s1 q = entry_counts s q) ∧
    nxsem_allocholder cfg k s1 = Ret (Some (Builtin k i)) s2 ∧
    (∀ q, entry_htcb s2 q = entry_htcb s1 q ∧
          entry_counts s2 q = entry_counts s1 q).
Proof.
  intros Hp Hsm Hfree.
  assert (Hshape : ∀ s0, shape_ok cfg s0) by (intros s0 Hp'; congruence).
  set (i := if decide (htcb (holder0 sm) = None) then 0%nat else 1%nat).
  assert (∃ h, lookup_holder (Builtin k i) s = Some h ∧ htcb h = None ∧
               ((i = 0%nat ∧ htcb (holder0 sm) = None) ∨
                (i = 1%nat ∧ htcb (holder0 sm) ≠ None ∧
                 htcb (holder1 sm) = None))) as (h & Hl & Hdead & Hcase).
  { unfold i. destruct (decide (htcb (holder0 sm) = None)) as [H0|H0].
    - exists (holder0 sm). split; [by apply lookup_builtin0|]. auto.
    - exists (holder1 sm). split; [by apply lookup_builtin1|].
      destruct Hfree; [done|]. auto. }
  set (s1 := store_holder (Builtin k i) (with_counts 0 h) s).
  destruct (store_content cfg s (Builtin k i) h (with_counts 0 h)
              (Hshape s) Hp Hl eq_refl)
    as (_ & _ & _ & Hsame1 & Hl1 & Hfr1).
  fold s1 in Hsame1, Hl1, Hfr1.
  destruct (store_frame_valid _ _ _ Hfr1 (ex_intro _ sm Hsm)) as [sm1 Hsm1].
  assert (Hcase1 : (i = 0%nat ∧ htcb (holder0 sm1) = None) ∨
                   (i = 1%nat ∧ htcb (holder0 sm1) ≠ None ∧
                    htcb (holder1 sm1) = None)).
  { pose proof (lookup_builtin0 _ _ _ Hsm) as A0.
    pose proof (lookup_builtin1 _ _ _ Hsm) as A1.
    pose proof (lookup_builtin0 _ _ _ Hsm1) as B0.
    pose proof (lookup_builtin1 _ _ _ Hsm1) as B1.
    destruct Hcase as [[Hi H0]|(Hi & H0 & H1)]; rewrite Hi in *.
    - left. split; [done|]. rewrite Hl1 in B0. by injection B0 as <-.
    - right. split; [done|]. split.
      + unfold s1 in B0.
        rewrite lookup_holder_store_ne in B0 by (intros [=]; congruence).
        rewrite A0 in B0. by injection B0 as <-.
      + rewrite Hl1 in B1. by injection B1 as <-. }
  set (s2 := store_holder (Builtin k i) (with_counts 0 (with_counts 0 h)) s1).
  destruct (store_content cfg s1 (Builtin k i) _ (with_counts 0 (with_counts 0 h))
              (Hshape s1) Hp Hl1 eq_refl)
    as (_ & _ & _ & Hsame2 & Hl2 & _).
  fold s2 in Hsame2, Hl2.
  exists i, s1, s2. split_and!; try done.
  - apply (allocholder_slot cfg s k i sm s1 Hp Hsm Hcase).
    by apply write_counts_Ret.
  - by rewrite (entry_htcb_lookup _ _ _ Hl1).
  - by rewrite (entry_counts_lookup _ _ _ Hl1).
  - apply (allocholder_slot cfg s1 k i sm1 s2 Hp Hsm1 Hcase1).
    by apply write_counts_Ret.
  - intros q. destruct (decide (q = Builtin k i)) as [->|Hne].
    + by rewrite (entry_htcb_lookup _ _ _ Hl2), (entry_counts_lookup _ _ _ Hl2),
        (entry_htcb_lookup _ _ _ Hl1), (entry_counts_lookup _ _ _ Hl1).
    + by apply Hsame2.
Qed.

(** *** Walking the holders *)

(** X16: with preallocated holders [nxsem_foreachholder] stops at the
    first nonzero result.  If the handler returns a nonzero value on the
    first entry of the semaphore, that value is the result and the state
    is the one the handler left: no other entry is visited. *)
Theorem X16_foreachholder_pooled_stops
    (handler : holderhandler_t) s k arg p rest r s1 :
  pooled cfg = true → shape_ok cfg s →
  entries cfg s k = p :: rest → live s p →
  handler p k arg s = Ret r s1 → r ≠ 0 →
  nxsem_foreachholder cfg k handler arg s = Ret r s1.
Proof.
  intros Hp Hshape He Hlive Hrun Hr.
  destruct (Hshape Hp) as (fl & ls & Hsh).
  destruct (entries_split_pooled _ _ _ _ _ [] p rest Hp Hsh He)
    as (l1 & i & l2 & Hlk & Hl1 & -> & ->).
  symmetry in Hl1. apply fmap_nil_inv in Hl1 as ->. simpl in Hlk.
  destruct (pool_shape_sem _ _ _ _ _ _ Hsh Hlk) as (sm & Hsm & Hc).
  apply lseg_cons_inv in Hc as (Hhd & h & Hh & Hc').
  assert (Hl : lookup_holder (Prealloc i) s = Some h) by done.
  unfold nxsem_foreachholder. rewrite Hp.
  rewrite (bind_Ret _ _ _ _ _ (read_hhead_Ret _ _ _ Hsm)). rewrite Hhd.
  unfold list_fuel. cbn [foreachholder_list]. rewrite Z.eqb_refl.
  rewrite (bind_Ret _ _ _ _ _ (read_flink_Ret _ _ _ Hl)).
  rewrite (bind_Ret _ _ _ _ _ (read_htcb_Ret _ _ _ Hl)).
  unfold live in Hlive. rewrite (entry_htcb_lookup _ _ _ Hl) in Hlive.
  rewrite bool_decide_eq_true_2 by done.
  rewrite (bind_Ret _ _ _ _ _ Hrun).
  by apply foreachholder_list_stops.
Qed.

(** *** Taking and giving back counts *)

Lemma same_entries_except_trans p s1 s2 s3 :
  same_entries_except p s1 s2 → same_entries_except p s2 s3 →
  same_entries_except p s1 s3.
Proof.
  intros H12 H23 q Hq. destruct (H23 q Hq) as [-> ->]. by apply H12.
Qed.

(** Two stores to the content of [p]. *)
Lemma take_entry_post s p h t :
  shape_ok cfg s → ptr_ok cfg p → lookup_holder p s = Some h →
  ∃ s', (do* write_htcb p (Some t) in
         let* c := read_counts p in
         write_counts p (wrap16 (c + 1))) s = Ret tt s' ∧
        shape_ok cfg s' ∧
        (∀ k, entries cfg s' k = entries cfg s k) ∧
        same_entries_except p s s' ∧
        entry_htcb s' p = Some t ∧
        entry_counts s' p = wrap16 (counts h + 1) ∧
        store_frame s s' ∧ trace s' = trace s.
Proof.
  intros Hshape Hptr Hl.
  eexists. split; [by apply take_entry|].
  set (h1 := with_htcb (Some t) h).
  set (s1 := store_holder p h1 s).
  destruct (store_content cfg s p h h1 Hshape Hptr Hl eq_refl)
    as (Hshape1 & _ & Hent1 & Hsame1 & Hl1 & Hfr1).
  fold s1 in Hshape1, Hent1, Hsame1, Hl1, Hfr1.
  set (h2 := with_counts (wrap16 (counts h + 1)) h1).
  destruct (store_content cfg s1 p h1 h2 Hshape1 Hptr Hl1 eq_refl)
    as (Hshape2 & _ & Hent2 & Hsame2 & Hl2 & Hfr2).
  split_and!; try done.
  - intros k. by rewrite Hent2, Hent1.
  - by eapply same_entries_except_trans.
  - by rewrite (entry_htcb_lookup _ _ _ Hl2).
  - by rewrite (entry_counts_lookup _ _ _ Hl2).
  - by eapply store_frame_trans.
  - unfold s1. by rewrite !trace_store_holder.
Qed.

(** What [nxsem_add_holder_tcb] does when it finds or gets an entry. *)
Lemma add_holder_tcb_post s k t sm :
  wf cfg s → sems s !! k = Some sm →
  Z.land (flags sm) PRIOINHERIT_FLAGS_DISABLE = 0 →
  ¬ (find_entry cfg s k (Some t) = None ∧ store_full cfg s k) →
  ∃ s' p,
    nxsem_add_holder_tcb cfg (Some t) k s = Ret tt s' ∧
    wf cfg s' ∧ store_frame s s' ∧ trace s' = trace s ∧
    p ∈ entries cfg s' k ∧
    entry_htcb s' p = Some t ∧
    entry_counts s' p
      = wrap16 (match find_entry cfg s k (Some t) with
                | Some q => entry_counts s q
                | None => 0
                end + 1) ∧
    (∀ q, find_entry cfg s k (Some t) = Some q → p = q) ∧
    same_entries_except p s s'.
Proof.
  intros Hwf Hsm Hflags Hroom.
  pose proof (wf_shape_ok _ _ Hwf) as Hshape.
  assert (Hkeep : ∀ s', nxsem_add_holder_tcb cfg (Some t) k s = Ret tt s' →
            wf cfg s').
  { intros s' Hrun.
    destruct (add_holder_tcb_spec cfg s k t Hwf (ex_intro _ sm Hsm))
      as [(s'' & Hrun' & Hwf')|(_ & _ & Hrun')]; congruence. }
  assert (Hrun : nxsem_add_holder_tcb cfg (Some t) k s =
            (let* pholder :=
               match find_entry cfg s k (Some t) with
               | Some q => ret (Some q)
               | None => nxsem_allocholder cfg k
               end in
             match pholder with
             | Some p =>
                 do* write_htcb p (Some t) in
                 let* c := read_counts p in
                 write_counts p (wrap16 (c + 1))
             | None => ret tt
             end) s).
  { unfold nxsem_add_holder_tcb.
    rewrite (bind_Ret _ _ _ _ _ (get_sem_Ret _ _ _ Hsm)).
    rewrite Hflags. simpl. unfold nxsem_findorallocateholder.
    mstep (findholder_spec cfg s k (Some t) Hshape (ex_intro _ sm Hsm)).
    by destruct (find_entry cfg s k (Some t)). }
  destruct (find_entry cfg s k (Some t)) as [q|] eqn:Hfind.
  - (* the thread has an entry *)
    pose proof Hfind as [Hin Ht]%find_entry_Some.
    destruct (entries_lookup cfg s k q Hshape Hin) as [h Hl].
    destruct (take_entry_post s q h t Hshape (entries_ptr_ok _ _ _ _ Hin) Hl)
      as (s' & Htake & _ & Hent & Hsame & Hh & Hc & Hfr & Htr).
    assert (Hrun' : nxsem_add_holder_tcb cfg (Some t) k s = Ret tt s').
    { rewrite Hrun.
      by rewrite (bind_Ret _ _ _ _ _ (eq_refl : ret (Some q) s = Ret (Some q) s)). }
    exists s', q. split_and!; try done.
    + by apply Hkeep.
    + by rewrite Hent.
    + by rewrite Hc, (entry_counts_lookup _ _ _ Hl).
    + by intros ? [= <-].
  - (* a new entry *)
    assert (pooled cfg = true ∨ pooled cfg = false) as [Hp|Hp]
      by (destruct (pooled cfg); auto).
    + destruct (g_freeholders s) as [i|] eqn:Hfree.
      2:{ exfalso. apply Hroom. split; [done|]. unfold store_full.
          rewrite Hp. eauto. }
      destruct (sw_pool _ _ (proj1 Hwf) Hp) as (fl0 & ls & Hsh & _ & _).
      pose proof (ps_free _ _ _ _ Hsh) as Hc. rewrite Hfree in Hc.
      destruct fl0 as [|i' fl]; [by apply lseg_head in Hc|].
      pose proof (lseg_head _ _ _ _ Hc) as Hhd. simpl in Hhd.
      injection Hhd as <-.
      destruct (pool_shape_sem_l _ _ _ _ _ _ Hsh Hsm) as (lk & Hlk & _).
      destruct (allocholder_pool cfg s fl ls k lk i Hp Hsh Hlk)
        as (s1 & h1 & Halloc & Hsh1 & Hsame1 & Hl1 & _ & Hc1 & Hfr1 & Htr1).
      assert (Hshape1 : shape_ok cfg s1) by (intros _; eauto).
      destruct (take_entry_post s1 (Prealloc i) h1 t Hshape1 Hp Hl1)
        as (s' & Htake & _ & Hent & Hsame & Hh & Hc' & Hfr & Htr).
      assert (Hrun' : nxsem_add_holder_tcb cfg (Some t) k s = Ret tt s').
      { rewrite Hrun. by rewrite (bind_Ret _ _ _ _ _ Halloc). }
      exists s', (Prealloc i). split_and!; try done.
      * by apply Hkeep.
      * by eapply store_frame_trans.
      * congruence.
      * rewrite Hent.
        rewrite (entries_pooled _ _ _ _ _ (i :: lk) Hp Hsh1);
          [apply elem_of_cons; by left|].
        apply list_lookup_insert_eq. by eapply lookup_lt_Some.
      * by rewrite Hc', Hc1.
      * by eapply same_entries_except_trans.
    + assert (∃ i h, lookup_holder (Builtin k i) s = Some h ∧ htcb h = None ∧
                ((i = 0%nat ∧ htcb (holder0 sm) = None) ∨
                 (i = 1%nat ∧ htcb (holder0 sm) ≠ None ∧
                  htcb (holder1 sm) = None))) as (i & h & Hl & Hdead & Hcase).
      { destruct (decide (htcb (holder0 sm) = None)) as [H0|H0].
        { exists 0%nat, (holder0 sm). split; [by apply lookup_builtin0|]. auto. }
        destruct (decide (htcb (holder1 sm) = None)) as [H1|H1].
        { exists 1%nat, (holder1 sm). split; [by apply lookup_builtin1|]. auto. }
        exfalso. apply Hroom. split; [done|]. unfold store_full.
        rewrite Hp. eauto. }
      set (s1 := store_holder (Builtin k i) (with_counts 0 h) s).
      destruct (store_content cfg s (Builtin k i) h (with_counts 0 h)
                  Hshape Hp Hl eq_refl)
        as (Hshape1 & _ & Hent1 & Hsame1 & Hl1 & Hfr1).
      fold s1 in Hshape1, Hent1, Hsame1, Hl1, Hfr1.
      pose proof (allocholder_slot cfg s k i sm s1 Hp Hsm Hcase
                    (write_counts_Ret _ _ _ 0 Hl)) as Halloc.
      destruct (take_entry_post s1 (Builtin k i) _ t Hshape1 Hp Hl1)
        as (s' & Htake & _ & Hent & Hsame & Hh & Hc' & Hfr & Htr).
      assert (Hrun' : nxsem_add_holder_tcb cfg (Some t) k s = Ret tt s').
      { rewrite Hrun. by rewrite (bind_Ret _ _ _ _ _ Halloc). }
      exists s', (Builtin k i). split_and!; try done.
      * by apply Hkeep.
      * by eapply store_frame_trans.
      * rewrite Htr. unfold s1. by rewrite trace_store_holder.
      * rewrite Hent, Hent1, (entries_builtin _ _ _ _ Hp Hsm).
        destruct Hcase as [[-> _]|[-> _]]; rewrite !elem_of_cons; auto.
      * by eapply same_entries_except_trans.
Qed.

Lemma wrap16_small z : -32768 ≤ z ≤ 32767 → wrap16 z = z.
Proof. intros Hz. unfold wrap16. rewrite Z.mod_small; lia. Qed.

Lemma find_entry_of_holder s k p t :
  store_wf cfg s → p ∈ entries cfg s k → entry_htcb s p = Some t →
  nxsem_findholder cfg k (Some t) s = Ret (Some p) s.
Proof.
  intros Hwf Hin Ht.
  rewrite (findholder_spec cfg s k _ (store_wf_shape_ok _ _ Hwf)
             (entries_valid_sem _ _ _ _ Hin)).
  rewrite <- Ht. rewrite (find_entry_holder cfg s k p Hwf Hin); [done|].
  unfold live. by rewrite Ht.
Qed.

(** X6: [nxsem_add_holder_tcb] and then [nxsem_findholder].  When the
    flag PRIOINHERIT_FLAGS_DISABLE of the semaphore is set the call
    changes nothing.  Otherwise, when the thread has an entry or the store
    has room, the call returns and [nxsem_findholder] then finds an entry
    of the thread: the one it had, if any; its counts are the old counts
    (0 for a new entry) plus one, as an int16_t; every other entry keeps
    its content and the scheduler's state is untouched. *)
Theorem X6_add_holder_then_find s k t sm :
  wf cfg s → sems s !! k = Some sm →
  (Z.land (flags sm) PRIOINHERIT_FLAGS_DISABLE ≠ 0 →
   nxsem_add_holder_tcb cfg (Some t) k s = Ret tt s) ∧
  (Z.land (flags sm) PRIOINHERIT_FLAGS_DISABLE = 0 →
   ¬ (find_entry cfg s k (Some t) = None ∧ store_full cfg s k) →
   ∃ s' p,
     nxsem_add_holder_tcb cfg (Some t) k s = Ret tt s' ∧
     wf cfg s' ∧
     nxsem_findholder cfg k (Some t) s' = Ret (Some p) s' ∧
     entry_counts s' p
       = wrap16 (match find_entry cfg s k (Some t) with
                 | Some q => entry_counts s q
                 | None => 0
                 end + 1) ∧
     (∀ q, find_entry cfg s k (Some t) = Some q → p = q) ∧
     (∀ q, q ≠ p → entry_htcb s' q = entry_htcb s q ∧
                   entry_counts s' q = entry_counts s q) ∧
     tcbs s' = tcbs s ∧ trace s' = trace s).
Proof.
  intros Hwf Hsm. split.
  - intros Hflags. unfold nxsem_add_holder_tcb.
    rewrite (bind_Ret _ _ _ _ _ (get_sem_Ret _ _ _ Hsm)).
    by rewrite (proj2 (Z.eqb_neq _ _) Hflags).
  - intros Hflags Hroom.
    destruct (add_holder_tcb_post s k t sm Hwf Hsm Hflags Hroom)
      as (s' & p & Hrun & Hwf' & Hfr & Htr & Hin & Hh & Hc & Hq & Hsame).
    exists s', p. split_and!; try done.
    + by apply find_entry_of_holder; [destruct Hwf'| |].
    + by destruct Hfr.
Qed.

(** X7: a count taken and given back.  When the running thread takes a
    count with [nxsem_add_holder] and gives it back with
    [nxsem_release_holder], its entry has the counts it had before (0 if
    it had no entry), provided these were between 0 and INT16_MAX - 1:
    the entry of a thread that held nothing before stays in the store,
    with its [htcb] set and counts 0. *)
Theorem X7_add_then_release s k sm r :
  wf cfg s → sems s !! k = Some sm →
  Z.land (flags sm) PRIOINHERIT_FLAGS_DISABLE = 0 →
  g_running s = Some r →
  ¬ (find_entry cfg s k (Some r) = None ∧ store_full cfg s k) →
  0 ≤ match find_entry cfg s k (Some r) with
      | Some q => entry_counts s q
      | None => 0
      end < INT16_MAX →
  ∃ s1 s2 p,
    nxsem_add_holder cfg k s = Ret tt s1 ∧
    nxsem_release_holder cfg k s1 = Ret tt s2 ∧
    nxsem_findholder cfg k (Some r) s2 = Ret (Some p) s2 ∧
    entry_htcb s2 p = Some r ∧
    entry_counts s2 p = match find_entry cfg s k (Some r) with
                        | Some q => entry_counts s q
                        | None => 0
                        end.
Proof.
  intros Hwf Hsm Hflags Hr Hroom Hrange.
  destruct (add_holder_tcb_post s k r sm Hwf Hsm Hflags Hroom)
    as (s1 & p & Hrun & Hwf1 & Hfr & _ & Hin & Hh & Hc & _ & _).
  set (c := match find_entry cfg s k (Some r) with
            | Some q => entry_counts s q
            | None => 0
            end) in *.
  unfold INT16_MAX in Hrange.
  rewrite wrap16_small in Hc by lia.
  assert (Hr1 : g_running s1 = Some r) by (destruct Hfr; congruence).
  assert (Hfind1 : find_entry cfg s1 k (Some r) = Some p).
  { rewrite <- Hh. apply find_entry_holder; [by destruct Hwf1|done|].
    unfold live. by rewrite Hh. }
  destruct (release_holder_keeps_entry cfg s1 k r p Hwf1 Hr1 Hfind1)
    as (s2 & Hrel & Hh2 & [Hin2 _]%holders_subset & Hc2).
  assert (Hk1 : is_Some (sems s1 !! k)) by (by eapply entries_valid_sem).
  destruct (release_holder_spec cfg s1 k Hwf1 Hk1) as (s2' & Hrel' & Hwf2).
  assert (s2' = s2) as -> by congruence.
  exists s1, s2, p. split_and!; try done.
  - unfold nxsem_add_holder, this_task.
    unfold gets at 1. unfold bind at 1. by rewrite Hr.
  - by apply find_entry_of_holder; [destruct Hwf2| |].
  - rewrite Hc2, Hc.
    replace (0 <? c + 1) with true by (symmetry; apply Z.ltb_lt; lia).
    rewrite wrap16_small by lia. lia.
Qed.

(** X8: [nxsem_release_holder] touches one field.  It returns and changes
    nothing but the counts of the entry of the running thread on this
    semaphore: the lists, the [htcb] of every entry, the holders of every
    semaphore, the scheduler's state and the log are the same, and so are
    the counts of every entry of another thread and of every entry with
    counts 0 or less.  It changes nothing at all when the running thread
    has no entry on the semaphore. *)
Theorem X8_release_holder_frame s k :
  wf cfg s → is_Some (sems s !! k) →
  ∃ s', nxsem_release_holder cfg k s = Ret tt s' ∧
        tcbs s' = tcbs s ∧ g_running s' = g_running s ∧
        trace s' = trace s ∧
        (∀ k', entries cfg s' k' = entries cfg s k') ∧
        (∀ k', holders cfg s' k' = holders cfg s k') ∧
        (∀ q, entry_htcb s' q = entry_htcb s q) ∧
        (∀ q, find_entry cfg s k (g_running s) ≠ Some q →
              entry_counts s' q = entry_counts s q) ∧
        (∀ q, entry_counts s q ≤ 0 → entry_counts s' q = entry_counts s q) ∧
        (find_entry cfg s k (g_running s) = None → s' = s).
Proof.
  intros Hwf Hk.
  pose proof (wf_shape_ok _ _ Hwf) as Hshape.
  unfold nxsem_release_holder, this_task.
  unfold gets at 1. unfold bind at 1.
  mstep (findholder_spec cfg s k (g_running s) Hshape Hk).
  destruct (find_entry cfg s k (g_running s)) as [p|] eqn:Hfind.
  2:{ exists s. by split_and!. }
  pose proof Hfind as [Hin Ht]%find_entry_Some.
  destruct (entries_lookup cfg s k p Hshape Hin) as [h Hl].
  mstep (read_counts_Ret _ _ _ Hl).
  destruct (0 <? counts h) eqn:Hpos.
  2:{ exists s. by split_and!. }
  apply Z.ltb_lt in Hpos.
  eexists. split; [by apply write_counts_Ret|].
  destruct (store_content cfg s p h (with_counts (wrap16 (counts h - 1)) h)
              Hshape (entries_ptr_ok _ _ _ _ Hin) Hl eq_refl)
    as (_ & _ & Hent & Hsame & Hl' & Hfr).
  assert (Hhtcb : ∀ q, entry_htcb (store_holder p
                         (with_counts (wrap16 (counts h - 1)) h) s) q
                       = entry_htcb s q).
  { intros q. destruct (decide (q = p)) as [->|Hne]; [|by apply Hsame].
    by rewrite (entry_htcb_lookup _ _ _ Hl'), (entry_htcb_lookup _ _ _ Hl). }
  split_and!; try done.
  - by destruct Hfr.
  - by destruct Hfr.
  - apply trace_store_holder.
  - intros k'. by apply holders_unchanged.
  - intros q Hq. apply Hsame. congruence.
  - intros q Hq. destruct (decide (q = p)) as [->|Hne]; [|by apply Hsame].
    rewrite (entry_counts_lookup _ _ _ Hl) in Hq. lia.
Qed.

(** X15: [nxsem_findandfreeholder] frees an entry without counts only.
    It returns and keeps the invariant of the store and the scheduler's
    state.  If the thread has an entry with counts 0 or less, that entry
    is freed and [nxsem_findholder] no longer finds the thread; if the
    thread has an entry with counts, or none, the state is unchanged. *)
Theorem X15_findandfreeholder s k t :
  store_wf cfg s → is_Some (sems s !! k) →
  ∃ s', nxsem_findandfreeholder cfg k (Some t) s = Ret tt s' ∧
        store_wf cfg s' ∧ tcbs s' = tcbs s ∧
        match find_entry cfg s k (Some t) with
        | Some p =>
            if entry_counts s p <=? 0
            then entry_htcb s' p = None ∧ entry_counts s' p = 0 ∧
                 nxsem_findholder cfg k (Some t) s' = Ret None s' ∧
                 trace s' = trace s ++ [EvFree k p]
            else s' = s
        | None => s' = s
        end.
Proof.
  intros Hwf Hk. pose proof (store_wf_shape_ok _ _ Hwf) as Hshape.
  rewrite (findandfreeholder_spec cfg s k _ Hshape Hk).
  destruct (find_entry cfg s k (Some t)) as [p|] eqn:Hf; [|by exists s].
  destruct (entry_counts s p <=? 0) eqn:Hc; [|by exists s].
  pose proof Hf as [Hin Hh]%find_entry_Some.
  pose proof Hin as Hin'.
  apply list_elem_of_split in Hin' as (pre & rest & He).
  destruct (freeholder_spec cfg s k pre p rest Hwf He)
    as (s' & Hrun' & Hst' & He' & Heo & Hsame & Hh' & Hc' & Hfr & Htr').
  exists s'. split_and!; try done; [by destruct Hfr|].
  rewrite (findholder_spec cfg s' k _ (store_wf_shape_ok _ _ Hst')
             (store_frame_valid _ _ _ Hfr Hk)).
  destruct (find_entry cfg s' k (Some t)) as [q|] eqn:Hq; [|done].
  exfalso. apply find_entry_Some in Hq as [Hqin Hqh].
  assert (Hne : q ≠ p) by (intros ->; congruence).
  destruct (Hsame q Hne) as [Hqh' _].
  assert (Hqin' : q ∈ entries cfg s k).
  { rewrite He' in Hqin. rewrite He.
    rewrite !elem_of_app, ?elem_of_cons in *.
    destruct (pooled cfg); rewrite ?elem_of_app in Hqin;
      rewrite ?list_elem_of_singleton in Hqin; naive_solver. }
  apply Hne. symmetry.
  apply (entries_uniq cfg s k p q Hwf Hin Hqin').
  - unfold live. by rewrite Hh.
  - congruence.
Qed.

(** *** Counting the free list *)

Lemma nfreeholders_loop_chain s l : ∀ fuel p n,
  chain (g_holderalloc s) p l → (length l ≤ fuel)%nat →
  nfreeholders_loop fuel p n s = Ret (n + Z.of_nat (length l)) s.
Proof.
  unfold chain. induction l as [|i l IH]; intros fuel p n Hc Hfuel.
  - apply lseg_head in Hc as ->. simpl.
    destruct fuel; simpl; unfold ret; f_equal; lia.
  - apply lseg_cons_inv in Hc as (-> & h & Hi & Hc).
    destruct fuel as [|fuel]; simpl in Hfuel; [lia|]. simpl.
    assert (Hl : lookup_holder (Prealloc i) s = Some h) by done.
    rewrite (bind_Ret _ _ _ _ _ (read_flink_Ret _ _ _ Hl)).
    rewrite (IH fuel (flink h) (n + 1) Hc) by lia.
    f_equal. lia.
Qed.

(** X9: [nxsem_nfreeholders] counts the nodes no semaphore uses.  On a
    well-formed store the call returns without changing the state; with
    preallocated holders its result is the length of the free list, and
    with the holders of all the semaphores it adds up to
    CONFIG_SEM_PREALLOCHOLDERS; with built-in holders it is 0. *)
Theorem X9_nfreeholders_counts s :
  store_wf cfg s →
  ∃ n, nxsem_nfreeholders cfg s = Ret n s ∧
       (pooled cfg = true →
          n = Z.of_nat (length (free_nodes cfg s)) ∧
          n + Z.of_nat (length (all_holders cfg s)) = Z.of_nat NPOOL) ∧
       (pooled cfg = false → n = 0).
Proof.
  intros Hwf. unfold nxsem_nfreeholders.
  destruct (pooled cfg) eqn:Hp; [|by exists 0].
  destruct (sw_pool _ _ Hwf Hp) as (fl & ls & Hsh & _ & _).
  exists (Z.of_nat (length fl)). split_and!; [|intros _|done].
  - unfold gets at 1. unfold bind at 1.
    rewrite (nfreeholders_loop_chain s fl); [done|by destruct Hsh|].
    pose proof (pool_shape_length_free _ _ _ _ Hsh). unfold list_fuel. lia.
  - rewrite (free_nodes_shape _ _ _ _ Hsh). split; [done|].
    rewrite (all_holders_pooled cfg s fl ls Hp Hwf Hsh), length_fmap.
    pose proof (ps_perm _ _ _ _ Hsh) as Hperm.
    apply Permutation_length in Hperm.
    rewrite length_app, length_seq in Hperm. lia.
Qed.

(** X10: the whole pool is free after [nxsem_initialize_holders].  With
    preallocated holders and a pool of CONFIG_SEM_PREALLOCHOLDERS nodes,
    whatever the nodes held before, [nxsem_initialize_holders] followed by
    [nxsem_nfreeholders] returns CONFIG_SEM_PREALLOCHOLDERS. *)
Theorem X10_initialize_then_nfreeholders s0 :
  pooled cfg = true → length (g_holderalloc s0) = NPOOL →
  ∃ s1, nxsem_initialize_holders cfg s0 = Ret tt s1 ∧
        nxsem_nfreeholders cfg s1 = Ret (Z.of_nat NPOOL) s1.
Proof.
  intros Hp Hlen.
  destruct (initialize_holders_chain cfg s0 Hp Hlen) as (s1 & Hinit & _ & Hc).
  exists s1. split; [done|].
  unfold nxsem_nfreeholders. rewrite Hp.
  unfold gets at 1. unfold bind at 1.
  rewrite (nfreeholders_loop_chain s1 _ _ _ 0 Hc).
  - by rewrite length_seq.
  - rewrite length_seq. unfold list_fuel. lia.
Qed.

(** *** One boost, one restore *)

(** X11: the restore without nested priorities.  With
    CONFIG_SEM_NNESTPRIO equal to 0, [nxsem_restoreholderprio] on a live
    thread returns 0 and leaves the holder store as it is; the thread ends
    at its base priority, by one call of [nxsched_reprioritize] exactly
    when its scheduling priority differs from it, whatever counts it still
    holds on this or another semaphore; no other thread changes. *)
Theorem X11_restore_without_nesting s k t v arg :
  nested cfg = false → shape_ok cfg s → is_Some (sems s !! k) →
  tcbs s !! t = Some v →
  ∃ s' v',
    nxsem_restoreholderprio cfg (Some t) k arg s = Ret 0 s' ∧
    same_store s s' ∧
    tcbs s' !! t = Some v' ∧
    sched_priority v' = base_priority v ∧
    base_priority v' = base_priority v ∧
    sem_boosts v' = sem_boosts v ∧
    (∀ t', t' ≠ t → tcbs s' !! t' = tcbs s !! t') ∧
    trace s' = trace s ++ EvRestore (Some t) k ::
                 (if bool_decide (sched_priority v = base_priority v) then []
                  else [EvReprioritize (Some t) (base_priority v)]).
Proof.
  intros Hn Hshape Hk Hv.
  rewrite (restoreholderprio_live cfg s k t v arg Hshape Hk Hv).
  unfold restore_tcb. rewrite Hn.
  destruct (decide (sched_priority v = base_priority v)) as [He|Hne].
  - rewrite bool_decide_eq_false_2 by tauto.
    rewrite bool_decide_eq_true_2 by done.
    eexists _, v. split; [done|]. cbn [fst snd].
    split_and!; try done.
    + apply lookup_insert_eq.
    + intros t' Hne. simpl. by rewrite lookup_insert_ne.
  - rewrite bool_decide_eq_true_2 by done.
    rewrite bool_decide_eq_false_2 by done.
    eexists _, (with_base_priority (base_priority v)
                  (with_sched_priority (base_priority v) v)).
    split; [done|]. cbn [fst snd].
    split_and!; try done.
    + apply lookup_insert_eq.
    + intros t' Hne'. simpl. by rewrite lookup_insert_ne.
Qed.

(** X12: the restore of a thread that is gone.  On a handle the scheduler
    reports stale, [nxsem_restoreholderprio] returns 0 after the warning;
    it frees the entry [nxsem_findholder] returns for the handle, if any,
    and changes nothing else: no thread's priority is touched and the
    invariant of the store is kept. *)
Theorem X12_restore_stale_handle s k ht arg :
  store_wf cfg s → is_Some (sems s !! k) → lookup_tcb ht s = None →
  ∃ s',
    nxsem_restoreholderprio cfg ht k arg s = Ret 0 s' ∧
    store_wf cfg s' ∧ tcbs s' = tcbs s ∧
    match find_entry cfg s k ht with
    | Some p =>
        trace s' = trace s ++ [EvRestore ht k; EvLog (WarnStaleHandle ht);
                               EvFree k p] ∧
        entry_htcb s' p = None ∧ entry_counts s' p = 0 ∧
        p ∉ holders cfg s' k ∧
        same_entries_except p s s'
    | None =>
        same_store s s' ∧
        trace s' = trace s ++ [EvRestore ht k; EvLog (WarnStaleHandle ht)]
    end.
Proof.
  intros Hwf Hk Hstale.
  pose proof (store_wf_shape_ok _ _ Hwf) as Hshape.
  rewrite (restoreholderprio_stale cfg s k ht arg Hshape Hk Hstale).
  set (s1 := log_event _ (log_event _ s)).
  assert (Hss : same_store s s1) by done.
  assert (Htr1 : trace s1 = trace s ++ [EvRestore ht k; EvLog (WarnStaleHandle ht)]).
  { unfold s1. simpl. by rewrite <- (assoc (++)). }
  destruct (find_entry cfg s k ht) as [p|] eqn:Hf.
  2:{ exists s1. split_and!; try done. by apply (same_store_wf cfg s). }
  apply find_entry_Some in Hf as [Hin _].
  rewrite <- (same_store_entries cfg s s1 k Hss) in Hin.
  apply list_elem_of_split in Hin as (pre & rest & He).
  destruct (freeholder_spec cfg s1 k pre p rest (same_store_wf cfg _ _ Hss Hwf) He)
    as (s' & Hrun & Hwf' & _ & _ & Hsame & Hh & Hc & Hfr & Htr).
  exists s'. split_and!; try done.
  - unfold bind. by rewrite Hrun.
  - by destruct Hfr.
  - rewrite Htr, Htr1. by rewrite <- (assoc (++)).
  - by apply not_holder_dead.
Qed.

(** X13: a boost that finds the ledger full.  With nested priorities,
    when the waiter runs above the base priority of a live holder whose
    ledger already has CONFIG_SEM_NNESTPRIO records,
    [nxsem_boostholderprio] logs the error and returns 0 with nothing else
    changed: the holder is not raised, even when it runs below the
    waiter. *)
Theorem X13_boost_ledger_full s p k r h t v vr :
  nested cfg = true →
  lookup_holder p s = Some h → htcb h = Some t →
  tcbs s !! t = Some v → lookup_tcb r s = Some vr →
  (base_priority v < sched_priority vr)%N →
  (CONFIG_SEM_NNESTPRIO cfg ≤ length (sem_boosts v))%nat →
  nxsem_boostholderprio cfg p k r s
    = Ret 0 (log_event (EvLog (ErrOutOfBoostSlots (Some t))) s).
Proof.
  intros Hn Hl Ht Hv Hr Hlt Hfull.
  rewrite (boostholderprio_live cfg s p k r h t v vr Hl Ht Hv Hr).
  unfold boost_tcb. rewrite Hn.
  rewrite (proj2 (N.ltb_lt _ _) Hlt).
  rewrite bool_decide_eq_false_2 by lia. cbn [fst snd].
  unfold log_event, set_trace, sched_update. by rewrite insert_id.
Qed.

Lemma max_boost_search_last k rp l : ∀ (i mi : Z) (mp : N),
  (mp < rp)%N → (∀ b, b ∈ l → (boost_priority b < rp)%N) →
  max_boost_search k (l ++ [SemBoost k rp]) i mi mp = i + Z.of_nat (length l).
Proof.
  induction l as [|b l IH]; intros i mi mp Hmp Hl; simpl.
  - rewrite bool_decide_eq_true_2 by done.
    rewrite (proj2 (N.ltb_lt _ _) Hmp). lia.
  - assert (Hb : (boost_priority b < rp)%N) by (apply Hl; left).
    assert (Hl' : ∀ b', b' ∈ l → (boost_priority b' < rp)%N)
      by (intros b' Hb'; apply Hl; by right).
    destruct (bool_decide (boost_sem b = k));
      [destruct (mp <? boost_priority b)%N|];
      rewrite IH by done; lia.
Qed.

Lemma highest_priority_bound base l b :
  b ∈ l → (boost_priority b ≤ highest_priority base l)%N.
Proof.
  unfold highest_priority. induction 1 as [b l|b c l _ IH]; simpl; lia.
Qed.

Lemma highest_priority_base base l : (base ≤ highest_priority base l)%N.
Proof. unfold highest_priority. induction l; simpl; lia. Qed.

(** X14: a boost undone by the restore.  With nested priorities, take a
    live holder that still has counts on the semaphore, whose scheduling
    priority is the highest of its base priority and its ledger and whose
    ledger has room, and a waiter that runs strictly above it.
    [nxsem_boostholderprio] appends the record of the waiter and raises
    the holder to the waiter's priority; [nxsem_restoreholderprio] then
    removes that very record and puts the holder back at its former
    priority: the table of threads is what it was before the boost. *)
Theorem X14_boost_then_restore s p k r t v vr arg :
  nested cfg = true → store_wf cfg s →
  p ∈ entries cfg s k → entry_htcb s p = Some t → entry_counts s p ≠ 0 →
  tcbs s !! t = Some v → lookup_tcb r s = Some vr →
  sched_priority v = highest_priority (base_priority v) (sem_boosts v) →
  (sched_priority v < sched_priority vr)%N →
  (length (sem_boosts v) < CONFIG_SEM_NNESTPRIO cfg)%nat →
  ∃ s1 s2,
    nxsem_boostholderprio cfg p k r s = Ret 0 s1 ∧
    tcbs s1 !! t
      = Some (with_sched_priority (sched_priority vr)
                (with_sem_boosts
                   (sem_boosts v ++ [SemBoost k (sched_priority vr)]) v)) ∧
    nxsem_restoreholderprio cfg (Some t) k arg s1 = Ret 0 s2 ∧
    tcbs s2 = tcbs s ∧
    same_store s s2 ∧
    trace s2 = trace s ++ [EvSetPriority (Some t) (sched_priority vr);
                           EvRestore (Some t) k;
                           EvSetPriority (Some t) (sched_priority v)].
Proof.
  intros Hn Hwf Hin Hh Hc Hv Hr Hinv Hlt Hroom.
  pose proof (store_wf_shape_ok _ _ Hwf) as Hshape.
  destruct (entries_lookup cfg s k p Hshape Hin) as [h Hl].
  assert (Hht : htcb h = Some t)
    by (by rewrite <- (entry_htcb_lookup _ _ _ Hl)).
  pose proof (highest_priority_base (base_priority v) (sem_boosts v)) as Hbase.
  set (rp := sched_priority vr) in *.
  set (v1 := with_sched_priority rp
               (with_sem_boosts (sem_boosts v ++ [SemBoost k rp]) v)).
  assert (Hboost : boost_tcb cfg k (Some t) rp v = (v1, [EvSetPriority (Some t) rp])).
  { unfold boost_tcb. rewrite Hn.
    replace (base_priority v <? rp)%N with true
      by (symmetry; apply N.ltb_lt; lia).
    rewrite bool_decide_eq_true_2 by done.
    by rewrite (proj2 (N.ltb_lt _ _) Hlt). }
  pose proof (boostholderprio_live cfg s p k r h t v vr Hl Hht Hv Hr) as Hrun1.
  fold rp in Hrun1. rewrite Hboost in Hrun1. cbn [fst snd] in Hrun1.
  set (s1 := sched_update _ _ s) in Hrun1.
  assert (Hss : same_store s s1) by apply same_store_sched_update.
  assert (Hv1 : tcbs s1 !! t = Some v1) by apply lookup_insert_eq.
  assert (Hk : is_Some (sems s !! k)) by (by eapply entries_valid_sem).
  assert (Hrel : released cfg s1 k (Some t) = false).
  { unfold released. rewrite (same_store_find_entry cfg s s1 k _ Hss).
    rewrite <- Hh. rewrite (find_entry_holder cfg s k p Hwf Hin)
      by (unfold live; by rewrite Hh).
    rewrite (same_store_entry_counts _ _ _ Hss). by apply Z.eqb_neq. }
  assert (Hsearch : max_boost_search k (sem_boosts v ++ [SemBoost k rp]) 0 (-1) 0
                    = Z.of_nat (length (sem_boosts v))).
  { rewrite max_boost_search_last; [lia|lia|].
    intros b Hb.
    pose proof (highest_priority_bound (base_priority v) _ _ Hb). lia. }
  assert (Hrestore : restore_tcb cfg k (Some t) false v1
                     = (v, [EvSetPriority (Some t) (sched_priority v)])).
  { unfold restore_tcb. rewrite Hn.
    change (sched_priority v1) with rp.
    change (base_priority v1) with (base_priority v).
    change (sem_boosts v1) with (sem_boosts v ++ [SemBoost k rp]).
    rewrite bool_decide_eq_true_2 by lia.
    unfold restore_boosts. rewrite Hsearch.
    replace (0 <=? Z.of_nat (length (sem_boosts v))) with true
      by (symmetry; apply Z.leb_le; lia).
    rewrite Nat2Z.id, boost_remove_app. cbn [rotate_last last].
    rewrite app_nil_r. cbv zeta.
    rewrite max_priority_highest, <- Hinv.
    rewrite bool_decide_eq_true_2 by lia.
    by destruct v. }
  pose proof (restoreholderprio_live cfg s1 k t v1 arg
                (same_store_shape_ok _ _ _ Hss Hshape)
                Hk Hv1) as Hrun2.
  rewrite Hrel, Hrestore in Hrun2. cbn [fst snd] in Hrun2.
  eexists s1, _. split_and!; [done|done|exact Hrun2| | |].
  - simpl. rewrite insert_insert_eq. by apply insert_id.
  - eapply same_store_trans; [exact Hss|]. apply same_store_sched_update.
  - simpl. by rewrite <- (assoc (++)).
Qed.

(** *** The restore of every holder *)

(** The thread behind an entry is known to the scheduler. *)
Definition alive (s : kstate) (q : holder_ptr) : Prop :=
  is_Some (lookup_tcb (entry_htcb s q) s).

Lemma restoreholderprio_alive s k ht arg :
  shape_ok cfg s → is_Some (sems s !! k) → is_Some (lookup_tcb ht s) →
  ∃ s', nxsem_restoreholderprio cfg ht k arg s = Ret 0 s' ∧ same_store s s'.
Proof.
  intros Hshape Hk [v Hv]. apply lookup_tcb_Some in Hv as (t & -> & Hv).
  eexists. split; [by apply restoreholderprio_live|].
  apply same_store_sched_update.
Qed.

Section KeepWalk.

Variable s0 : kstate.
Variable k : nat.
Variable arg : tcb_ptr.

(** What the walk of [nxsem_restoreholderprioall] keeps: the entries of
    the threads the scheduler knows; and what it frees: the holders of the
    semaphore whose thread is gone. *)
Definition keep_inv (r : Z) (rest : list holder_ptr) (s : kstate) : Prop :=
  r = 0 ∧ wf cfg s ∧
  (∃ pre, entries cfg s k = pre ++ rest) ∧
  (∀ t, is_Some (tcbs s !! t) ↔ is_Some (tcbs s0 !! t)) ∧
  (∀ q, q ∈ rest → entry_htcb s q = entry_htcb s0 q) ∧
  (∀ q, alive s0 q →
        entry_htcb s q = entry_htcb s0 q ∧
        entry_counts s q = entry_counts s0 q) ∧
  (∀ k' q, q ∈ entries cfg s0 k' → alive s0 q → q ∈ entries cfg s k') ∧
  (∀ q, q ∈ entries cfg s0 k → q ∉ rest → live s0 q → ¬ alive s0 q →
        entry_htcb s q = None ∧ entry_counts s q = 0).

Lemma keep_inv_entries r rest s :
  keep_inv r rest s → shape_ok cfg s ∧ ∃ pre, entries cfg s k = pre ++ rest.
Proof.
  intros (_ & Hwf & He & _). split; [by apply wf_shape_ok|done].
Qed.

Lemma keep_inv_dead r p rest s :
  keep_inv r (p :: rest) s → entry_htcb s p = None → keep_inv r rest s.
Proof.
  intros (Hr & Hwf & [pre He] & Hdom & Hrest & Hkeep & Hent & Hgone) Hdead.
  split_and!; try done.
  - exists (pre ++ [p]). by rewrite <- (assoc (++)).
  - intros q Hq. apply Hrest. apply elem_of_cons. by right.
  - intros q Hq Hnot Hlive Hna. apply Hgone; try done.
    intros [->|Hin]%elem_of_cons; [|done].
    unfold live in Hlive.
    rewrite (Hrest p) in Hdead by (apply elem_of_cons; by left). done.
Qed.

Lemma lookup_tcb_dom s s' ht :
  (∀ t, is_Some (tcbs s' !! t) ↔ is_Some (tcbs s !! t)) →
  is_Some (lookup_tcb ht s') ↔ is_Some (lookup_tcb ht s).
Proof. intros Hdom. destruct ht as [t|]; simpl; [apply Hdom|done]. Qed.

Lemma keep_inv_live r p rest s :
  keep_inv r (p :: rest) s → entry_htcb s p ≠ None →
  (pooled cfg = true → r = 0) →
  ∃ r' s', nxsem_restoreholderprioall cfg p k arg s = Ret r' s' ∧
           keep_inv r' rest s'.
Proof.
  intros (Hr & Hwf & [pre He] & Hdom & Hrest & Hkeep & Hent & Hgone) Hlive _.
  pose proof (wf_shape_ok _ _ Hwf) as Hshape.
  assert (Hin : p ∈ entries cfg s k) by (rewrite He; apply elem_of_middle).
  pose proof (entries_valid_sem _ _ _ _ Hin) as Hk.
  destruct (entries_lookup cfg s k p Hshape Hin) as [h Hl].
  pose proof (entries_NoDup cfg s k Hshape) as Hnd. rewrite He in Hnd.
  apply NoDup_app in Hnd as (_ & Hdis & Hnd2).
  apply NoDup_cons in Hnd2 as [Hprest _].
  assert (Hhp : entry_htcb s p = entry_htcb s0 p)
    by (apply Hrest; apply elem_of_cons; by left).
  rewrite (restoreholderprioall_spec cfg k arg p s h Hl).
  rewrite <- (entry_htcb_lookup _ _ _ Hl).
  destruct (decide False) as [[]|_].
  destruct (restore_entry_step cfg s k pre p rest arg Hwf He Hlive)
    as (s' & evs' & Hrun' & Hwf' & _ & _ & (pre' & He' & Hpre')
        & Heo & Hsame & Hdom' & _ & _ & _).
  assert (Halive : alive s0 p → same_store s s').
  { intros Ha. unfold alive in Ha. rewrite <- Hhp in Ha.
    apply (lookup_tcb_dom s0 s _ Hdom) in Ha.
    destruct (restoreholderprio_alive s k _ arg Hshape Hk Ha)
      as (s'' & Hrun'' & Hss).
    assert (s'' = s') as -> by congruence. done. }
  exists 0, s'. split; [done|]. split_and!; try done.
  - eauto.
  - intros t. rewrite Hdom'. apply Hdom.
  - intros q Hq. destruct (Hsame q) as [-> _]; [intros ->; done|].
    apply Hrest. apply elem_of_cons. by right.
  - intros q Ha. destruct (Hkeep q Ha) as [<- <-].
    destruct (decide (q = p)) as [->|Hne]; [|by apply Hsame].
    pose proof (Halive Ha) as Hss.
    by rewrite (same_store_entry_htcb _ _ _ Hss),
               (same_store_entry_counts _ _ _ Hss).
  - intros k' q Hq Ha. pose proof (Hent k' q Hq Ha) as Hqs.
    destruct (decide (q = p)) as [->|Hne].
    { by rewrite (same_store_entries cfg s s' k' (Halive Ha)). }
    destruct (decide (k' = k)) as [->|Hk']; [|by rewrite Heo].
    rewrite He'. rewrite He in Hqs.
    rewrite !elem_of_app, elem_of_cons in Hqs.
    rewrite elem_of_app. naive_solver.
  - intros q Hq Hnot Hliveq Hna.
    destruct (decide (q = p)) as [->|Hne].
    + assert (Hstale : lookup_tcb (entry_htcb s p) s = None).
      { destruct (lookup_tcb (entry_htcb s p) s) eqn:Hlk; [|done].
        exfalso. apply Hna. unfold alive. rewrite <- Hhp.
        apply (lookup_tcb_dom s0 s _ Hdom). eauto. }
      pose proof (restoreholderprio_stale cfg s k _ arg Hshape Hk Hstale)
        as Hrun2.
      rewrite (find_entry_holder cfg s k p (proj1 Hwf) Hin Hlive) in Hrun2.
      set (s1 := log_event _ (log_event _ s)) in Hrun2.
      assert (Hss : same_store s s1) by done.
      assert (He1 : entries cfg s1 k = pre ++ p :: rest)
        by (by rewrite (same_store_entries _ _ _ _ Hss)).
      destruct (freeholder_spec cfg s1 k pre p rest
                  (same_store_wf cfg _ _ Hss (proj1 Hwf)) He1)
        as (s2 & Hrun3 & _ & _ & _ & _ & Hh2 & Hc2 & _).
      unfold bind in Hrun2. rewrite Hrun3 in Hrun2.
      assert (s2 = s') as -> by (unfold ret in Hrun2; congruence). done.
    + destruct (Hsame q Hne) as [-> ->]. apply Hgone; try done.
      intros [->|?]%elem_of_cons; done.
Qed.

Lemma keep_walk :
  wf cfg s0 → is_Some (sems s0 !! k) →
  ∃ r s', nxsem_foreachholder cfg k (nxsem_restoreholderprioall cfg) arg s0
            = Ret r s' ∧
          keep_inv 0 [] s'.
Proof.
  intros Hwf Hk.
  destruct (foreachholder_rule cfg keep_inv (nxsem_restoreholderprioall cfg)
              k arg keep_inv_entries keep_inv_dead keep_inv_live s0)
    as (r & s' & rest & Hrun & Hinv & Hrest); [|done|].
  - split_and!; try done.
    by exists [].
  - exists r, s'. split; [done|].
    destruct Hrest as [->|[_ Hr]]; [|by destruct Hinv as [-> _]].
    by destruct Hinv as [-> ?].
Qed.

End KeepWalk.

(** What the walk of [nxsem_restoreholderprioall] over semaphore [k] does
    from [s] to [s']: every holder of the semaphore is restored; the
    entries of threads the scheduler knows are kept as they are, on every
    semaphore; the holders of the semaphore whose thread is gone are
    freed. *)
Definition restores_all (s : kstate) (k : nat) (s' : kstate) : Prop :=
  (∃ evs, trace s' = trace s ++ evs ∧
          ∀ p, p ∈ holders cfg s k → EvRestore (entry_htcb s p) k ∈ evs) ∧
  (∀ k' p, p ∈ holders cfg s k' → alive s p →
           p ∈ holders cfg s' k' ∧
           entry_htcb s' p = entry_htcb s p ∧
           entry_counts s' p = entry_counts s p) ∧
  (∀ p, p ∈ holders cfg s k → ¬ alive s p →
        entry_htcb s' p = None ∧ entry_counts s' p = 0 ∧
        p ∉ holders cfg s' k).

Lemma restore_all_post s k arg :
  wf cfg s → is_Some (sems s !! k) →
  ∃ r s', nxsem_foreachholder cfg k (nxsem_restoreholderprioall cfg) arg s
            = Ret r s' ∧
          wf cfg s' ∧ restores_all s k s'.
Proof.
  intros Hwf Hk.
  destruct (all_walk cfg s k arg Hwf Hk)
    as (r & s1 & Hrun & _ & Hwf1 & _ & _ & _ & _ & _ & _
        & evs & Htr & _ & Hvis).
  destruct (keep_walk s k arg Hwf Hk)
    as (r' & s1' & Hrun' & _ & _ & _ & _ & _ & Hkeep & Hent & Hgone).
  assert (s1' = s1) as -> by congruence.
  exists r, s1. split; [done|]. split; [done|]. split_and!.
  - exists evs. split; [done|]. intros p [Hin Hlive]%holders_subset.
    apply Hvis; [done|apply not_elem_of_nil|done|tauto].
  - intros k' p [Hin Hlive]%holders_subset Ha.
    destruct (Hkeep p Ha) as [Hh Hc]. split_and!; try done.
    unfold holders. apply list_elem_of_filter. split; [|by apply Hent].
    unfold live in *. by rewrite Hh.
  - intros p [Hin Hlive]%holders_subset Hna.
    destruct (Hgone p Hin (not_elem_of_nil _) Hlive Hna) as [Hh Hc].
    split_and!; try done. by apply not_holder_dead.
Qed.

(** X17: [nxsem_restore_baseprio] from an interrupt handler.  In a
    well-formed state in interrupt context the call returns and keeps the
    invariant.  With [stcb] NULL nothing changes.  Otherwise every holder
    of the semaphore is restored, the interrupted thread like the others;
    no entry of a thread the scheduler knows is freed or changed, whatever
    its counts; the holders whose thread is gone are freed. *)
Theorem X17_restore_baseprio_irq s k stcb :
  wf cfg s → is_Some (sems s !! k) → g_irq s = true →
  ∃ s', nxsem_restore_baseprio cfg stcb k s = Ret tt s' ∧
        wf cfg s' ∧
        (stcb = None → s' = s) ∧
        (stcb ≠ None → restores_all s k s').
Proof.
  intros Hwf Hk Hirq. unfold nxsem_restore_baseprio, up_interrupt_context.
  unfold gets at 1. unfold bind at 1. rewrite Hirq.
  unfold nxsem_restore_baseprio_irq.
  destruct (decide (stcb = None)) as [->|Hne].
  - rewrite bool_decide_eq_false_2 by (by intros ?).
    exists s. split; [by apply verify_all_spec|done].
  - rewrite bool_decide_eq_true_2 by done.
    destruct (restore_all_post s k stcb Hwf Hk) as (r & s' & Hrun & Hwf' & Hpost).
    exists s'. split; [by rewrite (bind_Ret _ _ _ _ _ Hrun)|]. done.
Qed.

(** X18: [nxsem_canceled].  With CONFIG_DEBUG_ASSERTIONS and a positive
    count of the semaphore the call stops at its assertion.  Otherwise it
    returns and keeps the invariant: every holder of the semaphore is
    restored, no entry of a thread the scheduler knows is freed or
    changed, and the holders whose thread is gone are freed. *)
Theorem X18_canceled s k stcb sm :
  wf cfg s → sems s !! k = Some sm →
  if CONFIG_DEBUG_ASSERTIONS cfg && (0 <? semcount sm)
  then nxsem_canceled cfg stcb k s = Abort AssertionFailed
  else ∃ s', nxsem_canceled cfg stcb k s = Ret tt s' ∧
             wf cfg s' ∧ restores_all s k s'.
Proof.
  intros Hwf Hsm. unfold nxsem_canceled.
  destruct (restore_all_post s k stcb Hwf (mk_is_Some _ _ Hsm))
    as (r & s' & Hrun & Hwf' & Hpost).
  destruct (CONFIG_DEBUG_ASSERTIONS cfg) eqn:Hd; cbn [andb].
  - assert (Hassert : (let* sm0 := get_sem k in
                       DEBUGASSERT cfg (semcount sm0 <=? 0)) s
                      = if semcount sm <=? 0 then Ret tt s
                        else Abort AssertionFailed).
    { rewrite (bind_Ret _ _ _ _ _ (get_sem_Ret _ _ _ Hsm)).
      unfold DEBUGASSERT. rewrite Hd. by destruct (semcount sm <=? 0). }
    destruct (0 <? semcount sm) eqn:Hc.
    + apply Z.ltb_lt in Hc. unfold bind at 1. rewrite Hassert.
      replace (semcount sm <=? 0) with false by (symmetry; apply Z.leb_gt; lia).
      done.
    + apply Z.ltb_ge in Hc.
      exists s'. split; [|done].
      unfold bind at 1. rewrite Hassert.
      replace (semcount sm <=? 0) with true by (symmetry; apply Z.leb_le; lia).
      by rewrite (bind_Ret _ _ _ _ _ Hrun).
  - exists s'. split; [|done].
    unfold bind at 1. unfold ret at 1. by rewrite (bind_Ret _ _ _ _ _ Hrun).
Qed.

(** *** What the calls do to the table of threads *)

(** One boost or one restore of one thread. *)
Inductive pi_step (m : gmap nat tcb_s) : gmap nat tcb_s → Prop :=
  | pi_boost t v k rprio :
      m !! t = Some v →
      pi_step m (<[t := (boost_tcb cfg k (Some t) rprio v).1]> m)
  | pi_restore t v k rel :
      m !! t = Some v →
      pi_step m (<[t := (restore_tcb cfg k (Some t) rel v).1]> m).

(** The table of threads of [s'] comes from the one of [s] by boosts and
    restores. *)
Definition pi_steps (s s' : kstate) : Prop := rtc pi_step (tcbs s) (tcbs s').

(** The table of threads is the same. *)
Definition same_tcbs (s s' : kstate) : Prop := tcbs s' = tcbs s.

Lemma pi_steps_trans s1 s2 s3 : pi_steps s1 s2 → pi_steps s2 s3 → pi_steps s1 s3.
Proof. unfold pi_steps. apply rtc_trans. Qed.

Lemma pi_steps_tcbs s s' : tcbs s' = tcbs s → pi_steps s s'.
Proof. unfold pi_steps. by intros ->. Qed.

Lemma same_tcbs_trans s1 s2 s3 : same_tcbs s1 s2 → same_tcbs s2 s3 → same_tcbs s1 s3.
Proof. unfold same_tcbs. congruence. Qed.

Section Keeps.

(** A relation between the state before and after a call that holds when
    the table of threads is the same. *)
Variable R : kstate → kstate → Prop.
Hypothesis R_trans : ∀ s1 s2 s3, R s1 s2 → R s2 s3 → R s1 s3.
Hypothesis R_tcbs : ∀ s s', tcbs s' = tcbs s → R s s'.

Definition keeps {A} (m : M A) : Prop := ∀ s a s', m s = Ret a s' → R s s'.

Lemma keeps_ret {A} (a : A) : keeps (ret a).
Proof. intros s b s' Hrun. inv_ret Hrun. by apply R_tcbs. Qed.

Lemma keeps_abort {A} f : keeps (abort f : M A).
Proof. by intros s b s' Hrun. Qed.

Lemma keeps_bind {A B} (m : M A) (f : A → M B) :
  keeps m → (∀ a, keeps (f a)) → keeps (bind m f).
Proof.
  intros Hm Hf s b s' Hrun.
  apply bind_Ret_inv in Hrun as (a & s1 & H1 & H2).
  eapply R_trans; [by eapply Hm|by eapply Hf].
Qed.

Lemma keeps_gets {A} (f : kstate → A) : keeps (gets f).
Proof.
  intros s a s' Hrun.
  assert (s' = s) as -> by (unfold gets in Hrun; congruence).
  by apply R_tcbs.
Qed.

Lemma keeps_modify (f : kstate → kstate) :
  (∀ s, tcbs (f s) = tcbs s) → keeps (modify f).
Proof.
  intros Hf s a s' Hrun.
  assert (s' = f s) as -> by (unfold modify in Hrun; congruence).
  by apply R_tcbs.
Qed.

Lemma keeps_get_holder p : keeps (get_holder p).
Proof.
  intros s a s' Hrun. apply get_holder_inv in Hrun as [-> _]. by apply R_tcbs.
Qed.

Lemma keeps_get_sem k : keeps (get_sem k).
Proof.
  intros s a s' Hrun. apply get_sem_inv in Hrun as [-> _]. by apply R_tcbs.
Qed.

Lemma keeps_get_tcb t : keeps (get_tcb t).
Proof.
  intros s a s' Hrun. apply get_tcb_inv in Hrun as [-> _]. by apply R_tcbs.
Qed.

Create HintDb tcb_keeps.

(** One step through the structure of a computation. *)
Ltac kp_step :=
  first
    [ solve [auto with tcb_keeps]
    | apply keeps_ret | apply keeps_abort | apply keeps_gets
    | apply keeps_get_holder | apply keeps_get_sem | apply keeps_get_tcb
    | apply keeps_modify; intros ?; first [apply tcbs_store_holder | done]
    | apply keeps_bind; [|intros ?]
    | match goal with
      | |- keeps (if ?b then _ else _) => destruct b
      | |- keeps (match ?x with _ => _ end) => destruct x
      end ].
Ltac kp :=
  unfold read_flink, read_htcb, read_counts, write_flink, write_htcb,
    write_counts, read_hhead, write_hhead, put_holder, put_sem,
    serr, swarn, mark, this_task, up_interrupt_context, nxsched_verify_tcb,
    DEBUGASSERT;
  cbv zeta; repeat kp_step.

Lemma keeps_findholder_list t : ∀ fuel cur, keeps (findholder_list fuel t cur).
Proof. induction fuel as [|fuel IH]; intros [p|]; simpl; kp. Qed.

Lemma keeps_findholder_builtin k t : ∀ n i, keeps (findholder_builtin n k t i).
Proof. induction n as [|n IH]; intros i; simpl; kp. Qed.

#[local] Hint Resolve keeps_findholder_list keeps_findholder_builtin : tcb_keeps.

Lemma keeps_findholder k t : keeps (nxsem_findholder cfg k t).
Proof. unfold nxsem_findholder. kp. Qed.

Lemma keeps_freeholder_search p : ∀ fuel prev cur,
  keeps (freeholder_search fuel p prev cur).
Proof. induction fuel as [|fuel IH]; intros prev [c|]; simpl; kp. Qed.

#[local] Hint Resolve keeps_findholder keeps_freeholder_search : tcb_keeps.

Lemma keeps_allocholder k : keeps (nxsem_allocholder cfg k).
Proof. unfold nxsem_allocholder. kp. Qed.

Lemma keeps_freeholder k p : keeps (nxsem_freeholder cfg k p).
Proof. unfold nxsem_freeholder. kp. Qed.

#[local] Hint Resolve keeps_allocholder keeps_freeholder : tcb_keeps.

Lemma keeps_findorallocateholder k t :
  keeps (nxsem_findorallocateholder cfg k t).
Proof. unfold nxsem_findorallocateholder. kp. Qed.

Lemma keeps_findandfreeholder k t : keeps (nxsem_findandfreeholder cfg k t).
Proof. unfold nxsem_findandfreeholder. kp. Qed.

#[local] Hint Resolve keeps_findorallocateholder keeps_findandfreeholder
  : tcb_keeps.

Lemma keeps_foreachholder (handler : holderhandler_t) k arg :
  (∀ p, keeps (handler p k arg)) →
  keeps (nxsem_foreachholder cfg k handler arg).
Proof.
  intros Hh s r s' Hrun.
  apply (foreachholder_preserves cfg R handler k arg) with (s := s) (r := r);
    try done.
  intros s1. by apply R_tcbs.
Qed.

Lemma keeps_recoverholders p k arg : keeps (nxsem_recoverholders cfg p k arg).
Proof. unfold nxsem_recoverholders. kp. Qed.

Lemma keeps_verifyholder p k arg : keeps (nxsem_verifyholder p k arg).
Proof. unfold nxsem_verifyholder. kp. Qed.

Lemma keeps_destroyholder k : keeps (nxsem_destroyholder cfg k).
Proof.
  unfold nxsem_destroyholder. kp.
  all: apply keeps_foreachholder; intros; apply keeps_recoverholders.
Qed.

Lemma keeps_add_holder_tcb t k : keeps (nxsem_add_holder_tcb cfg t k).
Proof. unfold nxsem_add_holder_tcb. kp. Qed.

Lemma keeps_add_holder k : keeps (nxsem_add_holder cfg k).
Proof.
  unfold nxsem_add_holder. kp.
Qed.

Lemma keeps_release_holder k : keeps (nxsem_release_holder cfg k).
Proof. unfold nxsem_release_holder. kp. Qed.

Lemma keeps_initialize_links : ∀ n i, keeps (initialize_links n i).
Proof. induction n as [|n IH]; intros i; simpl; kp. Qed.

#[local] Hint Resolve keeps_initialize_links : tcb_keeps.

Lemma keeps_initialize_holders : keeps (nxsem_initialize_holders cfg).
Proof. unfold nxsem_initialize_holders. kp. Qed.

Lemma keeps_nfreeholders_loop : ∀ fuel p n, keeps (nfreeholders_loop fuel p n).
Proof. induction fuel as [|fuel IH]; intros [p|] n; simpl; kp. Qed.

#[local] Hint Resolve keeps_nfreeholders_loop : tcb_keeps.

Lemma keeps_nfreeholders : keeps (nxsem_nfreeholders cfg).
Proof. unfold nxsem_nfreeholders. kp. Qed.

(** The functions that call the two handlers that touch the table. *)
Hypothesis R_boost : ∀ p k r, keeps (nxsem_boostholderprio cfg p k r).
Hypothesis R_restore : ∀ t k arg, keeps (nxsem_restoreholderprio cfg t k arg).

#[local] Hint Resolve R_boost R_restore : tcb_keeps.

Lemma keeps_restoreholderprioall p k arg :
  keeps (nxsem_restoreholderprioall cfg p k arg).
Proof. unfold nxsem_restoreholderprioall. kp. Qed.

Lemma keeps_restoreholderprio_others p k arg :
  keeps (nxsem_restoreholderprio_others cfg p k arg).
Proof. unfold nxsem_restoreholderprio_others. kp. Qed.

Lemma keeps_restoreholderprio_self p k arg :
  keeps (nxsem_restoreholderprio_self cfg p k arg).
Proof. unfold nxsem_restoreholderprio_self. kp. Qed.

Lemma keeps_boost_priority k : keeps (nxsem_boost_priority cfg k).
Proof.
  unfold nxsem_boost_priority. kp.
  apply keeps_foreachholder. intros. apply R_boost.
Qed.

Lemma keeps_canceled stcb k : keeps (nxsem_canceled cfg stcb k).
Proof.
  unfold nxsem_canceled. kp.
  all: apply keeps_foreachholder; intros; apply keeps_restoreholderprioall.
Qed.

Lemma keeps_restore_baseprio stcb k : keeps (nxsem_restore_baseprio cfg stcb k).
Proof.
  unfold nxsem_restore_baseprio, nxsem_restore_baseprio_irq,
    nxsem_restore_baseprio_task.
  kp.
  all: apply keeps_foreachholder; intros;
    first [apply keeps_restoreholderprioall
          |apply keeps_restoreholderprio_others
          |apply keeps_restoreholderprio_self
          |apply keeps_verifyholder].
Qed.

End Keeps.

(** The accesses to a TCB, read backwards. *)
Lemma read_sched_priority_inv t s a s' :
  read_sched_priority t s = Ret a s' →
  s' = s ∧ ∃ v, lookup_tcb t s = Some v ∧ a = sched_priority v.
Proof.
  unfold read_sched_priority. intros Hrun.
  apply bind_Ret_inv in Hrun as (v & s1 & H1 & H2).
  apply get_tcb_inv in H1 as [-> Hv]. inv_ret H2. eauto.
Qed.

Lemma read_base_priority_inv t s a s' :
  read_base_priority t s = Ret a s' →
  s' = s ∧ ∃ v, lookup_tcb t s = Some v ∧ a = base_priority v.
Proof.
  unfold read_base_priority. intros Hrun.
  apply bind_Ret_inv in Hrun as (v & s1 & H1 & H2).
  apply get_tcb_inv in H1 as [-> Hv]. inv_ret H2. eauto.
Qed.

Lemma read_sem_boosts_inv t s a s' :
  read_sem_boosts t s = Ret a s' →
  s' = s ∧ ∃ v, lookup_tcb t s = Some v ∧ a = sem_boosts v.
Proof.
  unfold read_sem_boosts. intros Hrun.
  apply bind_Ret_inv in Hrun as (v & s1 & H1 & H2).
  apply get_tcb_inv in H1 as [-> Hv]. inv_ret H2. eauto.
Qed.

Lemma put_tcb_inv t x s a s' :
  put_tcb (Some t) x s = Ret a s' → tcbs s' = <[t := x]> (tcbs s).
Proof.
  unfold put_tcb. intros Hrun.
  apply bind_Ret_inv in Hrun as (v & s1 & H1 & H2).
  apply get_tcb_inv in H1 as [-> Hv].
  assert (s' = set_tcbs (<[t := x]> (tcbs s)) s) as ->
    by (unfold modify in H2; congruence).
  done.
Qed.

Lemma write_sem_boosts_inv t l s v a s' :
  tcbs s !! t = Some v →
  write_sem_boosts (Some t) l s = Ret a s' →
  tcbs s' = <[t := with_sem_boosts l v]> (tcbs s).
Proof.
  unfold write_sem_boosts. intros Hv Hrun.
  apply bind_Ret_inv in Hrun as (v' & s1 & H1 & H2).
  apply get_tcb_inv in H1 as [-> Hv'].
  assert (v' = v) as -> by (simpl in Hv'; congruence).
  by eapply put_tcb_inv.
Qed.

Lemma nxsched_set_priority_inv t prio s v a s' :
  tcbs s !! t = Some v →
  nxsched_set_priority (Some t) prio s = Ret a s' →
  tcbs s' = <[t := with_sched_priority prio v]> (tcbs s).
Proof.
  unfold nxsched_set_priority. intros Hv Hrun.
  apply bind_Ret_inv in Hrun as (v' & s1 & H1 & H2).
  apply get_tcb_inv in H1 as [-> Hv'].
  assert (v' = v) as -> by (simpl in Hv'; congruence).
  apply bind_Ret_inv in H2 as (u & s1 & H1 & H2).
  apply put_tcb_inv in H1.
  assert (s' = log_event (EvSetPriority (Some t) prio) s1) as ->
    by (rewrite mark_Ret in H2; congruence).
  done.
Qed.

Lemma nxsched_reprioritize_inv t prio s v a s' :
  tcbs s !! t = Some v →
  nxsched_reprioritize (Some t) prio s = Ret a s' →
  tcbs s' = <[t := with_base_priority prio (with_sched_priority prio v)]>
              (tcbs s).
Proof.
  unfold nxsched_reprioritize. intros Hv Hrun.
  apply bind_Ret_inv in Hrun as (v' & s1 & H1 & H2).
  apply get_tcb_inv in H1 as [-> Hv'].
  assert (v' = v) as -> by (simpl in Hv'; congruence).
  apply bind_Ret_inv in H2 as (u & s1 & H1 & H2).
  apply put_tcb_inv in H1.
  assert (s' = log_event (EvReprioritize (Some t) prio) s1) as ->
    by (rewrite mark_Ret in H2; congruence).
  done.
Qed.

(** [nxsem_boostholderprio] leaves the table of threads as it is or
    boosts one thread. *)
Lemma boostholderprio_steps p k r : keeps pi_steps (nxsem_boostholderprio cfg p k r).
Proof.
  intros s a s' Hrun. pose proof Hrun as Hrun0.
  unfold nxsem_boostholderprio in Hrun. cbv zeta in Hrun.
  apply bind_Ret_inv in Hrun as (ht & s1 & H1 & Hrun).
  unfold read_htcb in H1.
  apply bind_Ret_inv in H1 as (h & s2 & Hh & H1).
  apply get_holder_inv in Hh as [-> Hl]. apply ret_Ret_inv in H1 as [<- <-].
  apply bind_Ret_inv in Hrun as (lv & s3 & H3 & Hrun).
  assert (s3 = s ∧ lv = bool_decide (is_Some (lookup_tcb (htcb h) s)))
    as [-> ->] by (unfold nxsched_verify_tcb, gets in H3; split; congruence).
  apply bind_Ret_inv in Hrun as (u & s4 & Hbr & Hrun).
  apply ret_Ret_inv in Hrun as [_ ->].
  destruct (lookup_tcb (htcb h) s) as [v|] eqn:Hv.
  - apply lookup_tcb_Some in Hv as (t & Ht & Hv).
    rewrite bool_decide_eq_true_2 in Hbr by eauto. cbn [negb] in Hbr.
    assert (∃ vr, lookup_tcb r s = Some vr) as [vr Hvr].
    { destruct (nested cfg);
        apply bind_Ret_inv in Hbr as (rp & s5 & H5 & _);
        apply read_sched_priority_inv in H5 as (_ & vr & Hvr & _); eauto. }
    rewrite (boostholderprio_live cfg s p k r h t v vr Hl Ht Hv Hvr) in Hrun0.
    injection Hrun0 as _ <-.
    apply rtc_once. simpl. by apply pi_boost.
  - rewrite (boostholderprio_stale cfg s p k r h Hl Hv) in Hrun0.
    apply bind_Ret_inv in Hrun0 as (u' & s5 & H5 & H6).
    apply ret_Ret_inv in H6 as [_ ->].
    apply (keeps_freeholder pi_steps pi_steps_trans pi_steps_tcbs) in H5.
    done.
Qed.

(** [nxsem_restoreholderprio] leaves the table of threads as it is or
    restores one thread. *)
Lemma restoreholderprio_steps ht k arg :
  keeps pi_steps (nxsem_restoreholderprio cfg ht k arg).
Proof.
  intros s a s' Hrun. unfold nxsem_restoreholderprio in Hrun.
  apply bind_Ret_inv in Hrun as (u0 & s1 & H1 & Hrun).
  rewrite mark_Ret in H1. injection H1 as _ <-.
  apply bind_Ret_inv in Hrun as (pholder & s2 & Hfind & Hrun).
  apply (keeps_findholder pi_steps pi_steps_trans pi_steps_tcbs) in Hfind.
  apply bind_Ret_inv in Hrun as (lv & s3 & H3 & Hrun).
  assert (s3 = s2 ∧ lv = bool_decide (is_Some (lookup_tcb ht s2)))
    as [-> ->] by (unfold nxsched_verify_tcb, gets in H3; split; congruence).
  apply bind_Ret_inv in Hrun as (u & s4 & Hbr & Hrun).
  apply ret_Ret_inv in Hrun as [_ ->].
  apply (pi_steps_trans s (log_event (EvRestore ht k) s));
    [by apply pi_steps_tcbs|].
  eapply pi_steps_trans; [exact Hfind|]. clear Hfind.
  destruct (lookup_tcb ht s2) as [v|] eqn:Hv.
  - apply lookup_tcb_Some in Hv as (t & -> & Hv).
    rewrite bool_decide_eq_true_2 in Hbr by (simpl; eauto). cbn [negb] in Hbr.
    apply bind_Ret_inv in Hbr as (sprio & s5 & H5 & Hbr).
    apply read_sched_priority_inv in H5 as (-> & v5 & Hv5 & ->).
    assert (v5 = v) as -> by (simpl in Hv5; congruence).
    apply bind_Ret_inv in Hbr as (bprio & s6 & H6 & Hbr).
    apply read_base_priority_inv in H6 as (-> & v6 & Hv6 & ->).
    assert (v6 = v) as -> by (simpl in Hv6; congruence).
    enough (∃ rel, tcbs s' = <[t := (restore_tcb cfg k (Some t) rel v).1]> (tcbs s2))
      as [rel Hs'].
    { unfold pi_steps. rewrite Hs'. apply rtc_once. by apply pi_restore. }
    unfold restore_tcb.
    destruct (decide (sched_priority v = base_priority v)) as [He|Hne].
    + rewrite bool_decide_eq_false_2 in Hbr by tauto.
      apply ret_Ret_inv in Hbr as [_ ->]. exists true.
      rewrite bool_decide_eq_false_2 by tauto. simpl. by rewrite insert_id.
    + rewrite bool_decide_eq_true_2 in Hbr by done.
      destruct (nested cfg).
      * apply bind_Ret_inv in Hbr as (rel & s7 & H7 & Hbr).
        assert (s7 = s2) as ->.
        { destruct pholder as [q|]; [|by apply ret_Ret_inv in H7 as [_ ->]].
          apply bind_Ret_inv in H7 as (c & s8 & H8 & H9).
          unfold read_counts in H8.
          apply bind_Ret_inv in H8 as (hq & s9 & H10 & H11).
          apply get_holder_inv in H10 as [-> _].
          apply ret_Ret_inv in H11 as [_ <-].
          by apply ret_Ret_inv in H9 as [_ <-]. }
        exists rel. rewrite bool_decide_eq_true_2 by done.
        apply bind_Ret_inv in Hbr as (boosts & s8 & H8 & Hbr).
        apply read_sem_boosts_inv in H8 as (-> & v8 & Hv8 & ->).
        assert (v8 = v) as -> by (simpl in Hv8; congruence).
        apply bind_Ret_inv in Hbr as (u1 & s9 & Hedit & Hbr).
        set (v1 := with_sem_boosts (restore_boosts k rel (sem_boosts v)) v).
        assert (Hs9 : tcbs s9 = <[t := v1]> (tcbs s2)).
        { unfold v1, restore_boosts. destruct rel.
          - destruct (discard_boosts (length (sem_boosts v)) k 0 (sem_boosts v))
              as [l'|]; [|done].
            simpl. by eapply write_sem_boosts_inv.
          - cbv zeta in Hedit.
            destruct (0 <=? max_boost_search k (sem_boosts v) 0 (-1) 0).
            + by eapply write_sem_boosts_inv.
            + apply ret_Ret_inv in Hedit as [_ <-].
              rewrite with_sem_boosts_id. by rewrite insert_id. }
        assert (Hv9 : tcbs s9 !! t = Some v1)
          by (rewrite Hs9; apply lookup_insert_eq).
        apply bind_Ret_inv in Hbr as (base & s10 & H10 & Hbr).
        apply read_base_priority_inv in H10 as (-> & w & Hw & ->).
        assert (w = v1) as -> by (simpl in Hw; congruence). clear Hw.
        apply bind_Ret_inv in Hbr as (remaining & s10 & H10 & Hbr).
        apply read_sem_boosts_inv in H10 as (-> & w & Hw & ->).
        assert (w = v1) as -> by (simpl in Hw; congruence). clear Hw.
        cbv zeta in Hbr.
        apply bind_Ret_inv in Hbr as (sprio' & s10 & H10 & Hbr).
        apply read_sched_priority_inv in H10 as (-> & w & Hw & ->).
        assert (w = v1) as -> by (simpl in Hw; congruence). clear Hw.
        change (base_priority v1) with (base_priority v) in Hbr.
        change (sched_priority v1) with (sched_priority v) in Hbr.
        change (sem_boosts v1)
          with (restore_boosts k rel (sem_boosts v)) in Hbr.
        cbv zeta. fold v1.
        destruct (bool_decide (max_priority (base_priority v)
                    (restore_boosts k rel (sem_boosts v)) ≠ sched_priority v)).
        -- apply (nxsched_set_priority_inv t _ s9 v1) in Hbr; [|done].
           rewrite Hbr, Hs9. simpl. by rewrite insert_insert_eq.
        -- apply ret_Ret_inv in Hbr as [_ <-]. simpl. exact Hs9.
      * exists true. rewrite bool_decide_eq_true_2 by done.
        apply bind_Ret_inv in Hbr as (base & s7 & H7 & Hbr).
        apply read_base_priority_inv in H7 as (-> & w & Hw & ->).
        assert (w = v) as -> by (simpl in Hw; congruence).
        apply (nxsched_reprioritize_inv t _ s2 v) in Hbr; [|done].
        by rewrite Hbr.
  - rewrite bool_decide_eq_false_2 in Hbr by (by intros [? ?]).
    cbn [negb] in Hbr.
    apply bind_Ret_inv in Hbr as (u1 & s5 & H5 & Hbr).
    unfold swarn in H5. rewrite mark_Ret in H5. injection H5 as _ <-.
    apply (pi_steps_trans _ (log_event (EvLog (WarnStaleHandle ht)) s2));
      [by apply pi_steps_tcbs|].
    destruct pholder as [q|].
    + by apply (keeps_freeholder pi_steps pi_steps_trans pi_steps_tcbs) in Hbr.
    + apply ret_Ret_inv in Hbr as [_ <-]. by apply pi_steps_tcbs.
Qed.

(** A property of every TCB that boosts, restores and the creation of a
    thread keep is kept by every operation. *)
Section TcbInvariant.

Variable P : tcb_s → Prop.
Hypothesis P_boost : ∀ k t rprio v, P v → P (boost_tcb cfg k t rprio v).1.
Hypothesis P_restore : ∀ k t rel v, P v → P (restore_tcb cfg k t rel v).1.
Hypothesis P_create : ∀ prio, P (Tcb prio prio []).

Definition tcbs_ok (s : kstate) : Prop := map_Forall (λ _ v, P v) (tcbs s).

Lemma pi_step_ok m m' :
  rtc pi_step m m' →
  map_Forall (λ _ v, P v) m → map_Forall (λ _ v, P v) m'.
Proof.
  induction 1 as [m|m1 m2 m3 Hstep _ IH]; [done|].
  intros Hok. apply IH.
  destruct Hstep as [t v k rprio Hv|t v k rel Hv];
    apply map_Forall_insert_2; try done.
  - apply P_boost. exact (Hok t v Hv).
  - apply P_restore. exact (Hok t v Hv).
Qed.

Lemma pi_steps_ok s s' : pi_steps s s' → tcbs_ok s → tcbs_ok s'.
Proof. apply pi_step_ok. Qed.

Lemma run_op_ok o s s' : tcbs_ok s → run_op cfg o s = Ret tt s' → tcbs_ok s'.
Proof.
  intros Hok Hrun.
  assert (Hsteps : ∀ m : M unit,
            keeps pi_steps m → m s = Ret tt s' → tcbs_ok s').
  { intros m Hm Hr. eapply pi_steps_ok; [|exact Hok]. by eapply Hm. }
  pose proof pi_steps_trans as Ht. pose proof pi_steps_tcbs as Hs.
  pose proof boostholderprio_steps as Hb.
  pose proof restoreholderprio_steps as Hr.
  destruct o as [k|t k|k|k|stcb k|stcb k|k|t|b|t|t prio]; simpl in Hrun;
    try (apply on_sem_inv in Hrun as [_ Hrun]; eapply Hsteps; [|exact Hrun]).
  - by apply keeps_add_holder.
  - by apply keeps_add_holder_tcb.
  - by apply keeps_boost_priority.
  - by apply keeps_release_holder.
  - by apply keeps_restore_baseprio.
  - by apply keeps_canceled.
  - by apply keeps_destroyholder.
  - assert (tcbs s' = tcbs s) as Heq.
    { unfold modify in Hrun. injection Hrun as <-. by destruct (bool_decide _). }
    unfold tcbs_ok. by rewrite Heq.
  - assert (tcbs s' = tcbs s) as Heq
      by (unfold modify in Hrun; by injection Hrun as <-).
    unfold tcbs_ok. by rewrite Heq.
  - unfold modify in Hrun. injection Hrun as <-.
    destruct (bool_decide _); [done|]. by apply map_Forall_delete.
  - unfold modify in Hrun. injection Hrun as <-.
    destruct (bool_decide _); [|done]. by apply map_Forall_insert_2.
Qed.

Lemma run_ok os : ∀ s s', tcbs_ok s → run cfg os s = Ret tt s' → tcbs_ok s'.
Proof.
  induction os as [|o os IH]; intros s s' Hok Hrun; simpl in Hrun.
  - by inv_ret Hrun.
  - apply bind_Ret_inv in Hrun as ([] & s1 & Hop & Hrun).
    eapply IH; [|exact Hrun]. by eapply run_op_ok.
Qed.

Lemma reaches_ok s0 os s : tcbs_ok s0 → reaches cfg s0 os s → tcbs_ok s.
Proof.
  intros Hok Hreach. unfold reaches in Hreach.
  apply bind_Ret_inv in Hreach as ([] & s1 & Hinit & Hrun).
  eapply run_ok; [|exact Hrun].
  apply (keeps_initialize_holders same_tcbs same_tcbs_trans) in Hinit; [|done].
  unfold tcbs_ok. by rewrite Hinit.
Qed.

End TcbInvariant.

(** The ledger fits the array [sem_boosts] of the TCB. *)
Definition ledger_fits (v : tcb_s) : Prop :=
  (length (sem_boosts v) ≤ CONFIG_SEM_NNESTPRIO cfg)%nat.

Lemma restore_boosts_length k rel l :
  (length (restore_boosts k rel l) ≤ length l)%nat.
Proof.
  destruct rel.
  - rewrite restore_boosts_released. apply length_filter.
  - destruct (restore_boosts_holding k l) as [[-> _]|(b & _ & _ & _ & Hp)];
      [done|].
    rewrite Hp at 2. simpl. lia.
Qed.

Lemma boost_tcb_fits k t rprio v :
  ledger_fits v → ledger_fits (boost_tcb cfg k t rprio v).1.
Proof.
  unfold ledger_fits, boost_tcb. intros Hfit.
  destruct (nested cfg); [|by destruct (_ <? _)%N].
  destruct (_ <? _)%N; [|done].
  destruct (bool_decide _) eqn:Hroom; [|done].
  apply bool_decide_eq_true in Hroom.
  destruct (_ <? _)%N; simpl; rewrite length_app; simpl; lia.
Qed.

Lemma restore_tcb_fits k t rel v :
  ledger_fits v → ledger_fits (restore_tcb cfg k t rel v).1.
Proof.
  unfold ledger_fits, restore_tcb. intros Hfit.
  destruct (bool_decide _); [|done].
  destruct (nested cfg); [|done].
  pose proof (restore_boosts_length k rel (sem_boosts v)).
  destruct (bool_decide _); simpl; lia.
Qed.

(** X19: the ledger never outgrows its array.  In every state reached
    from boot by calls of the core, context switches, interrupts, and
    threads that exit or are created, the ledger of every thread has at
    most CONFIG_SEM_NNESTPRIO records. *)
Theorem X19_ledger_within_bounds s t v :
  reachable cfg s → tcbs s !! t = Some v →
  (length (sem_boosts v) ≤ CONFIG_SEM_NNESTPRIO cfg)%nat.
Proof.
  intros (s0 & os & Hboot & Hreach) Hv.
  apply (reaches_ok ledger_fits boost_tcb_fits restore_tcb_fits) in Hreach.
  - exact (Hreach t v Hv).
  - intros prio. unfold ledger_fits. simpl. lia.
  - destruct Hboot as (_ & _ & _ & Hl & _).
    intros t' v' Hv'. unfold ledger_fits. rewrite (Hl t' v' Hv'). simpl. lia.
Qed.

(** The priorities of a thread agree with its ledger: it runs at or above
    its base priority; and with nested priorities, at the highest of its
    base priority and the priorities of its ledger, whose records are all
    above the base priority. *)
Definition prio_ok (v : tcb_s) : Prop :=
  (base_priority v ≤ sched_priority v)%N ∧
  (nested cfg = true →
   sched_priority v = highest_priority (base_priority v) (sem_boosts v) ∧
   Forall (λ b, (base_priority v < boost_priority b)%N) (sem_boosts v)).

Lemma highest_priority_snoc base l b :
  highest_priority base (l ++ [b])
    = N.max (highest_priority base l) (boost_priority b).
Proof.
  unfold highest_priority. induction l as [|c l IH]; simpl; [lia|].
  rewrite IH. lia.
Qed.

Lemma boost_tcb_prio_ok k t rprio v :
  prio_ok v → prio_ok (boost_tcb cfg k t rprio v).1.
Proof.
  unfold prio_ok, boost_tcb. intros [Hle Hn].
  destruct (nested cfg).
  - destruct (Hn eq_refl) as [Hs Hall].
    destruct (base_priority v <? rprio)%N eqn:Hb; [|done].
    apply N.ltb_lt in Hb.
    destruct (bool_decide _); [|done].
    destruct (sched_priority v <? rprio)%N eqn:Hlt; simpl.
    + apply N.ltb_lt in Hlt. split; [lia|]. intros _.
      rewrite highest_priority_snoc. simpl. split; [lia|].
      apply Forall_app. split; [done|]. by apply Forall_singleton.
    + apply N.ltb_ge in Hlt. split; [lia|]. intros _.
      rewrite highest_priority_snoc. simpl. split; [lia|].
      apply Forall_app. split; [done|]. by apply Forall_singleton.
  - destruct (sched_priority v <? rprio)%N eqn:Hlt; simpl; [|done].
    apply N.ltb_lt in Hlt. split; [lia|done].
Qed.

Lemma restore_tcb_prio_ok k t rel v :
  prio_ok v → prio_ok (restore_tcb cfg k t rel v).1.
Proof.
  unfold prio_ok, restore_tcb. intros [Hle Hn].
  destruct (bool_decide (sched_priority v ≠ base_priority v)); [|done].
  destruct (nested cfg) eqn:Hnest.
  - destruct (Hn eq_refl) as [Hs Hall].
    pose proof (highest_priority_base (base_priority v)
                  (restore_boosts k rel (sem_boosts v))) as Hbase.
    pose proof (restore_boosts_Forall _ k rel _ Hall) as Hall'.
    rewrite max_priority_highest.
    destruct (bool_decide _) eqn:Hd; simpl.
    + done.
    + apply bool_decide_eq_false in Hd.
      assert (Heq : highest_priority (base_priority v)
                      (restore_boosts k rel (sem_boosts v)) = sched_priority v).
      { destruct (decide (highest_priority (base_priority v)
                      (restore_boosts k rel (sem_boosts v)) = sched_priority v));
          [done|]. by exfalso; apply Hd. }
      split; [lia|]. done.
  - simpl. split; [lia|done].
Qed.

(** X20: the priorities in reachable states.  If every thread starts at
    its base priority, then in every state reached from boot every
    thread runs at or above its base priority; with nested priorities it
    runs at the highest of its base priority and the priorities recorded
    in its ledger, every record is above its base priority, and so it is
    at its base priority exactly when its ledger is empty. *)
Theorem X20_priority_follows_ledger s0 os s t v :
  boot cfg s0 →
  map_Forall (λ _ v0, sched_priority v0 = base_priority v0) (tcbs s0) →
  reaches cfg s0 os s → tcbs s !! t = Some v →
  (base_priority v ≤ sched_priority v)%N ∧
  (nested cfg = true →
   sched_priority v = highest_priority (base_priority v) (sem_boosts v) ∧
   Forall (λ b, (base_priority v < boost_priority b)%N) (sem_boosts v) ∧
   (sched_priority v = base_priority v ↔ sem_boosts v = [])).
Proof.
  intros Hboot Hbase Hreach Hv.
  apply (reaches_ok prio_ok boost_tcb_prio_ok restore_tcb_prio_ok) in Hreach.
  - destruct (Hreach t v Hv) as [Hle Hn]. split; [done|].
    intros Hnest. destruct (Hn Hnest) as [Hs Hall]. split_and!; try done.
    split.
    + intros Heq. destruct (sem_boosts v) as [|b l] eqn:Hl; [done|].
      apply Forall_cons in Hall as [Hb _].
      pose proof (highest_priority_bound (base_priority v) (b :: l) b) as Hm.
      rewrite <- Hs in Hm. specialize (Hm ltac:(left)). lia.
    + intros Hl. by rewrite Hs, Hl.
  - intros prio. split; simpl; [lia|done].
  - destruct Hboot as (_ & _ & _ & Hl & _).
    intros t' v' Hv'. split; [rewrite (Hbase t' v' Hv'); lia|].
    intros _. rewrite (Hl t' v' Hv'). simpl. split; [|done].
    by rewrite (Hbase t' v' Hv').
Qed.

(** The calls that only manage the holder store. *)
Definition store_call (o : op) : bool :=
  match o with
  | AddHolder _ | AddHolderTcb _ _ | ReleaseHolder _ | DestroyHolder _ => true
  | _ => false
  end.

(** X21: taking, giving back and destroying never touch a thread.  From
    any state, well-formed or not, a call of [nxsem_add_holder],
    [nxsem_add_holder_tcb], [nxsem_release_holder] or
    [nxsem_destroyholder] that returns leaves the table of threads as it
    was: priorities and ledgers change in [nxsem_boost_priority],
    [nxsem_restore_baseprio] and [nxsem_canceled] only. *)
Theorem X21_store_calls_keep_threads o s s' :
  store_call o = true → run_op cfg o s = Ret tt s' → tcbs s' = tcbs s.
Proof.
  intros Ho Hrun.
  assert (Hsame : ∀ m : M unit,
            keeps same_tcbs m → m s = Ret tt s' → tcbs s' = tcbs s).
  { intros m Hm Hr. by eapply Hm. }
  pose proof same_tcbs_trans as Ht.
  destruct o as [k|t k|k|k|stcb k|stcb k|k|t|b|t|t prio]; try done;
    simpl in Hrun; apply on_sem_inv in Hrun as [_ Hrun];
    (eapply Hsame; [|exact Hrun]).
  - by apply keeps_add_holder.
  - by apply keeps_add_holder_tcb.
  - by apply keeps_release_holder.
  - by apply keeps_destroyholder.
Qed.

End MoreProperties.

(** ** Scenarios for the store, the handlers and the invariants *)

(** Threads 2 and 3 have boosted thread 1: its ledger is full. *)
Definition full_ledger_ops : list op :=
  [AddHolder 0; Switch 2; BoostPriority 0; Switch 3; BoostPriority 0].
Definition full_ledger_pooled : kstate :=
  state_after cfg_pooled boot_pooled full_ledger_ops.

(** Thread 3 has boosted thread 1, without nested priorities. *)
Definition raised_builtin : kstate :=
  state_after cfg_builtin boot_inline boosted_ops.

(** An interrupt arrives after thread 3 has boosted thread 1. *)
Definition irq_ops : list op :=
  [AddHolder 0; Switch 3; BoostPriority 0; Interrupt true].
Definition irq_pooled : kstate := state_after cfg_pooled boot_pooled irq_ops.

Lemma irq_pooled_reachable : reachable cfg_pooled irq_pooled.
Proof.
  exists boot_pooled, irq_ops. split; [apply boot_pooled_ok|].
  vm_compute. reflexivity.
Qed.

Lemma released_pooled_reaches :
  reaches cfg_pooled boot_pooled released_ops released_pooled.
Proof. vm_compute. reflexivity. Qed.

Lemma three_threads_at_base :
  map_Forall (λ (_ : nat) v, sched_priority v = base_priority v) three_threads.
Proof.
  unfold three_threads.
  repeat (apply map_Forall_insert_2; [done|]). apply map_Forall_empty.
Qed.

Lemma not_pooled_shape_ok cfg s : pooled cfg = false → shape_ok cfg s.
Proof. intros Hp Hp'. congruence. Qed.

Lemma X1_findholder_lookup_witness :
  shape_ok cfg_pooled held_pooled ∧ is_Some (sems held_pooled !! 0%nat) ∧
  ∃ r, nxsem_findholder cfg_pooled 0 (Some 1%nat) held_pooled
         = Ret r held_pooled.
Proof.
  pose proof (wf_shape_ok _ _ (reachable_wf _ _ held_pooled_reachable)) as Hshape.
  assert (Hk : is_Some (sems held_pooled !! 0%nat))
    by (apply sem0_valid; vm_compute; reflexivity).
  split; [exact Hshape|]. split; [exact Hk|].
  destruct (X1_findholder_lookup cfg_pooled held_pooled 0 1%nat Hshape Hk)
    as (r & Hrun & _).
  exists r. exact Hrun.
Defined.

Lemma X2_freeholder_unlinks_witness :
  store_wf cfg_pooled held_pooled ∧
  entries cfg_pooled held_pooled 0 = [] ++ Prealloc 0 :: [] ∧
  ∃ s', nxsem_freeholder cfg_pooled 0 (Prealloc 0) held_pooled = Ret tt s' ∧
        entry_htcb s' (Prealloc 0) = None.
Proof.
  pose proof (proj1 (reachable_wf _ _ held_pooled_reachable)) as Hwf.
  assert (He : entries cfg_pooled held_pooled 0 = [] ++ Prealloc 0 :: [])
    by (vm_compute; reflexivity).
  split; [exact Hwf|]. split; [exact He|].
  destruct (X2_freeholder_unlinks cfg_pooled held_pooled 0 [] (Prealloc 0) []
              Hwf He) as (s' & Hrun & _ & Hh & _).
  exists s'. split; [exact Hrun|exact Hh].
Defined.

Lemma X3_free_then_alloc_witness :
  pooled cfg_pooled = true ∧ store_wf cfg_pooled held_pooled ∧
  entries cfg_pooled held_pooled 0 = [] ++ Prealloc 0 :: [] ∧
  is_Some (sems held_pooled !! 1%nat) ∧
  ∃ s1 s2,
    nxsem_freeholder cfg_pooled 0 (Prealloc 0) held_pooled = Ret tt s1 ∧
    nxsem_allocholder cfg_pooled 1 s1 = Ret (Some (Prealloc 0)) s2.
Proof.
  pose proof (proj1 (reachable_wf _ _ held_pooled_reachable)) as Hwf.
  assert (He : entries cfg_pooled held_pooled 0 = [] ++ Prealloc 0 :: [])
    by (vm_compute; reflexivity).
  assert (Hk : is_Some (sems held_pooled !! 1%nat))
    by (apply lookup_lt_is_Some; vm_compute; lia).
  split; [reflexivity|]. split; [exact Hwf|]. split; [exact He|].
  split; [exact Hk|].
  destruct (X3_free_then_alloc cfg_pooled held_pooled 0 1 [] 0%nat []
              eq_refl Hwf He Hk) as (s1 & s2 & Hfree & Halloc & _).
  exists s1, s2. split; [exact Hfree|exact Halloc].
Defined.

Lemma X4_allocholder_pops_free_list_witness :
  pooled cfg_pooled = true ∧ store_wf cfg_pooled held_pooled ∧
  is_Some (sems held_pooled !! 1%nat) ∧
  g_freeholders held_pooled = Some 1%nat ∧
  ∃ s', nxsem_allocholder cfg_pooled 1 held_pooled
          = Ret (Some (Prealloc 1)) s' ∧
        entries cfg_pooled s' 1 = Prealloc 1 :: entries cfg_pooled held_pooled 1.
Proof.
  pose proof (proj1 (reachable_wf _ _ held_pooled_reachable)) as Hwf.
  assert (Hk : is_Some (sems held_pooled !! 1%nat))
    by (apply lookup_lt_is_Some; vm_compute; lia).
  assert (Hf : g_freeholders held_pooled = Some 1%nat)
    by (vm_compute; reflexivity).
  split; [reflexivity|]. split; [exact Hwf|]. split; [exact Hk|].
  split; [exact Hf|].
  destruct (X4_allocholder_pops_free_list cfg_pooled held_pooled 1 1%nat
              eq_refl Hwf Hk Hf) as (s' & Hrun & He & _).
  exists s'. split; [exact Hrun|exact He].
Defined.

Lemma X5_allocholder_slot_not_reserved_witness :
  let sm := Sem 0 0 None (SemHolder None (Some 1%nat) 1) zero_holder in
  pooled cfg_builtin = false ∧ sems held_builtin !! 0%nat = Some sm ∧
  (htcb (holder0 sm) = None ∨ htcb (holder1 sm) = None) ∧
  ∃ s1 s2,
    nxsem_allocholder cfg_builtin 0 held_builtin
      = Ret (Some (Builtin 0 1)) s1 ∧
    nxsem_allocholder cfg_builtin 0 s1 = Ret (Some (Builtin 0 1)) s2.
Proof.
  intros sm.
  assert (Hsm : sems held_builtin !! 0%nat = Some sm)
    by (vm_compute; reflexivity).
  assert (Hfree : htcb (holder0 sm) = None ∨ htcb (holder1 sm) = None)
    by (right; reflexivity).
  split; [reflexivity|]. split; [exact Hsm|]. split; [exact Hfree|].
  destruct (X5_allocholder_slot_not_reserved cfg_builtin held_builtin 0 sm
              eq_refl Hsm Hfree)
    as (i & s1 & s2 & Hrun1 & Hi & _ & _ & _ & Hrun2 & _).
  exists s1, s2. rewrite Hi in Hrun1, Hrun2. simpl in Hrun1, Hrun2.
  split; [exact Hrun1|exact Hrun2].
Defined.

Lemma X16_foreachholder_pooled_stops_witness :
  pooled cfg_pooled = true ∧ shape_ok cfg_pooled held_pooled ∧
  entries cfg_pooled held_pooled 0 = [Prealloc 0] ∧
  live held_pooled (Prealloc 0) ∧
  nxsem_foreachholder cfg_pooled 0 (λ _ _ _, ret 1) None held_pooled
    = Ret 1 held_pooled.
Proof.
  pose proof (wf_shape_ok _ _ (reachable_wf _ _ held_pooled_reachable)) as Hshape.
  assert (He : entries cfg_pooled held_pooled 0 = [Prealloc 0])
    by (vm_compute; reflexivity).
  assert (Hlive : live held_pooled (Prealloc 0))
    by (vm_compute; discriminate).
  split; [reflexivity|]. split; [exact Hshape|]. split; [exact He|].
  split; [exact Hlive|].
  apply (X16_foreachholder_pooled_stops cfg_pooled (λ _ _ _, ret 1)
           held_pooled 0 None (Prealloc 0) [] 1 held_pooled
           eq_refl Hshape He Hlive eq_refl).
  discriminate.
Defined.

Lemma X6_add_holder_then_find_witness :
  let sm := Sem 0 0 (Some 0%nat) zero_holder zero_holder in
  wf cfg_pooled held_pooled ∧ sems held_pooled !! 0%nat = Some sm ∧
  ∃ s' p,
    nxsem_add_holder_tcb cfg_pooled (Some 3%nat) 0 held_pooled = Ret tt s' ∧
    nxsem_findholder cfg_pooled 0 (Some 3%nat) s' = Ret (Some p) s' ∧
    entry_counts s' p = 1.
Proof.
  intros sm.
  pose proof (reachable_wf _ _ held_pooled_reachable) as Hwf.
  assert (Hsm : sems held_pooled !! 0%nat = Some sm)
    by (vm_compute; reflexivity).
  split; [exact Hwf|]. split; [exact Hsm|].
  destruct (X6_add_holder_then_find cfg_pooled held_pooled 0 3%nat sm Hwf Hsm)
    as [_ Hadd].
  assert (Hfind : find_entry cfg_pooled held_pooled 0 (Some 3%nat) = None)
    by (vm_compute; reflexivity).
  destruct Hadd as (s' & p & Hrun & _ & Hf & Hc & _).
  - reflexivity.
  - intros [_ [Hfull _]]. vm_compute in Hfull. discriminate Hfull.
  - exists s', p. split; [exact Hrun|]. split; [exact Hf|].
    rewrite Hc, Hfind. reflexivity.
Defined.

Lemma X7_add_then_release_witness :
  let sm := Sem 0 0 (Some 0%nat) zero_holder zero_holder in
  wf cfg_pooled held_pooled ∧ sems held_pooled !! 0%nat = Some sm ∧
  g_running held_pooled = Some 3%nat ∧
  ∃ s1 s2 p,
    nxsem_add_holder cfg_pooled 0 held_pooled = Ret tt s1 ∧
    nxsem_release_holder cfg_pooled 0 s1 = Ret tt s2 ∧
    entry_htcb s2 p = Some 3%nat ∧ entry_counts s2 p = 0.
Proof.
  intros sm.
  pose proof (reachable_wf _ _ held_pooled_reachable) as Hwf.
  assert (Hsm : sems held_pooled !! 0%nat = Some sm)
    by (vm_compute; reflexivity).
  assert (Hr : g_running held_pooled = Some 3%nat) by (vm_compute; reflexivity).
  assert (Hfind : find_entry cfg_pooled held_pooled 0 (Some 3%nat) = None)
    by (vm_compute; reflexivity).
  split; [exact Hwf|]. split; [exact Hsm|]. split; [exact Hr|].
  destruct (X7_add_then_release cfg_pooled held_pooled 0 sm 3%nat Hwf Hsm)
    as (s1 & s2 & p & Hadd & Hrel & _ & Hh & Hc).
  - reflexivity.
  - exact Hr.
  - intros [_ [Hfull _]]. vm_compute in Hfull. discriminate Hfull.
  - rewrite Hfind. unfold INT16_MAX. lia.
  - exists s1, s2, p. split; [exact Hadd|]. split; [exact Hrel|].
    split; [exact Hh|]. rewrite Hc, Hfind. reflexivity.
Defined.

Lemma X8_release_holder_frame_witness :
  wf cfg_pooled held_pooled ∧ is_Some (sems held_pooled !! 0%nat) ∧
  ∃ s', nxsem_release_holder cfg_pooled 0 held_pooled = Ret tt s' ∧
        tcbs s' = tcbs held_pooled.
Proof.
  pose proof (reachable_wf _ _ held_pooled_reachable) as Hwf.
  assert (Hk : is_Some (sems held_pooled !! 0%nat))
    by (apply sem0_valid; vm_compute; reflexivity).
  split; [exact Hwf|]. split; [exact Hk|].
  destruct (X8_release_holder_frame cfg_pooled held_pooled 0 Hwf Hk)
    as (s' & Hrun & Ht & _).
  exists s'. split; [exact Hrun|exact Ht].
Defined.

Lemma X15_findandfreeholder_witness :
  store_wf cfg_pooled released_pooled ∧
  is_Some (sems released_pooled !! 0%nat) ∧
  ∃ s', nxsem_findandfreeholder cfg_pooled 0 (Some 1%nat) released_pooled
          = Ret tt s' ∧
        entry_htcb s' (Prealloc 0) = None.
Proof.
  pose proof (proj1 (reachable_wf _ _ released_pooled_reachable)) as Hwf.
  assert (Hk : is_Some (sems released_pooled !! 0%nat))
    by (apply sem0_valid; vm_compute; reflexivity).
  split; [exact Hwf|]. split; [exact Hk|].
  destruct (X15_findandfreeholder cfg_pooled released_pooled 0 1%nat Hwf Hk)
    as (s' & Hrun & _ & _ & Hpost).
  assert (Hfind : find_entry cfg_pooled released_pooled 0 (Some 1%nat)
                  = Some (Prealloc 0)) by (vm_compute; reflexivity).
  assert (Hc : entry_counts released_pooled (Prealloc 0) <=? 0 = true)
    by (vm_compute; reflexivity).
  rewrite Hfind, Hc in Hpost. destruct Hpost as (Hh & _).
  exists s'. split; [exact Hrun|exact Hh].
Defined.

Lemma X9_nfreeholders_counts_witness :
  store_wf cfg_pooled held_pooled ∧
  nxsem_nfreeholders cfg_pooled held_pooled = Ret 3 held_pooled.
Proof.
  pose proof (proj1 (reachable_wf _ _ held_pooled_reachable)) as Hwf.
  split; [exact Hwf|].
  destruct (X9_nfreeholders_counts cfg_pooled held_pooled Hwf)
    as (n & Hrun & Hn & _).
  destruct (Hn eq_refl) as [-> _]. exact Hrun.
Defined.

Lemma X10_initialize_then_nfreeholders_witness :
  pooled cfg_pooled = true ∧
  length (g_holderalloc boot_pooled) = CONFIG_SEM_PREALLOCHOLDERS cfg_pooled ∧
  ∃ s1, nxsem_initialize_holders cfg_pooled boot_pooled = Ret tt s1 ∧
        nxsem_nfreeholders cfg_pooled s1 = Ret 4 s1.
Proof.
  split; [reflexivity|]. split; [reflexivity|].
  destruct (X10_initialize_then_nfreeholders cfg_pooled boot_pooled
              eq_refl eq_refl) as (s1 & Hinit & Hn).
  exists s1. split; [exact Hinit|exact Hn].
Defined.

Lemma X11_restore_without_nesting_witness :
  nested cfg_builtin = false ∧ shape_ok cfg_builtin raised_builtin ∧
  is_Some (sems raised_builtin !! 0%nat) ∧
  tcbs raised_builtin !! 1%nat = Some (Tcb 30 10 []) ∧
  ∃ s' v',
    nxsem_restoreholderprio cfg_builtin (Some 1%nat) 0 None raised_builtin
      = Ret 0 s' ∧
    tcbs s' !! 1%nat = Some v' ∧ sched_priority v' = 10%N.
Proof.
  assert (Hshape : shape_ok cfg_builtin raised_builtin)
    by (apply not_pooled_shape_ok; reflexivity).
  assert (Hk : is_Some (sems raised_builtin !! 0%nat))
    by (apply sem0_valid; vm_compute; reflexivity).
  assert (Hv : tcbs raised_builtin !! 1%nat = Some (Tcb 30 10 []))
    by (vm_compute; reflexivity).
  split; [reflexivity|]. split; [exact Hshape|]. split; [exact Hk|].
  split; [exact Hv|].
  destruct (X11_restore_without_nesting cfg_builtin raised_builtin 0 1%nat
              (Tcb 30 10 []) None eq_refl Hshape Hk Hv)
    as (s' & v' & Hrun & _ & Hv' & Hs & _).
  exists s', v'. split; [exact Hrun|]. split; [exact Hv'|exact Hs].
Defined.

Lemma X12_restore_stale_handle_witness :
  store_wf cfg_pooled stale_pooled ∧ is_Some (sems stale_pooled !! 0%nat) ∧
  lookup_tcb (Some 1%nat) stale_pooled = None ∧
  ∃ s', nxsem_restoreholderprio cfg_pooled (Some 1%nat) 0 None stale_pooled
          = Ret 0 s' ∧
        entry_htcb s' (Prealloc 0) = None.
Proof.
  pose proof (proj1 (reachable_wf _ _ stale_pooled_reachable)) as Hwf.
  assert (Hk : is_Some (sems stale_pooled !! 0%nat))
    by (apply sem0_valid; vm_compute; reflexivity).
  assert (Hstale : lookup_tcb (Some 1%nat) stale_pooled = None)
    by (vm_compute; reflexivity).
  split; [exact Hwf|]. split; [exact Hk|]. split; [exact Hstale|].
  destruct (X12_restore_stale_handle cfg_pooled stale_pooled 0 (Some 1%nat)
              None Hwf Hk Hstale) as (s' & Hrun & _ & _ & Hpost).
  assert (Hfind : find_entry cfg_pooled stale_pooled 0 (Some 1%nat)
                  = Some (Prealloc 0)) by (vm_compute; reflexivity).
  rewrite Hfind in Hpost. destruct Hpost as (_ & Hh & _).
  exists s'. split; [exact Hrun|exact Hh].
Defined.

Lemma X13_boost_ledger_full_witness :
  let v := Tcb 30 10 [SemBoost 0 20; SemBoost 0 30] in
  nested cfg_pooled = true ∧
  lookup_holder (Prealloc 0) full_ledger_pooled
    = Some (SemHolder None (Some 1%nat) 1) ∧
  tcbs full_ledger_pooled !! 1%nat = Some v ∧
  lookup_tcb (Some 3%nat) full_ledger_pooled = Some (Tcb 30 30 []) ∧
  nxsem_boostholderprio cfg_pooled (Prealloc 0) 0%nat (Some 3%nat)
    full_ledger_pooled
    = Ret 0 (log_event (EvLog (ErrOutOfBoostSlots (Some 1%nat)))
               full_ledger_pooled).
Proof.
  intros v.
  assert (Hl : lookup_holder (Prealloc 0) full_ledger_pooled
               = Some (SemHolder None (Some 1%nat) 1))
    by (vm_compute; reflexivity).
  assert (Hv : tcbs full_ledger_pooled !! 1%nat = Some v)
    by (vm_compute; reflexivity).
  assert (Hr : lookup_tcb (Some 3%nat) full_ledger_pooled = Some (Tcb 30 30 []))
    by (vm_compute; reflexivity).
  split; [reflexivity|]. split; [exact Hl|]. split; [exact Hv|].
  split; [exact Hr|].
  apply (X13_boost_ledger_full cfg_pooled full_ledger_pooled (Prealloc 0)
           0%nat (Some 3%nat) (SemHolder None (Some 1%nat) 1) 1%nat v (Tcb 30 30 [])
           eq_refl Hl eq_refl Hv Hr).
  - simpl. lia.
  - simpl. lia.
Defined.

Lemma X14_boost_then_restore_witness :
  nested cfg_pooled = true ∧ store_wf cfg_pooled held_pooled ∧
  Prealloc 0 ∈ entries cfg_pooled held_pooled 0 ∧
  tcbs held_pooled !! 1%nat = Some (Tcb 10 10 []) ∧
  lookup_tcb (Some 3%nat) held_pooled = Some (Tcb 30 30 []) ∧
  ∃ s1 s2,
    nxsem_boostholderprio cfg_pooled (Prealloc 0) 0%nat (Some 3%nat) held_pooled
      = Ret 0 s1 ∧
    nxsem_restoreholderprio cfg_pooled (Some 1%nat) 0 None s1 = Ret 0 s2 ∧
    tcbs s2 = tcbs held_pooled.
Proof.
  pose proof (proj1 (reachable_wf _ _ held_pooled_reachable)) as Hwf.
  assert (Hin : Prealloc 0 ∈ entries cfg_pooled held_pooled 0).
  { assert (He : entries cfg_pooled held_pooled 0 = [Prealloc 0])
      by (vm_compute; reflexivity).
    rewrite He. apply list_elem_of_singleton. reflexivity. }
  assert (Hv : tcbs held_pooled !! 1%nat = Some (Tcb 10 10 []))
    by (vm_compute; reflexivity).
  assert (Hr : lookup_tcb (Some 3%nat) held_pooled = Some (Tcb 30 30 []))
    by (vm_compute; reflexivity).
  split; [reflexivity|]. split; [exact Hwf|]. split; [exact Hin|].
  split; [exact Hv|]. split; [exact Hr|].
  destruct (X14_boost_then_restore cfg_pooled held_pooled (Prealloc 0)
              0%nat (Some 3%nat) 1%nat (Tcb 10 10 []) (Tcb 30 30 []) None
              eq_refl Hwf Hin)
    as (s1 & s2 & Hboost & _ & Hrestore & Ht & _).
  - vm_compute. reflexivity.
  - vm_compute. discriminate.
  - exact Hv.
  - exact Hr.
  - reflexivity.
  - simpl. lia.
  - simpl. lia.
  - exists s1, s2. split; [exact Hboost|]. split; [exact Hrestore|exact Ht].
Defined.

Lemma X17_restore_baseprio_irq_witness :
  wf cfg_pooled irq_pooled ∧ is_Some (sems irq_pooled !! 0%nat) ∧
  g_irq irq_pooled = true ∧
  ∃ s', nxsem_restore_baseprio cfg_pooled (Some 3%nat) 0 irq_pooled
          = Ret tt s' ∧
        restores_all cfg_pooled irq_pooled 0 s'.
Proof.
  pose proof (reachable_wf _ _ irq_pooled_reachable) as Hwf.
  assert (Hk : is_Some (sems irq_pooled !! 0%nat))
    by (apply sem0_valid; vm_compute; reflexivity).
  split; [exact Hwf|]. split; [exact Hk|]. split; [reflexivity|].
  destruct (X17_restore_baseprio_irq cfg_pooled irq_pooled 0 (Some 3%nat)
              Hwf Hk eq_refl) as (s' & Hrun & _ & _ & Hall).
  exists s'. split; [exact Hrun|]. apply Hall. discriminate.
Defined.

Lemma X18_canceled_witness :
  let sm := Sem 0 0 (Some 0%nat) zero_holder zero_holder in
  wf cfg_pooled held_pooled ∧ sems held_pooled !! 0%nat = Some sm ∧
  ∃ s', nxsem_canceled cfg_pooled (Some 3%nat) 0 held_pooled = Ret tt s' ∧
        wf cfg_pooled s'.
Proof.
  intros sm.
  pose proof (reachable_wf _ _ held_pooled_reachable) as Hwf.
  assert (Hsm : sems held_pooled !! 0%nat = Some sm)
    by (vm_compute; reflexivity).
  split; [exact Hwf|]. split; [exact Hsm|].
  pose proof (X18_canceled cfg_pooled held_pooled 0 (Some 3%nat) sm Hwf Hsm)
    as Hc.
  simpl in Hc. destruct Hc as (s' & Hrun & Hwf' & _).
  exists s'. split; [exact Hrun|exact Hwf'].
Defined.

Lemma X19_ledger_within_bounds_witness :
  reachable cfg_pooled released_pooled ∧
  tcbs released_pooled !! 1%nat = Some (Tcb 30 10 [SemBoost 0 30]) ∧
  (length [SemBoost 0 30] ≤ CONFIG_SEM_NNESTPRIO cfg_pooled)%nat.
Proof.
  assert (Hv : tcbs released_pooled !! 1%nat = Some (Tcb 30 10 [SemBoost 0 30]))
    by (vm_compute; reflexivity).
  split; [exact released_pooled_reachable|]. split; [exact Hv|].
  exact (X19_ledger_within_bounds cfg_pooled released_pooled 1%nat _
           released_pooled_reachable Hv).
Defined.

Lemma X20_priority_follows_ledger_witness :
  boot cfg_pooled boot_pooled ∧
  map_Forall (λ (_ : nat) v0, sched_priority v0 = base_priority v0)
    (tcbs boot_pooled) ∧
  reaches cfg_pooled boot_pooled released_ops released_pooled ∧
  tcbs released_pooled !! 1%nat = Some (Tcb 30 10 [SemBoost 0 30]) ∧
  (10 ≤ 30)%N.
Proof.
  assert (Hv : tcbs released_pooled !! 1%nat = Some (Tcb 30 10 [SemBoost 0 30]))
    by (vm_compute; reflexivity).
  split; [exact boot_pooled_ok|]. split; [exact three_threads_at_base|].
  split; [exact released_pooled_reaches|]. split; [exact Hv|].
  exact (proj1 (X20_priority_follows_ledger cfg_pooled boot_pooled released_ops
                  released_pooled 1%nat _ boot_pooled_ok three_threads_at_base
                  released_pooled_reaches Hv)).
Defined.

Lemma X21_store_calls_keep_threads_witness :
  let s' := state_after cfg_pooled boot_pooled (held_ops ++ [AddHolder 0]) in
  store_call (AddHolder 0) = true ∧
  run_op cfg_pooled (AddHolder 0) held_pooled = Ret tt s' ∧
  tcbs s' = tcbs held_pooled.
Proof.
  intros s'.
  assert (Hrun : run_op cfg_pooled (AddHolder 0) held_pooled = Ret tt s')
    by (vm_compute; reflexivity).
  split; [reflexivity|]. split; [exact Hrun|].
  exact (X21_store_calls_keep_threads cfg_pooled (AddHolder 0) held_pooled s'
           eq_refl Hrun).
Defined.
